(* ===== verification/_CoqProject ===== *)
-Q . S2P
Prelude.v
CStr.v
LibpopH.v
PopBuf.v
PopBufThreads.v
PopMem.v
Boogiepop.v
LinuxExample.v
BoogiepopProps.v
KmodThreads.v
PopMemProps.v
System.v
Netmap.v
PopNetmap.v
Unvme.v
Lba.v
NvRing.v
Packet.v
Options.v
PopMmap.v
TxRing.v
Nmgen.v
BenchNvme.v
Generator.v
Nvgen.v
Store.v
PutPacket.v
Mb.v
Threads.v
Count.v
Mains.v
