(* ===== verification/Prelude.v ===== *)
(** * libpop: a verification development

    ** The program

    libpop lets a program move data between PCI devices (an NVMe disk, a network
    card) without a copy in main memory.  Its parts:

    - kmod/boogiepop.c, a Linux module: an ioctl on /dev/boogiepop takes the
      peer-to-peer memory of a PCI device and publishes it as the character
      device /dev/pop/DOMAIN:BUS:SLOT.FUNC, which can be mapped;
    - lib/libpop.c with include/libpop.h: a pop memory ([pop_mem_init]) is such a
      mapping, or a mapping of huge pages, with its physical address; pages are
      carved off it as pop buffers ([pop_buf_alloc]), whose data window is moved
      by put, trim, pull and push;
    - lib/pop_netmap.c: netmap slots that point at pop buffers, so that the
      network card reads and writes them directly;
    - apps/: traffic generators between NVMe (UNVMe) and netmap (nmgen, nvgen,
      generator, bench-nvme), a program that stores packets on a disk (store) and
      two experiments (put_packet, mb); tools/: pop-ioctl and pop-mmap.

    libpop calls the module through open, ioctl and mmap; pop_netmap and the
    programs call libpop; netmap and UNVMe are separate projects.

    ** Files

    - Prelude.v (this file): machine integers with their wrap-around, the monad
      [M] of C code (state, a result, or divergence, or a [fault] that names the
      undefined behaviour), loops, labelled step sequences, their lemmas and
      tactics ([unwrap], [wrap_lia]).
    - CStr.v: the C library's parsing and printing of numbers and PCI slots.
    - LibpopH.v: the structures of include/libpop.h; [proc], the state of a
      process (its pop memories, buffers, rings, errno and the operating
      system); [Posix], the system calls.
    - PopBuf.v: lib/libpop.c, buffers: [pop_buf_alloc] to [pop_virt_to_phys].
      Theorems: the contract of the allocator on every branch, disjointness of
      all live buffers along any sequence of calls, refinement of an interval by
      the window operations, agreement of the two address translations, and
      where the arithmetic wraps.
    - PopBufThreads.v: [pop_buf_alloc] cut into the steps between which another
      thread can run, as a step relation on any number of threads.  Theorems:
      every interleaving is a sequence of undivided calls (so that the theorems
      of PopBuf.v hold of threads), no update of the page counter is lost and the
      buffers of all threads are disjoint at every point, no interleaving faults
      or deadlocks, and for which sizes each comes to an end.
    - PopMem.v, PopMemProps.v: lib/libpop.c, pop memories: [pop_mem_init],
      [pop_mem_exit], [virt_to_phys], [get_nr_hugepages].  Theorems: every
      path of [pop_mem_init], the pagemap computation, and that the path libpop
      opens is the name the module registers.
    - Boogiepop.v: every entry point of kmod/boogiepop.c over [Kapi], the
      kernel services it calls, whose documented behaviour is [KapiOk];
      LinuxExample.v: an implementation of both; BoogiepopProps.v: the invariant
      of the module along any sequence of events, what registering and
      unregistering do, the bounds of mappings, unloading, and the behaviour
      with devices that are unregistered while open.
    - KmodThreads.v: the ioctls of the module cut into their accesses to shared
      data, as a step relation on any number of processes, since the module takes
      no lock.  [list_add_tail] and [list_del] are entered and left in two steps;
      a step that touches the list while another process is inside one of them is
      a race, behind which nothing is known, and the relation ends there.
      Theorems: registrations at the same time keep the invariant and do not
      fault as long as there is no race, they do race, and an unregistration next
      to another ioctl uses freed memory.
    - System.v: libpop over the module: [PopSystem] says that the system calls
      of [Posix] on /dev/boogiepop and /dev/pop/ are the handlers of Boogiepop.v,
      and an implementation shows that this can hold.  Theorem: a pop memory lies
      over the peer-to-peer memory that the module registered for that device,
      with its physical addresses if the pagemap can be read.
    - Netmap.v: what is used of netmap ([Netmap], [NetmapOk]) and an
      implementation; PopNetmap.v: lib/pop_netmap.c.
    - Packet.v: the packet builders, the checksum of nmgen and that of RFC 1071
      ([ones_sum]), pkt_desc.h, and the copy loop of put_packet.c.
    - Options.v: the option loops of all programs; PopMmap.v: tools/pop-mmap.c,
      with the theorem that what it maps is the part of the device's memory that
      it was asked for.
    - Unvme.v: what is used of UNVMe ([Unvme]) with the history of submitted
      commands ([UnvmeOk]).
    - TxRing.v: how the senders fill a transmit ring, the machine's memory
      ([Ram]), and the world the witnesses of the programs run in ([gen_os]).
    - Nmgen.v: the sender and receiver threads of apps/nmgen.c; Generator.v: the
      thread of apps/generator.c.  Theorems: the setup leaves complete packets, a
      round posts exactly the packets it says and touches no other slot, and for
      which options a thread never faults.
    - Lba.v: the walks over the blocks of a disk and their split among threads
      (nvgen, bench-nvme, generator); BenchNvme.v: the thread of
      apps/bench-nvme.c, every command of which stays in the thread's part.
    - NvRing.v: the ring of apps/nvgen.c, as a refinement of a queue; Nvgen.v:
      the setup of a queue and its two threads as a step relation, whose steps
      interleave, up to the wait for the device after they were cancelled: what
      holds of every state that they reach, what a round does, and where
      sequential mode and full rounds go wrong.
    - Store.v: the write loop of apps/store.c over [Disk], the contents of the
      blocks; PutPacket.v: [phy_addr] and [main] of apps/put_packet.c; Mb.v: the
      copies, the sort and the statistics of apps/mb.c over [Double], the order
      of its samples.  Theorems: what is on the disk and in memory at the end,
      that the two address translations agree, that the sort sorts, and where
      the programs do not terminate or leave their buffers.
    - Threads.v: POSIX threads, signals and netmap ports ([Pthreads], [Ports],
      with their laws), the loops that create and join threads, and [wp], what
      holds when a program returns and why it may not; Mains.v: [main] of nmgen,
      nvgen, generator and bench-nvme.  Theorems: which threads and ports exist when the pop memory
      is given back, on every path, and where the array of threads is overrun.
    - Count.v: the counting threads of nmgen, nvgen, generator and bench-nvme,
      next to threads that change the counters, the clock and the signal between
      any two of their accesses; [Flt], the arithmetic of [double].  Theorems:
      between what bounds each report lies, and that the threads end with the
      signal and have then told the others to stop.

    ** Modelling conventions

    A C integer is a [Z] and every place where the code stores a result in a
    narrower type is written out ([u16], [u32], [u64], [i32]); overflow of a
    signed computation that can happen is the fault [SignedOverflow].  Pointers
    to structures are locations in a map, pointers into mapped memory are
    addresses; dereferencing a pointer that is null, freed or outside its object
    is a [fault].  Which calls of [malloc] fail is part of the state.

    A [while] loop runs for at most [2 ^ 64] rounds ([while_]): no loop of the
    program over machine integers that terminates takes more, and the theorems
    on termination give the number of rounds.  A loop that another thread stops
    (nmgen, generator, bench-nvme) is run for any number of rounds, and the
    theorems quantify over it; the two threads of an nvgen queue make any number
    of steps in any order.  A loop that is shown not to terminate has not
    left after any number of rounds.

    The value of [rand] is an argument.  What is outside of the repository is a
    type class of operations with a class of laws, which the theorems use and an
    instance of which each witness runs on.

    A [main] sees what its threads have done when it joins them; until then it
    reads nothing that they write.  Whether a join returns is not assumed: a
    thread may wait for its device for ever after it was cancelled (Nmgen.v), or
    hang in an allocation, and the theorems on [main] have a case for it
    ([join_stuck]).  What [PthreadsOk] and [PortsOk] say of a join that returns is
    that the thread is gone, and that threads open no ports and create no
    threads.

    ** Not modelled

    Output and logging: of the reports of the counting threads the numbers are
    kept, not the quotients and the text; means and deviations of mb; the pinning
    of threads; the branches of nmgen and nvgen that are compiled without
    LIBNETMAP, which apps/Makefile defines; the programs under test/.  In
    KmodThreads.v the ioctls interleave access by access, while a file operation
    of a pop device and the loading and unloading of the module are one step.

    ** Plan

    Next: the file operations of the module as interleaved steps, next to an
    unregistration; the working threads of nmgen next to the counting thread, so
    that its end, when the device takes its packets, is a theorem about both. *)

From stdpp Require Export base list numbers strings gmap.

Open Scope Z_scope.

(** ** Machine integers *)

(** C's unsigned integers wrap around; a signed [int] is stored in two's
    complement.  A value of a C type is a [Z]; these functions say what is kept
    of a mathematical result when it is stored in that type. *)
Definition u8 (z : Z) : Z := z `mod` 2 ^ 8.
Definition u16 (z : Z) : Z := z `mod` 2 ^ 16.
Definition u32 (z : Z) : Z := z `mod` 2 ^ 32.
Definition u64 (z : Z) : Z := z `mod` 2 ^ 64.
Definition i32 (z : Z) : Z := (z + 2 ^ 31) `mod` 2 ^ 32 - 2 ^ 31.
Definition i64 (z : Z) : Z := (z + 2 ^ 63) `mod` 2 ^ 64 - 2 ^ 63.

Declare Scope cint_scope.
Delimit Scope cint_scope with cint.
Notation "a +64 b" := (u64 (a + b)) (at level 50, left associativity) : cint_scope.
Notation "a -64 b" := (u64 (a - b)) (at level 50, left associativity) : cint_scope.
Notation "a *64 b" := (u64 (a * b)) (at level 40, left associativity) : cint_scope.
Notation "a <<64 b" := (u64 (Z.shiftl a b)) (at level 35, no associativity) : cint_scope.
Notation "a >>64 b" := (Z.shiftr a b) (at level 35, no associativity, only parsing) : cint_scope.
Notation "a +32 b" := (u32 (a + b)) (at level 50, left associativity) : cint_scope.
Notation "a -32 b" := (u32 (a - b)) (at level 50, left associativity) : cint_scope.
Open Scope cint_scope.

Create HintDb cint.
Create Rewrite HintDb cint.

Lemma u8_small z : 0 <= z < 2 ^ 8 -> u8 z = z.
Proof. apply Z.mod_small. Qed.
Lemma u16_small z : 0 <= z < 2 ^ 16 -> u16 z = z.
Proof. apply Z.mod_small. Qed.
Lemma u32_small z : 0 <= z < 2 ^ 32 -> u32 z = z.
Proof. apply Z.mod_small. Qed.
Lemma u64_small z : 0 <= z < 2 ^ 64 -> u64 z = z.
Proof. apply Z.mod_small. Qed.
Lemma i32_small z : - 2 ^ 31 <= z < 2 ^ 31 -> i32 z = z.
Proof. intros H. unfold i32. rewrite Z.mod_small; lia. Qed.
Lemma i64_small z : - 2 ^ 63 <= z < 2 ^ 63 -> i64 z = z.
Proof. intros H. unfold i64. rewrite Z.mod_small; lia. Qed.

Lemma u8_range z : 0 <= u8 z < 2 ^ 8.
Proof. apply Z.mod_pos_bound. lia. Qed.
Lemma u16_range z : 0 <= u16 z < 2 ^ 16.
Proof. apply Z.mod_pos_bound. lia. Qed.
Lemma u32_range z : 0 <= u32 z < 2 ^ 32.
Proof. apply Z.mod_pos_bound. lia. Qed.
Lemma u64_range z : 0 <= u64 z < 2 ^ 64.
Proof. apply Z.mod_pos_bound. lia. Qed.
Lemma i32_range z : - 2 ^ 31 <= i32 z < 2 ^ 31.
Proof. unfold i32. pose proof (Z.mod_pos_bound (z + 2 ^ 31) (2 ^ 32)). lia. Qed.

#[export] Hint Resolve u8_range u16_range u32_range u64_range i32_range : cint.
#[export] Hint Rewrite u8_small u16_small u32_small u64_small i32_small i64_small
  using lia : cint.

Lemma u32_i32 z : u32 (i32 z) = u32 z.
Proof.
  unfold u32, i32. rewrite Zminus_mod_idemp_l. f_equal. lia.
Qed.

(** [wrap_lia] replaces every wrap by its euclidean equations. *)
Ltac wrap_lia :=
  unfold u8, u16, u32, u64, i32, i64 in *;
  Z.to_euclidean_division_equations; lia.

(** [unwrap] removes the wraps of values that fit, innermost first. *)
Ltac unwrap :=
  repeat match goal with
  | |- context [u64 ?z] => rewrite (u64_small z) by lia
  | |- context [u32 ?z] => rewrite (u32_small z) by lia
  | |- context [u16 ?z] => rewrite (u16_small z) by lia
  | |- context [u8 ?z] => rewrite (u8_small z) by lia
  | |- context [i32 ?z] => rewrite (i32_small z) by lia
  | |- context [i64 ?z] => rewrite (i64_small z) by lia
  end.

(** ** Page arithmetic *)

(** [x << 12] and [x >> 12] as multiplication and division, for lia. *)
Lemma shiftl_12 z : Z.shiftl z 12 = z * 4096.
Proof. rewrite Z.shiftl_mul_pow2 by lia. reflexivity. Qed.
Lemma shiftr_12 z : Z.shiftr z 12 = z / 4096.
Proof. rewrite Z.shiftr_div_pow2 by lia. reflexivity. Qed.
#[export] Hint Rewrite shiftl_12 shiftr_12 : cint.

(** Number of pages of 4096 bytes that hold [size] bytes. *)
Definition pages_for (size : Z) : Z := (size + 4095) / 4096.

Lemma pages_for_spec size n :
  pages_for size = n <-> (n - 1) * 4096 < size <= n * 4096.
Proof. unfold pages_for. Z.to_euclidean_division_equations. lia. Qed.

(** ** Outcomes of C code *)

(** What can happen to a C function besides returning: it never returns, or it
    does something the C standard leaves undefined, which the model reports as a
    fault instead of inventing a value. *)
Variant fault : Set :=
  | NullDeref        (* a null pointer is dereferenced *)
  | DanglingPtr      (* a freed or foreign pointer is dereferenced *)
  | OutOfBounds      (* an array is accessed outside its bounds *)
  | UninitRead       (* an indeterminate value is used *)
  | DivByZero
  | SignedOverflow.

#[export] Instance fault_eq_dec : EqDecision fault.
Proof. solve_decision. Defined.

Inductive outcome (A : Type) : Type :=
  | Ret (a : A)
  | Diverge
  | Fault (f : fault).
Arguments Ret {A} a.
Arguments Diverge {A}.
Arguments Fault {A} f.

(** ** The state and outcome monad *)

(** A C function with access to the state [St]. *)
Definition M (St A : Type) : Type := St -> outcome (A * St).

#[export] Instance M_ret {St : Type} : MRet (M St) := fun A a s => Ret (a, s).
#[export] Instance M_bind {St : Type} : MBind (M St) := fun A B k c s =>
  match c s with
  | Ret (a, s') => k a s'
  | Diverge => Diverge
  | Fault f => Fault f
  end.

Definition diverge {St A : Type} : M St A := fun _ => Diverge.
Definition throw {St A : Type} (f : fault) : M St A := fun _ => Fault f.
Definition gets {St A : Type} (f : St -> A) : M St A := fun s => Ret (f s, s).
Definition modify {St : Type} (f : St -> St) : M St () := fun s => Ret ((), f s).

(** A value that must be present: [f] is the fault when it is not. *)
Definition require {St A : Type} (f : fault) (o : option A) : M St A :=
  match o with Some a => mret a | None => throw f end.

(** The result of arithmetic in [int], which must not overflow. *)
Definition c_int {St : Type} (z : Z) : M St Z :=
  if (- 2 ^ 31 <=? z) && (z <? 2 ^ 31) then mret z else throw SignedOverflow.

(** The outcome of a pure computation that may fault. *)
Definition lift {St A : Type} (o : outcome A) : M St A := fun s =>
  match o with Ret a => Ret (a, s) | Diverge => Diverge | Fault f => Fault f end.

Lemma bind_ret {St A B : Type} (c : M St A) (k : A -> M St B) s a s' :
  c s = Ret (a, s') -> (c ≫= k) s = k a s'.
Proof. intros H. unfold mbind, M_bind. by rewrite H. Qed.

Lemma bind_fault {St A B : Type} (c : M St A) (k : A -> M St B) s f :
  c s = Fault f -> (c ≫= k) s = Fault f.
Proof. intros H. unfold mbind, M_bind. by rewrite H. Qed.

Lemma bind_diverge {St A B : Type} (c : M St A) (k : A -> M St B) s :
  c s = Diverge -> (c ≫= k) s = Diverge.
Proof. intros H. unfold mbind, M_bind. by rewrite H. Qed.

Lemma bind_assoc {St A B C : Type} (c : M St A) (k : A -> M St B) (k' : B -> M St C) s :
  ((c ≫= k) ≫= k') s = (c ≫= fun a => k a ≫= k') s.
Proof. unfold mbind, M_bind. by destruct (c s) as [[a s']| |]. Qed.

Lemma bind_ext {St A B : Type} (c : M St A) (k k' : A -> M St B) s :
  (forall a s', k a s' = k' a s') -> (c ≫= k) s = (c ≫= k') s.
Proof. intros H. unfold mbind, M_bind. by destruct (c s) as [[a s']| |]. Qed.

Lemma bind_eq {St A B : Type} (c c' : M St A) (k : A -> M St B) s s' :
  c s = c' s' -> (c ≫= k) s = (c' ≫= k) s'.
Proof. intros H. unfold mbind, M_bind. by rewrite H. Qed.

Lemma bind_Ret_inv {St A B : Type} (c : M St A) (k : A -> M St B) s b s' :
  (c ≫= k) s = Ret (b, s') -> exists a s1, c s = Ret (a, s1) /\ k a s1 = Ret (b, s').
Proof. unfold mbind, M_bind. destruct (c s) as [[a s1]| |]; naive_solver. Qed.

Lemma c_int_ok {St : Type} z (s : St) : - 2 ^ 31 <= z < 2 ^ 31 -> c_int z s = Ret (z, s).
Proof. intros H. unfold c_int. by replace (_ && _) with true by lia. Qed.

Lemma c_int_overflow {St : Type} z (s : St) : ~ - 2 ^ 31 <= z < 2 ^ 31 -> c_int z s = Fault SignedOverflow.
Proof. intros H. unfold c_int. by replace (_ && _) with false by lia. Qed.

(** ** Loops *)

(** A loop body consumes the loop's variables [A] and either goes on with new
    ones or leaves the loop with a result [R]. *)
Fixpoint iter_nat {St A R : Type} (body : A -> M St (A + R)) (n : nat) (a : A) : M St (A + R) :=
  match n with
  | O => mret (inl a)
  | S n' =>
      r ← body a;
      match r with
      | inl a' => iter_nat body n' a'
      | inr x => mret (inr x)
      end
  end.

(** The same iteration with the bound in binary, so that a bound of [2 ^ 64]
    costs nothing when the loop leaves early. *)
Definition then_iter {St A R : Type} (r : A + R) (k : A -> M St (A + R)) : M St (A + R) :=
  match r with inl a => k a | inr x => mret (inr x) end.

Fixpoint iter_pos {St A R : Type} (body : A -> M St (A + R)) (p : positive) (a : A)
    : M St (A + R) :=
  match p with
  | xH => body a
  | xO p' => r ← iter_pos body p' a; then_iter r (iter_pos body p')
  | xI p' =>
      r ← body a;
      then_iter r (fun a' => r' ← iter_pos body p' a'; then_iter r' (iter_pos body p'))
  end.

(** A [while] loop, run for at most [2 ^ 64] rounds.  A loop that has not left
    by then is reported as [Diverge]; the lemmas on a loop that does not
    terminate hold for every number of rounds ([iter_nat]). *)
Definition loop_fuel : positive := 2 ^ 64.

Definition while_ {St A R : Type} (body : A -> M St (A + R)) (a : A) : M St R :=
  r ← iter_pos body loop_fuel a;
  match r with inl _ => diverge | inr x => mret x end.
Arguments while_ : simpl never.

Lemma loop_fuel_le n : Z.of_nat n <= 2 ^ 64 -> (n <= Pos.to_nat loop_fuel)%nat.
Proof. intros H. apply Nat2Z.inj_le. rewrite positive_nat_Z. exact H. Qed.

Lemma iter_nat_add {St A R : Type} (body : A -> M St (A + R)) n m a s :
  iter_nat body (n + m) a s = (r ← iter_nat body n a; then_iter r (iter_nat body m)) s.
Proof.
  revert a s. induction n as [|n IH]; intros a s; [done|]. simpl.
  unfold mbind, M_bind in *. destruct (body a s) as [[[a'|x] s']| |]; try done.
Qed.

Lemma iter_pos_nat {St A R : Type} (body : A -> M St (A + R)) p a s :
  iter_pos body p a s = iter_nat body (Pos.to_nat p) a s.
Proof.
  revert a s. induction p as [p IH|p IH|]; intros a s.
  - rewrite Pos2Nat.inj_xI.
    replace (2 * Pos.to_nat p)%nat with (Pos.to_nat p + Pos.to_nat p)%nat by lia.
    change (iter_nat body (S (Pos.to_nat p + Pos.to_nat p)) a s) with
      ((r ← body a; then_iter r (iter_nat body (Pos.to_nat p + Pos.to_nat p))) s).
    simpl. unfold mbind, M_bind. destruct (body a s) as [[[a'|x] s']| |]; try done.
    simpl. rewrite iter_nat_add. unfold mbind, M_bind. rewrite IH.
    destruct (iter_nat body _ a' s') as [[[b|x] s2]| |]; simpl; auto.
  - rewrite Pos2Nat.inj_xO.
    replace (2 * Pos.to_nat p)%nat with (Pos.to_nat p + Pos.to_nat p)%nat by lia.
    rewrite iter_nat_add. simpl. unfold mbind, M_bind. rewrite IH.
    destruct (iter_nat body _ a s) as [[[b|x] s2]| |]; simpl; auto.
  - simpl. unfold mbind, M_bind. by destruct (body a s) as [[[a'|x] s']| |].
Qed.

(** The first round. *)
Lemma iter_nat_inl {St A R : Type} (body : A -> M St (A + R)) n a s a' s' :
  body a s = Ret (inl a', s') -> iter_nat body (S n) a s = iter_nat body n a' s'.
Proof. intros H. simpl. by rewrite (bind_ret _ _ _ _ _ H). Qed.

Lemma iter_nat_inr {St A R : Type} (body : A -> M St (A + R)) n a s x s' :
  body a s = Ret (inr x, s') -> iter_nat body (S n) a s = Ret (inr x, s').
Proof. intros H. simpl. by rewrite (bind_ret _ _ _ _ _ H). Qed.

(** A loop that leaves within [n] rounds returns what it left with. *)
Lemma while_exit {St A R : Type} (body : A -> M St (A + R)) n a s x s' :
  iter_nat body n a s = Ret (inr x, s') -> (n <= Pos.to_nat loop_fuel)%nat ->
  while_ body a s = Ret (x, s').
Proof.
  intros H Hn. unfold while_.
  assert (iter_pos body loop_fuel a s = Ret (inr x, s')) as E.
  { rewrite iter_pos_nat.
    replace (Pos.to_nat loop_fuel) with (n + (Pos.to_nat loop_fuel - n))%nat by lia.
    rewrite iter_nat_add. by rewrite (bind_ret _ _ _ _ _ H). }
  by rewrite (bind_ret _ _ _ _ _ E).
Qed.

Lemma while_stuck {St A R : Type} (body : A -> M St (A + R)) a s a' s' :
  iter_nat body (Pos.to_nat loop_fuel) a s = Ret (inl a', s') -> while_ body a s = Diverge.
Proof.
  intros E. unfold while_. rewrite <- iter_pos_nat in E. by rewrite (bind_ret _ _ _ _ _ E).
Qed.

Lemma while_spin {St A R : Type} (body : A -> M St (A + R)) a s :
  (forall n, exists a' s', iter_nat body n a s = Ret (inl a', s')) ->
  while_ body a s = Diverge.
Proof.
  intros H. destruct (H (Pos.to_nat loop_fuel)) as (a' & s' & E). by eapply while_stuck.
Qed.

Lemma while_fault {St A R : Type} (body : A -> M St (A + R)) a s e :
  body a s = Fault e -> while_ body a s = Fault e.
Proof.
  intros E. unfold while_. apply bind_fault. rewrite iter_pos_nat.
  destruct (Pos2Nat.is_succ loop_fuel) as [n ->]. simpl. by apply bind_fault.
Qed.

(** [for (i = ...)] over a known range. *)
Fixpoint for_each {St I A : Type} (l : list I) (body : I -> A -> M St A) (a : A) : M St A :=
  match l with
  | [] => mret a
  | i :: l' => a' ← body i a; for_each l' body a'
  end.

Lemma for_each_app {St I A : Type} (l1 l2 : list I) (body : I -> A -> M St A) a s :
  for_each (l1 ++ l2) body a s = (a' ← for_each l1 body a; for_each l2 body a') s.
Proof.
  revert a s. induction l1 as [|i l1 IH]; intros a s; [done|].
  simpl. unfold mbind, M_bind in *. destruct (body i a s) as [[a' s']| |]; auto.
Qed.

(** An invariant of every round, indexed by what is still to do. *)
Lemma for_each_inv {St I A : Type} (P : list I -> A -> St -> Prop) (body : I -> A -> M St A)
    (l : list I) a s :
  P l a s ->
  (forall i l' a s, P (i :: l') a s -> exists a' s', body i a s = Ret (a', s') /\ P l' a' s') ->
  exists a' s', for_each l body a s = Ret (a', s') /\ P [] a' s'.
Proof.
  intros HP Hstep. revert a s HP. induction l as [|i l IH]; intros a s HP.
  - by exists a, s.
  - destruct (Hstep _ _ _ _ HP) as (a1 & s1 & E & HP1).
    destruct (IH _ _ HP1) as (a2 & s2 & E2 & HP2).
    exists a2, s2. split; [|done]. simpl. by rewrite (bind_ret _ _ _ _ _ E).
Qed.

(** ** Reachability *)

(** Reflexive-transitive closure of a labelled step, with the labels. *)
Inductive steps {St L : Type} (step : St -> L -> St -> Prop) : St -> list L -> St -> Prop :=
  | steps_nil s : steps step s [] s
  | steps_snoc s ls s1 l s2 :
      steps step s ls s1 -> step s1 l s2 -> steps step s (ls ++ [l]) s2.

Lemma steps_invariant {St L : Type} (step : St -> L -> St -> Prop) (P : St -> Prop) s ls s' :
  (forall s1 l s2, P s1 -> step s1 l s2 -> P s2) ->
  P s -> steps step s ls s' -> P s'.
Proof. intros Hp H0. induction 1; eauto. Qed.

Lemma steps_app {St L : Type} (step : St -> L -> St -> Prop) s es s1 es' s2 :
  steps step s es s1 -> steps step s1 es' s2 -> steps step s (es ++ es') s2.
Proof.
  intros Hs Ht. induction Ht as [|s1 es' s2 e s3 _ IH Hstep]; [by rewrite app_nil_r|].
  rewrite app_assoc. eapply steps_snoc; [exact (IH Hs)|exact Hstep].
Qed.

(** ** Bit operations used as flags and masks *)

Lemma land_ones_mod z n : 0 <= n -> Z.land z (2 ^ n - 1) = z `mod` 2 ^ n.
Proof. intros H. rewrite <- Z.land_ones by done. f_equal. rewrite Z.ones_equiv. lia. Qed.

(** ** Lists *)

Lemma filter_keep {A : Type} (P : A -> Prop) `{forall x, Decision (P x)} (l : list A) :
  Forall P l -> filter P l = l.
Proof. induction 1; [done|]. rewrite filter_cons_True by done. by f_equal. Qed.

(** ** Bytes *)

(** The number a list of bytes stands for, least or most significant first. *)
Definition le_val (l : list Z) : Z := foldr (fun b v => b + 256 * v) 0 l.
Definition be_val (l : list Z) : Z := foldl (fun v b => 256 * v + b) 0 l.
