(* ===== verification/CStr.v ===== *)
(** * C strings: the parts of the C library the program parses and prints with

    [atoi], [strncpy], [strncmp] with 0, [sscanf] with [%x] and [%lx] fields,
    and [snprintf] with zero-padded [%x] fields, as lib/libpop.c,
    kmod/boogiepop.c and the programs under apps/ and tools/ call them.  A C
    string is the list of its characters before the terminating NUL; a character
    array whose bytes may still be indeterminate is a [cbuf].  The library
    functions are the language's, so this file has no counterpart under src/;
    its lemmas carry the print/parse round trip of a PCI slot. *)

From S2P Require Import Prelude.
From Stdlib Require Export Ascii.

Definition cstr : Type := list ascii.
Definition cbuf : Type := list (option ascii).

(** A string literal. *)
Definition lit (s : string) : cstr := String.list_ascii_of_string s.

Definition code (c : ascii) : Z := Z.of_N (N_of_ascii c).
Definition chr (z : Z) : ascii := ascii_of_N (Z.to_N z).

Definition isspace (c : ascii) : bool :=
  (code c =? 32) || ((9 <=? code c) && (code c <=? 13)).
Definition isdigit (c : ascii) : bool := (48 <=? code c) && (code c <=? 57).

(** The value of a hexadecimal digit. *)
Definition xdigit (c : ascii) : option Z :=
  let z := code c in
  if (48 <=? z) && (z <=? 57) then Some (z - 48)
  else if (97 <=? z) && (z <=? 102) then Some (z - 87)
  else if (65 <=? z) && (z <=? 70) then Some (z - 55)
  else None.

(** ** [atoi] *)

(** [atoi] is [(int) strtol(s, NULL, 10)].  It reads the array from its start:
    an indeterminate byte or the end of the array before the number ends is a
    fault. *)
Fixpoint atoi_digits (b : cbuf) (acc : Z) : outcome Z :=
  match b with
  | [] => Fault OutOfBounds
  | None :: _ => Fault UninitRead
  | Some c :: b' =>
      if isdigit c then atoi_digits b' (acc * 10 + (code c - 48)) else Ret acc
  end.

Definition atoi_signed (b : cbuf) : outcome Z :=
  match b with
  | Some c :: b' =>
      if code c =? 45 then
        match atoi_digits b' 0 with Ret v => Ret (- v) | r => r end
      else if code c =? 43 then atoi_digits b' 0
      else atoi_digits b 0
  | _ => atoi_digits b 0
  end.

Fixpoint atoi_skip (b : cbuf) : outcome Z :=
  match b with
  | Some c :: b' => if isspace c then atoi_skip b' else atoi_signed b
  | _ => atoi_signed b
  end.

Definition clamp_long (v : Z) : Z := Z.max (- 2 ^ 63) (Z.min (2 ^ 63 - 1) v).

Definition atoi_buf (b : cbuf) : outcome Z :=
  match atoi_skip b with Ret v => Ret (i32 (clamp_long v)) | r => r end.

(** The array that holds a string. *)
Definition buf_of (s : cstr) : cbuf := (Some <$> s) ++ [Some (chr 0)].

(** [atoi] of a NUL-terminated string always returns. *)
Definition atoi (s : cstr) : Z :=
  match atoi_buf (buf_of s) with Ret v => v | _ => 0 end.

(** ** [strncpy] and [strncmp] *)

(** The characters [strncpy(dst, s, n)] leaves in [dst] before any NUL; with
    [n] characters or more the result is not terminated. *)
Definition strncpy (s : cstr) (n : nat) : cstr := take n s.

(** [strncmp(s, t, n) == 0]. *)
Definition strncmp_eq (s t : cstr) (n : nat) : bool :=
  bool_decide (take n (s ++ [chr 0]) = take n (t ++ [chr 0])).

(** ** [sscanf] with hexadecimal fields *)

Fixpoint skip_space (s : cstr) : cstr :=
  match s with
  | c :: s' => if isspace c then skip_space s' else s
  | [] => []
  end.

(** The longest run of hexadecimal digits. *)
Fixpoint scan_xdigits (s : cstr) (acc : Z) : Z * cstr :=
  match s with
  | c :: s' =>
      match xdigit c with
      | Some d => scan_xdigits s' (acc * 16 + d)
      | None => (acc, s)
      end
  | [] => (acc, [])
  end.

(** Digits with an optional [0x]; a prefix without a digit after it does not
    match. *)
Definition scan_unsigned (s : cstr) : option (Z * cstr) :=
  match s with
  | c0 :: c1 :: s' =>
      if (code c0 =? 48) && ((code c1 =? 120) || (code c1 =? 88)) then
        match s' with
        | c :: _ => if xdigit c is Some _ then Some (scan_xdigits s' 0) else None
        | [] => None
        end
      else if xdigit c0 is Some _ then Some (scan_xdigits s 0) else None
  | [c0] => if xdigit c0 is Some _ then Some (scan_xdigits s 0) else None
  | [] => None
  end.

(** [%lx]: blanks, a sign, digits; [strtoul] clamps at [2 ^ 64 - 1]. *)
Definition scan_lx (s : cstr) : option (Z * cstr) :=
  match skip_space s with
  | c :: s' =>
      if code c =? 45 then
        match scan_unsigned s' with
        | Some (v, r) => Some (if v <? 2 ^ 64 then u64 (- v) else 2 ^ 64 - 1, r)
        | None => None
        end
      else
        match scan_unsigned (if code c =? 43 then s' else c :: s') with
        | Some (v, r) => Some (Z.min v (2 ^ 64 - 1), r)
        | None => None
        end
  | [] => None
  end.

(** [%x]: the low 32 bits of the same. *)
Definition scan_x (s : cstr) : option (Z * cstr) :=
  match scan_lx s with Some (v, r) => Some (u32 v, r) | None => None end.

(** A format of [%x] fields with a literal character between two of them; the
    result lists the fields that were converted. *)
Fixpoint sscanf_x (seps : list ascii) (s : cstr) : list Z :=
  match scan_x s with
  | None => []
  | Some (v, rest) =>
      match seps, rest with
      | c :: seps', c' :: rest' =>
          if bool_decide (c = c') then v :: sscanf_x seps' rest' else [v]
      | _, _ => [v]
      end
  end.

(** The format ["0x%lx"]: the literal prefix, then one field. *)
Definition sscanf_0xlx (s : cstr) : option Z :=
  match s with
  | c0 :: c1 :: s' =>
      if (code c0 =? 48) && (code c1 =? 120) then fst <$> scan_lx s' else None
  | _ => None
  end.

(** ** [snprintf] with hexadecimal fields *)

Definition xchar (d : Z) : ascii := chr (if d <? 10 then 48 + d else 87 + d).

(** Exactly [n] digits, the most significant first. *)
Fixpoint hex_nibbles (n : nat) (z : Z) : cstr :=
  match n with
  | O => []
  | S n' => hex_nibbles n' (z / 16) ++ [xchar (z `mod` 16)]
  end.

Definition ndigits (z : Z) : nat := Z.to_nat (Z.log2 z / 4 + 1).

(** [%0<w>x] of an [unsigned int]. *)
Definition fmt_x (w : nat) (z : Z) : cstr := hex_nibbles (Nat.max w (ndigits z)) z.

(** [snprintf(dst, n, ...)]: what is kept of the formatted text. *)
Definition snprintf (n : nat) (s : cstr) : cstr := take (n - 1) s.

(** ** Print and parse *)

Lemma xdigit_xchar d : 0 <= d < 16 -> xdigit (xchar d) = Some d.
Proof.
  intros H.
  assert (d ∈ seqZ 0 16) as Hd by (apply elem_of_seqZ; lia).
  revert d Hd H. apply (Forall_forall (fun d => 0 <= d < 16 -> xdigit (xchar d) = Some d)).
  by repeat constructor.
Qed.

Lemma xdigit_code c d :
  xdigit c = Some d -> 48 <= code c <= 102 /\ code c <> 88 /\ isspace c = false.
Proof.
  unfold xdigit, isspace. intros H.
  assert (48 <= code c <= 102 /\ code c <> 88) by (repeat case_match; naive_solver lia).
  split_and!; [lia..|]. apply orb_false_intro; lia.
Qed.

Lemma scan_xdigits_hex n z acc rest :
  0 <= z < 16 ^ Z.of_nat n ->
  scan_xdigits (hex_nibbles n z ++ rest) acc
  = scan_xdigits rest (acc * 16 ^ Z.of_nat n + z).
Proof.
  revert z acc rest. induction n as [|n IH]; intros z acc rest Hz.
  - simpl. f_equal. lia.
  - rewrite Nat2Z.inj_succ, Z.pow_succ_r in * by lia.
    cbn [hex_nibbles]. rewrite <- app_assoc, IH by (Z.to_euclidean_division_equations; lia).
    simpl. rewrite xdigit_xchar by (apply Z.mod_pos_bound; lia).
    f_equal. pose proof (Z.div_mod z 16). lia.
Qed.

(** The digits begin with a digit, and no [x] follows the first one. *)
Lemma hex_nibbles_head n z :
  0 <= z -> exists c d l, hex_nibbles (S n) z = c :: l /\ xdigit c = Some d
    /\ Forall (fun c => is_Some (xdigit c)) l.
Proof.
  revert z. induction n as [|n IH]; intros z Hz.
  - exists (xchar (z `mod` 16)), (z `mod` 16), [].
    split_and!; [done| |done]. apply xdigit_xchar, Z.mod_pos_bound; lia.
  - destruct (IH (z / 16)) as (c & d & l & E & Hc & Hl); [apply Z.div_pos; lia|].
    exists c, d, (l ++ [xchar (z `mod` 16)]).
    change (hex_nibbles (S (S n)) z) with (hex_nibbles (S n) (z / 16) ++ [xchar (z `mod` 16)]).
    rewrite E. split_and!; [done|done|]. apply Forall_app; split; [done|].
    constructor; [|done]. eexists. apply xdigit_xchar, Z.mod_pos_bound; lia.
Qed.

(** A character that may stand behind a field: neither a digit nor an [x]. *)
Definition ends_field (s : cstr) : bool :=
  match s with
  | c :: _ => if xdigit c is Some _ then false else negb ((code c =? 120) || (code c =? 88))
  | [] => true
  end.

Lemma scan_unsigned_hex n z rest :
  (0 < n)%nat -> 0 <= z < 16 ^ Z.of_nat n -> ends_field rest = true ->
  scan_unsigned (hex_nibbles n z ++ rest) = Some (z, rest).
Proof.
  intros Hn Hz Hr. destruct n as [|n]; [lia|].
  assert (scan_xdigits (hex_nibbles (S n) z ++ rest) 0 = (z, rest)) as E.
  { rewrite scan_xdigits_hex by done. replace (0 * _ + z) with z by lia.
    destruct rest as [|c r]; simpl in *; [done|]. by destruct (xdigit c). }
  destruct (hex_nibbles_head n z) as (c & d & l & El & Hc & Hl); [lia|].
  rewrite El in *. rewrite <- app_comm_cons in *. revert E.
  unfold scan_unsigned. rewrite Hc. destruct (l ++ rest) as [|c1 r1] eqn:Elr; [by intros ->|].
  assert ((code c1 =? 120) || (code c1 =? 88) = false) as ->.
  { destruct l as [|c2 l].
    - simpl in Elr. subst rest. simpl in Hr. destruct (xdigit c1); [done|].
      by apply negb_true_iff.
    - simpl in Elr. injection Elr as -> _. inversion_clear Hl as [|? ? [d1 Hd1] _].
      apply xdigit_code in Hd1. apply orb_false_intro; lia. }
  rewrite andb_false_r. by intros ->.
Qed.

Lemma ndigits_bound z : 0 <= z -> z < 16 ^ Z.of_nat (ndigits z).
Proof.
  intros Hz. unfold ndigits. pose proof (Z.log2_nonneg z).
  rewrite Z2Nat.id by (Z.to_euclidean_division_equations; lia).
  destruct (decide (z = 0)) as [->|]; [done|].
  change 16 with (2 ^ 4) at 1. rewrite <- Z.pow_mul_r by (Z.to_euclidean_division_equations; lia).
  eapply Z.lt_le_trans; [apply Z.log2_spec; lia|].
  apply Z.pow_le_mono_r; Z.to_euclidean_division_equations; lia.
Qed.

(** A printed field is read back. *)
Lemma scan_x_fmt w z rest :
  0 <= z < 2 ^ 32 -> ends_field rest = true ->
  scan_x (fmt_x w z ++ rest) = Some (z, rest).
Proof.
  intros Hz Hr. unfold fmt_x. set (n := Nat.max w (ndigits z)).
  assert (0 < n)%nat as Hn by (unfold n, ndigits; pose proof (Z.log2_nonneg z);
    Z.to_euclidean_division_equations; lia).
  assert (0 <= z < 16 ^ Z.of_nat n) as Hb.
  { pose proof (ndigits_bound z). split; [lia|]. eapply Z.lt_le_trans; [apply H; lia|].
    apply Z.pow_le_mono_r; lia. }
  pose proof (scan_unsigned_hex n z rest Hn Hb Hr) as E.
  destruct n as [|n]; [lia|]. destruct (hex_nibbles_head n z) as (c & d & l & El & Hc & _); [lia|].
  rewrite El in *. rewrite <- app_comm_cons in *.
  apply xdigit_code in Hc as (Hc & _ & Hs). unfold scan_x, scan_lx. cbn [skip_space]. rewrite Hs.
  replace (code c =? 45) with false by lia. replace (code c =? 43) with false by lia.
  rewrite E. rewrite Z.min_l by lia. by rewrite u32_small.
Qed.

(** A PCI slot: [DOMAIN:BUS:SLOT.FUNC]. *)
Definition pci_seps : list ascii := lit "::.".

(** [%04x:%02x:%02x.%x]. *)
Definition fmt_pci (d b s f : Z) : cstr :=
  fmt_x 4 d ++ lit ":" ++ fmt_x 2 b ++ lit ":" ++ fmt_x 2 s ++ lit "." ++ fmt_x 1 f.

Lemma sscanf_fmt_pci d b s f :
  0 <= d < 2 ^ 32 -> 0 <= b < 2 ^ 32 -> 0 <= s < 2 ^ 32 -> 0 <= f < 2 ^ 32 ->
  sscanf_x pci_seps (fmt_pci d b s f) = [d; b; s; f].
Proof.
  intros Hd Hb Hs Hf. unfold fmt_pci, pci_seps. cbn [sscanf_x lit String.list_ascii_of_string].
  rewrite scan_x_fmt by done. cbn. rewrite scan_x_fmt by done. cbn.
  rewrite scan_x_fmt by done. cbn.
  rewrite <- (app_nil_r (fmt_x 1 f)), scan_x_fmt by done. done.
Qed.

Lemma length_hex_nibbles n z : length (hex_nibbles n z) = n.
Proof. revert z. induction n as [|n IH]; intros z; [done|]. simpl. rewrite length_app, IH. simpl. lia. Qed.

Lemma ndigits_le z n : 0 <= z < 16 ^ Z.of_nat n -> (0 < n)%nat -> (ndigits z <= n)%nat.
Proof.
  intros Hz Hn. unfold ndigits. destruct (decide (z = 0)) as [->|]; [by change (1 <= n)%nat|].
  assert (Z.log2 z < 4 * Z.of_nat n).
  { apply Z.log2_lt_pow2; [lia|]. rewrite Z.pow_mul_r by lia. change (2 ^ 4) with 16. lia. }
  pose proof (Z.log2_nonneg z). Z.to_euclidean_division_equations. lia.
Qed.

(** A slot of a PCI bus prints in twelve characters. *)
Lemma length_fmt_pci d b s f :
  0 <= d < 2 ^ 16 -> 0 <= b < 2 ^ 8 -> 0 <= s < 2 ^ 8 -> 0 <= f < 2 ^ 4 ->
  length (fmt_pci d b s f) = 12%nat.
Proof.
  intros Hd Hb Hs Hf. unfold fmt_pci, fmt_x. rewrite !length_app, !length_hex_nibbles.
  pose proof (ndigits_le d 4). pose proof (ndigits_le b 2). pose proof (ndigits_le s 2).
  pose proof (ndigits_le f 1).
  change (16 ^ Z.of_nat 4) with (2 ^ 16) in *. change (16 ^ Z.of_nat 2) with (2 ^ 8) in *.
  change (16 ^ Z.of_nat 1) with (2 ^ 4) in *.
  rewrite !Nat.max_l by lia. reflexivity.
Qed.
