(* ===== verification/LibpopH.v ===== *)
(** * include/libpop.h: the data of the library and the state of a process

    The structures of include/libpop.h, the ioctl commands shared with the
    kernel module, and the state a process that uses libpop runs in: the
    structures [malloc] has handed out, [errno], and the operating system behind
    an interface ([Posix]) that lib/libpop.c calls and that kmod/boogiepop.c
    implements a part of.  The layout of a netmap ring is netmap's; only the
    fields the sources of libpop touch are here. *)

From S2P Require Import Prelude CStr.

(** ** Structures of include/libpop.h *)

(** [struct pop_p2pmem_reg]: the argument of the two ioctl commands. *)
Record pop_p2pmem_reg : Type := Reg {
  domain : Z; bus : Z; slot : Z; func : Z;   (* int *)
  reg_size : Z                               (* size_t *)
}.

#[export] Instance pop_p2pmem_reg_eq_dec : EqDecision pop_p2pmem_reg.
Proof. solve_decision. Defined.

(** [_IOW('i', nr, struct pop_p2pmem_reg)]: direction 1, 24 bytes, type ['i']. *)
Definition IOW_i (nr : Z) : Z :=
  Z.lor (Z.lor (Z.shiftl 1 30) (Z.shiftl 24 16)) (Z.lor (Z.shiftl 105 8) nr).
Definition POP_P2PMEM_REG : Z := IOW_i 1.
Definition POP_P2PMEM_UNREG : Z := IOW_i 2.

Definition POP_PCI_DEVNAME_MAX : nat := 16.

(** An object of the process, [NULL] being [None] where a pointer may be null. *)
Definition loc : Type := positive.

(** [pop_mem_t]; [m_mutex] says whether the mutex is held. *)
Record pop_mem : Type := PopMem {
  m_fd : Z;
  m_devname : cstr;
  m_reg : pop_p2pmem_reg;
  m_mem : Z;                (* void *: address of the mapped region *)
  m_paddr : Z;              (* uintptr_t *)
  m_size : Z; m_num_pages : Z; m_alloced_pages : Z;   (* size_t *)
  m_mutex : bool
}.

(** [pop_buf_t]. *)
Record pop_buf : Type := PopBuf {
  b_mem : loc;
  b_vaddr : Z;
  b_paddr : Z;
  b_size : Z; b_offset : Z; b_length : Z              (* size_t *)
}.

(** [struct pop_nm_rxring]. *)
Record pop_nm_rxring : Type := RxRing {
  rx_pbuf : loc;
  rx_ring : loc
}.

(** ** netmap's shared structures, as far as libpop touches them *)

Record netmap_slot : Type := NmSlot {
  s_len : Z;       (* uint16_t *)
  s_flags : Z;     (* uint16_t *)
  s_ptr : Z        (* uint64_t *)
}.

Record netmap_ring : Type := NmRing {
  r_num_slots : Z;        (* uint32_t *)
  r_nr_buf_size : Z;      (* uint32_t *)
  r_head : Z; r_cur : Z; r_tail : Z;   (* uint32_t *)
  r_slot : list netmap_slot
}.

(** ** The process *)

Record proc {W : Type} : Type := Proc {
  p_mems : gmap loc pop_mem;
  p_bufs : gmap loc pop_buf;
  p_rxrings : gmap loc pop_nm_rxring;
  p_rings : gmap loc netmap_ring;
  p_next : loc;             (* the next object malloc hands out *)
  p_oom : list bool;        (* which of the next calls of malloc fail *)
  p_errno : Z;
  p_verbose : Z;            (* libpop_verbose *)
  p_os : W                  (* the operating system *)
}.
Arguments proc : clear implicits.
Arguments Proc {W}.

Section setters.
Context {W : Type}.
Implicit Type s : proc W.

Definition with_mems x s : proc W :=
  Proc x (p_bufs s) (p_rxrings s) (p_rings s) (p_next s) (p_oom s) (p_errno s) (p_verbose s) (p_os s).
Definition with_bufs x s : proc W :=
  Proc (p_mems s) x (p_rxrings s) (p_rings s) (p_next s) (p_oom s) (p_errno s) (p_verbose s) (p_os s).
Definition with_rxrings x s : proc W :=
  Proc (p_mems s) (p_bufs s) x (p_rings s) (p_next s) (p_oom s) (p_errno s) (p_verbose s) (p_os s).
Definition with_rings x s : proc W :=
  Proc (p_mems s) (p_bufs s) (p_rxrings s) x (p_next s) (p_oom s) (p_errno s) (p_verbose s) (p_os s).
Definition with_alloc n o s : proc W :=
  Proc (p_mems s) (p_bufs s) (p_rxrings s) (p_rings s) n o (p_errno s) (p_verbose s) (p_os s).
Definition with_errno x s : proc W :=
  Proc (p_mems s) (p_bufs s) (p_rxrings s) (p_rings s) (p_next s) (p_oom s) x (p_verbose s) (p_os s).
Definition with_verbose x s : proc W :=
  Proc (p_mems s) (p_bufs s) (p_rxrings s) (p_rings s) (p_next s) (p_oom s) (p_errno s) x (p_os s).
Definition with_os x s : proc W :=
  Proc (p_mems s) (p_bufs s) (p_rxrings s) (p_rings s) (p_next s) (p_oom s) (p_errno s) (p_verbose s) x.

(** [malloc]: a fresh object or [NULL].  Which calls fail is part of the state,
    so a statement about every state covers every pattern of failures. *)
Definition malloc : M (proc W) (option loc) := fun s =>
  match p_oom s with
  | true :: o => Ret (None, with_errno 12 (with_alloc (p_next s) o s))
  | _ => Ret (Some (p_next s), with_alloc (Pos.succ (p_next s)) (tail (p_oom s)) s)
  end.

(** Dereferencing: an object that was freed or never allocated is a fault. *)
Definition load_mem (l : loc) : M (proc W) pop_mem :=
  o ← gets (fun s => p_mems s !! l); require DanglingPtr o.
Definition store_mem (l : loc) (m : pop_mem) : M (proc W) () :=
  modify (fun s => with_mems (<[l:=m]> (p_mems s)) s).
Definition free_mem (l : loc) : M (proc W) () :=
  modify (fun s => with_mems (delete l (p_mems s)) s).

Definition load_buf (l : loc) : M (proc W) pop_buf :=
  o ← gets (fun s => p_bufs s !! l); require DanglingPtr o.
Definition store_buf (l : loc) (b : pop_buf) : M (proc W) () :=
  modify (fun s => with_bufs (<[l:=b]> (p_bufs s)) s).
Definition free_buf (l : loc) : M (proc W) () :=
  modify (fun s => with_bufs (delete l (p_bufs s)) s).

Definition set_errno (e : Z) : M (proc W) () := modify (with_errno e).
End setters.

(** ** The operating system *)

(** System calls at the kernel's interface: a negative result is [-errno].  The
    state [W] of the operating system is whatever the implementation needs. *)
Class Posix (W : Type) : Type := {
  sys_open : cstr -> W -> Z * W;
  sys_close : Z -> W -> Z * W;
  sys_read : Z -> nat -> W -> (Z * list ascii) * W;     (* result and bytes read *)
  sys_lseek : Z -> Z -> W -> Z * W;
  sys_ioctl : Z -> Z -> pop_p2pmem_reg -> W -> (Z * pop_p2pmem_reg) * W;
  sys_mmap : Z -> Z -> Z -> Z -> W -> Z * W;            (* length, flags, fd, offset: address *)
  sys_pagesize : Z                                      (* sysconf(_SC_PAGESIZE) *)
}.

Section libc.
Context {W : Type} `{Posix W}.

(** The C library's wrapper: a negative result becomes [-1] with [errno] set. *)
Definition libc_ret {A : Type} (c : W -> (Z * A) * W) : M (proc W) (Z * A) := fun s =>
  let '((r, a), w) := c (p_os s) in
  if r <? 0 then Ret ((-1, a), with_errno (- r) (with_os w s)) else Ret ((r, a), with_os w s).

Definition plain (c : W -> Z * W) : W -> (Z * ()) * W := fun w =>
  let '(r, w') := c w in ((r, ()), w').

Definition libc_open (path : cstr) : M (proc W) Z :=
  r ← libc_ret (plain (sys_open path)); mret r.1.
Definition libc_close (fd : Z) : M (proc W) Z :=
  r ← libc_ret (plain (sys_close fd)); mret r.1.
Definition libc_lseek (fd off : Z) : M (proc W) Z :=
  r ← libc_ret (plain (sys_lseek fd off)); mret r.1.
Definition libc_mmap (len flags fd off : Z) : M (proc W) Z :=
  r ← libc_ret (plain (sys_mmap len flags fd off)); mret r.1.
Definition libc_ioctl (fd cmd : Z) (r : pop_p2pmem_reg) : M (proc W) (Z * pop_p2pmem_reg) :=
  libc_ret (sys_ioctl fd cmd r).

(** [read(fd, buf, sizeof(buf))]: the bytes that were read replace the first
    ones of the array, the others keep what they had. *)
Definition libc_read (fd : Z) (buf : cbuf) : M (proc W) (Z * cbuf) :=
  r ← libc_ret (sys_read fd (length buf));
  let data := if r.1 <? 0 then [] else take (length buf) r.2 in
  mret (r.1, (Some <$> data) ++ drop (length data) buf).
End libc.
