(* ===== verification/PopBuf.v ===== *)
(** * lib/libpop.c, first part: pop buffers

    The page allocator [pop_buf_alloc], the window operations of a buffer and
    [pop_virt_to_phys].  Log output (pr_ve, pr_vs, print_pop_buf) is not
    modelled. *)

From S2P Require Import Prelude CStr LibpopH.

Definition PAGE_SHIFT : Z := 12.
Definition EINVAL : Z := 22.
Definition ENOMEM : Z := 12.
Definition ENOBUFS : Z := 105.

(** ** Window operations of a buffer *)

(** The structure each operation leaves and the pointer it returns. *)
Definition buf_data (b : pop_buf) : Z := b_vaddr b +64 b_offset b.

Definition set_window (b : pop_buf) (off len : Z) : pop_buf :=
  PopBuf (b_mem b) (b_vaddr b) (b_paddr b) (b_size b) off len.

Definition buf_put (b : pop_buf) (len : Z) : pop_buf * option Z :=
  if b_size b <? b_offset b +64 b_length b +64 len then (b, None)
  else let b' := set_window b (b_offset b) (b_length b +64 len) in (b', Some (buf_data b')).

Definition buf_trim (b : pop_buf) (len : Z) : pop_buf * option Z :=
  if b_length b <? len then (b, None)
  else let b' := set_window b (b_offset b) (b_length b -64 len) in (b', Some (buf_data b')).

Definition buf_pull (b : pop_buf) (len : Z) : pop_buf * option Z :=
  if b_length b <? len then (b, None)
  else let b' := set_window b (b_offset b +64 len) (b_length b -64 len) in (b', Some (buf_data b')).

Definition buf_push (b : pop_buf) (len : Z) : pop_buf * option Z :=
  if b_offset b <? len then (b, None)
  else let b' := set_window b (b_offset b -64 len) (b_length b +64 len) in (b', Some (buf_data b')).

Definition buf_len (b : pop_buf) : Z := b_length b -64 b_offset b.
Definition buf_paddr (b : pop_buf) : Z := b_paddr b +64 b_offset b.

Section libpop.
Context {W : Type}.

Definition buf_op (op : pop_buf -> pop_buf * option Z) (l : loc) : M (proc W) (option Z) :=
  b ← load_buf l;
  let '(b', r) := op b in
  _ ← store_buf l b';
  mret r.

Definition pop_buf_data (l : loc) : M (proc W) Z := b ← load_buf l; mret (buf_data b).
Definition pop_buf_paddr (l : loc) : M (proc W) Z := b ← load_buf l; mret (buf_paddr b).
Definition pop_buf_put (l : loc) (len : Z) : M (proc W) (option Z) := buf_op (fun b => buf_put b len) l.
Definition pop_buf_trim (l : loc) (len : Z) : M (proc W) (option Z) := buf_op (fun b => buf_trim b len) l.
Definition pop_buf_pull (l : loc) (len : Z) : M (proc W) (option Z) := buf_op (fun b => buf_pull b len) l.
Definition pop_buf_push (l : loc) (len : Z) : M (proc W) (option Z) := buf_op (fun b => buf_push b len) l.
Definition pop_buf_len (l : loc) : M (proc W) Z := b ← load_buf l; mret (buf_len b).

(** ** Allocation *)

Definition set_mutex (m : pop_mem) (held : bool) : pop_mem :=
  PopMem (m_fd m) (m_devname m) (m_reg m) (m_mem m) (m_paddr m) (m_size m) (m_num_pages m)
    (m_alloced_pages m) held.
Definition set_alloced (m : pop_mem) (n : Z) : pop_mem :=
  PopMem (m_fd m) (m_devname m) (m_reg m) (m_mem m) (m_paddr m) (m_size m) (m_num_pages m)
    n (m_mutex m).

(** A thread that locks a mutex nobody will release waits for ever. *)
Definition pthread_mutex_lock (l : loc) : M (proc W) () :=
  m ← load_mem l;
  if m_mutex m then diverge else store_mem l (set_mutex m true).
Definition pthread_mutex_unlock (l : loc) : M (proc W) () :=
  m ← load_mem l; store_mem l (set_mutex m false).

(** [for (nr_pages = 0; (nr_pages << PAGE_SHIFT) < size; nr_pages++);] *)
Definition count_pages_body {St : Type} (size nr_pages : Z) : M St (Z + Z) :=
  if nr_pages <<64 PAGE_SHIFT <? size then mret (inl (nr_pages +64 1)) else mret (inr nr_pages).
Definition count_pages {St : Type} (size : Z) : M St Z := while_ (count_pages_body size) 0.

(** What stands between the lock and the unlock. *)
Definition pop_buf_alloc_locked (lm : loc) (size : Z) : M (proc W) (option loc) :=
  nr_pages ← count_pages size;
  m ← load_mem lm;
  if m_num_pages m -64 m_alloced_pages m <? nr_pages then
    _ ← set_errno ENOBUFS;
    mret None
  else
    pbuf ← malloc;
    match pbuf with
    | None => mret None
    | Some l =>
        _ ← store_buf l
          (PopBuf lm
             (m_mem m +64 (m_alloced_pages m <<64 PAGE_SHIFT))
             (m_paddr m +64 (m_alloced_pages m <<64 PAGE_SHIFT))
             (nr_pages <<64 PAGE_SHIFT) 0 0);
        _ ← store_mem lm (set_alloced m (m_alloced_pages m +64 nr_pages));
        mret (Some l)
    end.

Definition pop_buf_alloc (lm : loc) (size : Z) : M (proc W) (option loc) :=
  _ ← pthread_mutex_lock lm;
  pbuf ← pop_buf_alloc_locked lm size;
  _ ← pthread_mutex_unlock lm;
  mret pbuf.

(** The pages of a freed buffer are not given back. *)
Definition pop_buf_free (l : loc) : M (proc W) () := _ ← load_buf l; free_buf l.

(** ** Address translation *)

Definition virt_to_phys_in (m : pop_mem) (vaddr : Z) : Z :=
  if (vaddr <? m_mem m) || (m_mem m +64 m_size m <? vaddr) then 0
  else m_paddr m +64 (vaddr -64 m_mem m).

Definition pop_virt_to_phys (lm : loc) (vaddr : Z) : M (proc W) Z :=
  m ← load_mem lm; mret (virt_to_phys_in m vaddr).

Definition pop_mem_size (lm : loc) : M (proc W) Z := m ← load_mem lm; mret (m_size m).

Definition libpop_verbose_enable : M (proc W) () := modify (with_verbose 1).
Definition libpop_verbose_disable : M (proc W) () := modify (with_verbose 0).
End libpop.

(** ** The page count *)

Lemma count_pages_iter {St : Type} size n k (s : St) :
  0 <= size <= 2 ^ 64 - 4096 -> 0 <= k -> k + Z.of_nat n = pages_for size ->
  iter_nat (count_pages_body size) (S n) k s = Ret (inr (pages_for size), s).
Proof.
  intros Hsz. revert k. induction n as [|n IH]; intros k Hk Hn.
  - simpl. unfold count_pages_body, PAGE_SHIFT, mbind, M_bind. rewrite shiftl_12.
    replace k with (pages_for size) by lia.
    destruct (proj1 (pages_for_spec size (pages_for size)) eq_refl).
    rewrite u64_small by lia. by replace (_ <? _) with false by lia.
  - destruct (proj1 (pages_for_spec size (pages_for size)) eq_refl).
    assert (count_pages_body size k s = Ret (inl (k + 1), s)) as E.
    { unfold count_pages_body, PAGE_SHIFT. rewrite shiftl_12, !u64_small by lia.
      by replace (_ <? _) with true by lia. }
    change (iter_nat (count_pages_body size) (S (S n)) k s) with
      ((r ← count_pages_body size k;
        then_iter r (iter_nat (count_pages_body size) (S n))) s).
    rewrite (bind_ret _ _ _ _ _ E). apply IH; lia.
Qed.

Lemma count_pages_spec {St : Type} size (s : St) :
  0 <= size <= 2 ^ 64 - 4096 -> count_pages size s = Ret (pages_for size, s).
Proof.
  intros Hsz. destruct (proj1 (pages_for_spec size (pages_for size)) eq_refl).
  eapply while_exit; [apply (count_pages_iter size (Z.to_nat (pages_for size)) 0); lia|].
  apply loop_fuel_le. lia.
Qed.

(** Above [2 ^ 64 - 4096] the shift wraps to 0 before it reaches [size]. *)
Lemma count_pages_spin {St : Type} size n k (s : St) :
  2 ^ 64 - 4096 < size < 2 ^ 64 -> 0 <= k < 2 ^ 64 ->
  exists k', iter_nat (count_pages_body size) n k s = Ret (inl k', s) /\ 0 <= k' < 2 ^ 64.
Proof.
  intros Hsz. revert k. induction n as [|n IH]; intros k Hk; [by exists k|].
  assert (count_pages_body size k s = Ret (inl (k +64 1), s)) as E.
  { unfold count_pages_body, PAGE_SHIFT. rewrite shiftl_12.
    replace (_ <? _) with true by wrap_lia. done. }
  simpl. unfold mbind, M_bind. rewrite E. apply IH. apply u64_range.
Qed.

Lemma count_pages_diverge {St : Type} size (s : St) :
  2 ^ 64 - 4096 < size < 2 ^ 64 -> count_pages size s = Diverge.
Proof.
  intros Hsz. apply while_spin. intros n.
  destruct (count_pages_spin size n 0 s Hsz) as (k' & E & _); [lia|]. eauto.
Qed.

(** ** Pop memories whose region fits the address space *)

Record mem_ok (m : pop_mem) : Prop := MemOk {
  mo_num : 0 <= m_num_pages m < 2 ^ 52;
  mo_alloced : 0 <= m_alloced_pages m <= m_num_pages m;
  mo_mem : 0 <= m_mem m /\ m_mem m + m_num_pages m * 4096 < 2 ^ 64;
  mo_paddr : 0 <= m_paddr m /\ m_paddr m + m_num_pages m * 4096 < 2 ^ 64
}.

Definition mem_okb (m : pop_mem) : bool :=
  (0 <=? m_num_pages m) && (m_num_pages m <? 2 ^ 52)
  && (0 <=? m_alloced_pages m) && (m_alloced_pages m <=? m_num_pages m)
  && (0 <=? m_mem m) && (m_mem m + m_num_pages m * 4096 <? 2 ^ 64)
  && (0 <=? m_paddr m) && (m_paddr m + m_num_pages m * 4096 <? 2 ^ 64).

Lemma mem_okb_ok m : mem_okb m = true <-> mem_ok m.
Proof.
  unfold mem_okb. rewrite !andb_true_iff. split.
  - intros H. constructor; lia.
  - intros [? ? ? ?]. lia.
Qed.

(** The buffer an allocation of [n] pages carves off [m]. *)
Definition next_buf (lm : loc) (m : pop_mem) (n : Z) : pop_buf :=
  PopBuf lm (m_mem m + m_alloced_pages m * 4096) (m_paddr m + m_alloced_pages m * 4096)
    (n * 4096) 0 0.

Section alloc_lemmas.
Context {W : Type}.
Implicit Type s : proc W.

Lemma with_mems_id s : with_mems (p_mems s) s = s.
Proof. by destruct s. Qed.

Lemma load_mem_Some lm m s : p_mems s !! lm = Some m -> load_mem lm s = Ret (m, s).
Proof. intros H. unfold load_mem, gets, mbind, M_bind. by rewrite H. Qed.

Lemma load_buf_Some l b s : p_bufs s !! l = Some b -> load_buf l s = Ret (b, s).
Proof. intros H. unfold load_buf, gets, mbind, M_bind. by rewrite H. Qed.

Lemma load_buf_inv l b s s' : load_buf l s = Ret (b, s') -> p_bufs s !! l = Some b /\ s' = s.
Proof.
  unfold load_buf, gets, mbind, M_bind. destruct (p_bufs s !! l); simpl; [|done].
  unfold mret, M_ret. naive_solver.
Qed.

Lemma load_mem_inv l m s s' : load_mem l s = Ret (m, s') -> p_mems s !! l = Some m /\ s' = s.
Proof.
  unfold load_mem, gets, mbind, M_bind. destruct (p_mems s !! l); simpl; [|done].
  unfold mret, M_ret. naive_solver.
Qed.

Lemma mutex_lock_free lm m s :
  p_mems s !! lm = Some m -> m_mutex m = false ->
  pthread_mutex_lock lm s = Ret ((), with_mems (<[lm:=set_mutex m true]> (p_mems s)) s).
Proof.
  intros Hm Hf. unfold pthread_mutex_lock. rewrite (bind_ret _ _ _ _ _ (load_mem_Some _ _ _ Hm)).
  by rewrite Hf.
Qed.

Lemma mutex_unlock_held lm m s :
  p_mems s !! lm = Some m ->
  pthread_mutex_unlock lm s = Ret ((), with_mems (<[lm:=set_mutex m false]> (p_mems s)) s).
Proof.
  intros Hm. unfold pthread_mutex_unlock.
  by rewrite (bind_ret _ _ _ _ _ (load_mem_Some _ _ _ Hm)).
Qed.

Lemma set_mutex_id m : m_mutex m = false -> set_mutex (set_mutex m true) false = m.
Proof. destruct m; simpl. by intros ->. Qed.

(** The state after an allocation of [n] pages. *)
Definition alloced_state (lm : loc) (m : pop_mem) (n : Z) (o : list bool) s : proc W :=
  with_mems (<[lm:=set_alloced m (m_alloced_pages m + n)]> (p_mems s))
    (with_bufs (<[p_next s:=next_buf lm m n]> (p_bufs s))
      (with_alloc (Pos.succ (p_next s)) o s)).

(** The function as one equation: every branch, with the state it leaves. *)
Lemma pop_buf_alloc_eq lm size s m :
  p_mems s !! lm = Some m -> mem_ok m -> m_mutex m = false -> 0 <= size <= 2 ^ 64 - 4096 ->
  pop_buf_alloc lm size s =
  if m_num_pages m - m_alloced_pages m <? pages_for size then Ret (None, with_errno ENOBUFS s)
  else match p_oom s with
       | true :: o => Ret (None, with_errno ENOMEM (with_alloc (p_next s) o s))
       | o => Ret (Some (p_next s), alloced_state lm m (pages_for size) (tail o) s)
       end.
Proof.
  intros Hm [Hnum Hall Hmem Hpa] Hmu Hsz.
  destruct (proj1 (pages_for_spec size (pages_for size)) eq_refl) as [Hp1 Hp2].
  unfold pop_buf_alloc. rewrite (bind_ret _ _ _ _ _ (mutex_lock_free _ _ _ Hm Hmu)).
  set (s1 := with_mems _ s).
  assert (p_mems s1 !! lm = Some (set_mutex m true)) as Hm1 by apply lookup_insert_eq.
  assert (with_mems (<[lm:=m]> (p_mems s1)) s1 = s) as Hback.
  { unfold s1, with_mems. simpl. rewrite insert_insert_eq, insert_id by done. by destruct s. }
  unfold pop_buf_alloc_locked. rewrite !bind_assoc.
  rewrite (bind_ret _ _ _ _ _ (count_pages_spec size s1 Hsz)).
  rewrite bind_assoc, (bind_ret _ _ _ _ _ (load_mem_Some _ _ _ Hm1)). simpl m_num_pages.
  simpl m_alloced_pages. rewrite u64_small by lia.
  destruct (_ <? _) eqn:Hlt.
  - unfold set_errno, modify, mbind, M_bind, mret, M_ret. simpl.
    rewrite (mutex_unlock_held lm (set_mutex m true) (with_errno ENOBUFS s1)) by done.
    rewrite set_mutex_id by done. f_equal. f_equal.
    etransitivity; [|by rewrite <- Hback]. done.
  - unfold malloc. unfold mbind, M_bind. simpl.
    destruct (p_oom s) as [|[] o] eqn:Ho; simpl; unfold mret, M_ret; simpl.
    2: { erewrite mutex_unlock_held by done. rewrite set_mutex_id by done.
         f_equal. f_equal. etransitivity; [|by rewrite <- Hback]. done. }
    all: erewrite mutex_unlock_held by apply lookup_insert_eq.
    all: f_equal; f_equal; unfold alloced_state, next_buf, with_mems, with_bufs, with_alloc,
      with_errno, set_alloced, set_mutex, PAGE_SHIFT; simpl; rewrite !shiftl_12.
    all: unwrap; rewrite !insert_insert_eq, Hmu; done.
Qed.

(** A size that the page count never reaches. *)
Lemma pop_buf_alloc_diverge lm size s m :
  p_mems s !! lm = Some m -> m_mutex m = false -> 2 ^ 64 - 4096 < size < 2 ^ 64 ->
  pop_buf_alloc lm size s = Diverge.
Proof.
  intros Hm Hmu Hsz. unfold pop_buf_alloc. rewrite (bind_ret _ _ _ _ _ (mutex_lock_free _ _ _ Hm Hmu)).
  unfold pop_buf_alloc_locked. rewrite bind_assoc, bind_diverge; [done|].
  by apply count_pages_diverge.
Qed.
End alloc_lemmas.

(** ** Clients: any sequence of calls on one pop memory *)

(** The calls that take a pop memory or one of its buffers. *)
Inductive call : Type :=
  | CAlloc (size : Z)
  | CFree (l : loc)
  | CPut (l : loc) (len : Z)
  | CTrim (l : loc) (len : Z)
  | CPull (l : loc) (len : Z)
  | CPush (l : loc) (len : Z).

Definition size_arg (c : call) : Z :=
  match c with
  | CAlloc n | CPut _ n | CTrim _ n | CPull _ n | CPush _ n => n
  | CFree _ => 0
  end.

Section clients.
Context {W : Type}.
Implicit Type s : proc W.

Definition run_call (lm : loc) (c : call) : M (proc W) () :=
  match c with
  | CAlloc size => _ ← pop_buf_alloc lm size; mret ()
  | CFree l => pop_buf_free l
  | CPut l len => _ ← pop_buf_put l len; mret ()
  | CTrim l len => _ ← pop_buf_trim l len; mret ()
  | CPull l len => _ ← pop_buf_pull l len; mret ()
  | CPush l len => _ ← pop_buf_push l len; mret ()
  end.

(** A call that returns, its length argument a [size_t]. *)
Definition call_step (lm : loc) s (c : call) s' : Prop :=
  0 <= size_arg c < 2 ^ 64 /\ run_call lm c s = Ret ((), s').

Definition disjoint_bufs (b1 b2 : pop_buf) : Prop :=
  b_vaddr b1 + b_size b1 <= b_vaddr b2 \/ b_vaddr b2 + b_size b2 <= b_vaddr b1.

(** A buffer inside the first [n] pages of [m], its two addresses at the same
    distance from the start of the region. *)
Definition buf_within (m : pop_mem) (n : Z) (b : pop_buf) : Prop :=
  m_mem m <= b_vaddr b /\ 0 <= b_size b /\ b_vaddr b + b_size b <= m_mem m + n * 4096 /\
  b_paddr b - m_paddr m = b_vaddr b - m_mem m.

Record arena (lm : loc) (m0 : pop_mem) s : Prop := Arena {
  ar_mem : exists n, p_mems s !! lm = Some (set_alloced m0 n) /\
    mem_ok (set_alloced m0 n) /\
    (forall l b, p_bufs s !! l = Some b -> b_mem b = lm -> buf_within m0 n b);
  ar_free : m_mutex m0 = false;
  ar_fresh : forall l b, p_bufs s !! l = Some b -> (l < p_next s)%positive;
  ar_disj : forall l1 l2 b1 b2, l1 <> l2 -> p_bufs s !! l1 = Some b1 -> p_bufs s !! l2 = Some b2 ->
    b_mem b1 = lm -> b_mem b2 = lm -> disjoint_bufs b1 b2
}.

(** Changing the window of a buffer keeps the arena. *)
Lemma arena_window lm m0 s l b off len :
  arena lm m0 s -> p_bufs s !! l = Some b ->
  arena lm m0 (with_bufs (<[l:=set_window b off len]> (p_bufs s)) s).
Proof.
  intros [(n & Hm & Hok & Hin) Hmu Hfr Hdj] Hb.
  assert (forall l' b', <[l:=set_window b off len]> (p_bufs s) !! l' = Some b' ->
    exists b1, p_bufs s !! l' = Some b1 /\ b_mem b1 = b_mem b' /\ b_vaddr b1 = b_vaddr b'
      /\ b_paddr b1 = b_paddr b' /\ b_size b1 = b_size b') as Hold.
  { intros l' b' Hl'. destruct (decide (l = l')) as [<-|Hne].
    - rewrite lookup_insert_eq in Hl'. injection Hl' as <-. by exists b.
    - rewrite lookup_insert_ne in Hl' by done. by exists b'. }
  constructor; simpl; [exists n; split_and!; [done|done|]|done|..].
  - intros l' b' Hl' Hlm. destruct (Hold _ _ Hl') as (b1 & H1 & E1 & E2 & E3 & E4).
    specialize (Hin l' b1 H1). unfold buf_within in *. rewrite E2, E3, E4 in Hin.
    apply Hin. congruence.
  - intros l' b' Hl'. destruct (Hold _ _ Hl') as (b1 & H1 & _). eauto.
  - intros l1 l2 b1 b2 Hne H1 H2 E1 E2.
    destruct (Hold _ _ H1) as (c1 & H1' & F1 & F2 & F3 & F4).
    destruct (Hold _ _ H2) as (c2 & H2' & G1 & G2 & G3 & G4).
    pose proof (Hdj l1 l2 c1 c2 Hne H1' H2'). unfold disjoint_bufs in *.
    rewrite <- F2, <- F4, <- G2, <- G4. apply H; congruence.
Qed.

Lemma arena_delete lm m0 s l :
  arena lm m0 s -> arena lm m0 (with_bufs (delete l (p_bufs s)) s).
Proof.
  intros [(n & Hm & Hok & Hin) Hmu Hfr Hdj].
  constructor; simpl; [exists n; split_and!; [done|done|]|done|..].
  - intros l' b' [_ Hb]%lookup_delete_Some. eauto.
  - intros l' b' [_ Hb]%lookup_delete_Some. eauto.
  - intros l1 l2 b1 b2 Hne [_ H1]%lookup_delete_Some [_ H2]%lookup_delete_Some. eauto.
Qed.

Lemma arena_alloc lm m0 s n k o :
  arena lm m0 s -> p_mems s !! lm = Some (set_alloced m0 n) -> 0 <= k ->
  k <= m_num_pages m0 - n ->
  arena lm m0 (alloced_state lm (set_alloced m0 n) k o s).
Proof.
  intros [(n' & Hm & [Hnum Hall Hmem Hpa] & Hin) Hmu Hfr Hdj] Hm' Hk Hle.
  assert (n' = n) as -> by (rewrite Hm in Hm'; by injection Hm'). simpl in *.
  assert (p_bufs s !! p_next s = None) as Hnone.
  { destruct (p_bufs s !! p_next s) as [b|] eqn:E; [|done]. apply Hfr in E. lia. }
  constructor; simpl; [|done|..].
  - exists (n + k). rewrite lookup_insert_eq. split_and!; [done|constructor; simpl; lia|].
    intros l b. rewrite lookup_insert_Some. intros [[<- <-]|[Hne Hb]] Hlm.
    + unfold buf_within, next_buf; simpl. lia.
    + specialize (Hin _ _ Hb Hlm). unfold buf_within in *. lia.
  - intros l b. rewrite lookup_insert_Some. intros [[<- <-]|[Hne Hb]]; [lia|].
    apply Hfr in Hb. lia.
  - intros l1 l2 b1 b2 Hne. rewrite !lookup_insert_Some.
    intros [[<- <-]|[Hne1 Hb1]] [[<- <-]|[Hne2 Hb2]] E1 E2; [done|..].
    + pose proof (Hin _ _ Hb2 E2). unfold disjoint_bufs, buf_within, next_buf in *; simpl. lia.
    + pose proof (Hin _ _ Hb1 E1). unfold disjoint_bufs, buf_within, next_buf in *; simpl. lia.
    + eauto.
Qed.

Lemma arena_mem_change lm m0 s s' :
  arena lm m0 s -> p_mems s' = p_mems s -> p_bufs s' = p_bufs s -> p_next s' = p_next s ->
  arena lm m0 s'.
Proof.
  intros [Hm Hmu Hfr Hdj] E1 E2 E3. constructor; rewrite ?E1, ?E2, ?E3; done.
Qed.

Lemma buf_op_arena lm m0 s s' l op r :
  (forall b, exists off len, (op b).1 = set_window b off len) ->
  arena lm m0 s -> buf_op op l s = Ret (r, s') -> arena lm m0 s'.
Proof.
  intros Hop Ha. unfold buf_op. intros (b & s1 & Hl & Hk)%bind_Ret_inv.
  apply load_buf_inv in Hl as [Hb ->]. destruct (Hop b) as (off & len & Ew).
  destruct (op b) as [b' r']. simpl in Ew. subst b'.
  revert Hk. unfold store_buf, modify, mbind, M_bind, mret, M_ret. intros [= <- <-].
  by apply arena_window.
Qed.

(** A window operation leaves everything but the window. *)
Ltac solve_window :=
  match goal with
  | |- exists off len, fst (if ?c then _ else _) = set_window ?b off len =>
      destruct c; [exists (b_offset b), (b_length b); by destruct b | simpl; eauto]
  end.

Lemma buf_put_window b n : exists off len, (buf_put b n).1 = set_window b off len.
Proof. unfold buf_put. solve_window. Qed.
Lemma buf_trim_window b n : exists off len, (buf_trim b n).1 = set_window b off len.
Proof. unfold buf_trim. solve_window. Qed.
Lemma buf_pull_window b n : exists off len, (buf_pull b n).1 = set_window b off len.
Proof. unfold buf_pull. solve_window. Qed.
Lemma buf_push_window b n : exists off len, (buf_push b n).1 = set_window b off len.
Proof. unfold buf_push. solve_window. Qed.
#[local] Hint Resolve buf_put_window buf_trim_window buf_pull_window buf_push_window : core.

Lemma arena_alloc_call lm m0 s s' size r :
  0 <= size < 2 ^ 64 -> arena lm m0 s -> pop_buf_alloc lm size s = Ret (r, s') -> arena lm m0 s'.
Proof.
  intros Hsz Ha Hr. pose proof Ha as [(n & Hm & Hok & _) Hmu _ _].
  destruct (decide (size <= 2 ^ 64 - 4096)) as [Hle|Hgt].
  - rewrite (pop_buf_alloc_eq lm size s _ Hm Hok Hmu) in Hr by lia. simpl in Hr.
    destruct (_ <? _) eqn:Hlt; [injection Hr as <- <-; by eapply arena_mem_change|].
    destruct (proj1 (pages_for_spec size (pages_for size)) eq_refl).
    destruct (p_oom s) as [|[] o]; injection Hr as <- <-;
      [apply arena_alloc; try done; lia|by eapply arena_mem_change|apply arena_alloc; try done; lia].
  - revert Hr. unfold pop_buf_alloc.
    rewrite (bind_ret _ _ _ _ _ (mutex_lock_free _ _ _ Hm Hmu)).
    unfold pop_buf_alloc_locked. rewrite bind_assoc, bind_diverge; [done|].
    apply count_pages_diverge. lia.
Qed.

Lemma call_step_arena lm m0 s c s' :
  arena lm m0 s -> call_step lm s c s' -> arena lm m0 s'.
Proof.
  intros Ha [Hsz Hr]. destruct c as [size|l|l len|l len|l len|l len]; simpl in *.
  2: { revert Hr. unfold pop_buf_free. intros (b & s1 & [Hb ->]%load_buf_inv & [= <-])%bind_Ret_inv.
       by apply arena_delete. }
  all: apply bind_Ret_inv in Hr as (r & s1 & Hr & [= <-]).
  - by eapply arena_alloc_call.
  - by eapply (buf_op_arena _ _ _ _ _ (fun b => buf_put b len)).
  - by eapply (buf_op_arena _ _ _ _ _ (fun b => buf_trim b len)).
  - by eapply (buf_op_arena _ _ _ _ _ (fun b => buf_pull b len)).
  - by eapply (buf_op_arena _ _ _ _ _ (fun b => buf_push b len)).
Qed.

(** What the arena says of the live buffers. *)
Lemma arena_buffers lm m0 s l b :
  arena lm m0 s -> p_bufs s !! l = Some b -> b_mem b = lm ->
  m_mem m0 <= b_vaddr b /\ b_vaddr b + b_size b <= m_mem m0 + m_num_pages m0 * 4096 /\
  b_paddr b - m_paddr m0 = b_vaddr b - m_mem m0 /\
  forall l' b', l' <> l -> p_bufs s !! l' = Some b' -> b_mem b' = lm -> disjoint_bufs b b'.
Proof.
  intros [(n & Hm & [_ Hall _ _] & Hin) _ _ Hdj] Hb Hlm. simpl in Hall.
  destruct (Hin l b Hb Hlm) as (H1 & H2 & H3 & H4).
  split_and!; [lia|lia|done|]. intros l' b' Hne Hb' Hlm'. apply (Hdj l l'); auto.
Qed.
End clients.

(** ** The window of a buffer as an interval *)

(** What the four window operations promise, in the words of sk_buff: the data
    is the interval from [lo] to [hi] of an area of [cap] bytes; [put] and
    [trim] move its end, [pull] and [push] its start, and an operation that
    would leave the area or turn the interval around is refused. *)
Module Window.
Record t : Type := Win { cap : Z; lo : Z; hi : Z }.

Variant op : Type := Put (n : Z) | Trim (n : Z) | Pull (n : Z) | Push (n : Z).

Definition amount (o : op) : Z := match o with Put n | Trim n | Pull n | Push n => n end.

Definition move (w : t) (lo' hi' : Z) : option t :=
  if (0 <=? lo') && (lo' <=? hi') && (hi' <=? cap w) then Some (Win (cap w) lo' hi') else None.

Definition apply (o : op) (w : t) : option t :=
  match o with
  | Put n => move w (lo w) (hi w + n)
  | Trim n => move w (lo w) (hi w - n)
  | Pull n => move w (lo w + n) (hi w)
  | Push n => move w (lo w - n) (hi w)
  end.

Definition step (w : t) (o : op) : t := default w (apply o w).
End Window.

(** The same operations of the code, and the abstraction of a buffer. *)
Definition window_op (o : Window.op) (b : pop_buf) : pop_buf * option Z :=
  match o with
  | Window.Put n => buf_put b n
  | Window.Trim n => buf_trim b n
  | Window.Pull n => buf_pull b n
  | Window.Push n => buf_push b n
  end.

Definition win (b : pop_buf) : Window.t :=
  Window.Win (b_size b) (b_offset b) (b_offset b + b_length b).

Record buf_wf (b : pop_buf) : Prop := BufWf {
  bw_off : 0 <= b_offset b;
  bw_len : 0 <= b_length b;
  bw_fit : b_offset b + b_length b <= b_size b;
  bw_addr : 0 <= b_vaddr b /\ b_vaddr b + b_size b < 2 ^ 64
}.

(** An argument of type [size_t] that, for a put, cannot wrap the sum
    [pop_buf_put] compares. *)
Definition amount_ok (b : pop_buf) (o : Window.op) : Prop :=
  0 <= Window.amount o < 2 ^ 64 /\
  match o with Window.Put n => n <= 2 ^ 64 - 1 - b_size b | _ => True end.

Lemma window_op_refines o b :
  buf_wf b -> amount_ok b o ->
  buf_wf (window_op o b).1 /\
  match Window.apply o (win b) with
  | Some w => win (window_op o b).1 = w /\ (window_op o b).2 = Some (b_vaddr b + Window.lo w)
  | None => window_op o b = (b, None)
  end.
Proof.
  intros [Ho Hl Hf [Hv1 Hv2]] Ha. unfold amount_ok in Ha.
  destruct o as [n|n|n|n]; simpl in *;
    unfold buf_put, buf_trim, buf_pull, buf_push, Window.move, win; simpl;
    [unwrap|..]; destruct (_ <? _) eqn:Hlt; simpl; unfold buf_data, set_window; simpl;
    unwrap; destruct (_ && _) eqn:Hc;
    rewrite ?andb_true_iff, ?andb_false_iff in Hc; try (exfalso; lia);
    (split; [constructor; simpl; lia|]); try done;
    split; f_equal; lia.
Qed.

Lemma window_op_same o b :
  b_size (window_op o b).1 = b_size b /\ b_vaddr (window_op o b).1 = b_vaddr b
  /\ b_paddr (window_op o b).1 = b_paddr b /\ b_mem (window_op o b).1 = b_mem b.
Proof.
  assert (exists off len, (window_op o b).1 = set_window b off len) as (off & len & ->).
  { destruct o; simpl; eauto using buf_put_window, buf_trim_window, buf_pull_window, buf_push_window. }
  done.
Qed.

Lemma window_step_refines o b :
  buf_wf b -> amount_ok b o -> win (window_op o b).1 = Window.step (win b) o.
Proof.
  intros Hwf Ha. destruct (window_op_refines o b Hwf Ha) as [_ H]. unfold Window.step.
  destruct (Window.apply o (win b)) as [w|]; simpl; [by destruct H|by rewrite H].
Qed.

(** ** Properties *)

(** A pop memory of four pages and a process that has just mapped it. *)
Definition mem4 : pop_mem :=
  PopMem (-1) (lit "hugepage") (Reg 0 0 0 0 0) 0x7f0000000000 0x100000000 16384 4 0 false.
Definition proc4 : proc () := Proc {[1%positive := mem4]} ∅ ∅ ∅ 2%positive [] 0 0 ().

(** C1: [pop_buf_alloc] on an unlocked pop memory and any size up to
    [2 ^ 64 - 4096] returns, and says which case holds: too few pages are left
    and [errno] is [ENOBUFS]; or [malloc] fails and [errno] is [ENOMEM]; or a
    fresh, page-aligned, empty buffer of the smallest number of whole pages that
    holds the size is carved off right behind the pages handed out so far, at
    the same place of the virtual and the physical region.  The mutex is free
    again in every case, and nothing else of the process changes. *)
Theorem pop_buf_alloc_contract {W : Type} lm size (s : proc W) m :
  p_mems s !! lm = Some m -> mem_ok m -> m_mutex m = false -> 0 <= size <= 2 ^ 64 - 4096 ->
  exists r s', pop_buf_alloc lm size s = Ret (r, s') /\
  match r with
  | None =>
      (m_num_pages m - m_alloced_pages m < pages_for size /\ s' = with_errno ENOBUFS s) \/
      (exists o, p_oom s = true :: o /\ pages_for size <= m_num_pages m - m_alloced_pages m /\
        s' = with_errno ENOMEM (with_alloc (p_next s) o s))
  | Some l =>
      l = p_next s /\
      p_mems s' = <[lm:=set_alloced m (m_alloced_pages m + pages_for size)]> (p_mems s) /\
      m_alloced_pages m + pages_for size <= m_num_pages m /\
      p_bufs s' = <[l:=PopBuf lm (m_mem m + m_alloced_pages m * 4096)
                          (m_paddr m + m_alloced_pages m * 4096)
                          (pages_for size * 4096) 0 0]> (p_bufs s) /\
      size <= pages_for size * 4096 < size + 4096 /\
      p_rings s' = p_rings s /\ p_rxrings s' = p_rxrings s /\ p_errno s' = p_errno s /\
      p_os s' = p_os s
  end.
Proof.
  intros Hm Hok Hmu Hsz. rewrite (pop_buf_alloc_eq lm size s m Hm Hok Hmu Hsz).
  destruct (proj1 (pages_for_spec size (pages_for size)) eq_refl).
  destruct (_ <? _) eqn:Hlt.
  - eexists None, _. split; [done|]. left. split; [lia|done].
  - destruct (p_oom s) as [|[] o] eqn:Ho.
    + eexists (Some _), _. split; [done|]. simpl. split_and!; try done; lia.
    + eexists None, _. split; [done|]. right. exists o. split_and!; [done|lia|done].
    + eexists (Some _), _. split; [done|]. simpl. split_and!; try done; lia.
Qed.

Lemma pop_buf_alloc_contract_witness :
  exists s', pop_buf_alloc 1%positive 5000 proc4 = Ret (Some 2%positive, s').
Proof.
  destruct (pop_buf_alloc_contract 1%positive 5000 proc4 mem4) as (r & s' & E & _);
    [reflexivity | apply mem_okb_ok; reflexivity | reflexivity | lia |].
  rewrite E. revert E. vm_compute. intros [= <- <-]. eexists. reflexivity.
Defined.

(** C2: Whatever sequence of alloc, free, put, trim, pull and push calls a
    program makes on a pop memory, with any arguments, any two live buffers of
    it are disjoint, each lies inside the mapped pages, and its physical address
    is at the same distance from the start of the physical region as its virtual
    address is from the start of the mapping. *)
Theorem client_buffers_disjoint {W : Type} lm m (s : proc W) cs s' :
  p_mems s !! lm = Some m -> mem_ok m -> m_mutex m = false -> p_bufs s = ∅ ->
  steps (call_step lm) s cs s' ->
  forall l b, p_bufs s' !! l = Some b -> b_mem b = lm ->
    m_mem m <= b_vaddr b /\ b_vaddr b + b_size b <= m_mem m + m_num_pages m * 4096 /\
    b_paddr b - m_paddr m = b_vaddr b - m_mem m /\
    forall l' b', l' <> l -> p_bufs s' !! l' = Some b' -> b_mem b' = lm -> disjoint_bufs b b'.
Proof.
  intros Hm Hok Hmu He Hst.
  assert (arena lm m s) as Ha.
  { constructor; [|done|..]; [|rewrite He; done..].
    exists (m_alloced_pages m). rewrite He.
    replace (set_alloced m (m_alloced_pages m)) with m by (by destruct m). done. }
  eapply (steps_invariant _ (arena lm m)) in Ha; [|intros; by eapply call_step_arena|exact Hst].
  intros l b. by apply arena_buffers.
Qed.

Lemma client_buffers_disjoint_witness :
  exists s' b1 b2, steps (call_step 1%positive) proc4 ([] ++ [CAlloc 100] ++ [CAlloc 4097]) s'
  /\ p_bufs s' !! 2%positive = Some b1 /\ p_bufs s' !! 3%positive = Some b2
  /\ disjoint_bufs b1 b2.
Proof.
  destruct (run_call 1%positive (CAlloc 100) proc4) as [[[] s1]| |] eqn:E1; [|by vm_compute in E1..].
  destruct (run_call 1%positive (CAlloc 4097) s1) as [[[] s2]| |] eqn:E2;
    [|vm_compute in E1; injection E1 as <-; by vm_compute in E2..].
  assert (steps (call_step 1%positive) proc4 (([] ++ [CAlloc 100]) ++ [CAlloc 4097]) s2) as Hst.
  { econstructor; [econstructor; [constructor|]|]; split; try done; by vm_compute. }
  assert (p_bufs s2 !! 2%positive = Some (next_buf 1%positive mem4 1) /\
    p_bufs s2 !! 3%positive = Some (next_buf 1%positive (set_alloced mem4 1) 2)) as [H2 H3].
  { vm_compute in E1. injection E1 as <-. vm_compute in E2. injection E2 as <-. done. }
  exists s2, (next_buf 1%positive mem4 1), (next_buf 1%positive (set_alloced mem4 1) 2).
  split_and!; [exact Hst|done|done|].
  refine (proj2 (proj2 (proj2 (client_buffers_disjoint 1%positive mem4 proc4 _ s2 _ _ _ _ Hst 2%positive _ H2 _))) 3%positive _ _ H3 _);
    [reflexivity|apply mem_okb_ok; reflexivity|reflexivity|reflexivity|reflexivity|done|reflexivity].
Defined.

(** A size of more than [2 ^ 64 - 4096] bytes hangs the allocator: the
    shift that counts pages wraps to 0 before it reaches the size, so no number
    of rounds leaves the loop and the call does not return. *)
Theorem pop_buf_alloc_hangs {W : Type} lm size (s : proc W) m :
  p_mems s !! lm = Some m -> m_mutex m = false -> 2 ^ 64 - 4096 < size < 2 ^ 64 ->
  (forall n, exists k, iter_nat (count_pages_body size) n 0 s = Ret (inl k, s)) /\
  pop_buf_alloc lm size s = Diverge.
Proof.
  intros Hm Hmu Hsz. split.
  - intros n. destruct (count_pages_spin size n 0 s Hsz) as (k & E & _); [lia|]. eauto.
  - by apply (pop_buf_alloc_diverge lm size s m).
Qed.

Lemma pop_buf_alloc_hangs_witness : pop_buf_alloc 1%positive (2 ^ 64 - 1) proc4 = Diverge.
Proof. apply (pop_buf_alloc_hangs 1%positive (2 ^ 64 - 1) proc4 mem4); [reflexivity|reflexivity|lia]. Defined.

(** A put that wraps the sum it compares is accepted. *)
Lemma buf_put_wrapped b n :
  buf_wf b -> 0 <= n < 2 ^ 64 -> 2 ^ 64 <= b_offset b + b_length b + n ->
  buf_put b n = (set_window b (b_offset b) (u64 (b_length b + n)), Some (b_vaddr b + b_offset b)).
Proof.
  intros [Ho Hl Hf [Hv1 Hv2]] Hn Hw. unfold buf_put.
  rewrite (u64_small (b_offset b + b_length b)) by lia.
  replace (b_offset b + b_length b +64 n) with (b_offset b + b_length b + n - 2 ^ 64) by wrap_lia.
  replace (_ <? _) with false by lia. unfold buf_data. simpl. by unwrap.
Qed.

(** C11: The four window operations implement the interval of [Window], except
    for puts near 2^64.  Along any sequence of trims, pulls and pushes of any
    [size_t] and of puts of at most [2 ^ 64 - 1 - size], the buffer stays well
    formed (offset plus length within its size), its window is the one the
    specification computes, and each such call returns the address of the first
    byte of the new window, or refuses and changes nothing exactly when the
    specification refuses.  A put that carries the end of the window past
    [2 ^ 64] is the exception: the specification refuses it, but the code
    accepts it and sets the length to the wrapped sum. *)
Theorem window_ops_refine b os :
  buf_wf b -> Forall (amount_ok b) os ->
  let run := foldl (fun b o => (window_op o b).1) b in
  buf_wf (run os) /\ win (run os) = foldl Window.step (win b) os /\
  (forall o, amount_ok b o ->
    match Window.apply o (win (run os)) with
    | Some w => win (window_op o (run os)).1 = w /\
                (window_op o (run os)).2 = Some (b_vaddr b + Window.lo w)
    | None => window_op o (run os) = (run os, None)
    end) /\
  (forall n, 0 <= n < 2 ^ 64 -> 2 ^ 64 <= Window.hi (win (run os)) + n ->
     Window.apply (Window.Put n) (win (run os)) = None /\
     window_op (Window.Put n) (run os)
     = (set_window (run os) (b_offset (run os)) (u64 (b_length (run os) + n)),
        Some (b_vaddr b + b_offset (run os)))).
Proof.
  intros Hwf Hos run.
  assert (buf_wf (run os) /\ win (run os) = foldl Window.step (win b) os
    /\ b_size (run os) = b_size b /\ b_vaddr (run os) = b_vaddr b) as (H1 & H2 & H3 & H4).
  { unfold run. clear run. revert b Hwf Hos.
    induction os as [|o os IH]; intros b Hwf Hos; [done|].
    inversion_clear Hos as [|? ? Ho Hos']. simpl.
    destruct (window_op_refines o b Hwf Ho) as [Hwf' _].
    destruct (window_op_same o b) as (E1 & E2 & _).
    rewrite <- (window_step_refines o b Hwf Ho), <- E1, <- E2.
    apply IH; [done|]. eapply Forall_impl; [exact Hos'|]. unfold amount_ok. by rewrite E1. }
  split_and!; [done|done| |].
  - intros o Ho. rewrite <- H4. apply (window_op_refines o (run os) H1). unfold amount_ok. by rewrite H3.
  - intros n Hn Hw. rewrite <- H4. split; [|by apply buf_put_wrapped].
    destruct H1 as [W1 W2 W3 [W4 W5]]. unfold Window.apply, Window.move, win in *. simpl in *.
    rewrite (andb_false_intro2 (_ && _)); [done|lia].
Qed.

(** A buffer of one page with 8 bytes of data. *)
Definition buf8 : pop_buf := PopBuf 1%positive 0x7f0000000000 0x100000000 4096 0 8.

Lemma window_ops_refine_witness :
  win (foldl (fun b o => (window_op o b).1) buf8 [Window.Pull 3; Window.Put 4091; Window.Push (2 ^ 64 - 1)])
  = Window.Win 4096 3 8 /\ is_Some (window_op (Window.Put (2 ^ 64 - 8)) buf8).2.
Proof.
  assert (buf_wf buf8) as H1 by (constructor; simpl; lia).
  assert (Forall (amount_ok buf8) [Window.Pull 3; Window.Put 4091; Window.Push (2 ^ 64 - 1)]) as H2
    by (repeat constructor; unfold amount_ok; simpl; lia).
  split; [exact (proj1 (proj2 (window_ops_refine buf8 _ H1 H2)))|].
  destruct (window_ops_refine buf8 [] H1 (Forall_nil_2 _)) as (_ & _ & _ & H).
  destruct (H (2 ^ 64 - 8)) as [_ E]; [lia|simpl; lia|]. exact (eq_ind_r is_Some (ex_intro _ _ eq_refl) (f_equal snd E)).
Defined.

(** [pop_buf_put] does not stop every put that is too large: on a buffer
    that holds data, a length close enough to [2 ^ 64] wraps the sum it
    compares, and the call succeeds although the length exceeds the buffer. *)
Theorem pop_buf_put_wraps b n :
  buf_wf b -> b_size b < 2 ^ 63 -> 2 ^ 64 - (b_offset b + b_length b) <= n < 2 ^ 64 ->
  b_size b < n /\ is_Some (buf_put b n).2 /\
  (b_offset b = 0 -> b_length (buf_put b n).1 < b_length b).
Proof.
  intros [Ho Hl Hf [Hv1 Hv2]] Hs Hn. unfold buf_put. split; [lia|].
  rewrite (u64_small (b_offset b + b_length b)) by lia.
  replace (b_offset b + b_length b +64 n) with (b_offset b + b_length b + n - 2 ^ 64) by wrap_lia.
  replace (_ <? _) with false by lia. simpl. split; [eauto|]. intros E. wrap_lia.
Qed.

Lemma pop_buf_put_wraps_witness : is_Some (buf_put buf8 (2 ^ 64 - 8)).2.
Proof.
  apply (pop_buf_put_wraps buf8 (2 ^ 64 - 8)); [constructor; simpl; lia|simpl; lia..].
Defined.

(** [pop_buf_len] is the length of the data only while nothing has been
    pulled: it subtracts the offset, which [pop_buf_pull] has already taken off
    the length.  On a well-formed buffer it is the length exactly when the
    offset is 0, and it wraps to more than the buffer when the offset exceeds
    the length. *)
Theorem pop_buf_len_counts_offset_twice b :
  buf_wf b -> b_size b < 2 ^ 63 ->
  (buf_len b = b_length b <-> b_offset b = 0) /\
  (b_length b < b_offset b -> b_size b < buf_len b) /\
  (forall n, 0 < n <= b_length b -> b_offset b = 0 -> b_length b < 2 * n ->
     b_size b < buf_len (buf_pull b n).1).
Proof.
  intros [Ho Hl Hf [Hv1 Hv2]] Hs. unfold buf_len. split_and!.
  - wrap_lia.
  - intros H. wrap_lia.
  - intros n Hn E H. unfold buf_pull. replace (_ <? _) with false by lia. simpl. rewrite E.
    wrap_lia.
Qed.

Lemma pop_buf_len_counts_offset_twice_witness : b_size buf8 < buf_len (buf_pull buf8 5).1.
Proof.
  destruct (pop_buf_len_counts_offset_twice buf8) as (_ & _ & H); [constructor; simpl; lia|simpl; lia|].
  apply H; simpl; lia.
Defined.

(** The four window operations undo each other: push after pull and trim
    after put with the same length give back the buffer, and each succeeds when
    its partner did. *)
Theorem window_ops_undo b n :
  buf_wf b -> 0 <= n <= 2 ^ 64 - 1 - b_size b ->
  (is_Some (buf_pull b n).2 ->
     buf_push (buf_pull b n).1 n = (b, Some (b_vaddr b + b_offset b))) /\
  (is_Some (buf_put b n).2 ->
     buf_trim (buf_put b n).1 n = (b, Some (b_vaddr b + b_offset b))).
Proof.
  intros [Ho Hl Hf [Hv1 Hv2]] Hn. split.
  - unfold buf_pull. destruct (_ <? _) eqn:H; [by intros []|]. intros _.
    unfold buf_push, set_window, buf_data; simpl. unwrap.
    replace (_ <? _) with false by lia. unwrap. destruct b; simpl in *. repeat f_equal; lia.
  - unfold buf_put. destruct (_ <? _) eqn:H; [by intros []|]. intros _.
    revert H. unfold buf_trim, set_window, buf_data; simpl. unwrap. intros H.
    unwrap. replace (_ <? _) with false by lia. unwrap.
    destruct b; simpl in *. repeat f_equal; lia.
Qed.

Lemma window_ops_undo_witness :
  buf_push (buf_pull buf8 3).1 3 = (buf8, Some 0x7f0000000000).
Proof.
  apply (window_ops_undo buf8 3); [constructor; simpl; lia|simpl; lia|eexists; reflexivity].
Defined.

(** [pop_virt_to_phys] agrees with [pop_buf_paddr]: for a buffer of the
    pop memory, the address of the k-th byte of its data translates to its
    physical address plus k.  An address below the region or more than one past
    its end translates to 0, and the address one past the end is still
    accepted. *)
Theorem pop_virt_to_phys_agrees m b k :
  mem_ok m -> m_num_pages m * 4096 = m_size m -> buf_within m (m_num_pages m) b -> buf_wf b ->
  0 <= k <= b_length b ->
  virt_to_phys_in m (buf_data b + k) = buf_paddr b + k /\
  (forall v, v < m_mem m \/ m_mem m + m_size m < v -> virt_to_phys_in m v = 0) /\
  virt_to_phys_in m (m_mem m + m_size m) = m_paddr m + m_size m.
Proof.
  intros [Hnum Hall Hmem Hpa] Hsz (H1 & H2 & H3 & H4) [Ho Hl Hf [Hv1 Hv2]] Hk.
  unfold virt_to_phys_in, buf_data, buf_paddr. unwrap. split_and!.
  - rewrite orb_false_intro by lia. unwrap. lia.
  - intros v Hv. rewrite (proj2 (orb_true_iff _ _)); [done|lia].
  - rewrite orb_false_intro by lia. unwrap. lia.
Qed.

Lemma pop_virt_to_phys_agrees_witness :
  virt_to_phys_in mem4 (buf_data buf8 + 7) = 0x100000007.
Proof.
  refine (eq_trans (proj1 (pop_virt_to_phys_agrees mem4 buf8 7 _ _ _ _ _)) _);
    [apply mem_okb_ok; reflexivity|reflexivity|unfold buf_within; simpl; lia
    |constructor; simpl; lia|simpl; lia|reflexivity].
Defined.
