(* ===== verification/PopBufThreads.v ===== *)
(** * lib/libpop.c: threads that share a pop memory

    [pop_buf_alloc] of PopBuf.v cut into the steps between which another thread
    can run: taking the mutex, each round of the page count, the check, malloc,
    each read of the shared counter, the stores, and the unlock.  Any number of
    threads make such steps in any order, and calls of [pop_buf_free] and the
    window operations in between, each of which is one step.

    The theorems: the steps of one thread on its own are [pop_buf_alloc]; every
    interleaving is a sequence of undivided calls, each of which takes effect
    between its call and its return; and no interleaving faults or deadlocks. *)

From S2P Require Import Prelude CStr LibpopH PopBuf.

(** ** The steps of one thread *)

(** Where a thread stands in [pop_buf_alloc], with its local variables. *)
Inductive pc : Type :=
  | Idle                                       (* outside of the function *)
  | Lock (size : Z)
  | Count (size nr_pages : Z)                  (* in the for loop *)
  | Check (size nr_pages : Z)                  (* at the if *)
  | Alloc (size nr_pages : Z)                  (* at malloc *)
  | Vaddr (size nr_pages : Z) (l : loc)        (* reads alloced_pages for vaddr *)
  | Paddr (size nr_pages : Z) (l : loc) (v : Z)
  | Fill (size nr_pages : Z) (l : loc) (v p : Z)
  | LoadCount (nr_pages : Z) (l : loc)         (* alloced_pages += nr_pages: reads *)
  | StoreCount (nr_pages : Z) (l : loc) (n : Z)  (* ... and writes *)
  | Unlock (pbuf : option loc).

#[export] Instance idle_dec p : Decision (p = Idle).
Proof. destruct p; (by left) || by right. Defined.

Section steps.
Context {W : Type}.

(** One step inside the function; [inr] is the return.  A thread outside of
    the function or before a mutex that is held has no step. *)
Definition alloc_step (lm : loc) (p : pc) : M (proc W) (pc + option loc) :=
  match p with
  | Idle => diverge
  | Lock size => _ ← pthread_mutex_lock lm; mret (inl (Count size 0))
  | Count size nr =>
      r ← count_pages_body size nr;
      mret (inl (match r with inl nr' => Count size nr' | inr nr' => Check size nr' end))
  | Check size nr =>
      m ← load_mem lm;
      if m_num_pages m -64 m_alloced_pages m <? nr then
        _ ← set_errno ENOBUFS; mret (inl (Unlock None))
      else mret (inl (Alloc size nr))
  | Alloc size nr =>
      pbuf ← malloc;
      mret (inl (match pbuf with None => Unlock None | Some l => Vaddr size nr l end))
  | Vaddr size nr l =>
      m ← load_mem lm;
      mret (inl (Paddr size nr l (m_mem m +64 (m_alloced_pages m <<64 PAGE_SHIFT))))
  | Paddr size nr l v =>
      m ← load_mem lm;
      mret (inl (Fill size nr l v (m_paddr m +64 (m_alloced_pages m <<64 PAGE_SHIFT))))
  | Fill size nr l v p =>
      _ ← store_buf l (PopBuf lm v p (nr <<64 PAGE_SHIFT) 0 0);
      mret (inl (LoadCount nr l))
  | LoadCount nr l => m ← load_mem lm; mret (inl (StoreCount nr l (m_alloced_pages m)))
  | StoreCount nr l n =>
      m ← load_mem lm;
      _ ← store_mem lm (set_alloced m (n +64 nr));
      mret (inl (Unlock (Some l)))
  | Unlock pbuf => _ ← pthread_mutex_unlock lm; mret (inr pbuf)
  end.

(** ** Threads *)

(** [errno] is a variable of the thread. *)
Record thread : Type := Thread { t_pc : pc; t_errno : Z }.

(** What a call returned: the buffer, or [errno]. *)
Definition result (pbuf : option loc) (errno : Z) : loc + Z :=
  match pbuf with Some l => inl l | None => inr errno end.

Inductive label : Type :=
  | LCall (t : nat) (size : Z)                    (* enters pop_buf_alloc *)
  | LStep (t : nat) (effect : option (Z * (loc + Z)))   (* a step; the call's effect *)
  | LReturn (t : nat) (r : loc + Z)
  | LClient (t : nat) (c : call).                 (* a call of one step *)

Definition label_tid (lb : label) : nat :=
  match lb with LCall t _ | LStep t _ | LReturn t _ | LClient t _ => t end.

(** The step at which a call takes effect, with its size and result: where it
    fails, or where the buffer is written. *)
Definition effect (p p' : pc) (errno : Z) : option (Z * (loc + Z)) :=
  match p, p' with
  | Check size _, Unlock None | Alloc size _, Unlock None => Some (size, inr errno)
  | Fill size _ l _ _, LoadCount _ _ => Some (size, inl l)
  | _, _ => None
  end.

Definition single_step (c : call) : bool := match c with CAlloc _ => false | _ => true end.

(** The process and its threads; the [errno] field of the process stands for
    that of the thread that runs. *)
Inductive thread_step (lm : loc) : proc W * list thread -> label -> proc W * list thread -> Prop :=
  | step_call s ts t e size :
      ts !! t = Some (Thread Idle e) -> 0 <= size < 2 ^ 64 ->
      thread_step lm (s, ts) (LCall t size) (s, <[t:=Thread (Lock size) e]> ts)
  | step_run s ts t p e p' s' :
      ts !! t = Some (Thread p e) ->
      alloc_step lm p (with_errno e s) = Ret (inl p', s') ->
      thread_step lm (s, ts) (LStep t (effect p p' (p_errno s')))
        (s', <[t:=Thread p' (p_errno s')]> ts)
  | step_return s ts t p e pbuf s' :
      ts !! t = Some (Thread p e) ->
      alloc_step lm p (with_errno e s) = Ret (inr pbuf, s') ->
      thread_step lm (s, ts) (LReturn t (result pbuf (p_errno s')))
        (s', <[t:=Thread Idle (p_errno s')]> ts)
  | step_client s ts t e c s' :
      ts !! t = Some (Thread Idle e) -> single_step c = true ->
      call_step lm s c s' ->
      thread_step lm (s, ts) (LClient t c) (s', ts).

(** ** The specification: undivided calls *)

Inductive event : Type := EAlloc (t : nat) (size : Z) (r : loc + Z) | EClient (t : nat) (c : call).

Definition atomic_step (lm : loc) (s : proc W) (ev : event) (s' : proc W) : Prop :=
  match ev with
  | EAlloc _ size r =>
      0 <= size < 2 ^ 64 /\
      exists pbuf, pop_buf_alloc lm size s = Ret (pbuf, s') /\ r = result pbuf (p_errno s')
  | EClient _ c => call_step lm s c s'
  end.

(** The calls in the order in which they take effect. *)
Definition effects (lb : label) : option event :=
  match lb with
  | LStep t (Some (size, r)) => Some (EAlloc t size r)
  | LClient t c => Some (EClient t c)
  | _ => None
  end.

(** What a thread's own labels say: it calls, the call takes effect, and it
    returns what the effect was. *)
Variant view : Type := VIdle | VPending (size : Z) | VDecided (r : loc + Z).

Definition view_step (v : option view) (lb : label) : option view :=
  match v, lb with
  | Some VIdle, LCall _ size => Some (VPending size)
  | Some v, LStep _ None => Some v
  | Some (VPending size), LStep _ (Some (size', r)) =>
      if size =? size' then Some (VDecided r) else None
  | Some (VDecided r), LReturn _ r' => if decide (r = r') then Some VIdle else None
  | Some VIdle, LClient _ _ => Some VIdle
  | _, _ => None
  end.

Definition thread_view (t : nat) (ls : list label) : option view :=
  foldl view_step (Some VIdle) (filter (fun lb => label_tid lb = t) ls).

Definition view_of (th : thread) : view :=
  match t_pc th with
  | Idle => VIdle
  | Lock size | Count size _ | Check size _ | Alloc size _ | Vaddr size _ _ | Paddr size _ _ _
  | Fill size _ _ _ _ => VPending size
  | LoadCount _ l | StoreCount _ l _ => VDecided (inl l)
  | Unlock pbuf => VDecided (result pbuf (t_errno th))
  end.
End steps.

(** ** Proofs: the state while a thread is inside *)

Definition in_alloc (p : pc) : bool := match p with Idle | Lock _ => false | _ => true end.

(** Pages of the buffer that is written but not yet counted, and the object
    that is allocated but not yet written. *)
Definition uncounted (p : pc) : Z :=
  match p with LoadCount nr _ | StoreCount nr _ _ => nr | _ => 0 end.
Definition unwritten (p : pc) : option loc :=
  match p with Vaddr _ _ l | Paddr _ _ l _ | Fill _ _ l _ _ => Some l | _ => None end.

(** A request that the page count can reach. *)
Definition counted (size nr : Z) : Prop := 0 <= size <= 2 ^ 64 - 4096 /\ nr = pages_for size.

Section proofs.
Context {W : Type} (lm : loc) (m0 : pop_mem).
Implicit Type s sa : proc W.

(** What the local variables of the thread that holds the mutex mean, [n]
    pages being handed out. *)
Definition locals_ok (n : Z) (p : pc) : Prop :=
  match p with
  | Idle | Lock _ | Unlock _ => True
  | Count size k =>
      0 <= size < 2 ^ 64 /\ 0 <= k < 2 ^ 64 /\ (size <= 2 ^ 64 - 4096 -> k <= pages_for size)
  | Check size nr => counted size nr
  | Alloc size nr | Vaddr size nr _ => counted size nr /\ nr <= m_num_pages m0 - n
  | Paddr size nr _ v =>
      (counted size nr /\ nr <= m_num_pages m0 - n) /\ v = m_mem m0 + n * 4096
  | Fill size nr _ v pa =>
      (counted size nr /\ nr <= m_num_pages m0 - n) /\ v = m_mem m0 + n * 4096
      /\ pa = m_paddr m0 + n * 4096
  | LoadCount nr _ => 0 <= nr <= m_num_pages m0 - n
  | StoreCount nr _ k => 0 <= nr <= m_num_pages m0 - n /\ k = n
  end.

(** The state [sa] that the calls which have taken effect make of the process
    when they are not divided. *)
Record undivided (p : pc) (n : Z) s sa : Prop := Undivided {
  un_mem : p_mems s !! lm = Some (set_mutex (set_alloced m0 n) (in_alloc p));
  un_mems : p_mems sa = <[lm:=set_alloced m0 (n + uncounted p)]> (p_mems s);
  un_bufs : p_bufs sa = p_bufs s;
  un_next : match unwritten p with
            | Some l => p_next sa = l /\ p_next s = Pos.succ l /\ head (p_oom sa) <> Some true
                        /\ p_oom s = tail (p_oom sa)
            | None => p_next sa = p_next s /\ p_oom sa = p_oom s
            end;
  un_rings : p_rings sa = p_rings s;
  un_rxrings : p_rxrings sa = p_rxrings s;
  un_verbose : p_verbose sa = p_verbose s;
  un_os : p_os sa = p_os s
}.

(** At most one thread is inside; [p] is where it stands, or [Idle]. *)
Definition holder (ts : list thread) (p : pc) : Prop :=
  (p = Idle /\ forall t th, ts !! t = Some th -> in_alloc (t_pc th) = false) \/
  (exists t0 e0, ts !! t0 = Some (Thread p e0) /\ in_alloc p = true /\
     forall t th, t <> t0 -> ts !! t = Some th -> in_alloc (t_pc th) = false).

Record shared (s : proc W) (ts : list thread) sa : Prop := Shared {
  sh_arena : arena lm m0 sa;
  sh_sizes : forall t size e, ts !! t = Some (Thread (Lock size) e) -> 0 <= size < 2 ^ 64;
  sh_holder : exists p n, holder ts p /\ locals_ok n p /\ undivided p n s sa
}.

(** ** One step of the thread that holds the mutex *)

Definition follows (p p' : pc) (s' sa sa' : proc W) : Prop :=
  match effect p p' (p_errno s') with
  | None => sa' = sa
  | Some (size, r) =>
      0 <= size < 2 ^ 64 /\
      exists pbuf, pop_buf_alloc lm size sa = Ret (pbuf, sa') /\ r = result pbuf (p_errno sa')
  end.

Definition step_inside (p : pc) (n : Z) s sa : Prop :=
  exists r s', alloc_step lm p s = Ret (r, s') /\
  match r with
  | inl p' =>
      in_alloc p' = true /\
      (view_step (Some (view_of (Thread p (p_errno s)))) (LStep 0 (effect p p' (p_errno s')))
       = Some (view_of (Thread p' (p_errno s')))) /\
      exists n' sa', locals_ok n' p' /\ undivided p' n' s' sa' /\ follows p p' s' sa sa'
  | inr pbuf => p = Unlock pbuf /\ p_errno s' = p_errno s /\ undivided Idle n s' sa
  end.

Lemma undivided_arena p n s sa :
  undivided p n s sa -> arena lm m0 sa ->
  p_mems sa !! lm = Some (set_alloced m0 (n + uncounted p)) /\
  mem_ok (set_alloced m0 (n + uncounted p)) /\ m_mutex m0 = false.
Proof.
  intros [_ Hms _ _ _ _ _ _] [(n' & Hm & Hok & _) Hmu _ _].
  rewrite Hms, lookup_insert_eq in Hm. rewrite Hms, lookup_insert_eq.
  injection Hm as E. rewrite E. done.
Qed.

(** A step that only changes local variables. *)
Lemma undivided_local p p' n s sa :
  undivided p n s sa -> in_alloc p' = in_alloc p -> uncounted p' = uncounted p ->
  unwritten p' = unwritten p -> undivided p' n s sa.
Proof. intros [] E1 E2 E3. constructor; rewrite ?E1, ?E2, ?E3; done. Qed.

Lemma load_shared p n s sa :
  undivided p n s sa -> load_mem lm s = Ret (set_mutex (set_alloced m0 n) (in_alloc p), s).
Proof. intros H. apply load_mem_Some. apply H. Qed.

Lemma count_inside size k n s sa :
  undivided (Count size k) n s sa -> locals_ok n (Count size k) -> step_inside (Count size k) n s sa.
Proof.
  intros Hu (Hs & Hk & Hle). unfold step_inside. simpl. unfold count_pages_body, PAGE_SHIFT.
  rewrite shiftl_12. destruct (proj1 (pages_for_spec size (pages_for size)) eq_refl).
  destruct (_ <? size) eqn:Hlt; eexists _, s; (split; [done|]); simpl; (split; [done|]);
    (split; [done|]); exists n, sa; (split; [|split; [by eapply undivided_local|done]]).
  - split; [done|]. split; [apply u64_range|]. intros Hle'. specialize (Hle Hle'). wrap_lia.
  - assert (size <= 2 ^ 64 - 4096) as Hle' by wrap_lia. specialize (Hle Hle').
    rewrite u64_small in Hlt by lia. split; [lia|]. lia.
Qed.

Lemma check_inside size k n s sa :
  arena lm m0 sa -> undivided (Check size k) n s sa -> locals_ok n (Check size k) ->
  step_inside (Check size k) n s sa.
Proof.
  intros Ha Hu [Hs ->]. unfold step_inside. simpl.
  destruct (undivided_arena _ _ _ _ Hu Ha) as (Hm & Hok & Hmu).
  rewrite (bind_ret _ _ _ _ _ (load_shared _ _ _ _ Hu)). simpl. simpl in Hm, Hok.
  rewrite Z.add_0_r in Hm, Hok. pose proof Hok as [? ? _ _]. simpl in *. rewrite u64_small by lia.
  pose proof (pop_buf_alloc_eq lm size sa _ Hm Hok Hmu Hs) as Eq. simpl in Eq.
  destruct (_ <? _) eqn:Hlt; eexists _, _; (split; [done|]); simpl; (split; [done|]).
  - rewrite Z.eqb_refl. split; [done|]. exists n, (with_errno ENOBUFS sa).
    split; [done|]. split; [|unfold follows; simpl; split; [lia|by exists None]].
    destruct Hu; constructor; simpl in *; done.
  - split; [done|]. exists n, sa. split; [split; [by split|lia]|split; [by eapply undivided_local|done]].
Qed.

Lemma alloc_inside size k n s sa :
  arena lm m0 sa -> undivided (Alloc size k) n s sa -> locals_ok n (Alloc size k) ->
  step_inside (Alloc size k) n s sa.
Proof.
  intros Ha Hu [[Hs ->] Hle]. unfold step_inside. simpl.
  destruct (undivided_arena _ _ _ _ Hu Ha) as (Hm & Hok & Hmu). simpl in Hm, Hok.
  rewrite Z.add_0_r in Hm, Hok.
  pose proof (pop_buf_alloc_eq lm size sa _ Hm Hok Hmu Hs) as Eq. simpl in Eq.
  replace (_ <? _) with false in Eq by lia.
  destruct Hu as [U1 U2 U3 [U4 U4'] U5 U6 U7 U8]. rewrite U4' in Eq. simpl in *.
  unfold malloc, mbind, M_bind. destruct (p_oom s) as [|[] o] eqn:Ho; simpl.
  2: { eexists _, _. split; [done|]. simpl. rewrite Z.eqb_refl. split_and!; [done|done|].
       eexists n, _. split; [done|split; [|unfold follows; simpl; split; [lia|]; exists None; split; [exact Eq|done]]].
       constructor; simpl; try done. }
  all: eexists _, _; (split; [done|]); simpl; (split_and!; [done|done|]); exists n, sa;
    (split; [done|split; [|done]]); constructor; simpl; rewrite ?U4', ?Ho; done.
Qed.

Lemma fill_inside size k l v pa n s sa :
  arena lm m0 sa -> undivided (Fill size k l v pa) n s sa -> locals_ok n (Fill size k l v pa) ->
  step_inside (Fill size k l v pa) n s sa.
Proof.
  intros Ha Hu ([[Hs ->] Hle] & -> & ->). unfold step_inside. simpl.
  destruct (undivided_arena _ _ _ _ Hu Ha) as (Hm & Hok & Hmu). simpl in Hm, Hok.
  rewrite Z.add_0_r in Hm, Hok.
  destruct (proj1 (pages_for_spec size (pages_for size)) eq_refl).
  pose proof (pop_buf_alloc_eq lm size sa _ Hm Hok Hmu Hs) as Eq. simpl in Eq.
  replace (_ <? _) with false in Eq by lia.
  destruct Hu as [U1 U2 U3 (U4 & U4' & U4h & U4o) U5 U6 U7 U8]. simpl in *.
  eexists _, _; (split; [done|]); simpl; rewrite Z.eqb_refl. split_and!; [done|done|].
  eexists n, (alloced_state lm (set_alloced m0 n) (pages_for size) (tail (p_oom sa)) sa).
  split; [simpl; lia|split].
  - constructor; simpl; rewrite ?U2, ?insert_insert_eq, ?U3, ?U4, ?U4', ?U4o; try done.
    unfold next_buf, PAGE_SHIFT. simpl. by rewrite shiftl_12, u64_small by lia.
  - unfold follows; simpl. split; [lia|]. exists (Some l). split; [|done].
    rewrite Eq, <- U4. destruct (p_oom sa) as [|[] o]; done.
Qed.

Lemma store_inside k l c n s sa :
  arena lm m0 sa -> undivided (StoreCount k l c) n s sa -> locals_ok n (StoreCount k l c) ->
  step_inside (StoreCount k l c) n s sa.
Proof.
  intros Ha Hu [Hk ->]. unfold step_inside. simpl.
  destruct (undivided_arena _ _ _ _ Hu Ha) as (Hm & [? ? _ _] & _). simpl in *.
  rewrite (bind_ret _ _ _ _ _ (load_shared _ _ _ _ Hu)). unfold store_mem, modify, mbind, M_bind. simpl.
  eexists _, _. split; [done|]. simpl. split_and!; [done|done|]. exists (n + k), sa.
  split; [done|split; [|done]]. destruct Hu as [U1 U2 U3 U4 U5 U6 U7 U8]. simpl in *.
  constructor; simpl; try done; rewrite u64_small by lia.
  - by rewrite lookup_insert_eq.
  - by rewrite insert_insert_eq, Z.add_0_r.
Qed.

Lemma unlock_inside pbuf n s sa :
  arena lm m0 sa -> undivided (Unlock pbuf) n s sa -> step_inside (Unlock pbuf) n s sa.
Proof.
  intros Ha Hu. unfold step_inside. simpl.
  destruct Hu as [U1 U2 U3 U4 U5 U6 U7 U8]. simpl in *. pose proof Ha as [_ Hmu _ _].
  rewrite (bind_ret _ _ _ _ _ (mutex_unlock_held _ _ _ U1)).
  eexists _, _. split; [done|]. simpl. split_and!; [done|done|].
  assert (set_mutex (set_mutex (set_alloced m0 n) true) false = set_alloced m0 n) as E
    by (unfold set_mutex, set_alloced; simpl; by rewrite Hmu).
  constructor; simpl; rewrite ?E; try done.
  - rewrite lookup_insert_eq. unfold set_mutex, set_alloced; simpl. by rewrite Hmu.
  - by rewrite insert_insert_eq.
Qed.

(** Every step inside the function succeeds and does its part of the call. *)
Lemma alloc_step_inside p n s sa :
  arena lm m0 sa -> undivided p n s sa -> locals_ok n p -> in_alloc p = true -> step_inside p n s sa.
Proof.
  intros Ha Hu Hl Hin. destruct p; try done.
  - by apply count_inside.
  - by apply check_inside.
  - by apply alloc_inside.
  - unfold step_inside. simpl. rewrite (bind_ret _ _ _ _ _ (load_shared _ _ _ _ Hu)).
    eexists _, s. split; [done|]. simpl. split_and!; [done|done|]. exists n, sa.
    split; [|split; [by eapply undivided_local|done]]. destruct Hl as [Hc Hle].
    destruct (undivided_arena _ _ _ _ Hu Ha) as (_ & [? ? [? ?] _] & _). simpl in *.
    unfold PAGE_SHIFT. rewrite shiftl_12. by unwrap.
  - unfold step_inside. simpl. rewrite (bind_ret _ _ _ _ _ (load_shared _ _ _ _ Hu)).
    eexists _, s. split; [done|]. simpl. split_and!; [done|done|]. exists n, sa.
    split; [|split; [by eapply undivided_local|done]]. destruct Hl as [[Hc Hle] Hv].
    destruct (undivided_arena _ _ _ _ Hu Ha) as (_ & [? ? _ [? ?]] & _). simpl in *.
    unfold PAGE_SHIFT. rewrite shiftl_12. by unwrap.
  - by apply fill_inside.
  - unfold step_inside. simpl. rewrite (bind_ret _ _ _ _ _ (load_shared _ _ _ _ Hu)).
    eexists _, s. split; [done|]. simpl. split_and!; [done|done|]. exists n, sa.
    split; [done|split; [by eapply undivided_local|done]].
  - by apply store_inside.
  - by apply unlock_inside.
Qed.

(** ** Steps of the whole process *)

Lemma undivided_errno p n s sa e : undivided p n s sa -> undivided p n (with_errno e s) sa.
Proof. by intros []. Qed.

Lemma lock_outside size n s sa :
  arena lm m0 sa -> undivided Idle n s sa ->
  exists s', alloc_step lm (Lock size) s = Ret (inl (Count size 0), s') /\
    p_errno s' = p_errno s /\ undivided (Count size 0) n s' sa.
Proof.
  intros Ha [U1 U2 U3 U4 U5 U6 U7 U8]. pose proof Ha as [_ Hmu _ _]. simpl in *.
  rewrite (bind_ret _ _ _ _ _ (mutex_lock_free _ _ _ U1 eq_refl)).
  eexists. split; [done|]. split; [done|]. constructor; simpl; try done.
  - by rewrite lookup_insert_eq.
  - by rewrite insert_insert_eq.
Qed.

Lemma lock_held size p n s sa :
  undivided p n s sa -> in_alloc p = true -> alloc_step lm (Lock size) s = Diverge.
Proof.
  intros Hu Hin. simpl. apply bind_diverge. unfold pthread_mutex_lock.
  rewrite (bind_ret _ _ _ _ _ (load_shared _ _ _ _ Hu)). simpl. by rewrite Hin.
Qed.

(** A call of one step does the same to two processes with the same buffers. *)
Lemma single_step_bufs c s s' sa :
  single_step c = true -> run_call lm c s = Ret ((), s') -> p_bufs sa = p_bufs s ->
  exists bs, s' = with_bufs bs s /\ run_call lm c sa = Ret ((), with_bufs bs sa).
Proof.
  intros Hc Hr Hb. destruct c as [size|l|l len|l len|l len|l len]; simpl in *; [done|..];
    revert Hr; unfold pop_buf_free, pop_buf_put, pop_buf_trim, pop_buf_pull, pop_buf_push, buf_op,
      load_buf, gets, require, throw, free_buf, store_buf, modify, mbind, M_bind; rewrite Hb;
    destruct (p_bufs s !! l) as [b|]; simpl; try done.
  - intros [= <-]. eexists. split; [done|]. by rewrite Hb.
  - destruct (buf_put b len). intros [= <-]. eexists. split; [done|]. by rewrite Hb.
  - destruct (buf_trim b len). intros [= <-]. eexists. split; [done|]. by rewrite Hb.
  - destruct (buf_pull b len). intros [= <-]. eexists. split; [done|]. by rewrite Hb.
  - destruct (buf_push b len). intros [= <-]. eexists. split; [done|]. by rewrite Hb.
Qed.

Lemma undivided_bufs p n s sa bs :
  undivided p n s sa -> undivided p n (with_bufs bs s) (with_bufs bs sa).
Proof. intros []. by constructor. Qed.

Lemma atomic_step_arena s ev s' : arena lm m0 s -> atomic_step lm s ev s' -> arena lm m0 s'.
Proof.
  destruct ev as [t size r|t c]; simpl.
  - intros Ha (Hs & pbuf & E & _). by eapply arena_alloc_call.
  - apply call_step_arena.
Qed.

(** ** The thread that holds the mutex *)

Lemma holder_inside ts p t q e :
  holder ts p -> ts !! t = Some (Thread q e) -> in_alloc q = true -> q = p.
Proof.
  intros [[_ H]|(t0 & e0 & H0 & _ & H)] Ht Hq.
  - specialize (H _ _ Ht). simpl in H. congruence.
  - destruct (decide (t = t0)) as [->|Hne]; [congruence|].
    specialize (H _ _ Hne Ht). simpl in H. congruence.
Qed.

(** The other threads stay outside. *)
Lemma outside_others ts p t q e th' t' th :
  holder ts p -> ts !! t = Some (Thread q e) -> (in_alloc q = true \/ p = Idle) ->
  t' <> t -> <[t:=th']> ts !! t' = Some th -> in_alloc (t_pc th) = false.
Proof.
  intros Hh Ht Hq Hne. rewrite list_lookup_insert_ne by done. intros Ht'.
  destruct Hh as [[_ H]|(t0 & e0 & H0 & Hp & H)]; [eauto|].
  destruct Hq as [Hq| ->]; [|done].
  destruct (decide (t = t0)) as [->|Hne0]; [eauto|].
  specialize (H _ _ Hne0 Ht). simpl in H. congruence.
Qed.

Lemma holder_goes ts p t q e p' e' :
  holder ts p -> ts !! t = Some (Thread q e) -> (in_alloc q = true \/ p = Idle) ->
  in_alloc p' = true -> holder (<[t:=Thread p' e']> ts) p'.
Proof.
  intros Hh Ht Hq Hp'. right. exists t, e'. split_and!; [|done|].
  - apply list_lookup_insert_eq. by eapply lookup_lt_Some.
  - intros t' th Hne Ht'. by eapply outside_others.
Qed.

Lemma holder_leaves ts p t q e e' :
  holder ts p -> ts !! t = Some (Thread q e) -> in_alloc q = true ->
  holder (<[t:=Thread Idle e']> ts) Idle.
Proof.
  intros Hh Ht Hq. left. split; [done|]. intros t' th Ht'.
  destruct (decide (t' = t)) as [->|Hne].
  - rewrite list_lookup_insert_eq in Ht' by (by eapply lookup_lt_Some). by injection Ht' as <-.
  - by eapply outside_others; eauto.
Qed.

Lemma holder_outside ts p t q e q' e' :
  holder ts p -> ts !! t = Some (Thread q e) -> in_alloc q = false -> in_alloc q' = false ->
  holder (<[t:=Thread q' e']> ts) p.
Proof.
  intros Hh Ht Hq Hq'.
  assert (forall t' th, <[t:=Thread q' e']> ts !! t' = Some th ->
    ts !! t' = Some th \/ in_alloc (t_pc th) = false) as Hsome.
  { intros t' th [(-> & <- & _)|[_ H]]%list_lookup_insert_Some; [by right|by left]. }
  destruct Hh as [[-> H]|(t0 & e0 & H0 & Hp & H)].
  - left. split; [done|]. intros t' th [H'|H']%Hsome; [eauto|done].
  - right. assert (t <> t0) by congruence. exists t0, e0.
    rewrite list_lookup_insert_ne by done. split_and!; [done|done|].
    intros t' th Hne [H'|H']%Hsome; [eauto|done].
Qed.

(** ** Every step of the process is a step of undivided calls, or of none *)

Definition matches (sa : proc W) (lb : label) (sa' : proc W) : Prop :=
  match effects lb with None => sa' = sa | Some ev => atomic_step lm sa ev sa' end.

(** The label moves the view of its thread. *)
Definition view_moves (ts : list thread) (lb : label) (ts' : list thread) : Prop :=
  exists th th', ts !! label_tid lb = Some th /\ ts' = <[label_tid lb:=th']> ts /\
    view_step (Some (view_of th)) lb = Some (view_of th').

Lemma sizes_update (ts : list thread) (t : nat) (th : thread) :
  (forall (t : nat) size e, ts !! t = Some (Thread (Lock size) e) -> 0 <= size < 2 ^ 64) ->
  (forall size e, th = Thread (Lock size) e -> 0 <= size < 2 ^ 64) ->
  forall (t' : nat) size e, <[t:=th]> ts !! t' = Some (Thread (Lock size) e) -> 0 <= size < 2 ^ 64.
Proof. intros H Hth t' size e [(_ & E & _)|[_ E]]%list_lookup_insert_Some; eauto. Qed.

Lemma run_step_shared s ts sa t p e p' s' :
  shared s ts sa -> ts !! t = Some (Thread p e) ->
  alloc_step lm p (with_errno e s) = Ret (inl p', s') ->
  let lb := LStep t (effect p p' (p_errno s')) in
  let ts' := <[t:=Thread p' (p_errno s')]> ts in
  exists sa', shared s' ts' sa' /\ matches sa lb sa' /\ view_moves ts lb ts'.
Proof.
  intros [Ha Hsz (q & n & Hh & Hl & Hu)] Ht Hr lb ts'.
  pose proof (undivided_errno _ _ _ _ e Hu) as Hue.
  destruct (in_alloc p) eqn:Hin.
  - pose proof (holder_inside _ _ _ _ _ Hh Ht Hin) as ->.
    destruct (alloc_step_inside q n _ sa Ha Hue Hl Hin) as (r & s1 & Hr' & Hk).
    rewrite Hr in Hr'. injection Hr' as <- <-. simpl in Hk.
    destruct Hk as (Hin' & Hv & n' & sa' & Hl' & Hu' & Hf).
    assert (matches sa lb sa') as Hm.
    { unfold matches, lb, follows in *. simpl. by destruct (effect _ _ _) as [[size r]|]. }
    exists sa'. split_and!; [|done|].
    + constructor; [|apply sizes_update; [done|intros size e' [= -> _]; done]|].
      * revert Hm. unfold matches. destruct (effects lb) eqn:E; [by apply atomic_step_arena|by intros ->].
      * exists p', n'. split_and!; [|done|done]. eapply holder_goes; eauto.
    + exists (Thread q e), (Thread p' (p_errno s')). split_and!; [done|done|exact Hv].
  - destruct p as [|size| | | | | | | | |]; try done.
    destruct (in_alloc q) eqn:Hinq.
    { by rewrite (lock_held size q n _ sa Hue Hinq) in Hr. }
    assert (q = Idle) as -> by (destruct Hh as [[-> _]|(? & ? & _ & ? & _)]; congruence).
    destruct (lock_outside size n _ sa Ha Hue) as (s1 & Hr' & He & Hu').
    rewrite Hr in Hr'. injection Hr' as -> <-. exists sa. split_and!; [|done|].
    + constructor; [done|apply sizes_update; [done|by intros ? ? [=]]|].
      exists (Count size 0), n. specialize (Hsz _ _ _ Ht).
      split_and!; [eapply holder_goes; eauto|simpl|exact Hu'].
      split_and!; try lia. intros _. unfold pages_for. Z.to_euclidean_division_equations. lia.
    + exists (Thread (Lock size) e), (Thread (Count size 0) (p_errno s')). by split_and!.
Qed.

Lemma return_step_shared s ts sa t p e pbuf s' :
  shared s ts sa -> ts !! t = Some (Thread p e) ->
  alloc_step lm p (with_errno e s) = Ret (inr pbuf, s') ->
  let lb := LReturn t (result pbuf (p_errno s')) in
  let ts' := <[t:=Thread Idle (p_errno s')]> ts in
  shared s' ts' sa /\ view_moves ts lb ts'.
Proof.
  intros [Ha Hsz (q & n & Hh & Hl & Hu)] Ht Hr lb ts'.
  pose proof (undivided_errno _ _ _ _ e Hu) as Hue.
  assert (in_alloc p = true) as Hin.
  { destruct p as [|size| | | | | | | | |]; try done. revert Hr. simpl.
    by intros (? & ? & _ & [=])%bind_Ret_inv. }
  pose proof (holder_inside _ _ _ _ _ Hh Ht Hin) as ->.
  destruct (alloc_step_inside q n _ sa Ha Hue Hl Hin) as (r & s1 & Hr' & Hk).
  rewrite Hr in Hr'. injection Hr' as <- <-. simpl in Hk. destruct Hk as (-> & He & Hu').
  split.
  - constructor; [done|apply sizes_update; [done|by intros ? ? [=]]|].
    exists Idle, n. split_and!; [by eapply holder_leaves|done|done].
  - exists (Thread (Unlock pbuf) e), (Thread Idle (p_errno s')). split_and!; [done|done|].
    simpl. rewrite He. simpl. by rewrite decide_True.
Qed.

Lemma thread_step_shared s ts sa lb s' ts' :
  shared s ts sa -> thread_step lm (s, ts) lb (s', ts') ->
  exists sa', shared s' ts' sa' /\ matches sa lb sa' /\ view_moves ts lb ts'.
Proof.
  intros Hsh Hst. inversion Hst; subst.
  - exists sa. destruct Hsh as [Ha Hsz (q & n & Hh & Hl & Hu)]. split_and!; [|done|].
    + constructor; [done|apply sizes_update; [done|by intros ? ? [= <- _]]|].
      exists q, n. split_and!; [by eapply holder_outside|done|done].
    + by exists (Thread Idle e), (Thread (Lock size) e).
  - by eapply run_step_shared.
  - exists sa. edestruct return_step_shared as [H1 H2]; [done..|]. by split_and!.
  - destruct Hsh as [Ha Hsz (q & n & Hh & Hl & Hu)].
    match goal with H : call_step _ _ _ _ |- _ => destruct H as [Hc Hr] end.
    destruct (single_step_bufs c s s' sa) as (bs & -> & Hr'); [done..|apply Hu|].
    assert (call_step lm sa c (with_bufs bs sa)) as Hca by done.
    exists (with_bufs bs sa). split_and!; [|done|].
    + constructor; [by eapply call_step_arena|done|].
      exists q, n. split_and!; [done|done|by apply undivided_bufs].
    + exists (Thread Idle e), (Thread Idle e). split_and!; [done| |done]. by rewrite list_insert_id.
Qed.
End proofs.

(** ** Runs *)

Section runs.
Context {W : Type} (lm : loc) (m0 : pop_mem).
Implicit Type s sa : proc W.

(** A process that starts with no buffers and all its threads outside. *)
Record start s (ts : list thread) : Prop := Start {
  st_mem : p_mems s !! lm = Some m0;
  st_ok : mem_ok m0;
  st_free : m_mutex m0 = false;
  st_bufs : p_bufs s = ∅;
  st_idle : Forall (fun th => t_pc th = Idle) ts
}.

Lemma start_shared s ts : start s ts -> shared lm m0 s ts s.
Proof.
  intros [Hm Hok Hmu Hb Hi].
  assert (set_alloced m0 (m_alloced_pages m0) = m0) as Em by (by destruct m0).
  assert (forall t th, ts !! t = Some th -> t_pc th = Idle) as Hi'
    by (intros t th Ht; by apply (Forall_lookup_1 _ _ _ _ Hi Ht)).
  constructor.
  - constructor; rewrite ?Hb; try done. exists (m_alloced_pages m0). by rewrite Em.
  - intros t size e Ht. by apply Hi' in Ht.
  - exists Idle, (m_alloced_pages m0). split_and!; [left; split; [done|] | done |].
    + intros t th Ht. by rewrite (Hi' _ _ Ht).
    + assert (set_mutex m0 false = m0) as Ef by (unfold set_mutex; rewrite <- Hmu; by destruct m0).
      constructor; simpl; try done; rewrite ?Z.add_0_r, Em; [by rewrite Ef|by rewrite insert_id].
Qed.

Lemma thread_view_snoc t ls lb :
  thread_view t (ls ++ [lb]) =
  if decide (label_tid lb = t) then view_step (thread_view t ls) lb else thread_view t ls.
Proof.
  unfold thread_view. rewrite filter_app, foldl_app.
  destruct (decide (label_tid lb = t)); [rewrite filter_cons_True by done|rewrite filter_cons_False by done]; done.
Qed.

(** The run of undivided calls that a run of the threads amounts to. *)
Lemma run_shared s ts ls st :
  start s ts -> steps (thread_step lm) (s, ts) ls st ->
  exists sa, steps (atomic_step lm) s (omap effects ls) sa /\ shared lm m0 st.1 st.2 sa /\
    length st.2 = length ts /\
    forall t th, st.2 !! t = Some th -> thread_view t ls = Some (view_of th).
Proof.
  intros Hs0 Hst. remember (s, ts) as st0 eqn:E0.
  induction Hst as [st0|st0 ls [s1 ts1] lb [s2 ts2] Hst IH Hstep]; subst st0.
  - exists s. split_and!; [constructor|by apply start_shared|done|].
    intros t th Ht. destruct Hs0 as [_ _ _ _ Hi]. apply (Forall_lookup_1 _ _ _ _ Hi) in Ht.
    unfold view_of. by rewrite Ht.
  - destruct (IH eq_refl) as (sa & Hsa & Hsh & Hlen & Hv). simpl in *.
    destruct (thread_step_shared lm m0 _ _ _ _ _ _ Hsh Hstep) as (sa' & Hsh' & Hm & th0 & th1 & H0 & -> & Hmv).
    exists sa'. rewrite omap_app. split_and!; [|done|by rewrite length_insert|].
    + simpl. unfold matches in Hm. destruct (effects lb) as [ev|]; [by econstructor|].
      subst sa'. by rewrite app_nil_r.
    + intros t th. rewrite thread_view_snoc.
      intros [(Et & <- & _)|[Hne Ht]]%list_lookup_insert_Some.
      * rewrite decide_True, <- Et, (Hv _ _ H0) by done. done.
      * rewrite decide_False by done. auto.
Qed.

(** ** One thread on its own *)

Lemma alloc_steps_count size n k s j :
  0 <= size <= 2 ^ 64 - 4096 -> 0 <= k -> k + Z.of_nat n = pages_for size ->
  iter_nat (alloc_step lm) (S n + j) (Count size k) s
  = iter_nat (alloc_step lm) j (Check size (pages_for size)) s.
Proof.
  intros Hsz. destruct (proj1 (pages_for_spec size (pages_for size)) eq_refl).
  revert k. induction n as [|n IH]; intros k Hk Hn.
  - replace k with (pages_for size) by lia. simpl. unfold count_pages_body, PAGE_SHIFT.
    rewrite shiftl_12, u64_small by lia. by replace (_ <? _) with false by lia.
  - rewrite <- (IH (k + 1)) by lia. simpl. unfold count_pages_body at 1, PAGE_SHIFT.
    rewrite shiftl_12, !u64_small by lia. by replace (_ <? _) with true by lia.
Qed.

(** Evaluates a step of the process [s] with [Hm : p_mems s !! lm = Some m]. *)
Ltac eval_step Hm :=
  cbn [alloc_step];
  unfold pthread_mutex_unlock, malloc, set_errno, store_buf, store_mem, load_mem, gets, modify,
    mbind, M_bind, mret, M_ret;
  simpl; rewrite ?Hm; simpl.

Lemma alloc_steps_rest size nr s :
  iter_nat (alloc_step lm) 8 (Check size nr) s =
  (m ← load_mem lm;
   pbuf ← (if m_num_pages m -64 m_alloced_pages m <? nr then _ ← set_errno ENOBUFS; mret None
           else pbuf ← malloc;
             match pbuf with
             | None => mret None
             | Some l =>
                 _ ← store_buf l (PopBuf lm (m_mem m +64 (m_alloced_pages m <<64 PAGE_SHIFT))
                       (m_paddr m +64 (m_alloced_pages m <<64 PAGE_SHIFT)) (nr <<64 PAGE_SHIFT) 0 0);
                 _ ← store_mem lm (set_alloced m (m_alloced_pages m +64 nr));
                 mret (Some l)
             end);
   _ ← pthread_mutex_unlock lm;
   mret (inr pbuf)) s.
Proof.
  destruct (p_mems s !! lm) as [m|] eqn:Hm.
  2: { cbn [iter_nat alloc_step]. unfold load_mem, gets, mbind, M_bind. by rewrite Hm. }
  rewrite (bind_ret _ _ _ _ _ (load_mem_Some _ _ _ Hm)).
  destruct (_ <? nr) eqn:Hlt.
  { erewrite iter_nat_inl by (eval_step Hm; rewrite Hlt; reflexivity).
    erewrite iter_nat_inr by (eval_step Hm; reflexivity). eval_step Hm. by rewrite ?Hm. }
  erewrite iter_nat_inl by (eval_step Hm; rewrite Hlt; reflexivity).
  destruct (p_oom s) as [|[] o] eqn:Ho.
  2: { erewrite iter_nat_inl by (eval_step Hm; rewrite Ho; reflexivity).
       erewrite iter_nat_inr by (eval_step Hm; reflexivity). eval_step Hm. rewrite Ho. simpl. by rewrite ?Hm. }
  all: erewrite iter_nat_inl by (eval_step Hm; rewrite Ho; reflexivity).
  all: do 2 (erewrite iter_nat_inl by (eval_step Hm; reflexivity)).
  all: erewrite iter_nat_inl by (eval_step Hm; reflexivity).
  all: do 2 (erewrite iter_nat_inl by (eval_step Hm; reflexivity)).
  all: erewrite iter_nat_inr by (eval_step Hm; rewrite lookup_insert_eq; reflexivity).
  all: eval_step Hm; rewrite Ho; simpl; by rewrite lookup_insert_eq.
Qed.

(** ** The work that is left *)

(** Steps a thread still makes inside the function. *)
Definition work (th : thread) : nat :=
  match t_pc th with
  | Idle => 0
  | Lock size => Z.to_nat (pages_for size) + 10
  | Count size k => Z.to_nat (pages_for size - k) + 9
  | Check _ _ => 8 | Alloc _ _ => 7 | Vaddr _ _ _ => 6 | Paddr _ _ _ _ => 5
  | Fill _ _ _ _ _ => 4 | LoadCount _ _ => 3 | StoreCount _ _ _ => 2 | Unlock _ => 1
  end.

(** The size that a thread is about to count fits. *)
Definition size_fits (th : thread) : Prop :=
  match t_pc th with Lock size | Count size _ => size <= 2 ^ 64 - 4096 | _ => True end.

Lemma sum_insert {A : Type} (f : A -> nat) (l : list A) i x y :
  l !! i = Some x -> (sum_list_with f (<[i:=y]> l) + f x = sum_list_with f l + f y)%nat.
Proof.
  revert i. induction l as [|z l IH]; intros [|i] Hi; try done; simpl in *.
  - injection Hi as ->. lia.
  - specialize (IH _ Hi). lia.
Qed.

(** A step inside leaves less to do. *)
Lemma alloc_step_work p p' s s' e e' :
  match p with Count size k => 0 <= k <= pages_for size | _ => True end -> size_fits (Thread p e) ->
  alloc_step lm p s = Ret (inl p', s') ->
  (work (Thread p' e') < work (Thread p e))%nat /\ size_fits (Thread p' e').
Proof.
  intros Hk Hf Hr. destruct p as [|size|size k| | | | | | | |]; simpl in Hr; [done|..];
    apply bind_Ret_inv in Hr as (x & s1 & Hx & Hr).
  - injection Hr as <- _. unfold work, size_fits in *; simpl in *. lia.
  - revert Hx Hr. unfold count_pages_body, PAGE_SHIFT. rewrite shiftl_12.
    destruct (_ <? size) eqn:Hlt; intros [= <- _] [= <- _]; unfold work, size_fits in *; simpl in *.
    + split; [|done]. destruct (proj1 (pages_for_spec size (pages_for size)) eq_refl).
      assert (k < pages_for size) by wrap_lia. rewrite u64_small by lia. lia.
    + split; [lia|done].
  - destruct (_ <? _); injection Hr as <- _; (split; [unfold work; simpl; lia|done]).
  - destruct x; injection Hr as <- _; (split; [unfold work; simpl; lia|done]).
  - injection Hr as <- _. split; [unfold work; simpl; lia|done].
  - injection Hr as <- _. split; [unfold work; simpl; lia|done].
  - injection Hr as <- _. split; [unfold work; simpl; lia|done].
  - injection Hr as <- _. split; [unfold work; simpl; lia|done].
  - apply bind_Ret_inv in Hr as (y & s2 & _ & [= <- _]). split; [unfold work; simpl; lia|done].
  - done.
Qed.

(** So does a step of the process that is neither a new call nor a client's. *)
Definition own_step (lb : label) : Prop :=
  match lb with LStep _ _ | LReturn _ _ => True | _ => False end.

Lemma own_step_work s ts sa lb s' ts' :
  shared lm m0 s ts sa -> Forall size_fits ts -> own_step lb -> thread_step lm (s, ts) lb (s', ts') ->
  (sum_list_with work ts' < sum_list_with work ts)%nat /\ Forall size_fits ts'.
Proof.
  intros [_ _ (q & n & Hh & Hl & Hu)] Hf Hown Hst.
  inversion Hst as [|? ? t p e p' ? Ht Hr|? ? t p e pbuf ? Ht Hr|]; subst; try done.
  - assert (match p with Count size k => 0 <= k <= pages_for size | _ => True end) as Hc.
    { destruct p; try done. pose proof (holder_inside _ _ _ _ _ Hh Ht eq_refl) as <-.
      apply (Forall_lookup_1 _ _ _ _ Hf) in Ht. unfold size_fits in Ht. simpl in Hl, Ht. lia. }
    destruct (alloc_step_work p p' _ _ e (p_errno s') Hc (Forall_lookup_1 _ _ _ _ Hf Ht) Hr) as [Hw Hf'].
    split; [|by apply Forall_insert].
    pose proof (sum_insert work ts t _ (Thread p' (p_errno s')) Ht). lia.
  - split; [|by apply Forall_insert].
    pose proof (sum_insert work ts t _ (Thread Idle (p_errno s')) Ht) as Hs.
    assert (0 < work (Thread p e))%nat by (destruct p; unfold work; simpl; try lia; done).
    assert (work (Thread Idle (p_errno s')) = 0%nat) by done. lia.
Qed.

Lemma own_steps_bound s ts sa ls st :
  shared lm m0 s ts sa -> Forall size_fits ts -> Forall own_step ls ->
  steps (thread_step lm) (s, ts) ls st -> (length ls <= sum_list_with work ts)%nat.
Proof.
  intros Hsh Hf Hown Hst.
  assert (length ls + sum_list_with work st.2 <= sum_list_with work ts /\ Forall size_fits st.2 /\
    exists sa', shared lm m0 st.1 st.2 sa')%nat as [? _]; [|lia].
  remember (s, ts) as st0 eqn:E0. induction Hst as [st0|st0 ls [s1 ts1] lb [s2 ts2] Hst IH Hstep]; subst st0.
  - simpl. split_and!; [lia|done|by exists sa].
  - apply Forall_app in Hown as [Hown Hlb]. rewrite Forall_singleton in Hlb.
    destruct (IH Hown eq_refl) as (Hle & Hf1 & sa1 & Hsh1). simpl in *.
    destruct (own_step_work _ _ _ _ _ _ Hsh1 Hf1 Hlb Hstep) as [Hw Hf2].
    destruct (thread_step_shared lm m0 _ _ _ _ _ _ Hsh1 Hstep) as (sa2 & Hsh2 & _).
    rewrite length_app. simpl. split_and!; [lia|done|by exists sa2].
Qed.

(** Some thread can go on unless all are outside. *)
Lemma shared_progress s ts sa :
  shared lm m0 s ts sa -> (exists t th, ts !! t = Some th /\ t_pc th <> Idle) ->
  exists lb st, own_step lb /\ thread_step lm (s, ts) lb st.
Proof.
  intros [Ha _ (q & n & Hh & Hl & Hu)] (t & [p e] & Ht & Hp).
  destruct Hh as [[-> Hout]|(t0 & e0 & H0 & Hin & _)].
  - pose proof (Hout _ _ Ht) as Hp'. simpl in *. destruct p as [|size| | | | | | | | |]; try done.
    destruct (lock_outside lm m0 size n _ sa Ha (undivided_errno _ _ _ _ _ _ e Hu)) as (s' & Hr & _).
    eexists _, _. split; [|exact (step_run _ _ _ _ _ _ _ _ Ht Hr)]. done.
  - destruct (alloc_step_inside lm m0 q n _ sa Ha (undivided_errno _ _ _ _ _ _ e0 Hu) Hl Hin)
      as ([p'|pbuf] & s' & Hr & _); eexists _, _.
    + split; [|exact (step_run _ _ _ _ _ _ _ _ H0 Hr)]. done.
    + split; [|exact (step_return _ _ _ _ _ _ _ _ H0 Hr)]. done.
Qed.

(** No step of a thread is undefined: it succeeds, or waits for the mutex. *)
Lemma shared_no_fault s ts sa t p e f :
  shared lm m0 s ts sa -> ts !! t = Some (Thread p e) -> alloc_step lm p (with_errno e s) <> Fault f.
Proof.
  intros [Ha _ (q & n & Hh & Hl & Hu)] Ht Hr. pose proof (undivided_errno _ _ _ _ _ _ e Hu) as Hue.
  destruct (in_alloc p) eqn:Hin.
  - pose proof (holder_inside _ _ _ _ _ Hh Ht Hin) as ->.
    destruct (alloc_step_inside lm m0 q n _ sa Ha Hue Hl Hin) as (r & s1 & Hr' & _). congruence.
  - destruct p as [|size| | | | | | | | |]; try done. destruct (in_alloc q) eqn:Hinq.
    + by rewrite (lock_held lm m0 size q n _ sa Hue Hinq) in Hr.
    + assert (q = Idle) as -> by (destruct Hh as [[-> _]|(? & ? & _ & ? & _)]; congruence).
      destruct (lock_outside lm m0 size n _ sa Ha Hue) as (s1 & Hr' & _). congruence.
Qed.
(** ** Accounting *)

(** The pages a call hands out when it takes effect. *)
Definition event_pages (ev : event) : Z :=
  match ev with EAlloc _ size (inl _) => pages_for size | _ => 0 end.
Definition handed_out (evs : list event) : Z := foldr (fun ev n => event_pages ev + n) 0 evs.

Lemma handed_out_app evs1 evs2 : handed_out (evs1 ++ evs2) = handed_out evs1 + handed_out evs2.
Proof. induction evs1 as [|ev evs1 IH]; simpl; lia. Qed.

Definition thread_event (ev : event) : bool :=
  match ev with EAlloc _ _ _ => true | EClient _ c => single_step c end.

(** An undivided call moves the counter by the pages it hands out. *)
Lemma atomic_step_count sa ev sa' n :
  arena lm m0 sa -> thread_event ev = true -> atomic_step lm sa ev sa' ->
  p_mems sa !! lm = Some (set_alloced m0 n) ->
  p_mems sa' !! lm = Some (set_alloced m0 (n + event_pages ev)).
Proof.
  intros [(n' & Hm & Hok & _) Hmu _ _] Hd Hst Hn. rewrite Hn in Hm. injection Hm as En. rewrite <- En in *. clear n' En.
  destruct ev as [t size r|t c]; simpl in *.
  - destruct Hst as (Hsz & pbuf & Hr & ->).
    destruct (decide (size <= 2 ^ 64 - 4096)) as [Hle|Hgt].
    2: { by rewrite (pop_buf_alloc_diverge lm size sa _ Hn Hmu) in Hr by lia. }
    rewrite (pop_buf_alloc_eq lm size sa _ Hn Hok Hmu) in Hr by lia. simpl in Hr.
    destruct (_ <? _); [injection Hr as <- <-; simpl; by rewrite Z.add_0_r|].
    destruct (p_oom sa) as [|[] o]; injection Hr as <- <-; simpl; rewrite ?Z.add_0_r; try done; apply lookup_insert_eq.
  - destruct Hst as [_ Hr]. destruct (single_step_bufs lm c sa sa' sa Hd Hr eq_refl) as (bs & -> & _).
    simpl. by rewrite Z.add_0_r.
Qed.

Lemma atomic_steps_count sa evs sa' :
  arena lm m0 sa -> p_mems sa !! lm = Some m0 -> Forall (fun ev => thread_event ev = true) evs ->
  steps (atomic_step lm) sa evs sa' ->
  arena lm m0 sa' /\ p_mems sa' !! lm = Some (set_alloced m0 (m_alloced_pages m0 + handed_out evs)).
Proof.
  intros Ha Hm Hd Hst. induction Hst as [sa|sa evs s1 ev s2 Hst IH Hstep].
  - split; [done|]. simpl. rewrite Z.add_0_r, Hm. by destruct m0.
  - apply Forall_app in Hd as [Hd Hev]. rewrite Forall_singleton in Hev.
    destruct (IH Ha Hm Hd) as [Ha1 Hm1]. split; [by eapply atomic_step_arena|].
    rewrite (atomic_step_count _ _ _ _ Ha1 Hev Hstep Hm1), handed_out_app. simpl. do 2 f_equal. lia.
Qed.

Lemma effects_thread s ts ls st :
  steps (thread_step lm) (s, ts) ls st -> Forall (fun ev => thread_event ev = true) (omap effects ls).
Proof.
  induction 1 as [|st0 ls st1 lb st2 _ IH Hstep]; [constructor|]. rewrite omap_app. apply Forall_app. split; [done|].
  inversion Hstep; subst; simpl; try constructor; try done.
  destruct (effect _ _ _) as [[size r]|]; by repeat constructor.
Qed.

(** A count that cannot reach its size goes on in every continuation. *)
Lemma count_stays t size k e (st st' : proc W * list thread) ls :
  2 ^ 64 - 4096 < size -> st.2 !! t = Some (Thread (Count size k) e) ->
  steps (thread_step lm) st ls st' -> exists k' e', st'.2 !! t = Some (Thread (Count size k') e').
Proof.
  intros Hsz Ht Hst.
  refine (steps_invariant _ (fun st => exists k e, st.2 !! t = Some (Thread (Count size k) e)) _ _ _ _
    (ex_intro _ k (ex_intro _ e Ht)) Hst). clear -Hsz.
  intros [s ts] lb [s' ts'] (k & e & Ht) Hstep. simpl in *.
  assert (forall t', ts !! t' <> Some (Thread (Count size k) e) -> forall th, <[t':=th]> ts !! t = ts !! t) as Hother.
  { intros t' Hne th. rewrite list_lookup_insert_ne; [done|]. intros ->. done. }
  inversion Hstep as [? ? t' e' size' Ht'|? ? t' p e' p' ? Ht' Hr|? ? t' p e' pbuf ? Ht' Hr|]; subst.
  - rewrite Hother by congruence. eauto.
  - destruct (decide (t = t')) as [<-|Hne].
    2: { rewrite list_lookup_insert_ne by done. eauto. }
    rewrite Ht in Ht'. injection Ht' as <- <-. simpl in Hr. revert Hr. unfold count_pages_body, PAGE_SHIFT.
    rewrite shiftl_12. replace (_ <? size) with true; [|symmetry; apply Z.ltb_lt; unfold u64; Z.to_euclidean_division_equations; lia].
    intros [= <- <-]. eexists _, _. apply list_lookup_insert_eq. by apply lookup_lt_Some in Ht.
  - destruct (decide (t = t')) as [<-|Hne].
    2: { rewrite list_lookup_insert_ne by done. eauto. }
    rewrite Ht in Ht'. injection Ht' as <- <-. simpl in Hr.
    by apply bind_Ret_inv in Hr as (? & ? & _ & [=]).
  - eauto.
Qed.
End runs.

(** ** Properties *)

(** A process whose pop memory has four pages, with two threads. *)
Definition two_threads : list thread := [Thread Idle 0; Thread Idle 0].

Lemma start4 : start 1%positive mem4 proc4 two_threads.
Proof. constructor; [done|by apply mem_okb_ok|done|done|by repeat constructor]. Qed.

(** A schedule says which thread goes next, and with what size it calls. *)
Definition sched_step {W : Type} lm (st : proc W * list thread) (c : nat * option Z)
    : option (label * (proc W * list thread)) :=
  let '(s, ts) := st in
  let '(t, call) := c in
  match ts !! t, call with
  | Some (Thread Idle e), Some size =>
      if (0 <=? size) && (size <? 2 ^ 64)
      then Some (LCall t size, (s, <[t:=Thread (Lock size) e]> ts)) else None
  | Some (Thread p e), None =>
      match alloc_step lm p (with_errno e s) with
      | Ret (inl p', s') =>
          Some (LStep t (effect p p' (p_errno s')), (s', <[t:=Thread p' (p_errno s')]> ts))
      | Ret (inr pbuf, s') =>
          Some (LReturn t (result pbuf (p_errno s')), (s', <[t:=Thread Idle (p_errno s')]> ts))
      | _ => None
      end
  | _, _ => None
  end.

Fixpoint sched_run {W : Type} lm (cs : list (nat * option Z)) (ls : list label)
    (st : proc W * list thread) : option (list label * (proc W * list thread)) :=
  match cs with
  | [] => Some (ls, st)
  | c :: cs' => match sched_step lm st c with
                | Some (lb, st') => sched_run lm cs' (ls ++ [lb]) st'
                | None => None
                end
  end.

Lemma sched_step_sound {W : Type} lm (st : proc W * list thread) c lb st' :
  sched_step lm st c = Some (lb, st') -> thread_step lm st lb st'.
Proof.
  destruct st as [s ts], c as [t call]. unfold sched_step.
  destruct (ts !! t) as [[p e]|] eqn:Ht; [|done]. destruct call as [size|].
  - destruct p; try done. destruct (_ && _) eqn:Hsz; [|done]. intros [= <- <-].
    constructor; [done|lia].
  - intros H. assert (match alloc_step lm p (with_errno e s) with
      | Ret (inl p', s') => Some (LStep t (effect p p' (p_errno s')), (s', <[t:=Thread p' (p_errno s')]> ts))
      | Ret (inr pbuf, s') => Some (LReturn t (result pbuf (p_errno s')), (s', <[t:=Thread Idle (p_errno s')]> ts))
      | _ => None end = Some (lb, st')) as H' by (by destruct p).
    destruct (alloc_step lm p (with_errno e s)) as [[[p'|pbuf] s']| |] eqn:Hr; try done;
      injection H' as <- <-; by econstructor.
Qed.

Lemma sched_run_sound {W : Type} lm cs ls0 (st0 st : proc W * list thread) ls st' :
  steps (thread_step lm) st0 ls0 st -> sched_run lm cs ls0 st = Some (ls, st') ->
  steps (thread_step lm) st0 ls st'.
Proof.
  revert ls0 st. induction cs as [|c cs IH]; intros ls0 st Hst; simpl.
  - by intros [= <- <-].
  - destruct (sched_step lm st c) as [[lb st1]|] eqn:E; [|done]. apply IH.
    econstructor; [done|]. by eapply sched_step_sound.
Qed.

(** Both threads call; the first takes the mutex, the second has to wait and
    then allocates; the run ends when the second has written its buffer. *)
Definition schedule : list (nat * option Z) :=
  (0%nat, Some 100) :: (1%nat, Some 5000) :: replicate 11 (0%nat, None) ++ replicate 10 (1%nat, None).

Definition scheduled : list label * (proc () * list thread) :=
  Eval vm_compute in default ([], (proc4, two_threads))
    (sched_run 1%positive schedule [] (proc4, two_threads)).

Lemma scheduled_steps :
  steps (thread_step 1%positive) (proc4, two_threads) scheduled.1 (scheduled.2.1, scheduled.2.2).
Proof.
  eapply (sched_run_sound _ schedule []); [constructor|]. vm_compute. reflexivity.
Qed.

(** The steps into which the threads divide [pop_buf_alloc] are the
    function: for every size the page count reaches, a thread that runs alone
    from the lock on has, after [10 + pages_for size] steps, returned exactly
    what the undivided function returns, in exactly the state that leaves,
    whatever the state is, a held mutex and a dangling pop memory included. *)
Theorem alloc_steps_sequential {W : Type} lm size (s : proc W) :
  0 <= size <= 2 ^ 64 - 4096 ->
  iter_nat (alloc_step lm) (10 + Z.to_nat (pages_for size)) (Lock size) s =
  (pbuf ← pop_buf_alloc lm size; mret (inr pbuf)) s.
Proof.
  intros Hsz. destruct (proj1 (pages_for_spec size (pages_for size)) eq_refl).
  replace (10 + _)%nat with (S (S (Z.to_nat (pages_for size)) + 8)) by lia.
  unfold pop_buf_alloc. rewrite bind_assoc.
  destruct (pthread_mutex_lock lm s) as [[[] s1]| |f] eqn:Hl.
  2, 3: cbn [iter_nat alloc_step]; unfold mbind, M_bind; by rewrite Hl.
  rewrite (iter_nat_inl _ _ _ _ (Count size 0) s1) by (cbn [alloc_step]; by rewrite (bind_ret _ _ _ _ _ Hl)).
  rewrite (alloc_steps_count lm size (Z.to_nat (pages_for size)) 0 s1 8) by lia.
  rewrite alloc_steps_rest, (bind_ret _ _ _ _ _ Hl). unfold pop_buf_alloc_locked.
  rewrite !bind_assoc, (bind_ret _ _ _ _ _ (count_pages_spec size s1 Hsz)), bind_assoc.
  destruct (load_mem lm s1) as [[m s2]| |f] eqn:Hm.
  - rewrite !(bind_ret _ _ _ _ _ Hm). apply bind_ext.
    intros pbuf s3. by rewrite bind_assoc.
  - by rewrite !(bind_diverge _ _ _ Hm).
  - by rewrite !(bind_fault _ _ _ _ Hm).
Qed.

Lemma alloc_steps_sequential_witness :
  exists s', iter_nat (alloc_step 1%positive) 12 (Lock 5000) proc4 = Ret (inr (Some 2%positive), s').
Proof.
  pose proof (alloc_steps_sequential 1%positive 5000 proc4) as H.
  eexists. etransitivity; [apply H; lia|]. vm_compute. reflexivity.
Defined.

(** C3: Threads that share a pop memory cannot tell that [pop_buf_alloc] is
    not one step.  Whatever the interleaving, the calls in the order in which
    they take effect are a run of undivided calls from the same state; that run
    leaves the same buffers, and the same pop memory, free of its mutex, once no
    thread is inside; each thread's own labels are calls, one effect inside each
    call, and a return of just that effect's result.  So a call returns what it
    would return if it ran at a moment between its start and its end. *)
Theorem pop_buf_alloc_linearizable {W : Type} lm m (s : proc W) ts ls s' ts' :
  start lm m s ts -> steps (thread_step lm) (s, ts) ls (s', ts') ->
  exists sa, steps (atomic_step lm) s (omap effects ls) sa /\
    p_bufs sa = p_bufs s' /\
    (Forall (fun th => t_pc th = Idle) ts' ->
       p_mems sa = p_mems s' /\ p_next sa = p_next s' /\ p_oom sa = p_oom s' /\
       exists n, p_mems s' !! lm = Some (set_alloced m n)) /\
    forall t th, ts' !! t = Some th -> thread_view t ls = Some (view_of th).
Proof.
  intros Hs Hst. destruct (run_shared lm m s ts ls _ Hs Hst) as (sa & Hsa & Hsh & _ & Hv).
  exists sa. split_and!; [done| | |done]; destruct Hsh as [Ha _ (p & n & Hh & _ & Hu)]; [apply Hu|].
  intros Hi. destruct Hh as [[-> _]|(t0 & e0 & H0 & Hin & _)].
  2: { apply (Forall_lookup_1 _ _ _ _ Hi) in H0. simpl in H0. by subst p. }
  destruct Hu as [U1 U2 _ [U4 U4'] _ _ _ _]. pose proof Ha as [_ Hmu _ _]. simpl in *.
  assert (set_mutex (set_alloced m n) false = set_alloced m n) as E
    by (unfold set_mutex, set_alloced; simpl; by rewrite Hmu).
  rewrite E in U1. split_and!; [|done|done|by exists n]. rewrite U2, Z.add_0_r. by apply insert_id.
Qed.

Lemma pop_buf_alloc_linearizable_witness :
  exists sa, steps (atomic_step 1%positive) proc4
    [EAlloc 0 100 (inl 2%positive); EAlloc 1 5000 (inl 3%positive)] sa /\
  p_bufs sa = p_bufs scheduled.2.1.
Proof.
  destruct (pop_buf_alloc_linearizable 1%positive mem4 proc4 two_threads _ _ _ start4 scheduled_steps)
    as (sa & Hsa & Hb & _).
  exists sa. split; [exact Hsa|exact Hb].
Defined.

(** At most one thread is inside. *)
Lemma holder_unique ts p t1 t2 th1 th2 :
  holder ts p -> ts !! t1 = Some th1 -> ts !! t2 = Some th2 ->
  in_alloc (t_pc th1) = true -> in_alloc (t_pc th2) = true -> t1 = t2.
Proof.
  intros Hh H1 H2 I1 I2. destruct Hh as [[-> H]|(t0 & e0 & H0 & Hin & H)].
  - by rewrite (H _ _ H1) in I1.
  - destruct (decide (t1 = t0)) as [->|N1]; [|by rewrite (H _ _ N1 H1) in I1].
    destruct (decide (t2 = t0)) as [->|N2]; [done|by rewrite (H _ _ N2 H2) in I2].
Qed.

(** C6: No update of the page counter is lost, in any interleaving of any
    number of threads that allocate, free and move windows.  At most one thread
    is between the lock and the unlock.  Let [n] be the pages of all the calls
    that have taken effect with a buffer.  Then [n] never exceeds the pages that
    were free at the start; every live buffer lies in the pages handed out, so
    no buffer is past the mapped region, and live buffers are disjoint; and
    whenever no thread is between writing its buffer and counting it, the shared
    counter is exactly its value at the start plus [n], freed buffers included:
    [pop_buf_free] gives no page back. *)
Theorem threads_pages_counted {W : Type} lm m (s : proc W) ts ls s' ts' :
  start lm m s ts -> steps (thread_step lm) (s, ts) ls (s', ts') ->
  let n := handed_out (omap effects ls) in
  (forall t1 t2 th1 th2, ts' !! t1 = Some th1 -> ts' !! t2 = Some th2 ->
     in_alloc (t_pc th1) = true -> in_alloc (t_pc th2) = true -> t1 = t2) /\
  0 <= m_alloced_pages m + n <= m_num_pages m /\
  (exists m', p_mems s' !! lm = Some m' /\ m_alloced_pages m' <= m_alloced_pages m + n /\
     (Forall (fun th => uncounted (t_pc th) = 0) ts' -> m_alloced_pages m' = m_alloced_pages m + n)) /\
  forall l b, p_bufs s' !! l = Some b -> b_mem b = lm ->
    buf_within m (m_alloced_pages m + n) b /\
    forall l' b', l' <> l -> p_bufs s' !! l' = Some b' -> b_mem b' = lm -> disjoint_bufs b b'.
Proof.
  intros Hs Hst n. destruct (run_shared lm m s ts ls _ Hs Hst) as (sa & Hsa & Hsh & _). simpl in Hsh.
  destruct Hsh as [Ha _ (p & k & Hh & Hl & Hu)].
  destruct (atomic_steps_count lm m s (omap effects ls) sa) as [_ Hn];
    [by destruct (start_shared lm m s ts Hs)|apply Hs|by eapply effects_thread|done|]. fold n in Hn.
  destruct (undivided_arena _ _ _ _ _ _ Hu Ha) as (Hm & Hok & _).
  rewrite Hm in Hn. injection Hn as Ek. rewrite <- Ek. destruct Hok as [_ Hall _ _]. simpl in Hall.
  pose proof (un_mem _ _ _ _ _ _ Hu) as Hms. split_and!; [| lia.. | |].
  - intros t1 t2 th1 th2. by apply (holder_unique ts' p).
  - eexists. split; [exact Hms|]. simpl. assert (0 <= uncounted p) as Hp by (destruct p; simpl in *; lia).
    split; [lia|]. intros Hz. destruct Hh as [[-> _]|(t0 & e0 & H0 & _)]; [simpl; lia|].
    apply (Forall_lookup_1 _ _ _ _ Hz) in H0. simpl in H0. lia.
  - intros l b Hb Hlm. rewrite <- (un_bufs _ _ _ _ _ _ Hu) in *.
    pose proof Ha as [(k' & Hm' & _ & Hin) _ _ Hdj]. rewrite Hm in Hm'. injection Hm' as Ek'.
    split; [rewrite Ek'; by apply (Hin l)|]. intros l' b' Hne Hb' Hlm'. by apply (Hdj l l').
Qed.

Lemma threads_pages_counted_witness :
  disjoint_bufs (next_buf 1%positive mem4 1) (next_buf 1%positive (set_alloced mem4 1) 2) /\
  handed_out (omap effects scheduled.1) = 3 /\
  exists m', p_mems scheduled.2.1 !! 1%positive = Some m' /\ m_alloced_pages m' <= 3.
Proof.
  destruct (threads_pages_counted 1%positive mem4 proc4 two_threads _ _ _ start4 scheduled_steps)
    as (_ & _ & (m' & Hm & Hle & _) & H).
  split; [|split; [reflexivity|exists m'; split; [exact Hm|exact Hle]]].
  refine (proj2 (H 2%positive _ _ _) 3%positive _ _ _ _);
    [vm_compute; reflexivity|reflexivity|done|vm_compute; reflexivity|reflexivity].
Defined.

(** C12: Termination of concurrent allocations, and the sizes for which it
    fails.  In every state the threads reach, no thread's next step faults, and
    unless every thread is outside of the function one of them can go on: there
    is no deadlock.  If every size still to be counted is at most
    [2 ^ 64 - 4096], the threads make at most [sum_list_with work] further steps,
    however they are scheduled, and when none can go on each pending call has
    returned.  A thread that counts a larger size never leaves the loop, in any
    continuation, and since it holds the mutex no other thread gets inside. *)
Theorem threads_terminate {W : Type} lm m (s : proc W) ts ls s' ts' :
  start lm m s ts -> steps (thread_step lm) (s, ts) ls (s', ts') ->
  (forall t th f, ts' !! t = Some th ->
     alloc_step lm (t_pc th) (with_errno (t_errno th) s') <> Fault f) /\
  (~ Forall (fun th => t_pc th = Idle) ts' ->
     exists lb st, own_step lb /\ thread_step lm (s', ts') lb st) /\
  (Forall size_fits ts' -> forall ls2 s2 ts2, Forall own_step ls2 ->
     steps (thread_step lm) (s', ts') ls2 (s2, ts2) ->
     (length ls2 <= sum_list_with work ts')%nat /\
     ((forall lb st, own_step lb -> ~ thread_step lm (s2, ts2) lb st) ->
        Forall (fun th => t_pc th = Idle) ts2)) /\
  (forall t size k e, ts' !! t = Some (Thread (Count size k) e) -> 2 ^ 64 - 4096 < size ->
     forall ls2 s2 ts2, steps (thread_step lm) (s', ts') ls2 (s2, ts2) ->
       (exists k' e', ts2 !! t = Some (Thread (Count size k') e')) /\
       forall t' th, t' <> t -> ts2 !! t' = Some th -> in_alloc (t_pc th) = false).
Proof.
  intros Hs Hst. destruct (run_shared lm m s ts ls _ Hs Hst) as (sa & _ & Hsh & _). simpl in Hsh.
  assert (forall ls2 s2 ts2, steps (thread_step lm) (s', ts') ls2 (s2, ts2) ->
    exists sa2, shared lm m s2 ts2 sa2) as Hlater.
  { intros ls2 s2 ts2 Hst2.
    destruct (run_shared lm m s ts _ _ Hs (steps_app _ _ _ _ _ _ Hst Hst2)) as (sa2 & _ & Hsh2 & _). by exists sa2. }
  assert (forall (s : proc W) ts sa, shared lm m s ts sa -> ~ Forall (fun th => t_pc th = Idle) ts ->
    exists lb st, own_step lb /\ thread_step lm (s, ts) lb st) as Hprog.
  { intros s1 ts1 sa1 Hsh1 Hn. apply (shared_progress lm m s1 ts1 sa1 Hsh1).
    apply not_Forall_Exists in Hn; [|intros th; apply idle_dec].
    apply Exists_exists in Hn as (th & [t Ht]%list_elem_of_lookup & Hp). eauto. }
  split_and!.
  - intros t [p e] f Ht. by eapply shared_no_fault.
  - by apply (Hprog _ _ sa).
  - intros Hf ls2 s2 ts2 Hown Hst2. split; [by eapply own_steps_bound|]. intros Hstuck.
    destruct (Hlater _ _ _ Hst2) as [sa2 Hsh2].
    destruct (decide (Forall (fun th => t_pc th = Idle) ts2)) as [|Hn]; [done|].
    destruct (Hprog _ _ _ Hsh2 Hn) as (lb & st & Ho & Hstep). by destruct (Hstuck lb st Ho).
  - intros t size k e Ht Hsz ls2 s2 ts2 Hst2.
    destruct (count_stays lm t size k e (s', ts') (s2, ts2) ls2 Hsz Ht Hst2) as (k' & e' & Ht2). simpl in Ht2.
    split; [eauto|]. intros t' th Hne Ht'. destruct (Hlater _ _ _ Hst2) as [sa2 [_ _ (q & n & Hh & _)]].
    destruct (in_alloc (t_pc th)) eqn:Hin; [|done]. destruct Hne. by eapply holder_unique.
Qed.

(** A call with a size of 2^64 - 1, and one that waits for it. *)
Definition hanging : list label * (proc () * list thread) :=
  Eval vm_compute in default ([], (proc4, two_threads))
    (sched_run 1%positive [(0%nat, Some (2 ^ 64 - 1)); (1%nat, Some 100); (0%nat, None); (0%nat, None)] []
       (proc4, two_threads)).

Lemma hanging_steps :
  steps (thread_step 1%positive) (proc4, two_threads) hanging.1 (hanging.2.1, hanging.2.2).
Proof.
  eapply (sched_run_sound _ [(0%nat, Some (2 ^ 64 - 1)); (1%nat, Some 100); (0%nat, None); (0%nat, None)] []);
    [constructor|]. vm_compute. reflexivity.
Qed.

Lemma threads_terminate_witness :
  (exists lb st, own_step lb /\ thread_step 1%positive (scheduled.2.1, scheduled.2.2) lb st) /\
  (forall ls2 st2, Forall own_step ls2 ->
     steps (thread_step 1%positive) (scheduled.2.1, scheduled.2.2) ls2 st2 -> (length ls2 <= 2)%nat) /\
  (forall ls2 s2 ts2, steps (thread_step 1%positive) (hanging.2.1, hanging.2.2) ls2 (s2, ts2) ->
     exists k e, ts2 !! 0%nat = Some (Thread (Count (2 ^ 64 - 1) k) e)).
Proof.
  destruct (threads_terminate 1%positive mem4 proc4 two_threads _ _ _ start4 scheduled_steps)
    as (_ & H & Hb & _).
  destruct (threads_terminate 1%positive mem4 proc4 two_threads _ _ _ start4 hanging_steps)
    as (_ & _ & _ & Hh).
  split; [|split].
  - apply H. intros H1. apply (Forall_lookup_1 _ _ 1%nat (Thread (StoreCount 2 3%positive 1) 0)) in H1;
      [discriminate H1|reflexivity].
  - intros ls2 [s2 ts2] Hown Hst2.
    destruct (Hb ltac:(repeat constructor) ls2 s2 ts2 Hown Hst2) as [Hlen _]. exact Hlen.
  - intros ls2 s2 ts2 Hst2.
    exact (proj1 (Hh 0%nat (2 ^ 64 - 1) 1 0 eq_refl ltac:(lia) ls2 s2 ts2 Hst2)).
Defined.
