(* ===== verification/PopMem.v ===== *)
(** * lib/libpop.c, second part: pop memory

    [pop_mem_init] and [pop_mem_exit] over the operating system ([Posix]), with
    [get_nr_hugepages] and [virt_to_phys], which read procfs and sysfs files.
    [mem] is reachable from the function alone until it returns, so the model
    keeps the structure in a variable and writes it at every return. *)

From S2P Require Import Prelude CStr LibpopH PopBuf.

Definition DEVPOP : cstr := lit "/dev/boogiepop".
Definition NR_HUGEPAGES : cstr :=
  lit "/sys/kernel/mm/hugepages/hugepages-2048kB/nr_hugepages".
Definition PAGEMAP : cstr := lit "/proc/self/pagemap".

(** [MAP_PRIVATE | MAP_ANONYMOUS | MAP_LOCKED | MAP_HUGETLB] and
    [MAP_LOCKED | MAP_SHARED] of Linux on x86-64. *)
Definition MAP_hugepage : Z := Z.lor (Z.lor 0x02 0x20) (Z.lor 0x2000 0x40000).
Definition MAP_device : Z := Z.lor 0x2000 0x01.

(** [memset(mem, 0, sizeof( *mem))]. *)
Definition reg0 : pop_p2pmem_reg := Reg 0 0 0 0 0.
Definition mem0 : pop_mem := PopMem 0 [] reg0 0 0 0 0 0 false.

Section pop_mem.
Context {W : Type} `{Posix W}.

Definition get_nr_hugepages : M (proc W) Z :=
  fd ← libc_open NR_HUGEPAGES;
  if fd <? 0 then mret (-1)
  else
    r ← libc_read fd (replicate 16 None);
    lift (atoi_buf r.2).

(** The bytes of [entry], all of them initialised. *)
Definition entry_val (b : cbuf) : Z :=
  le_val ((fun o => match o with Some c => code c | None => 0 end) <$> b).

Definition virt_to_phys (addr : Z) : M (proc W) Z :=
  fd ← libc_open PAGEMAP;
  if fd <? 0 then mret 0
  else
    let pagesize := sys_pagesize in
    if pagesize =? 0 then throw DivByZero
    else
      ret ← libc_lseek fd (i64 (addr / pagesize *64 8));
      if ret <? 0 then _ ← libc_close fd; mret 0
      else
        r ← libc_read fd (replicate 8 (Some (chr 0)));
        let '(rc, bytes) := r in
        let entry := entry_val bytes in
        if (rc <? 1) || (entry =? 0) then _ ← libc_close fd; mret 0
        else
          _ ← libc_close fd;
          mret (Z.land entry 0x7fffffffffffff *64 pagesize +64 addr `mod` pagesize).

(** [return NULL] with [mem] left behind. *)
Definition leak (l : loc) (m : pop_mem) : M (proc W) (option loc) :=
  _ ← store_mem l m; mret None.

(** The fields of a slot: [DOMAIN:BUS:SLOT.FUNC], or [BUS:SLOT.FUNC] in domain
    0.  [sscanf] stores through [int] pointers. *)
Definition parse_slot (dev : cstr) : option (Z * Z * Z * Z) :=
  match sscanf_x pci_seps dev with
  | [d; b; s; f] => Some (i32 d, i32 b, i32 s, i32 f)
  | _ =>
      match sscanf_x (tail pci_seps) dev with
      | [b; s; f] => Some (0, i32 b, i32 s, i32 f)
      | _ => None
      end
  end.

Definition set_reg (m : pop_mem) (r : pop_p2pmem_reg) : pop_mem :=
  PopMem (m_fd m) (m_devname m) r (m_mem m) (m_paddr m) (m_size m) (m_num_pages m)
    (m_alloced_pages m) (m_mutex m).
Definition set_fd (m : pop_mem) (fd : Z) : pop_mem :=
  PopMem fd (m_devname m) (m_reg m) (m_mem m) (m_paddr m) (m_size m) (m_num_pages m)
    (m_alloced_pages m) (m_mutex m).
Definition set_devname (m : pop_mem) (n : cstr) : pop_mem :=
  PopMem (m_fd m) n (m_reg m) (m_mem m) (m_paddr m) (m_size m) (m_num_pages m)
    (m_alloced_pages m) (m_mutex m).
Definition set_sizes (m : pop_mem) (size num_pages : Z) : pop_mem :=
  PopMem (m_fd m) (m_devname m) (m_reg m) (m_mem m) (m_paddr m) size num_pages
    (m_alloced_pages m) (m_mutex m).
Definition set_addrs (m : pop_mem) (mem paddr : Z) : pop_mem :=
  PopMem (m_fd m) (m_devname m) (m_reg m) mem paddr (m_size m) (m_num_pages m)
    (m_alloced_pages m) (m_mutex m).

(** From [mem->mem = mmap(...)] to the end of the function. *)
Definition pop_mem_map (l : loc) (m : pop_mem) (flags : Z) : M (proc W) (option loc) :=
  addr ← libc_mmap (m_size m) flags (m_fd m) 0;
  if addr =? -1 then
    _ ← (if negb (m_fd m =? -1) then libc_close (m_fd m) else mret 0);
    leak l (set_addrs m addr (m_paddr m))
  else
    paddr ← virt_to_phys addr;
    _ ← store_mem l (set_addrs m addr paddr);
    mret (Some l).

(** [2097152 * (nr_pages / 4)] is computed in [int]. *)
Definition quarter_hugepages {St : Type} (nr_pages : Z) : M St Z :=
  let bytes := 2097152 * Z.quot nr_pages 4 in
  if (bytes <? - 2 ^ 31) || (2 ^ 31 <=? bytes) then throw SignedOverflow else mret (u64 bytes).

(** The branch [dev == NULL]. *)
Definition pop_mem_init_hugepage (l : loc) (size : Z) : M (proc W) (option loc) :=
  let m := set_devname mem0 (strncpy (lit "hugepage") POP_PCI_DEVNAME_MAX) in
  nr_pages ← get_nr_hugepages;
  if nr_pages <? 0 then leak l m
  else
    msize ← (if negb (size =? 0) then mret size else quarter_hugepages nr_pages);
    pop_mem_map l
      (set_sizes (set_fd m (-1)) msize
         ((msize +64 Z.shiftl 1 PAGE_SHIFT -64 1) >>64 PAGE_SHIFT))
      MAP_hugepage.

(** The path of the character device of a slot: [popdev] has 32 bytes. *)
Definition popdev_path (r : pop_p2pmem_reg) : cstr :=
  snprintf 32 (lit "/dev/pop/" ++
    fmt_pci (u32 (domain r)) (u32 (bus r)) (u32 (slot r)) (u32 (func r))).

(** The other branch. *)
Definition pop_mem_init_device (l : loc) (dev : cstr) (size : Z) : M (proc W) (option loc) :=
  let m := set_devname mem0 (strncpy dev POP_PCI_DEVNAME_MAX) in
  match parse_slot dev with
  | None => _ ← set_errno EINVAL; leak l m
  | Some (d, b, s, f) =>
      fd ← libc_open DEVPOP;
      if fd <? 0 then leak l (set_reg m (Reg d b s f 0))
      else
        r ← libc_ioctl fd POP_P2PMEM_REG (Reg d b s f size);
        let '(ret, reg) := r in
        if negb (ret =? 0) then _ ← libc_close fd; leak l (set_reg m reg)
        else
          _ ← libc_close fd;
          mfd ← libc_open (popdev_path reg);
          let m' := set_fd (set_reg m reg) mfd in
          if mfd <? 0 then leak l m'
          else
            pop_mem_map l (set_sizes m' (reg_size reg) (reg_size reg >>64 PAGE_SHIFT)) MAP_device
  end.

Definition pop_mem_init (dev : option cstr) (size : Z) : M (proc W) (option loc) :=
  om ← malloc;
  match om with
  | None => mret None
  | Some l =>
      _ ← store_mem l mem0;
      match dev with
      | None => pop_mem_init_hugepage l size
      | Some d => pop_mem_init_device l d size
      end
  end.

(** The structure is freed on the hugepage path only, and the descriptor of
    /dev/boogiepop is never closed. *)
Definition pop_mem_exit (l : loc) : M (proc W) Z :=
  m ← load_mem l;
  if m_fd m =? -1 then _ ← free_mem l; mret 0
  else
    fd ← libc_open DEVPOP;
    if fd <? 0 then mret (-1)
    else
      r ← libc_ioctl fd POP_P2PMEM_UNREG (m_reg m);
      _ ← store_mem l (set_reg m r.2);
      if negb (r.1 =? 0) then mret (-1) else libc_close (m_fd m).
End pop_mem.

(** ** Every call of the operating system returns *)

Section pop_mem_lemmas.
Context {W : Type} `{Posix W}.
Implicit Type s : proc W.

(** Only the operating system and [errno] have changed. *)
Definition os_only s s' : Prop := exists e w, s' = with_errno e (with_os w s).

#[export] Instance os_only_preorder : PreOrder os_only.
Proof.
  split.
  - intros s. exists (p_errno s), (p_os s). by destruct s.
  - intros s1 s2 s3 (e & w & ->) (e' & w' & ->). by exists e', w'.
Qed.

Lemma os_only_fields s s' : os_only s s' ->
  p_mems s' = p_mems s /\ p_bufs s' = p_bufs s /\ p_next s' = p_next s /\ p_oom s' = p_oom s
  /\ p_rings s' = p_rings s /\ p_rxrings s' = p_rxrings s.
Proof. by intros (e & w & ->). Qed.

(** A computation that returns and leaves the process's memory alone. *)
Definition quiet_call {A : Type} (c : M (proc W) A) : Prop :=
  forall s, exists a s', c s = Ret (a, s') /\ os_only s s'.

Lemma quiet_ret {A : Type} (a : A) : quiet_call (mret a).
Proof. intros s. exists a, s. split; [done|reflexivity]. Qed.

Lemma quiet_bind {A B : Type} (c : M (proc W) A) (f : A -> M (proc W) B) :
  quiet_call c -> (forall a, quiet_call (f a)) -> quiet_call (c ≫= f).
Proof.
  intros Hc Hf s. destruct (Hc s) as (a & s1 & E1 & O1). destruct (Hf a s1) as (b & s2 & E2 & O2).
  exists b, s2. split; [by rewrite (bind_ret _ _ _ _ _ E1)|by transitivity s1].
Qed.

Lemma quiet_libc_ret {A : Type} (c : W -> (Z * A) * W) : quiet_call (libc_ret c).
Proof.
  intros s. unfold libc_ret. destruct (c (p_os s)) as [[r a] w]. destruct (r <? 0).
  - eexists _, _. split; [done|]. by exists (- r), w.
  - eexists _, _. split; [done|]. exists (p_errno s), w. by destruct s.
Qed.

Lemma quiet_open p : quiet_call (libc_open p).
Proof. apply quiet_bind; [apply quiet_libc_ret|intros; apply quiet_ret]. Qed.
Lemma quiet_close fd : quiet_call (libc_close fd).
Proof. apply quiet_bind; [apply quiet_libc_ret|intros; apply quiet_ret]. Qed.
Lemma quiet_lseek fd o : quiet_call (libc_lseek fd o).
Proof. apply quiet_bind; [apply quiet_libc_ret|intros; apply quiet_ret]. Qed.
Lemma quiet_mmap l f fd o : quiet_call (libc_mmap l f fd o).
Proof. apply quiet_bind; [apply quiet_libc_ret|intros; apply quiet_ret]. Qed.
Lemma quiet_ioctl fd cmd r : quiet_call (libc_ioctl fd cmd r).
Proof. apply quiet_libc_ret. Qed.
Lemma quiet_read fd b : quiet_call (libc_read fd b).
Proof. apply quiet_bind; [apply quiet_libc_ret|intros; apply quiet_ret]. Qed.
Lemma quiet_errno e : quiet_call (set_errno e).
Proof. intros s. eexists _, _. split; [done|]. exists e, (p_os s). by destruct s. Qed.

Create HintDb quiet.
#[local] Hint Resolve quiet_ret quiet_bind quiet_open quiet_close quiet_lseek quiet_mmap quiet_ioctl
  quiet_read quiet_errno : quiet.

Lemma quiet_virt_to_phys addr : sys_pagesize <> 0 -> quiet_call (virt_to_phys addr).
Proof.
  intros Hp. unfold virt_to_phys. apply quiet_bind; [auto with quiet|]. intros fd.
  destruct (fd <? 0); [auto with quiet|]. destruct (Z.eqb_spec sys_pagesize 0); [done|].
  apply quiet_bind; [auto with quiet|]. intros ret. destruct (ret <? 0); [auto with quiet|].
  apply quiet_bind; [auto with quiet|]. intros [rc bytes].
  destruct (_ || _); auto with quiet.
Qed.

(** ** What [pop_mem_init] returns *)

(** The memories after the call, [l] being the structure it allocated: a fresh,
    unlocked pop memory with no page handed out and a mapped region, or a
    structure that is left behind. *)
Definition init_ok (l : loc) s (good : pop_mem -> Prop) (r : option loc) s' : Prop :=
  exists m, p_mems s' = <[l:=m]> (p_mems s) /\ p_bufs s' = p_bufs s /\ p_next s' = p_next s /\
  match r with
  | Some l' => l' = l /\ m_alloced_pages m = 0 /\ m_mutex m = false /\ m_mem m <> -1 /\ good m
  | None => True
  end.

Lemma leak_ok l m s0 s good :
  os_only s0 s -> exists r s', leak l m s = Ret (r, s') /\ init_ok l s0 good r s'.
Proof.
  intros O. apply os_only_fields in O as (E1 & E2 & E3 & _).
  eexists None, _. split; [done|]. exists m. simpl. by rewrite E1, E2, E3.
Qed.

Lemma pop_mem_map_ok l m flags s0 s good :
  sys_pagesize <> 0 -> os_only s0 s -> m_alloced_pages m = 0 -> m_mutex m = false ->
  (forall a p, good (set_addrs m a p)) ->
  exists r s', pop_mem_map l m flags s = Ret (r, s') /\ init_ok l s0 good r s'.
Proof.
  intros Hp O Ha Hm Hg. unfold pop_mem_map.
  destruct (quiet_mmap (m_size m) flags (m_fd m) 0 s) as (a & s1 & E1 & O1).
  rewrite (bind_ret _ _ _ _ _ E1). destruct (Z.eqb_spec a (-1)) as [->|Hne].
  - assert (quiet_call (if negb (m_fd m =? -1) then libc_close (m_fd m) else mret 0)) as Hq
      by (destruct (negb _); auto with quiet).
    destruct (Hq s1) as (b & s2 & E2 & O2). rewrite (bind_ret _ _ _ _ _ E2).
    apply leak_ok. by transitivity s; [|transitivity s1].
  - destruct (quiet_virt_to_phys a Hp s1) as (pa & s2 & E2 & O2). rewrite (bind_ret _ _ _ _ _ E2).
    assert (os_only s0 s2) as O3 by (by transitivity s; [|transitivity s1]).
    apply os_only_fields in O3 as (F1 & F2 & F3 & _).
    eexists (Some l), _. split; [done|]. exists (set_addrs m a pa). simpl. by rewrite F1, F2, F3.
Qed.

End pop_mem_lemmas.
