(* ===== verification/Boogiepop.v ===== *)
(** * kmod/boogiepop.c: the kernel module

    The list of registered pop devices, the ioctl interface of /dev/boogiepop
    that registers and unregisters the peer-to-peer memory of a PCI device, and
    the character device of each registered device (open, release, llseek, mmap
    and the page fault handler).  The PCI core, p2pdma, the misc device layer,
    kmalloc and the copies from and to user space belong to Linux: they are the
    operations of the interface [Kapi], and [KapiOk] states the documented
    behaviour the theorems rely on.  Log output is not modelled.
    Here each entry point runs alone; the module takes no lock, and KmodThreads.v
    models ioctls that run at the same time. *)

From S2P Require Import Prelude CStr LibpopH.

(** ** Linux as the module sees it *)

(** A [struct pci_dev] is known by its address. *)
Definition pdev : Type := Z.

Class Kapi (P : Type) : Type := {
  pci_get_domain_bus_and_slot : Z -> Z -> Z -> P -> option pdev * P;
  pci_dev_put : pdev -> P -> P;
  pci_has_p2pmem : pdev -> P -> bool;
  pci_name : pdev -> cstr;
  p2pdma_pool_size : pdev -> P -> option Z;        (* gen_pool_size(pdev->p2pdma->pool) *)
  pci_alloc_p2pmem : pdev -> Z -> P -> Z * P;      (* 0 is NULL *)
  pci_free_p2pmem : pdev -> Z -> Z -> P -> P;
  kmalloc_ok : P -> bool * P;                      (* whether kmalloc succeeds *)
  misc_register : cstr -> P -> Z * P;
  misc_deregister : cstr -> P -> P;
  copy_from_user : Z -> P -> option pop_p2pmem_reg;
  copy_to_user : Z -> pop_p2pmem_reg -> P -> option P;
  kvirt_to_phys : Z -> Z;
  pfn_valid : Z -> bool;
  get_page : Z -> P -> P                           (* of the page with this frame number *)
}.

(** ** State *)

(** [struct pop_dev]; its [mdev] carries the name [devname]. *)
Record pop_dev : Type := PopDev {
  d_pdev : pdev;
  d_devname : cstr;
  d_p2pmem : Z;
  d_size : Z;       (* size_t *)
  d_refcnt : Z      (* atomic_t *)
}.

(** The structures kmalloc'ed so far, [pop.dev_list], and the private data of
    every open file of a pop device. *)
Record kstate {P : Type} : Type := K {
  k_devs : gmap loc pop_dev;
  k_list : list loc;
  k_files : gmap positive (option loc);
  k_next : loc;
  k_env : P
}.
Arguments kstate : clear implicits.
Arguments K {P}.

Definition k_EINVAL : Z := 22.
Definition k_ENOMEM : Z := 12.
Definition k_ENODEV : Z := 19.
Definition k_EFAULT : Z := 14.
Definition k_ENOTSUPP : Z := 524.
Definition VM_FAULT_SIGBUS : Z := 2.
Definition SEEK_END : Z := 2.
Definition DEVNAMELEN : nat := 32.

(** [PCI_DEVFN(slot, func)]. *)
Definition PCI_DEVFN (slot func : Z) : Z := Z.lor (Z.shiftl (Z.land slot 0x1f) 3) (Z.land func 7).

Section kmod.
Context {P : Type} `{Kapi P}.

Definition with_env (p : P) (k : kstate P) : kstate P :=
  K (k_devs k) (k_list k) (k_files k) (k_next k) p.
Definition with_devs x (k : kstate P) : kstate P :=
  K x (k_list k) (k_files k) (k_next k) (k_env k).
Definition with_list x (k : kstate P) : kstate P :=
  K (k_devs k) x (k_files k) (k_next k) (k_env k).
Definition with_files x (k : kstate P) : kstate P :=
  K (k_devs k) (k_list k) x (k_next k) (k_env k).

(** A call of the kernel that returns a value. *)
Definition kcall {A : Type} (f : P -> A * P) : M (kstate P) A := fun k =>
  let '(a, p) := f (k_env k) in Ret (a, with_env p k).
Definition kproc (f : P -> P) : M (kstate P) () := modify (fun k => with_env (f (k_env k)) k).

Definition load_dev (l : loc) : M (kstate P) pop_dev :=
  o ← gets (fun k => k_devs k !! l); require DanglingPtr o.
Definition store_dev (l : loc) (d : pop_dev) : M (kstate P) () :=
  modify (fun k => with_devs (<[l:=d]> (k_devs k)) k).

Definition set_refcnt (d : pop_dev) (n : Z) : pop_dev :=
  PopDev (d_pdev d) (d_devname d) (d_p2pmem d) (d_size d) n.

(** ** Lookup *)

(** [list_for_each_entry] over [pop.dev_list]. *)
Fixpoint find_in (ls : list loc) (pd : pdev) : M (kstate P) (option loc) :=
  match ls with
  | [] => mret None
  | l :: ls' => d ← load_dev l; if d_pdev d =? pd then mret (Some l) else find_in ls' pd
  end.

Definition pop_find_dev (pd : pdev) : M (kstate P) (option loc) :=
  ls ← gets k_list; find_in ls pd.

Definition pop_find_dev_by_bus_and_slot (domain bus devfn : Z) : M (kstate P) (option loc) :=
  pd ← kcall (pci_get_domain_bus_and_slot domain bus devfn);
  match pd with
  | None => mret None
  | Some pd =>
      ppdev ← pop_find_dev pd;
      _ ← kproc (pci_dev_put pd);
      mret ppdev
  end.

(** ** The character device of a pop device *)

(** [filp->private_data]; a file the module has not seen yet has none. *)
Definition private_data (f : positive) : M (kstate P) (option loc) :=
  o ← gets (fun k => k_files k !! f); mret (default None o).
Definition set_private_data (f : positive) (o : option loc) : M (kstate P) () :=
  modify (fun k => with_files (<[f:=o]> (k_files k)) k).

Definition pop_dev_llseek (f : positive) (offset whence : Z) : M (kstate P) Z :=
  o ← private_data f;
  match o with
  | None => mret (- k_EINVAL)
  | Some l =>
      if whence =? SEEK_END then d ← load_dev l; mret (i64 (offset + d_size d))
      else mret (- k_ENOTSUPP)
  end.

Definition pop_dev_open (f : positive) (name : cstr) : M (kstate P) Z :=
  match sscanf_x pci_seps name with
  | [domain; bus; slot; func] =>
      ppdev ← pop_find_dev_by_bus_and_slot (i32 domain) bus (PCI_DEVFN slot func);
      match ppdev with
      | None => mret (- k_EINVAL)
      | Some l =>
          d ← load_dev l;
          _ ← store_dev l (set_refcnt d (i32 (d_refcnt d + 1)));
          _ ← set_private_data f (Some l);
          mret 0
      end
  | _ => mret (- k_EINVAL)
  end.

Definition pop_dev_release (f : positive) : M (kstate P) Z :=
  o ← private_data f;
  l ← require NullDeref o;
  d ← load_dev l;
  _ ← store_dev l (set_refcnt d (i32 (d_refcnt d - 1)));
  _ ← set_private_data f None;
  mret 0.

(** The fault handler: the result and the frame of the page it takes a reference
    on and installs in [vmf->page]. *)
Definition pop_dev_mem_fault (vm_file : option positive) (pgoff : Z) : M (kstate P) (Z * option Z) :=
  match vm_file with
  | None => mret (- k_EINVAL, None)
  | Some f =>
      o ← private_data f;
      match o with
      | None => mret (- k_EINVAL, None)
      | Some l =>
          d ← load_dev l;
          let pa := kvirt_to_phys (d_p2pmem d +64 (pgoff <<64 12)) in
          if pa =? 0 then mret (VM_FAULT_SIGBUS, None)
          else
            let pfn := pa >>64 12 in
            if negb (pfn_valid pfn) then mret (VM_FAULT_SIGBUS, None)
            else _ ← kproc (get_page pfn); mret (0, Some pfn)
      end
  end.

(** [struct vm_area_struct], as far as [pop_dev_mmap] reads it. *)
Record vma : Type := Vma { vm_start : Z; vm_end : Z; vm_pgoff : Z }.

(** The result, and whether [vma->vm_ops] was set to the fault handler. *)
Definition pop_dev_mmap (f : positive) (v : vma) : M (kstate P) (Z * bool) :=
  o ← private_data f;
  let off := vm_pgoff v <<64 12 in
  let len := vm_end v -64 vm_start v in
  match o with
  | None => mret (- k_EINVAL, false)
  | Some l =>
      d ← load_dev l;
      if d_size d <? off +64 len then mret (- k_ENOMEM, false) else mret (0, true)
  end.

(** ** Registration *)

Definition new_dev (pd : pdev) (p2pmem size : Z) : pop_dev :=
  PopDev pd (snprintf DEVNAMELEN (lit "pop/" ++ pci_name pd)) p2pmem size 0.

(** [ppdev = kmalloc(sizeof( *ppdev), GFP_KERNEL)] and the assignments to its
    fields. *)
Definition kmalloc_dev (d : pop_dev) : M (kstate P) (option loc) := fun k =>
  let '(ok, p) := kmalloc_ok (k_env k) in
  if ok : bool then
    Ret (Some (k_next k), K (<[k_next k:=d]> (k_devs k)) (k_list k) (k_files k) (Pos.succ (k_next k)) p)
  else Ret (None, with_env p k).

(** [wrap size in PAGE_SIZE]. *)
Definition wrap_size (size : Z) : Z := ((size +64 Z.shiftl 1 12 -64 1) >>64 12) <<64 12.

(** The result is an [int]. *)
Definition pop_register_p2pmem (pd : pdev) (size : Z) : M (kstate P) Z :=
  ppdev ← pop_find_dev pd;
  match ppdev with
  | Some l => d ← load_dev l; mret (i32 (d_size d))
  | None =>
      pool ← gets (fun k => p2pdma_pool_size pd (k_env k));
      let size := wrap_size (if size =? 0 then default size pool else size) in
      p2pmem ← kcall (pci_alloc_p2pmem pd size);
      if p2pmem =? 0 then mret (- k_ENOMEM)
      else
        ppdev ← kmalloc_dev (new_dev pd p2pmem size);
        match ppdev with
        | None => _ ← kproc (pci_free_p2pmem pd p2pmem size); mret (- k_ENOMEM)
        | Some l =>
            ret ← kcall (misc_register (d_devname (new_dev pd p2pmem size)));
            if negb (ret =? 0) then
              _ ← kproc (pci_free_p2pmem pd p2pmem size);
              mret (- k_EINVAL)
            else
              _ ← modify (fun k => with_list (k_list k ++ [l]) k);
              mret (i32 size)
        end
  end.

Definition pop_unregister_p2pmem (l : loc) : M (kstate P) () :=
  d ← load_dev l;
  _ ← kproc (misc_deregister (d_devname d));
  _ ← kproc (pci_free_p2pmem (d_pdev d) (d_p2pmem d) (d_size d));
  _ ← kproc (pci_dev_put (d_pdev d));
  _ ← modify (fun k => with_list (filter (fun l' => l' <> l) (k_list k)) k);
  modify (fun k => with_devs (delete l (k_devs k)) k).

(** ** The ioctl interface *)

(** [case POP_P2PMEM_REG]. *)
Definition ioctl_reg (data : Z) : M (kstate P) Z :=
  oreg ← gets (fun k => copy_from_user data (k_env k));
  match oreg with
  | None => mret (- k_EFAULT)
  | Some reg =>
      opd ← kcall (pci_get_domain_bus_and_slot (domain reg) (u32 (bus reg))
                     (PCI_DEVFN (slot reg) (func reg)));
      match opd with
      | None => mret (- k_ENODEV)
      | Some pd =>
          has ← gets (fun k => pci_has_p2pmem pd (k_env k));
          if negb has then _ ← kproc (pci_dev_put pd); mret (- k_EINVAL)
          else
            size ← pop_register_p2pmem pd (reg_size reg);
            if size <? 0 then _ ← kproc (pci_dev_put pd); mret 0
            else
              let reg' := Reg (domain reg) (bus reg) (slot reg) (func reg) (u64 size) in
              o ← gets (fun k => copy_to_user data reg' (k_env k));
              match o with
              | None => _ ← kproc (pci_dev_put pd); mret (- k_EFAULT)
              | Some p => _ ← kproc (fun _ => p); mret 0
              end
      end
  end.

(** [case POP_P2PMEM_UNREG]. *)
Definition ioctl_unreg (data : Z) : M (kstate P) Z :=
  oreg ← gets (fun k => copy_from_user data (k_env k));
  match oreg with
  | None => mret (- k_EFAULT)
  | Some reg =>
      opd ← kcall (pci_get_domain_bus_and_slot (domain reg) (u32 (bus reg))
                     (PCI_DEVFN (slot reg) (func reg)));
      match opd with
      | None => mret (- k_ENODEV)
      | Some pd =>
          ppdev ← pop_find_dev pd;
          match ppdev with
          | None => _ ← kproc (pci_dev_put pd); mret (- k_ENODEV)
          | Some l => _ ← pop_unregister_p2pmem l; mret 0
          end
      end
  end.

Definition pop_ioctl (cmd data : Z) : M (kstate P) Z :=
  if cmd =? POP_P2PMEM_REG then ioctl_reg data
  else if cmd =? POP_P2PMEM_UNREG then ioctl_unreg data
  else mret (- k_EINVAL).

Definition pop_open : M (kstate P) Z := mret 0.
Definition pop_release : M (kstate P) Z := mret 0.

(** ** Loading and unloading *)

Definition pop_init : M (kstate P) Z :=
  _ ← modify (with_list []);
  kcall (misc_register (lit "boogiepop")).

(** [list_for_each_safe]: the next element is read before the current one is
    unregistered. *)
Definition pop_exit : M (kstate P) () :=
  ls ← gets k_list;
  _ ← for_each ls (fun l _ => pop_unregister_p2pmem l) ();
  kproc (misc_deregister (lit "boogiepop")).
End kmod.

(** ** What Linux documents about these calls *)

(** A region of peer-to-peer memory: its device, address and size. *)
Definition region : Type := pdev * Z * Z.

(** [pci_refs] counts the references taken on a device, [p2p_live] says which
    regions are allocated and [misc_live] which misc devices exist: getting and
    putting a device moves its count by one, an allocation returns a region that
    was free, a name can be registered once, and no call touches what it is not
    about. *)
Class KapiOk (P : Type) `{Kapi P} : Type := {
  pci_refs : P -> pdev -> Z;
  p2p_live : P -> region -> Prop;
  misc_live : P -> cstr -> Prop;
  pci_get_spec d b f p :
    let '(o, p') := pci_get_domain_bus_and_slot d b f p in
    (forall pd, pci_refs p' pd = pci_refs p pd + if bool_decide (o = Some pd) then 1 else 0) /\
    (forall r, p2p_live p' r <-> p2p_live p r) /\ (forall n, misc_live p' n <-> misc_live p n);
  pci_put_spec pd p :
    (forall pd', pci_refs (pci_dev_put pd p) pd' = pci_refs p pd' - if bool_decide (pd' = pd) then 1 else 0) /\
    (forall r, p2p_live (pci_dev_put pd p) r <-> p2p_live p r) /\
    (forall n, misc_live (pci_dev_put pd p) n <-> misc_live p n);
  pci_alloc_spec pd size p :
    let '(a, p') := pci_alloc_p2pmem pd size p in
    (forall pd', pci_refs p' pd' = pci_refs p pd') /\
    (a <> 0 -> ~ p2p_live p (pd, a, size)) /\
    (forall r, p2p_live p' r <-> p2p_live p r \/ (a <> 0 /\ r = (pd, a, size))) /\
    (forall n, misc_live p' n <-> misc_live p n);
  pci_free_spec pd a size p :
    (forall pd', pci_refs (pci_free_p2pmem pd a size p) pd' = pci_refs p pd') /\
    (forall r, p2p_live (pci_free_p2pmem pd a size p) r <-> p2p_live p r /\ r <> (pd, a, size)) /\
    (forall n, misc_live (pci_free_p2pmem pd a size p) n <-> misc_live p n);
  kmalloc_spec p :
    (forall pd, pci_refs (kmalloc_ok p).2 pd = pci_refs p pd) /\
    (forall r, p2p_live (kmalloc_ok p).2 r <-> p2p_live p r) /\
    (forall n, misc_live (kmalloc_ok p).2 n <-> misc_live p n);
  misc_register_spec n p :
    let '(ret, p') := misc_register n p in
    (forall pd, pci_refs p' pd = pci_refs p pd) /\ (forall r, p2p_live p' r <-> p2p_live p r) /\
    (ret = 0 -> ~ misc_live p n) /\
    (forall m, misc_live p' m <-> misc_live p m \/ (ret = 0 /\ m = n));
  misc_deregister_spec n p :
    (forall pd, pci_refs (misc_deregister n p) pd = pci_refs p pd) /\
    (forall r, p2p_live (misc_deregister n p) r <-> p2p_live p r) /\
    (forall m, misc_live (misc_deregister n p) m <-> misc_live p m /\ m <> n);
  copy_to_user_spec data reg p p' :
    copy_to_user data reg p = Some p' ->
    (forall pd, pci_refs p' pd = pci_refs p pd) /\ (forall r, p2p_live p' r <-> p2p_live p r) /\
    (forall n, misc_live p' n <-> misc_live p n);
  get_page_spec pfn p :
    (forall pd, pci_refs (get_page pfn p) pd = pci_refs p pd) /\
    (forall r, p2p_live (get_page pfn p) r <-> p2p_live p r) /\
    (forall n, misc_live (get_page pfn p) n <-> misc_live p n)
}.

(** ** The invariant of the module *)

Definition region_of (d : pop_dev) : region := (d_pdev d, d_p2pmem d, d_size d).

Section kinv.
Context {P : Type} `{KapiOk P}.
Implicit Type k : kstate P.

(** [l] is on [pop.dev_list] and points to [d]. *)
Definition listed k (l : loc) (d : pop_dev) : Prop := l ∈ k_list k /\ k_devs k !! l = Some d.

(** The name of the character device of a PCI device, and the names of that
    form, which are the module's own. *)
Definition devname (pd : pdev) : cstr := snprintf DEVNAMELEN (lit "pop/" ++ pci_name pd).
Definition pop_name (n : cstr) : Prop := take 4 n = lit "pop/".

Lemma pop_name_devname pd : pop_name (devname pd).
Proof. done. Qed.

(** Every element of the list is a live structure, named after its PCI device;
    no PCI device and no device name occurs twice; the peer-to-peer memory in use
    is that of the listed devices and of no other, and the misc devices under
    pop/ are those of the listed devices and no other. *)
Record kinv k : Prop := KInv {
  ki_nodup : NoDup (k_list k);
  ki_dev l : l ∈ k_list k -> exists d, k_devs k !! l = Some d;
  ki_size l d : listed k l d -> 0 <= d_size d < 2 ^ 64 /\ d_size d `mod` 4096 = 0;
  ki_pdev l1 l2 d1 d2 : listed k l1 d1 -> listed k l2 d2 -> d_pdev d1 = d_pdev d2 -> l1 = l2;
  ki_name l1 l2 d1 d2 : listed k l1 d1 -> listed k l2 d2 -> d_devname d1 = d_devname d2 -> l1 = l2;
  ki_live r : p2p_live (k_env k) r <-> exists l d, listed k l d /\ r = region_of d;
  ki_devname l d : listed k l d -> d_devname d = devname (d_pdev d);
  ki_misc l d : listed k l d -> misc_live (k_env k) (d_devname d);
  ki_misc_only n : misc_live (k_env k) n -> pop_name n -> exists l d, listed k l d /\ d_devname d = n;
  ki_fresh l d : k_devs k !! l = Some d -> (l < k_next k)%positive
}.

(** A change of the environment that touches neither memory nor misc devices. *)
Definition quiet (p p' : P) : Prop :=
  (forall r, p2p_live p' r <-> p2p_live p r) /\ (forall n, misc_live p' n <-> misc_live p n).

Lemma kinv_quiet k p : quiet (k_env k) p -> kinv k -> kinv (with_env p k).
Proof.
  intros [Hq1 Hq2] [? ? ? ? ? Hl ? Hm Ho ?]. constructor; try done; simpl.
  - intros r. rewrite Hq1, Hl. done.
  - intros l d Hd. apply Hq2. by eapply Hm.
  - intros n Hn Hp. apply Ho; [by apply Hq2|done].
Qed.

Lemma quiet_get d b f p : quiet p (pci_get_domain_bus_and_slot d b f p).2.
Proof.
  pose proof (pci_get_spec d b f p) as S. destruct (pci_get_domain_bus_and_slot d b f p).
  split; apply S.
Qed.
Lemma quiet_put pd p : quiet p (pci_dev_put pd p).
Proof. split; apply (pci_put_spec pd p). Qed.
Lemma quiet_kmalloc p : quiet p (kmalloc_ok p).2.
Proof. split; apply (kmalloc_spec p). Qed.
Lemma quiet_page pfn p : quiet p (get_page pfn p).
Proof. split; apply (get_page_spec pfn p). Qed.
Lemma quiet_copy data reg p p' : copy_to_user data reg p = Some p' -> quiet p p'.
Proof. intros S%copy_to_user_spec. split; apply S. Qed.

Lemma load_dev_Some l d k : k_devs k !! l = Some d -> load_dev l k = Ret (d, k).
Proof. intros E. unfold load_dev, gets, mbind, M_bind. by rewrite E. Qed.

Lemma load_dev_inv l d k k' : load_dev l k = Ret (d, k') -> k_devs k !! l = Some d /\ k' = k.
Proof.
  unfold load_dev, gets, mbind, M_bind. destruct (k_devs k !! l); simpl; [|done].
  unfold mret, M_ret. naive_solver.
Qed.

Lemma find_in_spec ls pd k :
  (forall l, l ∈ ls -> exists d, k_devs k !! l = Some d) ->
  exists o, find_in ls pd k = Ret (o, k) /\
  match o with
  | Some l => l ∈ ls /\ exists d, k_devs k !! l = Some d /\ d_pdev d = pd
  | None => forall l d, l ∈ ls -> k_devs k !! l = Some d -> d_pdev d <> pd
  end.
Proof.
  induction ls as [|l ls IH]; intros Hls.
  - exists None. split; [done|]. intros l d Hl. by apply elem_of_nil in Hl.
  - destruct (Hls l) as [d Hd]; [constructor|]. simpl.
    rewrite (bind_ret _ _ _ _ _ (load_dev_Some _ _ _ Hd)).
    destruct (Z.eqb_spec (d_pdev d) pd) as [E|E].
    + exists (Some l). split; [done|]. split; [constructor|eauto].
    + destruct IH as ([l'|] & Ef & Ho); [intros; apply Hls; by constructor|..].
      * exists (Some l'). split; [done|]. destruct Ho. split; [by constructor|done].
      * exists None. split; [done|]. intros l' d' [->|Hl']%elem_of_cons Hd'; [congruence|eauto].
Qed.

Lemma pop_find_dev_spec pd k :
  kinv k -> exists o, pop_find_dev pd k = Ret (o, k) /\
  match o with
  | Some l => exists d, listed k l d /\ d_pdev d = pd
  | None => forall l d, listed k l d -> d_pdev d <> pd
  end.
Proof.
  intros Hk. destruct (find_in_spec (k_list k) pd k (ki_dev k Hk)) as (o & E & Ho).
  exists o. split; [done|]. destruct o as [l|].
  - destruct Ho as (Hl & d & Hd & E'). by exists d.
  - intros l d [Hl Hd]. eauto.
Qed.

(** A structure that is not on the list does not matter. *)
Lemma kinv_unlisted k d p :
  kinv k -> quiet (k_env k) p ->
  kinv (K (<[k_next k:=d]> (k_devs k)) (k_list k) (k_files k) (Pos.succ (k_next k)) p).
Proof.
  intros Hk Hq. apply (kinv_quiet _ p Hq) in Hk. destruct Hk as [Hnd Hdev Hsz Hpd Hnm Hlv Hdn Hms Hmo Hfr].
  simpl in *.
  assert (forall l, l ∈ k_list k -> l <> k_next k) as Hne.
  { intros l Hl ->. destruct (Hdev _ Hl) as [d' Hd']. apply Hfr in Hd'. lia. }
  set (k' := K _ _ _ _ _).
  assert (forall l d', listed k' l d' <-> listed (with_env p k) l d') as Hls.
  { intros l d'. unfold listed; simpl. split; intros [Hl Hd]; (split; [done|]).
    - rewrite lookup_insert_ne in Hd; [done|]. intros E. by apply (Hne l).
    - rewrite lookup_insert_ne; [done|]. intros E. by apply (Hne l). }
  constructor; simpl; try done.
  - intros l Hl. rewrite lookup_insert_ne; [eauto|]. intros E. by apply (Hne l).
  - intros l d' Hd. apply Hls in Hd. eauto.
  - intros l1 l2 d1 d2 H1%Hls H2%Hls. eauto.
  - intros l1 l2 d1 d2 H1%Hls H2%Hls. eauto.
  - intros r. rewrite Hlv. split; intros (l & d' & Hd & Hr); exists l, d'; (split; [by apply Hls|done]).
  - intros l d' Hd%Hls. eauto.
  - intros l d' Hd%Hls. eauto.
  - intros n Hn Hp. destruct (Hmo n Hn Hp) as (l & d' & Hd & En). exists l, d'. split; [by apply Hls|done].
  - intros l d'. rewrite lookup_insert_Some. intros [[<- _]|[_ Hd]]; [lia|]. apply Hfr in Hd. lia.
Qed.

(** Putting a new device at the end of the list. *)
Lemma kinv_append k d p :
  kinv k ->
  (forall r, p2p_live p r <-> p2p_live (k_env k) r \/ r = region_of d) ->
  (forall m, misc_live p m <-> misc_live (k_env k) m \/ m = d_devname d) ->
  ~ misc_live (k_env k) (d_devname d) ->
  (forall l d', listed k l d' -> d_pdev d' <> d_pdev d) ->
  0 <= d_size d < 2 ^ 64 /\ d_size d `mod` 4096 = 0 -> d_devname d = devname (d_pdev d) ->
  kinv (K (<[k_next k:=d]> (k_devs k)) (k_list k ++ [k_next k]) (k_files k) (Pos.succ (k_next k)) p).
Proof.
  intros [Hnd Hdev Hsz Hpd Hnm Hlv Hdn Hms Hmo Hfr] Hp2p Hmisc Hnew Hnone Hdsz Hdname.
  assert (forall l, l ∈ k_list k -> l <> k_next k) as Hne.
  { intros l Hl ->. destruct (Hdev _ Hl) as [d' Hd']. apply Hfr in Hd'. lia. }
  set (k' := K _ _ _ _ _).
  assert (forall l d', listed k' l d' <-> listed k l d' \/ (l = k_next k /\ d' = d)) as Hls.
  { intros l d'. unfold listed; simpl. rewrite elem_of_app, list_elem_of_singleton, lookup_insert_Some.
    split.
    - intros [[Hl| ->] [[E <-]|[E Hd]]]; [|by left|by right|done]. by destruct (Hne l Hl).
    - intros [[Hl Hd]|[-> ->]]; [|auto]. split; [auto|]. right. split; [|done].
      intros E. by apply (Hne l). }
  constructor; simpl.
  - apply NoDup_app. split_and!; [done| |apply NoDup_singleton].
    intros l Hl ->%list_elem_of_singleton. by apply (Hne _ Hl).
  - intros l [Hl| ->%list_elem_of_singleton]%elem_of_app; [|rewrite lookup_insert_eq; eauto].
    destruct (Hdev l Hl) as [d' Hd']. exists d'. rewrite lookup_insert_ne; [done|].
    intros E. by apply (Hne l).
  - intros l d' [Hd|[-> ->]]%Hls; [eauto|done].
  - intros l1 l2 d1 d2 [H1|[-> ->]]%Hls [H2|[-> ->]]%Hls E; [eauto|..|done].
    + by destruct (Hnone _ _ H1).
    + symmetry in E. by destruct (Hnone _ _ H2).
  - intros l1 l2 d1 d2 [H1|[-> ->]]%Hls [H2|[-> ->]]%Hls E; [eauto|..|done].
    + apply Hms in H1. rewrite E in H1. done.
    + apply Hms in H2. rewrite <- E in H2. done.
  - intros r. rewrite Hp2p, Hlv. split.
    + intros [(l & d' & Hd & Hr)| ->]; [exists l, d'|exists (k_next k), d];
        (split; [apply Hls; auto|done]).
    + intros (l & d' & [Hd|[-> ->]]%Hls & ->); [left; eauto|by right].
  - intros l d' [Hd|[-> ->]]%Hls; [eauto|done].
  - intros l d' [Hd|[-> ->]]%Hls; apply Hmisc; [left; eauto|by right].
  - intros n [Hn| ->]%Hmisc Hp; [|exists (k_next k), d; split; [apply Hls; auto|done]].
    destruct (Hmo n Hn Hp) as (l & d' & Hd & En). exists l, d'. split; [apply Hls; auto|done].
  - intros l d'. rewrite lookup_insert_Some. intros [[<- _]|[_ Hd]]; [lia|]. apply Hfr in Hd. lia.
Qed.

Lemma wrap_size_ok size : 0 <= wrap_size size < 2 ^ 64 /\ wrap_size size `mod` 4096 = 0.
Proof.
  unfold wrap_size. rewrite shiftl_12, !shiftr_12. split; [apply u64_range|].
  pose proof (u64_range ((size +64 4096) - 1)) as Hr. change (Z.shiftl 1 12) with 4096.
  rewrite u64_small; [|Z.to_euclidean_division_equations; lia].
  apply Z.mod_mul. lia.
Qed.

Lemma wrap_size_up size :
  0 <= size <= 2 ^ 64 - 4096 -> size <= wrap_size size < size + 4096.
Proof.
  intros Hs. unfold wrap_size. rewrite shiftl_12, shiftr_12. change (Z.shiftl 1 12) with 4096.
  destruct (Z.eq_dec size (2 ^ 64 - 4096)) as [->|]; [by vm_compute|].
  rewrite (u64_small (size + 4096)), (u64_small (size + 4096 - 1)) by lia.
  rewrite u64_small; Z.to_euclidean_division_equations; lia.
Qed.

(** Registering a device that is not on the list, branch by branch. *)
Lemma pop_register_new pd size k :
  kinv k -> (forall l d, listed k l d -> d_pdev d <> pd) ->
  exists r k', pop_register_p2pmem pd size k = Ret (r, k') /\ kinv k' /\
    (forall pd', pci_refs (k_env k') pd' = pci_refs (k_env k) pd') /\ k_files k' = k_files k /\
    ((exists a sz, k_list k' = k_list k ++ [k_next k] /\
        k_devs k' = <[k_next k:=new_dev pd a sz]> (k_devs k) /\ r = i32 sz /\
        sz = wrap_size (if size =? 0 then default size (p2pdma_pool_size pd (k_env k)) else size))
     \/ (k_list k' = k_list k /\ r < 0 /\ forall l d, listed k' l d -> d_pdev d <> pd)).
Proof.
  intros Hk Hnone. unfold pop_register_p2pmem.
  destruct (pop_find_dev_spec pd k Hk) as ([l|] & Ef & Ho).
  { destruct Ho as (d & Hd & E). by destruct (Hnone l d Hd). }
  rewrite (bind_ret _ _ _ _ _ Ef). unfold gets, kcall, kproc, modify, kmalloc_dev.
  unfold mbind, M_bind, mret, M_ret. cbn -[wrap_size new_dev d_devname].
  set (sz := wrap_size _). pose proof (pci_alloc_spec pd sz (k_env k)) as Sa.
  destruct (pci_alloc_p2pmem pd sz (k_env k)) as [a p1]. destruct Sa as (Ra & Na & La & Ma).
  cbn -[new_dev d_devname]. destruct (Z.eqb_spec a 0) as [->|Ha].
  { eexists _, _. split; [done|]. split_and!; [|done|done|].
    - apply (kinv_quiet k p1); [|done]. split; [|done]. intros r. rewrite La. tauto.
    - right. split_and!; done. }
  cbn -[new_dev d_devname]. pose proof (kmalloc_spec p1) as (Rk & Lk & Mk). destruct (kmalloc_ok p1) as [ok p2]. cbn [snd] in *.
  pose proof (pci_free_spec pd a sz) as Sf.
  assert (forall p, (forall r, p2p_live p r <-> p2p_live p1 r) -> (forall n, misc_live p n <-> misc_live p1 n) ->
    quiet (k_env k) (pci_free_p2pmem pd a sz p)) as Hundo.
  { intros p Hp Hn. destruct (Sf p) as (_ & Lf & Mf). split.
    - intros r. rewrite Lf, Hp, La. specialize (Na Ha). split; [tauto|].
      intros Hr. split; [auto|]. intros ->. done.
    - intros n. rewrite Mf, Hn. done. }
  destruct ok; cbn -[new_dev d_devname].
  2: { eexists _, _. split; [reflexivity|]. destruct (Sf p2) as (Rf & _ & _). split_and!; [| |done|].
       - apply (kinv_quiet k); [by apply Hundo|done].
       - intros pd'. simpl. rewrite Rf, Rk, Ra. done.
       - right. split_and!; done. }
  set (nm := d_devname _). pose proof (misc_register_spec nm p2) as Sm.
  destruct (misc_register nm p2) as [ret p3]. destruct Sm as (Rm & Lm & Nm & Mm).
  cbn -[new_dev d_devname]. destruct (Z.eqb_spec ret 0) as [->|Hret]; cbn -[new_dev d_devname].
  - eexists _, _. split; [done|]. split_and!; [| |done|].
    + apply (kinv_append k (new_dev pd a sz) p3); try done.
      * intros r. rewrite Lm, Lk, La. unfold region_of. simpl. tauto.
      * intros m. rewrite Mm, Mk, Ma. tauto.
      * rewrite <- Ma, <- Mk. by apply Nm.
      * apply wrap_size_ok.
    + intros pd'. simpl. rewrite Rm, Rk, Ra. done.
    + left. by exists a, sz.
  - eexists _, _. split; [done|]. destruct (Sf p3) as (Rf & _ & _). split_and!; [| |done|].
    + apply (kinv_unlisted k (new_dev pd a sz)); [done|]. apply Hundo; [intros; by rewrite Lm, Lk|].
      intros n. rewrite Mm, Mk. tauto.
    + intros pd'. simpl. rewrite Rf, Rm, Rk, Ra. done.
    + right. split_and!; [done|done|]. intros l d [Hl Hd]. simpl in Hl, Hd.
      destruct (ki_dev _ Hk l Hl) as [d0 Hd0].
      rewrite lookup_insert_ne in Hd; [by apply (Hnone l)|].
      intros <-. apply (ki_fresh _ Hk) in Hd0. lia.
Qed.

(** Registering a device that is on the list changes nothing. *)
Lemma pop_register_again pd size k l d :
  kinv k -> listed k l d -> d_pdev d = pd ->
  pop_register_p2pmem pd size k = Ret (i32 (d_size d), k).
Proof.
  intros Hk Hd E. unfold pop_register_p2pmem.
  destruct (pop_find_dev_spec pd k Hk) as ([l'|] & Ef & Ho).
  - destruct Ho as (d' & Hd' & E'). rewrite (bind_ret _ _ _ _ _ Ef).
    assert (l' = l) as -> by (eapply (ki_pdev k Hk); eauto; congruence).
    rewrite (bind_ret _ _ _ _ _ (load_dev_Some l d k (proj2 Hd))). done.
  - by destruct (Ho l d Hd).
Qed.

(** The state after [pop_unregister_p2pmem]. *)
Definition unregistered (l : loc) (d : pop_dev) k : kstate P :=
  K (delete l (k_devs k)) (filter (fun l' => l' <> l) (k_list k)) (k_files k) (k_next k)
    (pci_dev_put (d_pdev d) (pci_free_p2pmem (d_pdev d) (d_p2pmem d) (d_size d)
       (misc_deregister (d_devname d) (k_env k)))).

Lemma pop_unregister_eq l d k :
  k_devs k !! l = Some d -> pop_unregister_p2pmem l k = Ret ((), unregistered l d k).
Proof.
  intros E. unfold pop_unregister_p2pmem. by rewrite (bind_ret _ _ _ _ _ (load_dev_Some _ _ _ E)).
Qed.

Lemma unregistered_inv l d k : kinv k -> listed k l d -> kinv (unregistered l d k).
Proof.
  intros [Hnd Hdev Hsz Hpd Hnm Hlv Hdn Hms Hmo Hfr] Hd.
  assert (forall l' d', listed (unregistered l d k) l' d' <-> listed k l' d' /\ l' <> l) as Hls.
  { intros l' d'. unfold listed; simpl. rewrite list_elem_of_filter, lookup_delete_Some.
    split; [intros [[? ?] [? ?]]|intros [[? ?] ?]]; split_and!; congruence. }
  destruct (misc_deregister_spec (d_devname d) (k_env k)) as (_ & Ld & Md).
  destruct (pci_free_spec (d_pdev d) (d_p2pmem d) (d_size d) (misc_deregister (d_devname d) (k_env k)))
    as (_ & Lf & Mf).
  constructor; simpl.
  - by apply NoDup_filter.
  - intros l' [Hne Hl']%list_elem_of_filter. destruct (Hdev l' Hl') as [d' E].
    exists d'. by rewrite lookup_delete_ne.
  - intros l' d' [H1 _]%Hls. eauto.
  - intros l1 l2 d1 d2 [H1 _]%Hls [H2 _]%Hls. eauto.
  - intros l1 l2 d1 d2 [H1 _]%Hls [H2 _]%Hls. eauto.
  - intros r. rewrite (proj1 (proj2 (pci_put_spec _ _))), Lf, Ld, Hlv. split.
    + intros [(l' & d' & H1 & ->) Hr]. exists l', d'. split; [apply Hls; split; [done|]|done].
      intros ->. apply Hr. destruct H1 as [_ H1], Hd as [_ Hd]. by simplify_eq.
    + intros (l' & d' & [H1 Hne]%Hls & ->). split; [eauto|].
      intros [= E1 E2 E3]. apply Hne. by eapply Hpd.
  - intros l' d' [H1 _]%Hls. eauto.
  - intros l' d' [H1 Hne]%Hls. rewrite (proj2 (proj2 (pci_put_spec _ _))), Mf, Md. split; [eauto|].
    intros E. apply Hne. by eapply Hnm.
  - intros n. rewrite (proj2 (proj2 (pci_put_spec _ _))), Mf, Md. intros [Hn Hne] Hp.
    destruct (Hmo n Hn Hp) as (l' & d' & H1 & En). exists l', d'. split; [apply Hls; split; [done|]|done].
    intros ->. apply Hne. destruct H1 as [_ H1], Hd as [_ Hd]. by simplify_eq.
  - intros l' d' [_ E]%lookup_delete_Some. eauto.
Qed.

Lemma kinv_files k x : kinv k -> kinv (with_files x k).
Proof. intros [? ? ? ? ? ? ? ? ? ?]. by constructor. Qed.

(** The reference count of a device is its own. *)
Lemma kinv_refcnt k l d n :
  k_devs k !! l = Some d -> kinv k -> kinv (with_devs (<[l:=set_refcnt d n]> (k_devs k)) k).
Proof.
  intros Hd [Hnd Hdev Hsz Hpd Hnm Hlv Hdn Hms Hmo Hfr].
  set (k' := with_devs _ k).
  assert (forall l' d', listed k' l' d' -> exists d0, listed k l' d0 /\ region_of d0 = region_of d'
    /\ d_devname d0 = d_devname d') as Hback.
  { intros l' d' [Hl E]. simpl in *. apply lookup_insert_Some in E as [[<- <-]|[Hne E]].
    - exists d. done.
    - exists d'. done. }
  assert (forall l' d0, listed k l' d0 -> exists d', listed k' l' d' /\ region_of d0 = region_of d'
    /\ d_devname d0 = d_devname d') as Hfwd.
  { intros l' d0 [Hl E]. destruct (decide (l = l')) as [<-|Hne].
    - exists (set_refcnt d n). unfold listed; simpl. rewrite lookup_insert_eq.
      split; [done|]. by simplify_eq.
    - exists d0. unfold listed; simpl. by rewrite lookup_insert_ne. }
  unfold region_of in *.
  constructor; try done.
  - intros l' Hl. destruct (Hdev l' Hl) as [d' Hd']. destruct (Hfwd l' d') as (d1 & [_ H1] & _); [done|eauto].
  - intros l' d' H1%Hback. destruct H1 as (d0 & Hx & [= E1 E2 E3] & _). rewrite <- E3. eauto.
  - intros l1 l2 d1 d2 H1%Hback H2%Hback E. destruct H1 as (e1 & H1 & [= E1 _ _] & _).
    destruct H2 as (e2 & H2 & [= E2 _ _] & _). eapply Hpd; eauto. congruence.
  - intros l1 l2 d1 d2 H1%Hback H2%Hback E. destruct H1 as (e1 & H1 & _ & E1).
    destruct H2 as (e2 & H2 & _ & E2). eapply Hnm; eauto. congruence.
  - intros r. simpl. rewrite Hlv. split.
    + intros (l' & d0 & Hx%Hfwd & ->). destruct Hx as (d' & H' & E & _). eauto.
    + intros (l' & d' & H'%Hback & ->). destruct H' as (d0 & Hx & E & _). eauto.
  - intros l' d' H'%Hback. destruct H' as (d0 & Hx & [= E _ _] & <-). rewrite <- E. eauto.
  - intros l' d' H'%Hback. destruct H' as (d0 & Hx & _ & <-). eapply Hms; eauto.
  - intros nm Hn Hp. destruct (Hmo nm Hn Hp) as (l' & d0 & Hx%Hfwd & <-).
    destruct Hx as (d' & H' & _ & E). eauto.
  - intros l' d'. simpl. rewrite lookup_insert_Some. intros [[<- _]|[_ E]]; eauto.
Qed.

(** ** Runs of the module *)

Variant kevent : Type :=
  | EIoctl (cmd data : Z)
  | EOpen (f : positive) (name : cstr)
  | ERelease (f : positive)
  | ELlseek (f : positive) (offset whence : Z)
  | EMmap (f : positive) (v : vma)
  | EFault (vm_file : option positive) (pgoff : Z).

Definition run_event (e : kevent) : M (kstate P) () :=
  match e with
  | EIoctl cmd data => _ ← pop_ioctl cmd data; mret ()
  | EOpen f name => _ ← pop_dev_open f name; mret ()
  | ERelease f => _ ← pop_dev_release f; mret ()
  | ELlseek f offset whence => _ ← pop_dev_llseek f offset whence; mret ()
  | EMmap f v => _ ← pop_dev_mmap f v; mret ()
  | EFault vm_file pgoff => _ ← pop_dev_mem_fault vm_file pgoff; mret ()
  end.

Definition kstep k (e : kevent) k' : Prop := run_event e k = Ret ((), k').

(** The ioctl that registers, up to the call of [pop_register_p2pmem]. *)
Lemma pop_register_any pd size k :
  kinv k -> exists r k', pop_register_p2pmem pd size k = Ret (r, k') /\ kinv k'.
Proof.
  intros Hk. destruct (pop_find_dev_spec pd k Hk) as ([l|] & _ & Ho).
  - destruct Ho as (d & Hd & E). exists (i32 (d_size d)), k.
    split; [by eapply pop_register_again|done].
  - destruct (pop_register_new pd size k Hk Ho) as (r & k' & E & Hk' & _). eauto.
Qed.

Lemma ioctl_reg_inv data k :
  kinv k -> exists r k', ioctl_reg data k = Ret (r, k') /\ kinv k'.
Proof.
  intros Hk. unfold ioctl_reg, gets, kcall, kproc, modify, mbind, M_bind, mret, M_ret. simpl.
  destruct (copy_from_user data (k_env k)) as [reg|]; [|eauto]. simpl.
  pose proof (quiet_get (domain reg) (u32 (bus reg)) (PCI_DEVFN (slot reg) (func reg)) (k_env k)) as Hq.
  destruct (pci_get_domain_bus_and_slot _ _ _ (k_env k)) as [[pd|] p1]; simpl in *;
    [|eexists _, _; split; [done|]; by apply kinv_quiet].
  apply (kinv_quiet k p1) in Hk; [|done].
  destruct (pci_has_p2pmem pd p1); simpl;
    [|eexists _, _; split; [done|]; apply (kinv_quiet (with_env p1 k)); [apply quiet_put|done]].
  destruct (pop_register_any pd (reg_size reg) _ Hk) as (r & k2 & -> & Hk2).
  destruct (r <? 0); simpl;
    [eexists _, _; split; [done|]; apply (kinv_quiet k2); [apply quiet_put|done]|].
  destruct (copy_to_user data _ (k_env k2)) as [p3|] eqn:Ec; simpl.
  - eexists _, _. split; [done|]. apply (kinv_quiet k2); [|done]. by eapply quiet_copy.
  - eexists _, _. split; [done|]. apply (kinv_quiet k2); [apply quiet_put|done].
Qed.

Lemma ioctl_unreg_inv data k :
  kinv k -> exists r k', ioctl_unreg data k = Ret (r, k') /\ kinv k'.
Proof.
  intros Hk. unfold ioctl_unreg, gets, kcall, kproc, modify, mbind, M_bind, mret, M_ret. simpl.
  destruct (copy_from_user data (k_env k)) as [reg|]; [|eauto]. simpl.
  pose proof (quiet_get (domain reg) (u32 (bus reg)) (PCI_DEVFN (slot reg) (func reg)) (k_env k)) as Hq.
  destruct (pci_get_domain_bus_and_slot _ _ _ (k_env k)) as [[pd|] p1]; simpl in *;
    [|eexists _, _; split; [done|]; by apply kinv_quiet].
  apply (kinv_quiet k p1) in Hk; [|done].
  destruct (pop_find_dev_spec pd _ Hk) as ([l|] & -> & Ho).
  - destruct Ho as (d & Hd & E). rewrite (pop_unregister_eq l d) by apply Hd.
    eexists _, _. split; [done|]. by apply unregistered_inv.
  - eexists _, _. split; [done|]. apply (kinv_quiet (with_env p1 k)); [apply quiet_put|done].
Qed.

Lemma pop_ioctl_inv cmd data k :
  kinv k -> exists r k', pop_ioctl cmd data k = Ret (r, k') /\ kinv k'.
Proof.
  intros Hk. unfold pop_ioctl. destruct (_ =? _); [by apply ioctl_reg_inv|].
  destruct (_ =? _); [by apply ioctl_unreg_inv|]. by exists (- k_EINVAL), k.
Qed.

Lemma find_by_slot_inv dom b fn k :
  kinv k -> exists o k', pop_find_dev_by_bus_and_slot dom b fn k = Ret (o, k') /\ kinv k' /\
    k_devs k' = k_devs k /\ k_list k' = k_list k /\ k_files k' = k_files k /\
    (forall l, o = Some l -> exists d, listed k l d).
Proof.
  intros Hk. unfold pop_find_dev_by_bus_and_slot, kcall, kproc, modify, mbind, M_bind, mret, M_ret.
  pose proof (quiet_get dom b fn (k_env k)) as Hq.
  destruct (pci_get_domain_bus_and_slot dom b fn (k_env k)) as [[pd|] p1]; simpl in *;
    [|eexists _, _; split_and!; [done|by apply kinv_quiet|done..]].
  apply (kinv_quiet k p1) in Hk; [|done].
  destruct (pop_find_dev_spec pd _ Hk) as (o & -> & Ho).
  eexists _, _. split_and!; [done|apply (kinv_quiet (with_env p1 k)); [apply quiet_put|done]|done..|].
  intros l ->. destruct Ho as (d & Hd & _). by exists d.
Qed.

Lemma pop_dev_open_inv f name k :
  kinv k -> exists r k', pop_dev_open f name k = Ret (r, k') /\ kinv k'.
Proof.
  intros Hk. unfold pop_dev_open.
  destruct (sscanf_x pci_seps name) as [|d0 [|b0 [|s0 [|f0 [|]]]]]; try by eexists _, _.
  destruct (find_by_slot_inv (i32 d0) b0 (PCI_DEVFN s0 f0) k Hk)
    as ([l|] & k1 & E & Hk1 & E1 & E2 & _ & Ho); rewrite (bind_ret _ _ _ _ _ E); [|by eexists _, _].
  destruct (Ho l eq_refl) as (d & Hd). assert (k_devs k1 !! l = Some d) as Hd1 by (rewrite E1; apply Hd).
  rewrite (bind_ret _ _ _ _ _ (load_dev_Some _ _ _ Hd1)).
  eexists _, _. split; [done|]. apply kinv_files. by apply (kinv_refcnt k1).
Qed.

Lemma kstep_inv k e k' : kinv k -> kstep k e k' -> kinv k'.
Proof.
  intros Hk. unfold kstep. destruct e as [cmd data|f name|f|f o w|f v|vf pg]; simpl.
  - destruct (pop_ioctl_inv cmd data k Hk) as (r & k1 & E & Hk1).
    rewrite (bind_ret _ _ _ _ _ E). by intros [= <-].
  - destruct (pop_dev_open_inv f name k Hk) as (r & k1 & E & Hk1).
    rewrite (bind_ret _ _ _ _ _ E). by intros [= <-].
  - intros (r & k1 & E & [= <-])%bind_Ret_inv. revert E.
    unfold pop_dev_release, private_data, gets, set_private_data, store_dev, modify.
    unfold mbind, M_bind, mret, M_ret. simpl. destruct (k_files k !! f) as [[l|]|]; simpl; try done.
    unfold load_dev, gets, mbind, M_bind. destruct (k_devs k !! l) as [d|] eqn:Hd; simpl; [|done].
    intros [= <- <-]. apply kinv_files. by apply (kinv_refcnt k).
  - intros (r & k1 & E & [= <-])%bind_Ret_inv. revert E.
    unfold pop_dev_llseek, private_data, gets, load_dev, mbind, M_bind, mret, M_ret. simpl.
    destruct (k_files k !! f) as [[l|]|]; simpl; [|by intros [= <- <-]..].
    destruct (w =? _); [|by intros [= <- <-]]. destruct (k_devs k !! l); simpl; [by intros [= <- <-]|done].
  - intros (r & k1 & E & [= <-])%bind_Ret_inv. revert E.
    unfold pop_dev_mmap, private_data, gets, load_dev, mbind, M_bind, mret, M_ret. simpl.
    destruct (k_files k !! f) as [[l|]|]; simpl; [|by intros [= <- <-]..].
    destruct (k_devs k !! l); simpl; [|done]. by destruct (_ <? _); intros [= <- <-].
  - intros (r & k1 & E & [= <-])%bind_Ret_inv. revert E. destruct vf as [f|]; simpl; [|by intros [= <- <-]].
    unfold pop_dev_mem_fault, private_data, gets, load_dev, mbind, M_bind, mret, M_ret. simpl.
    destruct (k_files k !! f) as [[l|]|]; simpl; [|by intros [= <- <-]..].
    destruct (k_devs k !! l); simpl; [|done].
    destruct (_ =? _); [by intros [= <- <-]|]. destruct (pfn_valid _); intros [= <- <-]; [|done].
    apply kinv_quiet; [apply quiet_page|done].
Qed.
End kinv.
