(* ===== verification/LinuxExample.v ===== *)
(** * A small Linux

    An implementation of the kernel interface of Boogiepop.v with two PCI
    devices with peer-to-peer memory, in the slots 0000:17:00.0 and 0000:18:00.0.
    It
    shows that the documented behaviour [KapiOk] can be had, and the witnesses
    of the theorems run on it. *)

From S2P Require Import Prelude CStr LibpopH Boogiepop.

Record linux : Type := Linux {
  lx_refs : gmap Z Z;
  lx_p2p : list region;
  lx_misc : list cstr;
  lx_user : gmap Z pop_p2pmem_reg;    (* structures of the calling process *)
  lx_pool : Z;                        (* size of the device's pool *)
  lx_next : Z;                        (* where the next region starts *)
  lx_pages : gmap Z Z                 (* references taken on pages *)
}.

Definition lx_count (p : linux) (pd : pdev) : Z := default 0 (lx_refs p !! pd).

Definition lx_add (pd : pdev) (n : Z) (p : linux) : linux :=
  Linux (<[pd:=lx_count p pd + n]> (lx_refs p)) (lx_p2p p) (lx_misc p) (lx_user p) (lx_pool p) (lx_next p) (lx_pages p).

Definition lx_get (d b f : Z) (p : linux) : option pdev * linux :=
  if (d =? 0) && (f =? 0) && (b =? 0x17) then (Some 1, lx_add 1 1 p)
  else if (d =? 0) && (f =? 0) && (b =? 0x18) then (Some 2, lx_add 2 1 p)
  else (None, p).

Definition lx_alloc (pd : pdev) (size : Z) (p : linux) : Z * linux :=
  let r := (pd, lx_next p, size) in
  if (0 <? size) && (size <=? lx_pool p) && (0 <? lx_next p) && bool_decide (r ∉ lx_p2p p) then
    (lx_next p, Linux (lx_refs p) (r :: lx_p2p p) (lx_misc p) (lx_user p) (lx_pool p) (lx_next p + size) (lx_pages p))
  else (0, p).

Definition lx_free (pd : pdev) (a size : Z) (p : linux) : linux :=
  Linux (lx_refs p) (filter (fun r => r <> (pd, a, size)) (lx_p2p p)) (lx_misc p) (lx_user p)
    (lx_pool p) (lx_next p) (lx_pages p).

Definition lx_misc_register (n : cstr) (p : linux) : Z * linux :=
  if bool_decide (n ∈ lx_misc p) then (-17, p)
  else (0, Linux (lx_refs p) (lx_p2p p) (n :: lx_misc p) (lx_user p) (lx_pool p) (lx_next p) (lx_pages p)).

Definition lx_misc_deregister (n : cstr) (p : linux) : linux :=
  Linux (lx_refs p) (lx_p2p p) (filter (fun m => m <> n) (lx_misc p)) (lx_user p) (lx_pool p) (lx_next p) (lx_pages p).

Definition lx_copy_to (data : Z) (r : pop_p2pmem_reg) (p : linux) : option linux :=
  match lx_user p !! data with
  | None => None
  | Some _ => Some (Linux (lx_refs p) (lx_p2p p) (lx_misc p) (<[data:=r]> (lx_user p)) (lx_pool p) (lx_next p) (lx_pages p))
  end.

#[export] Instance linux_api : Kapi linux := {
  pci_get_domain_bus_and_slot := lx_get;
  pci_dev_put pd p := lx_add pd (-1) p;
  pci_has_p2pmem pd _ := (pd =? 1) || (pd =? 2);
  pci_name pd := fmt_pci 0 (if pd =? 1 then 0x17 else 0x18) 0 0;
  p2pdma_pool_size _ p := Some (lx_pool p);
  pci_alloc_p2pmem := lx_alloc;
  pci_free_p2pmem := lx_free;
  kmalloc_ok p := (true, p);
  misc_register := lx_misc_register;
  misc_deregister := lx_misc_deregister;
  copy_from_user data p := lx_user p !! data;
  copy_to_user := lx_copy_to;
  kvirt_to_phys v := v - 0xffff888000000000;
  pfn_valid pfn := (0 <=? pfn);
  get_page pfn p :=
    Linux (lx_refs p) (lx_p2p p) (lx_misc p) (lx_user p) (lx_pool p) (lx_next p)
      (<[pfn:=default 0 (lx_pages p !! pfn) + 1]> (lx_pages p))
}.

Lemma lx_count_add pd n p pd' :
  lx_count (lx_add pd n p) pd' = lx_count p pd' + if bool_decide (pd' = pd) then n else 0.
Proof.
  unfold lx_count, lx_add; simpl. case_bool_decide as E.
  - subst. by rewrite lookup_insert_eq.
  - rewrite lookup_insert_ne by done. lia.
Qed.

#[export] Program Instance linux_ok : KapiOk linux := {
  pci_refs := lx_count;
  p2p_live p r := r ∈ lx_p2p p;
  misc_live p n := n ∈ lx_misc p
}.
Next Obligation.
  intros d b f p. simpl. unfold lx_get.
  destruct (_ && _); [|destruct (_ && _)]; (split_and!; [|done..]); intros pd; rewrite ?lx_count_add;
    repeat case_bool_decide; simplify_eq; lia.
Qed.
Next Obligation.
  intros pd p. simpl. split_and!; [|done..]. intros pd'. rewrite lx_count_add.
  case_bool_decide; lia.
Qed.
Next Obligation.
  intros pd size p. simpl. unfold lx_alloc.
  destruct (_ && bool_decide _) eqn:E.
  - rewrite !andb_true_iff, bool_decide_eq_true in E. destruct E as [[[? ?] ?] ?].
    split_and!; [done|done| |done]. intros r. simpl. rewrite elem_of_cons.
    assert (lx_next p <> 0) by lia. tauto.
  - split_and!; [done|done| |done]. intros r. tauto.
Qed.
Next Obligation.
  intros pd a size p. simpl. split_and!; [done| |done]. intros r.
  rewrite list_elem_of_filter. tauto.
Qed.
Next Obligation. intros p. by split_and!. Qed.
Next Obligation.
  intros n p. simpl. unfold lx_misc_register. case_bool_decide as E.
  - split_and!; [done..| |]; [intros ?; lia|]. intros m. split; [auto|]. intros [?|[? _]]; [done|lia].
  - split_and!; [done..| |]; [done|]. intros m. simpl. rewrite elem_of_cons. tauto.
Qed.
Next Obligation.
  intros n p. simpl. split_and!; [done..|]. intros m. rewrite list_elem_of_filter. tauto.
Qed.
Next Obligation.
  intros data reg p p'. simpl. unfold lx_copy_to. destruct (lx_user p !! data); [|done].
  by intros [= <-].
Qed.
Next Obligation. intros pfn p. by split_and!. Qed.

(** A process whose structure at address 64 asks for the whole pool of the
    device in slot 0000:17:00.0, which has 16 pages. *)
Definition linux0 : linux :=
  Linux ∅ [] [lit "boogiepop"] {[64 := Reg 0 0x17 0 0 0]} 65536 0xffff888000100000 ∅.
Definition kernel0 : kstate linux := K ∅ [] ∅ 1%positive linux0.
