(* ===== verification/BoogiepopProps.v ===== *)
(** * Properties of the kernel module

    The theorems on kmod/boogiepop.c, each with a witness that runs on the small
    Linux of LinuxExample.v. *)

From S2P Require Import Prelude CStr LibpopH Boogiepop LinuxExample.

Section props.
Context {P : Type} `{KapiOk P}.
Implicit Type k : kstate P.

Lemma kinv_empty k :
  k_devs k = ∅ -> k_list k = [] -> (forall r, ~ p2p_live (k_env k) r) ->
  (forall n, pop_name n -> ~ misc_live (k_env k) n) -> kinv k.
Proof.
  intros Ed El Hp Hm.
  assert (forall l d, ~ listed k l d) as Hno by (intros l d [Hl _]; rewrite El in Hl; by apply elem_of_nil in Hl).
  constructor; try (intros *; by intros []%Hno).
  - rewrite El. constructor.
  - intros l Hl. rewrite El in Hl. by apply elem_of_nil in Hl.
  - intros r. split; [by intros []%Hp|]. by intros (l & d & []%Hno & _).
  - intros n Hn Hpn. by destruct (Hm n Hpn).
  - intros l d. by rewrite Ed.
Qed.

(** What the module finds when it is loaded: no structure of its own, no
    peer-to-peer memory in use, and no misc device under pop/. *)
Record unloaded k : Prop := Unloaded {
  ul_devs : k_devs k = ∅;
  ul_live r : ~ p2p_live (k_env k) r;
  ul_misc n : pop_name n -> ~ misc_live (k_env k) n
}.

Lemma pop_init_kinv k0 k : unloaded k0 -> pop_init k0 = Ret (0, k) -> kinv k /\ misc_live (k_env k) (lit "boogiepop").
Proof.
  intros [Hd Hl Hm]. unfold pop_init, kcall, modify, mbind, M_bind. simpl.
  pose proof (misc_register_spec (lit "boogiepop") (k_env k0)) as S.
  destruct (misc_register _ (k_env k0)) as [ret p]. destruct S as (_ & Sl & _ & Sm). intros [= -> <-].
  split; [|simpl; rewrite Sm; auto]. apply kinv_empty; simpl; try done.
  - intros r. by rewrite Sl.
  - intros n Hp. rewrite Sm. intros [Hn|[_ ->]]; [by apply (Hm n)|done].
Qed.

(** C4: The module's invariant holds in every state reached, after the module
    has been loaded, by ioctls, opens, releases, seeks, mappings and page faults
    in any order: every element of the device list is a live structure named
    after its PCI device, no PCI device and no device name is on it twice, the
    peer-to-peer memory in use is exactly that of the listed devices, each in
    whole pages, and the misc devices under pop/ are exactly those of the listed
    devices.  From every such state the ioctl returns, whatever the command, the
    user's structure and the failures of the kernel: it never follows a dangling
    pointer. *)
Theorem module_invariant k0 k es k' :
  unloaded k0 -> pop_init k0 = Ret (0, k) -> steps kstep k es k' ->
  kinv k' /\
  (forall n, pop_name n -> misc_live (k_env k') n <-> exists l d, listed k' l d /\ d_devname d = n) /\
  forall cmd data, exists r k'', pop_ioctl cmd data k' = Ret (r, k'') /\ kinv k''.
Proof.
  intros Hu Hi Hst.
  assert (kinv k') as Hk.
  { eapply (steps_invariant _ kinv); [intros; by eapply kstep_inv| |exact Hst]. by eapply pop_init_kinv. }
  split_and!; [done| |].
  - intros n Hp. split; [intros Hn; by apply (ki_misc_only _ Hk)|].
    intros (l & d & Hd & <-). by apply (ki_misc _ Hk l).
  - intros cmd data. by apply pop_ioctl_inv.
Qed.

(** The part of [ioctl_reg] before [pop_register_p2pmem]. *)
Lemma pop_ioctl_reg_start data k reg pd p1 :
  copy_from_user data (k_env k) = Some reg ->
  pci_get_domain_bus_and_slot (domain reg) (u32 (bus reg)) (PCI_DEVFN (slot reg) (func reg))
    (k_env k) = (Some pd, p1) ->
  pci_has_p2pmem pd p1 = true ->
  pop_ioctl POP_P2PMEM_REG data k =
  (size ← pop_register_p2pmem pd (reg_size reg);
   if size <? 0 then _ ← kproc (pci_dev_put pd); mret 0
   else
     let reg' := Reg (domain reg) (bus reg) (slot reg) (func reg) (u64 size) in
     o ← gets (fun k => copy_to_user data reg' (k_env k));
     match o with
     | None => _ ← kproc (pci_dev_put pd); mret (- k_EFAULT)
     | Some p => _ ← kproc (fun _ => p); mret 0
     end) (with_env p1 k).
Proof.
  intros Ec Eg Eh. unfold pop_ioctl. rewrite Z.eqb_refl.
  unfold ioctl_reg, gets, kcall. unfold mbind at 1 2, M_bind at 1 2. rewrite Ec. simpl.
  rewrite Eg. simpl. unfold mbind at 1, M_bind at 1. simpl. rewrite Eh. done.
Qed.

(** What a registration that appends a device leaves: the new device, of whole
    pages and no smaller than the [want]ed size where the rounding cannot wrap,
    the reference kept on it, and the size reported to the user. *)
Definition appended data k reg (pd : pdev) (want r : Z) k' : Prop :=
  exists d, k_list k' = k_list k ++ [k_next k] /\ k_devs k' !! k_next k = Some d /\
    d_pdev d = pd /\ d_refcnt d = 0 /\ d_size d `mod` 4096 = 0 /\
    (0 <= want <= 2 ^ 64 - 4096 -> want <= d_size d < want + 4096) /\
    pci_refs (k_env k') pd =
      pci_refs (k_env k) pd + (if (r =? 0) && (0 <=? i32 (d_size d)) then 1 else 0) /\
    (r = 0 -> 0 <= i32 (d_size d) ->
       exists p, copy_to_user data
         (Reg (domain reg) (bus reg) (slot reg) (func reg) (u64 (i32 (d_size d)))) p = Some (k_env k')).

(** C9: Registering a device that is not on the list either leaves the list
    as it is and gives the reference on the device back, or appends one new
    device whose size is the request (the whole pool for 0) rounded up to whole
    pages.  The number of references held on the device then grows by one
    exactly when the user's structure was written and the size fits an [int],
    and the size is written to the structure; a region of 2 GiB or more with a
    negative low half is registered and its reference is dropped.  A result of
    0 does not say which case it was. *)
Theorem ioctl_reg_new data k reg pd p1 :
  kinv k -> copy_from_user data (k_env k) = Some reg ->
  pci_get_domain_bus_and_slot (domain reg) (u32 (bus reg)) (PCI_DEVFN (slot reg) (func reg))
    (k_env k) = (Some pd, p1) ->
  pci_has_p2pmem pd p1 = true ->
  (forall l d, listed k l d -> d_pdev d <> pd) ->
  let want := if reg_size reg =? 0 then default 0 (p2pdma_pool_size pd p1) else reg_size reg in
  exists r k', pop_ioctl POP_P2PMEM_REG data k = Ret (r, k') /\ kinv k' /\
  (r = 0 \/ r = - k_EFAULT) /\
  ((k_list k' = k_list k /\ r = 0 /\ pci_refs (k_env k') pd = pci_refs (k_env k) pd) \/
   appended data k reg pd want r k').
Proof.
  intros Hk Ec Eg Eh Hnone want. rewrite (pop_ioctl_reg_start _ _ _ _ _ Ec Eg Eh).
  pose proof (pci_get_spec (domain reg) (u32 (bus reg)) (PCI_DEVFN (slot reg) (func reg)) (k_env k)) as Sg.
  rewrite Eg in Sg. destruct Sg as (Rg & Lg & Mg). specialize (Rg pd). rewrite bool_decide_true in Rg by done.
  assert (kinv (with_env p1 k)) as Hk1 by (by apply kinv_quiet).
  destruct (pop_register_new pd (reg_size reg) _ Hk1 Hnone) as (r & k2 & E & Hk2 & R2 & _ & Hcase).
  rewrite (bind_ret _ _ _ _ _ E). specialize (R2 pd). simpl in R2.
  pose proof (proj1 (pci_put_spec pd (k_env k2)) pd) as Rp. rewrite bool_decide_true in Rp by done.
  assert (forall k', k_list k' = k_list k2 -> k_devs k' = k_devs k2 -> forall r',
    pci_refs (k_env k') pd = pci_refs (k_env k) pd + (if (r' =? 0) && (0 <=? r) then 1 else 0) ->
    (r' = 0 \/ 0 <= r) ->
    (r' = 0 -> 0 <= r -> exists p, copy_to_user data
       (Reg (domain reg) (bus reg) (slot reg) (func reg) (u64 r)) p = Some (k_env k')) ->
    (k_list k' = k_list k /\ r' = 0 /\ pci_refs (k_env k') pd = pci_refs (k_env k) pd) \/
    appended data k reg pd want r' k') as Hfin.
  { intros k' El Ed r' Hrefs Hpos Hcopy. destruct Hcase as [(a & sz & H1 & H2 & H3 & H4)|(H1 & H2 & _)].
    - right. exists (new_dev pd a sz). rewrite El, Ed, H2. simpl. rewrite lookup_insert_eq, <- H3.
      simpl in H4. replace sz with (wrap_size want) by (rewrite H4; unfold want;
        by destruct (Z.eqb_spec (reg_size reg) 0) as [->|]).
      split_and!; try done; [apply wrap_size_ok|apply wrap_size_up].
    - left. rewrite El, H1. split_and!; [done|lia|]. rewrite Hrefs.
      replace (0 <=? r) with false by lia. rewrite andb_false_r. lia. }
  destruct (r <? 0) eqn:Hr.
  - eexists 0, _. split; [done|]. split_and!; [|auto|].
    + apply (kinv_quiet k2); [apply quiet_put|done].
    + apply Hfin; [done|done| |auto|lia]. simpl. rewrite Rp. replace (0 <=? r) with false by lia. lia.
  - unfold gets, kproc, modify, mbind, M_bind, mret, M_ret. cbn -[copy_to_user].
    destruct (copy_to_user data _ (k_env k2)) as [p3|] eqn:Eu.
    + eexists 0, _. split; [done|]. split_and!; [|auto|].
      * apply (kinv_quiet k2); [|done]. by eapply quiet_copy.
      * apply Hfin; [done|done| |auto|by exists (k_env k2)]. simpl.
        rewrite (proj1 (copy_to_user_spec _ _ _ _ Eu)). replace (0 <=? r) with true by lia. simpl. lia.
    + eexists (- k_EFAULT), _. split; [done|]. split_and!; [|auto|].
      * apply (kinv_quiet k2); [apply quiet_put|done].
      * apply Hfin; [done|done| |lia|done]. simpl. rewrite Rp. simpl. lia.
Qed.

(** Unregistering a listed device, as one equation. *)
Lemma pop_ioctl_unreg_eq data k reg pd p1 l d :
  kinv k -> copy_from_user data (k_env k) = Some reg ->
  pci_get_domain_bus_and_slot (domain reg) (u32 (bus reg)) (PCI_DEVFN (slot reg) (func reg))
    (k_env k) = (Some pd, p1) ->
  listed k l d -> d_pdev d = pd ->
  pop_ioctl POP_P2PMEM_UNREG data k = Ret (0, unregistered l d (with_env p1 k)) /\
  kinv (with_env p1 k).
Proof.
  intros Hk Ec Eg Hd Epd.
  assert (kinv (with_env p1 k)) as Hk1.
  { apply kinv_quiet; [|done]. pose proof (quiet_get (domain reg) (u32 (bus reg))
      (PCI_DEVFN (slot reg) (func reg)) (k_env k)) as Hq. by rewrite Eg in Hq. }
  split; [|done].
  unfold pop_ioctl. change (POP_P2PMEM_UNREG =? POP_P2PMEM_REG) with false. rewrite Z.eqb_refl.
  unfold ioctl_unreg, gets, kcall. unfold mbind at 1 2, M_bind at 1 2. rewrite Ec. simpl.
  rewrite Eg. simpl.
  destruct (pop_find_dev_spec pd _ Hk1) as ([l'|] & Ef & Ho); [|by destruct (Ho l d Hd)].
  destruct Ho as (d' & Hd' & E'). assert (l' = l) as -> by (eapply (ki_pdev _ Hk1); eauto; congruence).
  by rewrite (bind_ret _ _ _ _ _ Ef), (bind_ret _ _ _ _ _ (pop_unregister_eq l d (with_env p1 k) (proj2 Hd))).
Qed.

(** C33: Registering a device that is on the list again changes nothing of the
    list and its structures, and writes the device's size, as an [int], to the
    user's structure: the call returns 0 and keeps one more reference on the PCI
    device when the copy to user space succeeds, and returns [-EFAULT] with the
    reference given back when it does not.  (A size whose low half is negative as
    an [int] is taken for an error: the call returns 0 and writes nothing.)
    Unregistering a listed device returns 0, removes that device alone, frees its
    region and its misc device and no other; it takes one reference and drops
    one, so that after a registration and an unregistration one is left behind. *)
Theorem ioctl_again_and_unreg data k reg pd p1 l d :
  kinv k -> copy_from_user data (k_env k) = Some reg ->
  pci_get_domain_bus_and_slot (domain reg) (u32 (bus reg)) (PCI_DEVFN (slot reg) (func reg))
    (k_env k) = (Some pd, p1) ->
  listed k l d -> d_pdev d = pd ->
  let reg' := Reg (domain reg) (bus reg) (slot reg) (func reg) (u64 (i32 (d_size d))) in
  (pci_has_p2pmem pd p1 = true ->
   exists r k', pop_ioctl POP_P2PMEM_REG data k = Ret (r, k') /\ k_list k' = k_list k /\ k_devs k' = k_devs k /\
     if decide (i32 (d_size d) < 0) then
       r = 0 /\ k_env k' = pci_dev_put pd p1 /\ pci_refs (k_env k') pd = pci_refs (k_env k) pd
     else match copy_to_user data reg' p1 with
          | Some p2 => r = 0 /\ k_env k' = p2 /\ pci_refs (k_env k') pd = pci_refs (k_env k) pd + 1
          | None => r = - k_EFAULT /\ k_env k' = pci_dev_put pd p1 /\
                    pci_refs (k_env k') pd = pci_refs (k_env k) pd
          end) /\
  (exists k', pop_ioctl POP_P2PMEM_UNREG data k = Ret (0, k') /\ kinv k' /\
     k_list k' = filter (fun l' => l' <> l) (k_list k) /\ k_devs k' !! l = None /\
     (forall r, p2p_live (k_env k') r <-> p2p_live (k_env k) r /\ r <> region_of d) /\
     (forall n, misc_live (k_env k') n <-> misc_live (k_env k) n /\ n <> d_devname d) /\
     (forall pd', pci_refs (k_env k') pd' = pci_refs (k_env k) pd')).
Proof.
  intros Hk Ec Eg Hd Epd reg'.
  pose proof (pci_get_spec (domain reg) (u32 (bus reg)) (PCI_DEVFN (slot reg) (func reg)) (k_env k)) as Sg.
  rewrite Eg in Sg. destruct Sg as (Rg & Lg & Mg).
  assert (kinv (with_env p1 k)) as Hk1 by (by apply kinv_quiet).
  assert (pci_refs (pci_dev_put pd p1) pd = pci_refs (k_env k) pd) as Rback.
  { rewrite (proj1 (pci_put_spec pd p1)), Rg, !bool_decide_true by done. lia. }
  split.
  - intros Eh. rewrite (pop_ioctl_reg_start _ _ _ _ _ Ec Eg Eh).
    rewrite (bind_ret _ _ _ _ _ (pop_register_again pd (reg_size reg) (with_env p1 k) l d Hk1 Hd Epd)).
    destruct (decide (i32 (d_size d) < 0)) as [Hi|Hi].
    { replace (i32 (d_size d) <? 0) with true by lia. eexists _, _. by split; [done|]. }
    replace (i32 (d_size d) <? 0) with false by lia.
    unfold gets, kproc, modify, mbind, M_bind, mret, M_ret. cbn -[copy_to_user]. fold reg'.
    destruct (copy_to_user data reg' p1) as [p3|] eqn:Eu; eexists _, _; (split; [done|]); simpl; split_and!; try done.
    rewrite (proj1 (copy_to_user_spec _ _ _ _ Eu)), Rg, bool_decide_true by done. done.
  - destruct (pop_ioctl_unreg_eq _ _ _ _ _ _ _ Hk Ec Eg Hd Epd) as [-> _].
    eexists. split; [done|].
    destruct (misc_deregister_spec (d_devname d) p1) as (Rd & Ld & Md).
    destruct (pci_free_spec (d_pdev d) (d_p2pmem d) (d_size d) (misc_deregister (d_devname d) p1)) as (Rf & Lf & Mf).
    destruct (pci_put_spec (d_pdev d) (pci_free_p2pmem (d_pdev d) (d_p2pmem d) (d_size d)
      (misc_deregister (d_devname d) p1))) as (Rp & Lp & Mp).
    split_and!; [by apply unregistered_inv|done|apply lookup_delete_eq|..]; simpl.
    + intros r. by rewrite Lp, Lf, Ld, Lg.
    + intros n. by rewrite Mp, Mf, Md, Mg.
    + intros pd'. rewrite Rp, Rf, Rd, Rg, Epd. repeat case_bool_decide; simplify_eq; lia.
Qed.

(** When the registration fails for whatever reason (the pool has too
    little memory, kmalloc or misc_register fails), the ioctl drops the
    reference and returns 0, without writing the user's structure: the caller
    cannot tell that nothing was registered. *)
Theorem ioctl_reg_hides_failure data k reg pd p1 r k2 :
  copy_from_user data (k_env k) = Some reg ->
  pci_get_domain_bus_and_slot (domain reg) (u32 (bus reg)) (PCI_DEVFN (slot reg) (func reg))
    (k_env k) = (Some pd, p1) ->
  pci_has_p2pmem pd p1 = true ->
  pop_register_p2pmem pd (reg_size reg) (with_env p1 k) = Ret (r, k2) -> r < 0 ->
  pop_ioctl POP_P2PMEM_REG data k = Ret (0, with_env (pci_dev_put pd (k_env k2)) k2).
Proof.
  intros Ec Eg Eh E Hr. rewrite (pop_ioctl_reg_start _ _ _ _ _ Ec Eg Eh).
  rewrite (bind_ret _ _ _ _ _ E). by replace (r <? 0) with true by lia.
Qed.

(** Opening the character device under the name libpop prints for a slot
    finds the device registered for that slot: the call returns 0, the file's
    private data is that device, its reference count grows by one, and the
    reference taken on the PCI device during the search is dropped again. *)
Theorem pop_dev_open_printed f k dom b s fn pd p1 l d :
  kinv k -> 0 <= dom < 2 ^ 31 -> 0 <= b < 2 ^ 32 -> 0 <= s < 2 ^ 32 -> 0 <= fn < 2 ^ 32 ->
  pci_get_domain_bus_and_slot dom b (PCI_DEVFN s fn) (k_env k) = (Some pd, p1) ->
  listed k l d -> d_pdev d = pd -> 0 <= d_refcnt d < 2 ^ 31 - 1 ->
  exists k', pop_dev_open f (fmt_pci dom b s fn) k = Ret (0, k') /\ kinv k' /\
    k_files k' = <[f:=Some l]> (k_files k) /\ k_list k' = k_list k /\
    k_devs k' = <[l:=set_refcnt d (d_refcnt d + 1)]> (k_devs k) /\
    forall pd', pci_refs (k_env k') pd' = pci_refs (k_env k) pd'.
Proof.
  intros Hk Hdom Hb Hs Hfn Eg Hd Epd Hrc. unfold pop_dev_open.
  rewrite sscanf_fmt_pci by lia. rewrite i32_small by lia.
  pose proof (pci_get_spec dom b (PCI_DEVFN s fn) (k_env k)) as Sg. rewrite Eg in Sg.
  destruct Sg as (Rg & Lg & Mg). assert (kinv (with_env p1 k)) as Hk1 by (by apply kinv_quiet).
  destruct (pop_find_dev_spec pd _ Hk1) as ([l'|] & Ef & Ho); [|by destruct (Ho l d Hd)].
  destruct Ho as (d' & Hd' & E'). assert (l' = l) as -> by (eapply (ki_pdev _ Hk1); eauto; congruence).
  assert (pop_find_dev_by_bus_and_slot dom b (PCI_DEVFN s fn) k
    = Ret (Some l, with_env (pci_dev_put pd p1) k)) as Eb.
  { unfold pop_find_dev_by_bus_and_slot, kcall. unfold mbind at 1, M_bind at 1. rewrite Eg.
    by rewrite (bind_ret _ _ _ _ _ Ef). }
  assert (kinv (with_env (pci_dev_put pd p1) k)) as Hk2
    by (apply (kinv_quiet (with_env p1 k)); [apply quiet_put|done]).
  rewrite (bind_ret _ _ _ _ _ Eb).
  rewrite (bind_ret _ _ _ _ _ (load_dev_Some l d (with_env (pci_dev_put pd p1) k) (proj2 Hd))).
  eexists. split; [done|]. split_and!; [|done..| |]; simpl.
  - apply kinv_files. by apply (kinv_refcnt (with_env (pci_dev_put pd p1) k)); [apply Hd|].
  - by rewrite i32_small by lia.
  - intros pd'. rewrite (proj1 (pci_put_spec pd p1)), Rg. repeat case_bool_decide; simplify_eq; lia.
Qed.

(** A fault inside the region is answered with its page. *)
Lemma device_fault f k l d pg :
  k_files k !! f = Some (Some l) -> k_devs k !! l = Some d ->
  0 <= d_p2pmem d -> d_p2pmem d + d_size d < 2 ^ 64 ->
  (forall x, 0 <= x < d_size d -> kvirt_to_phys (d_p2pmem d + x) = kvirt_to_phys (d_p2pmem d) + x) ->
  kvirt_to_phys (d_p2pmem d) `mod` 4096 = 0 -> 0 < kvirt_to_phys (d_p2pmem d) ->
  (forall pfn, kvirt_to_phys (d_p2pmem d) <= pfn * 4096 < kvirt_to_phys (d_p2pmem d) + d_size d ->
     pfn_valid pfn = true) ->
  0 <= pg -> pg * 4096 + 4096 <= d_size d ->
  exists pfn, pop_dev_mem_fault (Some f) pg k = Ret ((0, Some pfn), with_env (get_page pfn (k_env k)) k) /\
    pfn * 4096 = kvirt_to_phys (d_p2pmem d) + pg * 4096.
Proof.
  intros Ef Ed Hp Hps Hlin Hal Hpos Hval Hpg1 Hpg2.
  assert (kvirt_to_phys (d_p2pmem d + pg * 4096) = kvirt_to_phys (d_p2pmem d) + pg * 4096) as Elin
    by (apply Hlin; lia).
  set (pa := kvirt_to_phys (d_p2pmem d)) in *.
  exists ((pa + pg * 4096) / 4096).
  assert ((pa + pg * 4096) / 4096 * 4096 = pa + pg * 4096) as Hx by (Z.to_euclidean_division_equations; lia).
  split; [|done].
  unfold pop_dev_mem_fault, private_data, gets, load_dev, mbind, M_bind, mret, M_ret. simpl.
  rewrite Ef. simpl. rewrite Ed. simpl. rewrite shiftl_12. unwrap. rewrite Elin, shiftr_12.
  replace (_ =? 0) with false by lia. rewrite Hval by lia. done.
Qed.

(** C8: A mapping that [pop_dev_mmap] accepts stays inside the region: every
    page fault in it is answered, without a SIGBUS, with the page of the region
    at that offset, which ends before the region does and is held by a reference.
    A mapping that reaches
    past the region is refused with [-ENOMEM]. *)
Theorem mapping_stays_inside f k l d v :
  k_files k !! f = Some (Some l) -> k_devs k !! l = Some d ->
  0 <= d_p2pmem d -> 0 <= d_size d -> d_p2pmem d + d_size d < 2 ^ 64 ->
  0 <= vm_start v <= vm_end v -> vm_end v < 2 ^ 64 -> 0 <= vm_pgoff v ->
  vm_pgoff v * 4096 + (vm_end v - vm_start v) < 2 ^ 64 ->
  (forall x, 0 <= x < d_size d -> kvirt_to_phys (d_p2pmem d + x) = kvirt_to_phys (d_p2pmem d) + x) ->
  kvirt_to_phys (d_p2pmem d) `mod` 4096 = 0 -> 0 < kvirt_to_phys (d_p2pmem d) ->
  (forall pfn, kvirt_to_phys (d_p2pmem d) <= pfn * 4096 < kvirt_to_phys (d_p2pmem d) + d_size d ->
     pfn_valid pfn = true) ->
  (d_size d < vm_pgoff v * 4096 + (vm_end v - vm_start v) ->
     pop_dev_mmap f v k = Ret ((- k_ENOMEM, false), k)) /\
  (vm_pgoff v * 4096 + (vm_end v - vm_start v) <= d_size d ->
     pop_dev_mmap f v k = Ret ((0, true), k) /\
     forall pg, vm_pgoff v <= pg -> pg * 4096 + 4096 <= vm_pgoff v * 4096 + (vm_end v - vm_start v) ->
       exists pfn, pop_dev_mem_fault (Some f) pg k =
           Ret ((0, Some pfn), with_env (get_page pfn (k_env k)) k) /\
         pfn * 4096 = kvirt_to_phys (d_p2pmem d) + pg * 4096 /\
         pfn * 4096 + 4096 <= kvirt_to_phys (d_p2pmem d) + d_size d).
Proof.
  intros Ef Ed Hp Hs Hps Hv1 Hv2 Hv3 Hov Hlin Hal Hpos Hval.
  assert (forall r, pop_dev_mmap f v k = r <->
    (if d_size d <? vm_pgoff v * 4096 + (vm_end v - vm_start v)
     then Ret ((- k_ENOMEM, false), k) else Ret ((0, true), k)) = r) as Hm.
  { intros r. unfold pop_dev_mmap, private_data, gets, load_dev, mbind, M_bind, mret, M_ret. simpl.
    rewrite Ef. simpl. rewrite Ed. simpl. rewrite shiftl_12. unwrap. by destruct (_ <? _). }
  split; [intros Hgt; apply Hm; by replace (_ <? _) with true by lia|].
  intros Hle. split; [apply Hm; by replace (_ <? _) with false by lia|]. intros pg Hpg1 Hpg2.
  destruct (device_fault f k l d pg) as (pfn & E & Hpfn); [done..|lia|lia|]. exists pfn. split_and!; [done|done|lia].
Qed.

(** C39: Unregistering ignores the reference count: a device that is still
    open is freed, and the next mapping, seek to the end or release through the
    open file follows its dangling private data. *)
Theorem unreg_while_open_dangles data k reg pd p1 l d f v off :
  kinv k -> copy_from_user data (k_env k) = Some reg ->
  pci_get_domain_bus_and_slot (domain reg) (u32 (bus reg)) (PCI_DEVFN (slot reg) (func reg))
    (k_env k) = (Some pd, p1) ->
  listed k l d -> d_pdev d = pd -> k_files k !! f = Some (Some l) ->
  exists k', pop_ioctl POP_P2PMEM_UNREG data k = Ret (0, k') /\
    pop_dev_mmap f v k' = Fault DanglingPtr /\
    pop_dev_llseek f off SEEK_END k' = Fault DanglingPtr /\
    pop_dev_release f k' = Fault DanglingPtr.
Proof.
  intros Hk Ec Eg Hd Epd Ef.
  destruct (pop_ioctl_unreg_eq _ _ _ _ _ _ _ Hk Ec Eg Hd Epd) as [-> _].
  eexists. split; [done|].
  unfold pop_dev_mmap, pop_dev_llseek, pop_dev_release, private_data, gets, load_dev, require.
  unfold mbind, M_bind, mret, M_ret. simpl. rewrite Ef. simpl. by rewrite lookup_delete_eq.
Qed.

(** What is true while [pop_exit] walks the list: [ls] is still to do. *)
Record exiting k0 (ls : list loc) (u : ()) k : Prop := Exiting {
  ex_inv : kinv k;
  ex_list : k_list k = ls;
  ex_left l : l ∈ ls -> l ∈ k_list k0 /\ k_devs k !! l = k_devs k0 !! l;
  ex_held l d : listed k0 l d -> pci_refs (k_env k) (d_pdev d)
    = pci_refs (k_env k0) (d_pdev d) - if bool_decide (l ∈ ls) then 0 else 1;
  ex_other pd : (forall l d, listed k0 l d -> d_pdev d <> pd) ->
    pci_refs (k_env k) pd = pci_refs (k_env k0) pd
}.

Lemma unregistered_refs l d k pd :
  pci_refs (k_env (unregistered l d k)) pd
  = pci_refs (k_env k) pd - if bool_decide (pd = d_pdev d) then 1 else 0.
Proof.
  simpl. rewrite (proj1 (pci_put_spec _ _)), (proj1 (pci_free_spec _ _ _ _)).
  by rewrite (proj1 (misc_deregister_spec _ _)).
Qed.

Lemma exiting_step k0 l ls u k :
  kinv k0 -> exiting k0 (l :: ls) u k ->
  exists u' k', pop_unregister_p2pmem l k = Ret (u', k') /\ exiting k0 ls u' k'.
Proof.
  intros Hk0 [Hk El Hleft Hheld Hother].
  destruct (Hleft l) as [Hl0 Ed0]; [constructor|].
  destruct (ki_dev _ Hk0 l Hl0) as [d Hd0]. rewrite Hd0 in Ed0.
  assert (listed k l d) as Hd by (split; [rewrite El; constructor|done]).
  pose proof (ki_nodup _ Hk) as Hnd. rewrite El in Hnd. apply NoDup_cons in Hnd as [Hnl Hnd].
  exists (), (unregistered l d k). split; [by apply pop_unregister_eq|]. constructor.
  - by apply unregistered_inv.
  - simpl. rewrite El, filter_cons_False by tauto.
    apply filter_keep. apply Forall_forall. intros l' Hl' ->. done.
  - intros l' Hl'. destruct (Hleft l') as [H1 H2]; [by constructor|]. split; [done|]. simpl.
    rewrite lookup_delete_ne; [done|]. intros ->. done.
  - intros l' d' Hd'. rewrite unregistered_refs, (Hheld l' d' Hd').
    destruct (decide (l' = l)) as [->|Hne].
    + assert (d' = d) as -> by (destruct Hd'; congruence).
      rewrite (bool_decide_true (l ∈ l :: ls)) by constructor.
      rewrite (bool_decide_true (d_pdev d = d_pdev d)), bool_decide_false by done. lia.
    + rewrite (bool_decide_false (d_pdev d' = d_pdev d)).
      2: { intros E. apply Hne. by eapply (ki_pdev _ Hk0). }
      rewrite (bool_decide_ext (l' ∈ l :: ls) (l' ∈ ls)); [lia|]. rewrite elem_of_cons. tauto.
  - intros pd Hpd. rewrite unregistered_refs, (Hother pd Hpd), bool_decide_false; [lia|].
    intros ->. by apply (Hpd l d).
Qed.

(** Unloading the module unregisters every device: the walk over the list
    returns without following a pointer that it has freed, the list is empty
    afterwards, no peer-to-peer memory is in use and none of the module's misc
    devices is left, one reference is dropped on the PCI device of each listed
    device and none on any other. *)
Theorem pop_exit_unregisters k :
  kinv k ->
  exists k', pop_exit k = Ret ((), k') /\ k_list k' = [] /\ (forall r, ~ p2p_live (k_env k') r) /\
    (forall n, pop_name n \/ n = lit "boogiepop" -> ~ misc_live (k_env k') n) /\
    (forall l d, listed k l d ->
       pci_refs (k_env k') (d_pdev d) = pci_refs (k_env k) (d_pdev d) - 1) /\
    (forall pd, (forall l d, listed k l d -> d_pdev d <> pd) ->
       pci_refs (k_env k') pd = pci_refs (k_env k) pd).
Proof.
  intros Hk. unfold pop_exit. unfold gets at 1. unfold mbind at 1, M_bind at 1.
  destruct (for_each_inv (exiting k) (fun l _ => pop_unregister_p2pmem l) (k_list k) () k)
    as ([] & k' & -> %(bind_ret _ (fun _ => kproc (misc_deregister (lit "boogiepop")))) & [Hk' El _ Hheld Hother]).
  - constructor; try done. intros l d [Hl _]. rewrite bool_decide_true by done. lia.
  - intros l ls u k1 H1. by eapply exiting_step.
  - destruct (misc_deregister_spec (lit "boogiepop") (k_env k')) as (Rm & Lm & Mm).
    eexists. split; [done|]. simpl. split_and!.
    + done.
    + intros r. rewrite Lm, (ki_live _ Hk'). intros (l & d & [Hl _] & _). rewrite El in Hl.
      by apply elem_of_nil in Hl.
    + intros n Hn. rewrite Mm. intros [Hl Hne]. destruct Hn as [Hp|Hn]; [|done].
      destruct (ki_misc_only _ Hk' n Hl Hp) as (l & d & [Hl' _] & _). rewrite El in Hl'. by apply elem_of_nil in Hl'.
    + intros l d Hd. rewrite Rm, (Hheld l d Hd), bool_decide_false; [done|]. by intros ?%elem_of_nil.
    + intros pd Hpd. by rewrite Rm, Hother.
Qed.
End props.

(** ** Witnesses *)

Lemma kinv_kernel0 : kinv kernel0.
Proof.
  apply kinv_empty; [done|done| |].
  - intros r Hr. by apply elem_of_nil in Hr.
  - intros n Hp Hn. apply list_elem_of_singleton in Hn as ->. done.
Qed.

(** Before the module is loaded. *)
Definition kernel_boot : kstate linux :=
  K ∅ [] ∅ 1%positive (Linux ∅ [] [] {[64 := Reg 0 0x17 0 0 0]} 65536 0xffff888000100000 ∅).

Lemma unloaded_boot : unloaded kernel_boot.
Proof. constructor; [done|..]; intros ? *; [|intros _]; by apply not_elem_of_nil. Qed.

(** The state after the registration of the device in slot 0000:17:00.0. *)
Definition kernel1 : kstate linux :=
  match pop_ioctl POP_P2PMEM_REG 64 kernel0 with Ret (_, k) => k | _ => kernel0 end.
Definition dev1 : pop_dev := new_dev 1 0xffff888000100000 65536.

Lemma kinv_kernel1 : kinv kernel1.
Proof.
  destruct (pop_ioctl_inv POP_P2PMEM_REG 64 kernel0 kinv_kernel0) as (r & k & E & Hk).
  unfold kernel1. by rewrite E.
Qed.

Lemma listed_kernel1 : listed kernel1 1%positive dev1.
Proof. split; [|by vm_compute]. change (k_list kernel1) with [1%positive]. constructor. Qed.

(** The same with the character device open as file 7. *)
Definition kernel2 : kstate linux :=
  match pop_dev_open 7%positive (fmt_pci 0 0x17 0 0) kernel1 with Ret (_, k) => k | _ => kernel1 end.

Lemma module_invariant_witness :
  kinv kernel2 /\ misc_live (k_env kernel2) (d_devname dev1) /\ exists r k, pop_ioctl 5 5 kernel2 = Ret (r, k).
Proof.
  assert (steps kstep kernel0
    (([] ++ [EIoctl POP_P2PMEM_REG 64]) ++ [EOpen 7%positive (fmt_pci 0 0x17 0 0)]) kernel2) as Hst.
  { apply (steps_snoc kstep kernel0 _ kernel1);
      [apply (steps_snoc kstep kernel0 [] kernel0); [constructor|]|]; unfold kstep; by vm_compute. }
  destruct (module_invariant kernel_boot kernel0 _ kernel2 unloaded_boot eq_refl Hst) as (Hk & Hm & Hio).
  split; [exact Hk|]. split.
  - apply Hm; [reflexivity|]. exists 1%positive, (set_refcnt dev1 1). split; [|reflexivity].
    split; [|by vm_compute]. change (k_list kernel2) with [1%positive]. constructor.
  - destruct (Hio 5 5) as (r & k & E & _). by exists r, k.
Defined.

Lemma ioctl_reg_new_witness :
  exists k', pop_ioctl POP_P2PMEM_REG 64 kernel0 = Ret (0, k') /\ pci_refs (k_env k') 1 = 1.
Proof.
  destruct (ioctl_reg_new 64 kernel0 (Reg 0 0x17 0 0 0) 1 (lx_add 1 1 linux0)) as (r & k' & E & _);
    [apply kinv_kernel0|reflexivity|reflexivity|reflexivity|intros l d [Hl _]; by apply elem_of_nil in Hl|].
  exists k'. rewrite E. revert E. vm_compute. by intros [= <- <-].
Defined.

Lemma ioctl_again_and_unreg_witness :
  (exists k', pop_ioctl POP_P2PMEM_REG 64 kernel1 = Ret (0, k') /\ pci_refs (k_env k') 1 = 2 /\
     copy_to_user 64 (Reg 0 0x17 0 0 65536) (lx_add 1 1 (k_env kernel1)) = Some (k_env k')) /\
  (exists k', pop_ioctl POP_P2PMEM_UNREG 64 kernel1 = Ret (0, k') /\ pci_refs (k_env k') 1 = 1).
Proof.
  destruct (ioctl_again_and_unreg 64 kernel1 (Reg 0 0x17 0 0 65536) 1 (lx_add 1 1 (k_env kernel1))
    1%positive dev1) as (Hreg & k' & E & _ & _ & _ & _ & _ & R);
    [apply kinv_kernel1|by vm_compute|by vm_compute|apply listed_kernel1|reflexivity|].
  split; [|exists k'; split; [exact E|]; rewrite R; reflexivity].
  destruct Hreg as (r & k2 & E2 & _ & _ & H); [reflexivity|].
  destruct (copy_to_user 64 (Reg 0 0x17 0 0 65536) (lx_add 1 1 (k_env kernel1))) as [p2|] eqn:Ec;
    [|vm_compute in Ec; discriminate Ec].
  rewrite decide_False in H by (vm_compute; discriminate).
  assert (Reg (domain (Reg 0 0x17 0 0 65536)) (bus (Reg 0 0x17 0 0 65536)) (slot (Reg 0 0x17 0 0 65536))
    (func (Reg 0 0x17 0 0 65536)) (u64 (i32 (d_size dev1))) = Reg 0 0x17 0 0 65536) as Er by (vm_compute; reflexivity).
  rewrite Er, Ec in H. destruct H as (-> & <- & Hrefs).
  exists k2. split; [exact E2|]. split; [rewrite Hrefs; reflexivity|reflexivity].
Defined.

(** The pool is smaller than the request. *)
Definition kernel_small : kstate linux :=
  K ∅ [] ∅ 1%positive (Linux ∅ [] [] {[64 := Reg 0 0x17 0 0 131072]} 65536 0xffff888000100000 ∅).

Lemma ioctl_reg_hides_failure_witness :
  exists k', pop_ioctl POP_P2PMEM_REG 64 kernel_small = Ret (0, k') /\ k_list k' = [].
Proof.
  eexists. split.
  - apply (ioctl_reg_hides_failure 64 kernel_small (Reg 0 0x17 0 0 131072) 1
      (lx_add 1 1 (k_env kernel_small)) (-12) (with_env (lx_add 1 1 (k_env kernel_small)) kernel_small));
      [reflexivity|reflexivity|reflexivity|reflexivity|lia].
  - reflexivity.
Defined.

Lemma pop_dev_open_printed_witness :
  exists k', pop_dev_open 7%positive (fmt_pci 0 0x17 0 0) kernel1 = Ret (0, k').
Proof.
  destruct (pop_dev_open_printed 7%positive kernel1 0 0x17 0 0 1 (lx_add 1 1 (k_env kernel1))
    1%positive dev1) as (k' & E & _);
    [apply kinv_kernel1|lia|lia|lia|lia|by vm_compute|apply listed_kernel1|reflexivity|simpl; lia|].
  by exists k'.
Defined.

Lemma mapping_stays_inside_witness :
  exists pfn, pop_dev_mem_fault (Some 7%positive) 3 kernel2 =
    Ret ((0, Some pfn), with_env (get_page pfn (k_env kernel2)) kernel2) /\ pfn * 4096 = 0x103000.
Proof.
  destruct (mapping_stays_inside 7%positive kernel2 1%positive (set_refcnt dev1 1)
    (Vma 0x7f0000000000 0x7f0000004000 0)) as [_ Hin];
    [by vm_compute|by vm_compute|simpl; lia|simpl; lia|simpl; lia|simpl; lia|simpl; lia|simpl; lia
    |simpl; lia|intros x Hx; simpl; lia|reflexivity|reflexivity|intros pfn Hpfn; simpl in *; lia|].
  destruct Hin as [_ Hin]; [simpl; lia|]. destruct (Hin 3) as (pfn & E & Ep & _); [simpl; lia|simpl; lia|].
  exists pfn. split; [exact E|]. rewrite Ep. reflexivity.
Defined.

Lemma unreg_while_open_dangles_witness :
  exists k', pop_ioctl POP_P2PMEM_UNREG 64 kernel2 = Ret (0, k') /\
    pop_dev_release 7%positive k' = Fault DanglingPtr.
Proof.
  destruct (unreg_while_open_dangles 64 kernel2 (Reg 0 0x17 0 0 65536) 1 (lx_add 1 1 (k_env kernel2))
    1%positive (set_refcnt dev1 1) 7%positive (Vma 0 0 0) 0) as (k' & E & _ & _ & Er);
    [|by vm_compute|by vm_compute| |reflexivity|by vm_compute|by exists k'].
  - destruct (pop_dev_open_inv 7%positive (fmt_pci 0 0x17 0 0) kernel1 kinv_kernel1) as (r & k & E & Hk).
    unfold kernel2. by rewrite E.
  - split; [|by vm_compute]. change (k_list kernel2) with [1%positive]. constructor.
Defined.

Lemma pop_exit_unregisters_witness :
  exists k', pop_exit kernel1 = Ret ((), k') /\ k_list k' = [] /\ pci_refs (k_env k') 1 = 0.
Proof.
  destruct (pop_exit_unregisters kernel1 kinv_kernel1) as (k' & E & El & _ & _ & Hr & _).
  exists k'. split; [exact E|]. split; [exact El|].
  change 1 with (d_pdev dev1). rewrite (Hr 1%positive dev1 listed_kernel1). reflexivity.
Defined.
