(* ===== verification/KmodThreads.v ===== *)
(** * kmod/boogiepop.c: ioctls that run at the same time

    The module takes no lock: two processes can be inside [pop_ioctl] at once.
    Here the handlers of Boogiepop.v are cut into steps, each of which makes one
    access to shared data (an element of the device list, a structure, a call of
    the kernel), and any number of processes make such steps in any order, with
    the file operations of the devices, undivided, in between.  A call of Linux
    that Linux itself serialises is one step.  [list_add_tail] and [list_del] are
    not: Linux asks their callers to keep every other access to the list away
    while one of them runs.  Each of the two is therefore entered by one step and
    left by another, and an access to the list in between is a race ([races]): its
    effect is not defined, and a run ends there.

    The theorems: the steps of one process on its own are [pop_ioctl]; any number
    of registrations at once keep the module's invariant up to the first race,
    because [misc_register] refuses a name that is taken, and a race is the only
    thing that can stop them; such a race does happen, between two registrations
    of different devices ([list_adds_race]); and an unregistration next to another
    ioctl for the same device uses a structure after it was freed. *)

From S2P Require Import Prelude CStr LibpopH Boogiepop LinuxExample BoogiepopProps.

(** ** The steps of one process *)

(** Where a process stands in [pop_ioctl], with its local variables.  [cur] is
    the element [list_for_each_entry] is at, [None] at the head of the list. *)
Inductive kpc : Type :=
  | KIdle                                             (* outside of the function *)
  | RStart (data : Z)                                 (* POP_P2PMEM_REG: copy_from_user *)
  | RGet (data : Z) (reg : pop_p2pmem_reg)            (* pci_get_domain_bus_and_slot *)
  | RHas (data : Z) (reg : pop_p2pmem_reg) (pd : pdev)
  | RWalk (data : Z) (reg : pop_p2pmem_reg) (pd : pdev) (cur : option loc)
  | RFound (data : Z) (reg : pop_p2pmem_reg) (pd : pdev) (l : loc)   (* reads ppdev->size *)
  | RPool (data : Z) (reg : pop_p2pmem_reg) (pd : pdev)              (* gen_pool_size *)
  | RAlloc (data : Z) (reg : pop_p2pmem_reg) (pd : pdev) (size : Z)
  | RMalloc (data : Z) (reg : pop_p2pmem_reg) (pd : pdev) (size a : Z)
  | RMisc (data : Z) (reg : pop_p2pmem_reg) (pd : pdev) (size a : Z) (l : loc)
  | RAdd (data : Z) (reg : pop_p2pmem_reg) (pd : pdev) (size a : Z) (l : loc)   (* calls list_add_tail *)
  | RLink (data : Z) (reg : pop_p2pmem_reg) (pd : pdev) (size a : Z) (l : loc)  (* inside it *)
  | RFree (pd : pdev) (size a : Z)                    (* an error: pci_free_p2pmem *)
  | RCopy (data : Z) (reg : pop_p2pmem_reg) (pd : pdev) (size : Z)   (* copy_to_user *)
  | RPut (pd : pdev) (ret : Z)                        (* dev_put_out *)
  | UStart (data : Z)                                 (* POP_P2PMEM_UNREG: copy_from_user *)
  | UGet (reg : pop_p2pmem_reg)
  | UWalk (pd : pdev) (cur : option loc)
  | UDereg (l : loc)                                  (* misc_deregister *)
  | UFree (l : loc)                                   (* pci_free_p2pmem *)
  | UPut (l : loc)                                    (* pci_dev_put *)
  | UDel (l : loc)                                    (* calls list_del *)
  | UUnlink (l : loc)                                 (* inside it *)
  | UKfree (l : loc).

(** The element behind [c]: [None] if [c] is not on the list, whose pointers
    [list_del] has then poisoned. *)
Fixpoint after (c : loc) (ls : list loc) : option (list loc) :=
  match ls with
  | [] => None
  | l :: ls' => if decide (l = c) then Some ls' else after c ls'
  end.

Lemma after_elem c ls : c ∈ ls -> exists rest, after c ls = Some rest /\ forall l, l ∈ rest -> l ∈ ls.
Proof.
  induction ls as [|x ls IH]; [by intros ?%not_elem_of_nil|]. simpl. intros Hc.
  destruct (decide (x = c)) as [->|Hne]; [exists ls; split; [done|by constructor]|].
  apply elem_of_cons in Hc as [->|Hc]; [done|]. destruct (IH Hc) as (rest & -> & Hr). exists rest.
  split; [done|]. constructor. auto.
Qed.

(** What is still to be visited. *)
Definition remaining (cur : option loc) (ls : list loc) : option (list loc) :=
  match cur with None => Some ls | Some c => after c ls end.

Section steps.
Context {P : Type} `{Kapi P}.

(** One step of the walk: to the next element, [inl None] at the end, [inr] when
    its device is the one looked for. *)
Definition walk_step (pd : pdev) (cur : option loc) : M (kstate P) (option loc + loc) :=
  ls ← gets (fun k => remaining cur (k_list k));
  rest ← require DanglingPtr ls;
  match rest with
  | [] => mret (inl None)
  | l :: _ => d ← load_dev l; if d_pdev d =? pd then mret (inr l) else mret (inl (Some l))
  end.

(** [size = pop_register_p2pmem(...); if (size < 0) goto dev_put_out]. *)
Definition registered (data : Z) (reg : pop_p2pmem_reg) (pd : pdev) (size : Z) : kpc :=
  if size <? 0 then RPut pd 0 else RCopy data reg pd size.

(** One step inside [pop_ioctl]; [inr] is the return. *)
Definition ioctl_step (p : kpc) : M (kstate P) (kpc + Z) :=
  match p with
  | KIdle => diverge
  | RStart data =>
      o ← gets (fun k => copy_from_user data (k_env k));
      mret (match o with None => inr (- k_EFAULT) | Some reg => inl (RGet data reg) end)
  | RGet data reg =>
      o ← kcall (pci_get_domain_bus_and_slot (domain reg) (u32 (bus reg)) (PCI_DEVFN (slot reg) (func reg)));
      mret (match o with None => inr (- k_ENODEV) | Some pd => inl (RHas data reg pd) end)
  | RHas data reg pd =>
      has ← gets (fun k => pci_has_p2pmem pd (k_env k));
      mret (inl (if negb has then RPut pd (- k_EINVAL) else RWalk data reg pd None))
  | RWalk data reg pd cur =>
      r ← walk_step pd cur;
      mret (inl (match r with
                 | inl None => RPool data reg pd
                 | inl (Some l) => RWalk data reg pd (Some l)
                 | inr l => RFound data reg pd l
                 end))
  | RFound data reg pd l => d ← load_dev l; mret (inl (registered data reg pd (i32 (d_size d))))
  | RPool data reg pd =>
      pool ← gets (fun k => p2pdma_pool_size pd (k_env k));
      mret (inl (RAlloc data reg pd
        (wrap_size (if reg_size reg =? 0 then default (reg_size reg) pool else reg_size reg))))
  | RAlloc data reg pd size =>
      a ← kcall (pci_alloc_p2pmem pd size);
      mret (inl (if a =? 0 then RPut pd 0 else RMalloc data reg pd size a))
  | RMalloc data reg pd size a =>
      o ← kmalloc_dev (new_dev pd a size);
      mret (inl (match o with None => RFree pd size a | Some l => RMisc data reg pd size a l end))
  | RMisc data reg pd size a l =>
      ret ← kcall (misc_register (d_devname (new_dev pd a size)));
      mret (inl (if negb (ret =? 0) then RFree pd size a else RAdd data reg pd size a l))
  | RAdd data reg pd size a l => mret (inl (RLink data reg pd size a l))
  | RLink data reg pd size a l =>
      _ ← modify (fun k => with_list (k_list k ++ [l]) k);
      mret (inl (registered data reg pd (i32 size)))
  | RFree pd size a => _ ← kproc (pci_free_p2pmem pd a size); mret (inl (RPut pd 0))
  | RCopy data reg pd size =>
      o ← gets (fun k => copy_to_user data (Reg (domain reg) (bus reg) (slot reg) (func reg) (u64 size)) (k_env k));
      match o with
      | None => mret (inl (RPut pd (- k_EFAULT)))
      | Some p => _ ← kproc (fun _ => p); mret (inr 0)
      end
  | RPut pd ret => _ ← kproc (pci_dev_put pd); mret (inr ret)
  | UStart data =>
      o ← gets (fun k => copy_from_user data (k_env k));
      mret (match o with None => inr (- k_EFAULT) | Some reg => inl (UGet reg) end)
  | UGet reg =>
      o ← kcall (pci_get_domain_bus_and_slot (domain reg) (u32 (bus reg)) (PCI_DEVFN (slot reg) (func reg)));
      mret (match o with None => inr (- k_ENODEV) | Some pd => inl (UWalk pd None) end)
  | UWalk pd cur =>
      r ← walk_step pd cur;
      mret (inl (match r with
                 | inl None => RPut pd (- k_ENODEV)
                 | inl (Some l) => UWalk pd (Some l)
                 | inr l => UDereg l
                 end))
  | UDereg l => d ← load_dev l; _ ← kproc (misc_deregister (d_devname d)); mret (inl (UFree l))
  | UFree l =>
      d ← load_dev l; _ ← kproc (pci_free_p2pmem (d_pdev d) (d_p2pmem d) (d_size d)); mret (inl (UPut l))
  | UPut l => d ← load_dev l; _ ← kproc (pci_dev_put (d_pdev d)); mret (inl (UDel l))
  | UDel l => _ ← load_dev l; mret (inl (UUnlink l))
  | UUnlink l =>
      _ ← load_dev l;
      ls ← gets (fun k => after l (k_list k));
      _ ← require DanglingPtr ls;
      _ ← modify (fun k => with_list (filter (fun l' => l' <> l) (k_list k)) k);
      mret (inl (UKfree l))
  | UKfree l =>
      _ ← load_dev l;
      _ ← modify (fun k => with_devs (delete l (k_devs k)) k);
      mret (inr 0)
  end.

(** ** Processes *)

Inductive klabel : Type :=
  | KCall (t : nat) (cmd data : Z)
  | KRun (t : nat)
  | KReturn (t : nat) (ret : Z)
  | KFile (e : kevent).                      (* a file operation *)

(** Where an ioctl starts; any other command returns at once. *)
Definition enter (cmd data : Z) : option kpc :=
  if cmd =? POP_P2PMEM_REG then Some (RStart data)
  else if cmd =? POP_P2PMEM_UNREG then Some (UStart data) else None.

Definition file_event (e : kevent) : bool := match e with EIoctl _ _ => false | _ => true end.

(** The process is inside [list_add_tail] or [list_del]; its next step reads the
    list or enters one of the two. *)
Definition inside (p : kpc) : bool :=
  match p with RLink _ _ _ _ _ _ | UUnlink _ => true | _ => false end.
Definition touches_list (p : kpc) : bool :=
  match p with RWalk _ _ _ _ | UWalk _ _ | RAdd _ _ _ _ _ _ | UDel _ => true | _ => false end.

(** The step touches the list while another process changes it.  Opening a
    device walks the list. *)
Definition races (ts : list kpc) (e : klabel) : bool :=
  match e with
  | KRun t => match ts !! t with
              | Some p => touches_list p && existsb inside (delete t ts)
              | None => false
              end
  | KFile (EOpen _ _) => existsb inside ts
  | _ => false
  end.

Inductive kmod_step : kstate P * list kpc -> klabel -> kstate P * list kpc -> Prop :=
  | kmod_call k ts t cmd data p :
      ts !! t = Some KIdle -> enter cmd data = Some p ->
      kmod_step (k, ts) (KCall t cmd data) (k, <[t:=p]> ts)
  | kmod_advance k ts t p p' k' :
      ts !! t = Some p -> races ts (KRun t) = false -> ioctl_step p k = Ret (inl p', k') ->
      kmod_step (k, ts) (KRun t) (k', <[t:=p']> ts)
  | kmod_return k ts t p r k' :
      ts !! t = Some p -> ioctl_step p k = Ret (inr r, k') ->
      kmod_step (k, ts) (KReturn t r) (k', <[t:=KIdle]> ts)
  | kmod_file k ts e k' :
      file_event e = true -> races ts (KFile e) = false -> run_event e k = Ret ((), k') ->
      kmod_step (k, ts) (KFile e) (k', ts).
End steps.

(** ** One process on its own *)

Section alone.
Context {P : Type} `{KapiOk P}.
Implicit Type k : kstate P.

(** The steps from [p] on end with result [r] in state [k']. *)
Definition runs (p : kpc) k (r : Z) k' : Prop := exists n, iter_nat ioctl_step n p k = Ret (inr r, k').

Lemma runs_step p k p' k1 r k' : ioctl_step p k = Ret (inl p', k1) -> runs p' k1 r k' -> runs p k r k'.
Proof. intros E [n Hn]. exists (S n). by rewrite (iter_nat_inl _ _ _ _ _ _ E). Qed.

Lemma runs_ret p k r k' : ioctl_step p k = Ret (inr r, k') -> runs p k r k'.
Proof. intros E. exists 1%nat. by apply iter_nat_inr. Qed.

Lemma after_last pre l ls : NoDup (pre ++ l :: ls) -> after l (pre ++ l :: ls) = Some ls.
Proof.
  induction pre as [|x pre IH]; simpl; intros Hn; [by rewrite decide_True|].
  apply NoDup_cons in Hn as [Hx Hn]. rewrite decide_False; [auto|]. intros ->. apply Hx. set_solver.
Qed.

Lemma bind_gets {S A B : Type} (f : S -> A) (g : A -> M S B) s : (x ← gets f; g x) s = g (f s) s.
Proof. done. Qed.

(** The steps from [p] on lead to [p']. *)
Definition reaches (p : kpc) k (p' : kpc) k' : Prop := exists n, iter_nat ioctl_step n p k = Ret (inl p', k').

Lemma reaches_refl p k : reaches p k p k.
Proof. by exists O. Qed.

Lemma reaches_step p k p' k1 p2 k2 : ioctl_step p k = Ret (inl p', k1) -> reaches p' k1 p2 k2 -> reaches p k p2 k2.
Proof. intros E [n Hn]. exists (S n). by rewrite (iter_nat_inl _ _ _ _ _ _ E). Qed.

Lemma reaches_runs p k p' k1 r k' : reaches p k p' k1 -> runs p' k1 r k' -> runs p k r k'.
Proof. intros [n Hn] [m Hm]. exists (n + m)%nat. rewrite iter_nat_add. by rewrite (bind_ret _ _ _ _ _ Hn). Qed.

(** The walk finds what [pop_find_dev] finds: [go] is the rest of the walk. *)
Lemma walk_reaches (go : option loc -> kpc) (found : loc -> kpc) (none : kpc) pd k :
  (forall cur, ioctl_step (go cur) k = (x ← walk_step pd cur;
     mret (inl (match x with inl None => none | inl (Some l) => go (Some l) | inr l => found l end))) k) ->
  NoDup (k_list k) ->
  forall ls pre cur, k_list k = pre ++ ls -> remaining cur (k_list k) = Some ls ->
  forall o, find_in ls pd k = Ret (o, k) ->
  reaches (go cur) k (match o with Some l => found l | None => none end) k.
Proof.
  intros Hgo Hnd. induction ls as [|l ls IH]; intros pre cur El Er o Ef; simpl in Ef.
  - injection Ef as <-. eapply reaches_step; [|apply reaches_refl]. rewrite Hgo.
    unfold walk_step, gets, mbind, M_bind. by rewrite Er.
  - apply bind_Ret_inv in Ef as (d & k1 & Ed & Ef). apply load_dev_inv in Ed as [Ed ->].
    assert (forall x, (d_pdev d =? pd) = true /\ x = found l \/ (d_pdev d =? pd) = false /\ x = go (Some l) ->
      ioctl_step (go cur) k = Ret (inl x, k)) as Hs.
    { intros x Hx. rewrite Hgo. unfold walk_step, gets, mbind, M_bind, mret, M_ret. rewrite Er. simpl.
      unfold mret, M_ret. rewrite (load_dev_Some l d k Ed). by destruct Hx as [[-> ->]|[-> ->]]. }
    destruct (d_pdev d =? pd) eqn:E.
    + injection Ef as <-. eapply reaches_step; [apply Hs; by left|apply reaches_refl].
    + eapply reaches_step; [apply Hs; by right|]. eapply (IH (pre ++ [l])); [by rewrite <- app_assoc| |exact Ef].
      simpl. rewrite El. apply after_last. by rewrite <- El.
Qed.

Lemma find_reaches (go : option loc -> kpc) (found : loc -> kpc) (none : kpc) pd k o :
  (forall cur, ioctl_step (go cur) k = (x ← walk_step pd cur;
     mret (inl (match x with inl None => none | inl (Some l) => go (Some l) | inr l => found l end))) k) ->
  NoDup (k_list k) -> pop_find_dev pd k = Ret (o, k) ->
  reaches (go None) k (match o with Some l => found l | None => none end) k.
Proof. intros Hgo Hnd Ef. by apply (walk_reaches go found none pd k Hgo Hnd (k_list k) [] None). Qed.

(** Registration from the result of [pop_register_p2pmem] on. *)
Lemma registered_runs data reg pd size k r k' :
  (if size <? 0 then _ ← kproc (pci_dev_put pd); mret 0
   else
     o ← gets (fun k => copy_to_user data (Reg (domain reg) (bus reg) (slot reg) (func reg) (u64 size)) (k_env k));
     match o with
     | None => _ ← kproc (pci_dev_put pd); mret (- k_EFAULT)
     | Some p => _ ← kproc (fun _ => p); mret 0
     end) k = Ret (r, k') ->
  runs (registered data reg pd size) k r k'.
Proof.
  unfold registered. destruct (size <? 0).
  - intros [= <- <-]. by apply runs_ret.
  - unfold gets, mbind, M_bind. destruct (copy_to_user _ _ (k_env k)) as [p|] eqn:E; intros [= <- <-].
    + apply runs_ret. simpl. unfold gets, mbind, M_bind. by rewrite E.
    + eapply runs_step; [simpl; unfold gets, mbind, M_bind; rewrite E; reflexivity|by apply runs_ret].
Qed.

Lemma register_runs data reg pd k size k1 r k' :
  kinv k -> pop_register_p2pmem pd (reg_size reg) k = Ret (size, k1) ->
  runs (registered data reg pd size) k1 r k' -> runs (RWalk data reg pd None) k r k'.
Proof.
  intros Hk E Hr. destruct (pop_find_dev_spec pd k Hk) as (o & Ef & _).
  eapply reaches_runs; [apply (find_reaches (RWalk data reg pd) (RFound data reg pd) (RPool data reg pd) pd k o); [done|apply Hk|done]|].
  unfold pop_register_p2pmem in E. rewrite (bind_ret _ _ _ _ _ Ef) in E. destruct o as [l|].
  - apply bind_Ret_inv in E as (d & k2 & Ed & [= <- <-]). eapply runs_step; [|exact Hr].
    simpl. by rewrite (bind_ret _ _ _ _ _ Ed).
  - eapply runs_step; [done|]. rewrite bind_gets in E.
    set (sz := wrap_size _) in E |- *. apply bind_Ret_inv in E as (a & k2 & Ea & E).
    destruct (a =? 0) eqn:Ea0.
    { injection E as <- <-. eapply runs_step; [simpl; rewrite (bind_ret _ _ _ _ _ Ea), Ea0; done|exact Hr]. }
    eapply runs_step; [simpl; rewrite (bind_ret _ _ _ _ _ Ea), Ea0; done|].
    apply bind_Ret_inv in E as ([l|] & k3 & Em & E);
      (eapply runs_step; [simpl; rewrite (bind_ret _ _ _ _ _ Em); done|]).
    + apply bind_Ret_inv in E as (ret & k4 & Er & E).
      destruct (negb (ret =? 0)) eqn:Eret; (eapply runs_step; [simpl; rewrite (bind_ret _ _ _ _ _ Er), Eret; done|]);
        injection E as <- <-; (eapply runs_step; [done|]); [exact Hr|eapply runs_step; [done|exact Hr]].
    + injection E as <- <-. eapply runs_step; [done|exact Hr].
Qed.

Lemma unregister_runs l d k :
  l ∈ k_list k -> k_devs k !! l = Some d -> runs (UDereg l) k 0 (unregistered l d k).
Proof.
  intros Hl Hd. destruct (after_elem l (k_list k) Hl) as (ls & Ea & _).
  do 5 (eapply runs_step; [simpl; unfold load_dev, gets, kproc, modify, mbind, M_bind; simpl; rewrite ?Hd; simpl; rewrite ?Ea; reflexivity|]).
  apply runs_ret. simpl. unfold load_dev, gets, modify, mbind, M_bind. simpl. by rewrite Hd.
Qed.
Lemma reg_runs data k r k' : kinv k -> ioctl_reg data k = Ret (r, k') -> runs (RStart data) k r k'.
Proof.
  intros Hk. unfold ioctl_reg. rewrite bind_gets.
  destruct (copy_from_user data (k_env k)) as [reg|] eqn:Ec.
  2: { cbn. intros [= <- <-]. apply runs_ret. simpl. unfold gets, mbind, M_bind. by rewrite Ec. }
  intros (o & k1 & Eg & E)%bind_Ret_inv.
  eapply runs_step; [simpl; unfold gets, mbind, M_bind; rewrite Ec; reflexivity|].
  assert (kinv k1) as Hk1.
  { revert Eg. unfold kcall. pose proof (quiet_get (domain reg) (u32 (bus reg)) (PCI_DEVFN (slot reg) (func reg)) (k_env k)) as Hq.
    destruct (pci_get_domain_bus_and_slot _ _ _ _). intros [= _ <-]. by apply kinv_quiet. }
  destruct o as [pd|].
  2: { cbn in E. injection E as <- <-. apply runs_ret. simpl. by rewrite (bind_ret _ _ _ _ _ Eg). }
  eapply runs_step; [simpl; rewrite (bind_ret _ _ _ _ _ Eg); reflexivity|].
  rewrite bind_gets in E. destruct (pci_has_p2pmem pd (k_env k1)) eqn:Eh; simpl in E.
  - eapply runs_step; [simpl; unfold gets, mbind, M_bind; rewrite Eh; reflexivity|].
    apply bind_Ret_inv in E as (size & k2 & Es & E).
    eapply register_runs; [done|exact Es|]. by apply registered_runs.
  - eapply runs_step; [simpl; unfold gets, mbind, M_bind; rewrite Eh; reflexivity|].
    injection E as <- <-. by apply runs_ret.
Qed.

Lemma unreg_runs data k r k' : kinv k -> ioctl_unreg data k = Ret (r, k') -> runs (UStart data) k r k'.
Proof.
  intros Hk. unfold ioctl_unreg. rewrite bind_gets.
  destruct (copy_from_user data (k_env k)) as [reg|] eqn:Ec.
  2: { cbn. intros [= <- <-]. apply runs_ret. simpl. unfold gets, mbind, M_bind. by rewrite Ec. }
  intros (o & k1 & Eg & E)%bind_Ret_inv.
  eapply runs_step; [simpl; unfold gets, mbind, M_bind; rewrite Ec; reflexivity|].
  assert (kinv k1) as Hk1.
  { revert Eg. unfold kcall. pose proof (quiet_get (domain reg) (u32 (bus reg)) (PCI_DEVFN (slot reg) (func reg)) (k_env k)) as Hq.
    destruct (pci_get_domain_bus_and_slot _ _ _ _). intros [= _ <-]. by apply kinv_quiet. }
  destruct o as [pd|].
  2: { cbn in E. injection E as <- <-. apply runs_ret. simpl. by rewrite (bind_ret _ _ _ _ _ Eg). }
  eapply runs_step; [simpl; rewrite (bind_ret _ _ _ _ _ Eg); reflexivity|].
  destruct (pop_find_dev_spec pd k1 Hk1) as (o & Ef & Ho). rewrite (bind_ret _ _ _ _ _ Ef) in E.
  eapply reaches_runs; [apply (find_reaches (UWalk pd) UDereg (RPut pd (- k_ENODEV)) pd k1 o); [done|apply Hk1|done]|].
  destruct o as [l|].
  - destruct Ho as (d & [Hl Hd] & _). rewrite (bind_ret _ _ _ _ _ (pop_unregister_eq l d k1 Hd)) in E.
    injection E as <- <-. by apply unregister_runs.
  - injection E as <- <-. by apply runs_ret.
Qed.

(** A process that is alone in [pop_ioctl] does, step by step, what the
    undivided handler does: from a state of the module, the steps of a
    registration and of an unregistration end, with the result and in the state
    of [pop_ioctl]. *)
Theorem ioctl_steps_sequential cmd data k p :
  kinv k -> enter cmd data = Some p ->
  exists r k', pop_ioctl cmd data k = Ret (r, k') /\ runs p k r k' /\ kinv k'.
Proof.
  intros Hk Hp. destruct (pop_ioctl_inv cmd data k Hk) as (r & k' & E & Hk'). exists r, k'.
  split_and!; [done| |done]. revert E Hp. unfold pop_ioctl, enter.
  destruct (cmd =? POP_P2PMEM_REG); [intros E [= <-]; by apply reg_runs|].
  destruct (cmd =? POP_P2PMEM_UNREG); [intros E [= <-]; by apply unreg_runs|done].
Qed.
End alone.

(** ** Registrations at the same time *)

(** The same device but for its reference count. *)
Definition like (d d' : pop_dev) : Prop := region_of d = region_of d' /\ d_devname d = d_devname d'.

Definition size_ok (size : Z) : Prop := 0 <= size < 2 ^ 64 /\ size `mod` 4096 = 0.

(** What a process inside a registration holds: a structure it has named, which
    it will put on the list; a region of memory; a structure without name. *)
Definition named (p : kpc) : option loc :=
  match p with RAdd _ _ _ _ _ l | RLink _ _ _ _ _ l => Some l | _ => None end.
Definition held (p : kpc) : option region :=
  match p with
  | RMalloc _ _ pd size a | RMisc _ _ pd size a _ | RFree pd size a => Some (pd, a, size)
  | _ => None
  end.
Definition malloced (p : kpc) : option loc := match p with RMisc _ _ _ _ _ l => Some l | _ => None end.

Section register.
Context {P : Type} `{KapiOk P}.
Implicit Type k : kstate P.

(** The devices of [ns] have names, which are those of their PCI devices, and no
    other name under pop/ is taken; no two are of one PCI device; the memory in use is theirs and that of [hs], each
    region once; the structures [ms] are others. *)
Record owns k (ns : list loc) (hs : list region) (ms : list loc) : Prop := Owns {
  ow_nodup : NoDup (ns ++ ms);
  ow_dev l : l ∈ ns -> exists d, k_devs k !! l = Some d /\ d_devname d = devname (d_pdev d) /\
    size_ok (d_size d) /\ misc_live (k_env k) (d_devname d);
  ow_misc n : misc_live (k_env k) n -> pop_name n -> exists l d, l ∈ ns /\ k_devs k !! l = Some d /\ d_devname d = n;
  ow_pdev l1 l2 d1 d2 : l1 ∈ ns -> l2 ∈ ns -> k_devs k !! l1 = Some d1 -> k_devs k !! l2 = Some d2 ->
    d_pdev d1 = d_pdev d2 \/ d_devname d1 = d_devname d2 -> l1 = l2;
  ow_live r : p2p_live (k_env k) r <->
    (exists l d, l ∈ ns /\ k_devs k !! l = Some d /\ r = region_of d) \/ r ∈ hs;
  ow_held : NoDup hs;
  ow_apart l d : l ∈ ns -> k_devs k !! l = Some d -> region_of d ∉ hs;
  ow_ms l : l ∈ ms -> is_Some (k_devs k !! l);
  ow_fresh l d : k_devs k !! l = Some d -> (l < k_next k)%positive
}.

#[global] Instance owns_proper k : Proper ((≡ₚ) ==> (≡ₚ) ==> (≡ₚ) ==> iff) (owns k).
Proof.
  assert (forall ns ns' hs hs' ms ms', ns ≡ₚ ns' -> hs ≡ₚ hs' -> ms ≡ₚ ms' -> owns k ns hs ms -> owns k ns' hs' ms') as Hp.
  { intros ns ns' hs hs' ms ms' E1 E2 E3 [H1 H2 Hm H3 H4 H5 H6 H7 H8].
    constructor; intros *; rewrite <- ?E1, <- ?E2, <- ?E3; eauto.
    - intros Hn Hp. destruct (Hm n Hn Hp) as (l & d & Hl & Ed). exists l, d. by rewrite <- E1.
    - rewrite H4. setoid_rewrite E1. done. }
  intros ns ns' E1 hs hs' E2 ms ms' E3. split; by apply Hp.
Qed.

(** Changes that do not matter: other reference counts, calls of the kernel that
    are not about memory and names. *)
Record alike k k' : Prop := Alike {
  al_next : k_next k' = k_next k;
  al_env : quiet (k_env k) (k_env k');
  al_devs l : option_Forall2 like (k_devs k !! l) (k_devs k' !! l)
}.

Lemma alike_env k p : quiet (k_env k) p -> alike k (with_env p k).
Proof. intros Hq. constructor; [done..|]. intros l. simpl. destruct (k_devs k !! l); constructor. done. Qed.

Lemma alike_to k k' l d : alike k k' -> k_devs k !! l = Some d -> exists d', k_devs k' !! l = Some d' /\ like d d'.
Proof. intros [_ _ Hd] E. specialize (Hd l). rewrite E in Hd. inversion Hd. eauto. Qed.

Lemma alike_from k k' l d' : alike k k' -> k_devs k' !! l = Some d' -> exists d, k_devs k !! l = Some d /\ like d d'.
Proof. intros [_ _ Hd] E. specialize (Hd l). rewrite E in Hd. inversion Hd. eauto. Qed.

Lemma owns_alike k k' ns hs ms : alike k k' -> owns k ns hs ms -> owns k' ns hs ms.
Proof.
  intros Ha [H1 H2 Hm H3 H4 H5 H6 H7 H8]. destruct (al_env _ _ Ha) as [Ql Qm]. constructor; [done|..|done| | |].
  - intros l (d & Ed & En & Es & Em)%H2. destruct (alike_to _ _ _ _ Ha Ed) as (d' & Ed' & [E1 E2]).
    exists d'. unfold region_of in E1. injection E1 as Ep Ea Ez. rewrite <- E2, <- Ep, <- Ez, Qm. done.
  - intros n Hn%Qm Hp. destruct (Hm n Hn Hp) as (l & d & Hl & Ed & <-).
    destruct (alike_to _ _ _ _ Ha Ed) as (d' & Ed' & [_ E2]). eauto.
  - intros l1 l2 d1 d2 Hl1 Hl2 (e1 & E1 & [R1 N1])%(alike_from _ _ _ _ Ha) (e2 & E2 & [R2 N2])%(alike_from _ _ _ _ Ha) E.
    injection R1 as Ep1 _ _. injection R2 as Ep2 _ _. eapply H3; eauto. by rewrite Ep1, Ep2, N1, N2.
  - intros r. rewrite Ql, H4. f_equiv. split; intros (l & d & Hl & Ed & ->); exists l.
    + destruct (alike_to _ _ _ _ Ha Ed) as (d' & Ed' & [E1 _]). eauto.
    + destruct (alike_from _ _ _ _ Ha Ed) as (d' & Ed' & [E1 _]). eauto.
  - intros l d Hl (d' & Ed' & [<- _])%(alike_from _ _ _ _ Ha). eauto.
  - intros l [d Ed]%H7. destruct (alike_to _ _ _ _ Ha Ed) as (d' & ? & _). by exists d'.
  - intros l d (d' & Ed' & _)%(alike_from _ _ _ _ Ha). rewrite (al_next _ _ Ha). eauto.
Qed.

Lemma owns_alloc k ns hs ms pd size a p :
  owns k ns hs ms -> pci_alloc_p2pmem pd size (k_env k) = (a, p) -> a <> 0 ->
  owns (with_env p k) ns ((pd, a, size) :: hs) ms.
Proof.
  intros [H1 H2 Hm H3 H4 H5 H6 H7 H8] E Ha. pose proof (pci_alloc_spec pd size (k_env k)) as S. rewrite E in S.
  destruct S as (_ & Sn & Sl & Sm). specialize (Sn Ha). rewrite H4 in Sn. constructor; try done; simpl.
  - intros l (d & Ed & En & Es & Em)%H2. exists d. by rewrite Sm.
  - intros n Hn%Sm. by apply Hm.
  - intros r. rewrite Sl, H4, elem_of_cons. tauto.
  - constructor; [tauto|done].
  - intros l d Hl Ed. rewrite elem_of_cons. intros [Er|Hr]; [|by eapply H6]. apply Sn. left. eauto.
Qed.

Lemma owns_free k ns hs ms pd size a :
  owns k ns ((pd, a, size) :: hs) ms ->
  owns (with_env (pci_free_p2pmem pd a size (k_env k)) k) ns hs ms.
Proof.
  intros [H1 H2 Hm H3 H4 H5 H6 H7 H8]. destruct (pci_free_spec pd a size (k_env k)) as (_ & Sl & Sm).
  apply NoDup_cons in H5 as [Hn H5]. constructor; try done; simpl.
  - intros l (d & Ed & En & Es & Em)%H2. exists d. by rewrite Sm.
  - intros n Hnm%Sm. by apply Hm.
  - intros r. rewrite Sl, H4, elem_of_cons. split; [tauto|]. intros [(l & d & Hl & Ed & ->)|Hr].
    + split; [eauto 10|]. intros Er. apply (H6 l d Hl Ed). rewrite Er. constructor.
    + split; [auto|]. by intros ->.
  - intros l d Hl Ed Hr. apply (H6 l d Hl Ed). by constructor.
Qed.

Lemma owns_kmalloc k ns hs ms d p :
  owns k ns hs ms -> quiet (k_env k) p ->
  owns (K (<[k_next k:=d]> (k_devs k)) (k_list k) (k_files k) (Pos.succ (k_next k)) p) ns hs (k_next k :: ms).
Proof.
  intros [H1 H2 Hm H3 H4 H5 H6 H7 H8] [Ql Qm].
  assert (forall l d', k_devs k !! l = Some d' -> k_next k <> l) as Hne by (intros l d' E <-; apply H8 in E; lia).
  assert (forall l, l ∈ ns -> <[k_next k:=d]> (k_devs k) !! l = k_devs k !! l) as Hns.
  { intros l (d' & E & _)%H2. apply lookup_insert_ne. eauto. }
  constructor; simpl.
  - rewrite <- Permutation_middle. constructor; [|done]. rewrite elem_of_app.
    intros [(d' & E & _)%H2|[d' E]%H7]; by apply Hne in E.
  - intros l Hl. destruct (H2 l Hl) as (d' & Ed & En & Es & Em). exists d'. by rewrite Hns, Qm.
  - intros n Hn%Qm Hp. destruct (Hm n Hn Hp) as (l & d' & Hl & Ed). exists l, d'. by rewrite Hns.
  - intros l1 l2 d1 d2 Hl1 Hl2. rewrite !Hns by done. eauto.
  - intros r. rewrite Ql, H4. f_equiv. split; intros (l & d' & Hl & Ed & ->); exists l, d'; (split; [done|]); by rewrite Hns in *.
  - done.
  - intros l d' Hl. rewrite Hns by done. eauto.
  - intros l. rewrite elem_of_cons. intros [->|[d' E]%H7]; [by rewrite lookup_insert_eq|].
    rewrite lookup_insert_ne by eauto. by exists d'.
  - intros l d'. rewrite lookup_insert_Some. intros [[<- _]|[_ E%H8]]; lia.
Qed.

Lemma owns_named k ns hs ms l d p :
  owns k ns (region_of d :: hs) (l :: ms) -> k_devs k !! l = Some d ->
  d_devname d = devname (d_pdev d) -> size_ok (d_size d) -> ~ misc_live (k_env k) (d_devname d) ->
  (forall r, p2p_live p r <-> p2p_live (k_env k) r) ->
  (forall m, misc_live p m <-> misc_live (k_env k) m \/ m = d_devname d) ->
  owns (with_env p k) (l :: ns) hs ms.
Proof.
  intros [H1 H2 Hm H3 H4 H5 H6 H7 H8] Ed En Es Hnew Sl Sm. apply NoDup_cons in H5 as [Hn H5].
  assert (forall l' d', l' ∈ ns -> k_devs k !! l' = Some d' -> d_devname d' <> d_devname d) as Hne.
  { intros l' d' (d'' & E & _ & _ & Em)%H2 E' En'. simplify_eq. apply Hnew. by rewrite <- En'. }
  constructor; simpl; try done.
  - by rewrite <- Permutation_middle in H1.
  - intros l'. rewrite elem_of_cons. intros [->|(d' & E & ? & ? & ?)%H2]; [exists d|exists d']; rewrite Sm; eauto.
  - intros n [Hnm| ->]%Sm Hp; [|exists l, d; split; [constructor|done]].
    destruct (Hm n Hnm Hp) as (l' & d' & Hl' & Ed'). exists l', d'. split; [by constructor|done].
  - assert (forall l' d', l' ∈ ns -> k_devs k !! l' = Some d' -> ~ (d_pdev d' = d_pdev d \/ d_devname d' = d_devname d)) as Hno.
    { intros l' d' Hl' E [Ep|Ep]; apply (Hne l' d' Hl' E); [|done]. destruct (H2 l' Hl') as (d'' & E'' & N & _).
      simplify_eq. by rewrite N, En, Ep. }
    intros l1 l2 d1 d2. rewrite !elem_of_cons. intros [->|Hl1] [->|Hl2] E1 E2 E; simplify_eq; [done|..|eauto].
    + destruct (Hno l2 d2 Hl2 E2). by destruct E; [left|right].
    + by destruct (Hno l1 d1 Hl1 E1).
  - intros r. rewrite Sl, H4, elem_of_cons. setoid_rewrite elem_of_cons. split.
    + intros [(l' & d' & ? & ? & ->)|[->|Hr]]; eauto 10.
    + intros [(l' & d' & [->|?] & ? & ->)|Hr]; simplify_eq; eauto 10.
  - intros l' d'. rewrite elem_of_cons. intros [->|Hl'] E; simplify_eq; [done|].
    intros Hr. apply (H6 l' d' Hl' E). by constructor.
  - intros l' Hl'. apply H7. by constructor.
Qed.

(** A structure that is given up stays allocated. *)
Lemma owns_leak k ns hs ms l : owns k ns hs (l :: ms) -> owns k ns hs ms.
Proof.
  intros [H1 H2 Hm H3 H4 H5 H6 H7 H8]. constructor; try done.
  - rewrite <- Permutation_middle in H1. by apply NoDup_cons in H1 as [_ H1].
  - intros l' Hl'. apply H7. by constructor.
Qed.

(** ** The invariant of concurrent registrations *)

(** What a process knows of the state where it stands. *)
Definition pc_ok k (p : kpc) : Prop :=
  match p with
  | RWalk _ _ _ (Some l) | RFound _ _ _ l => l ∈ k_list k
  | RAlloc _ _ _ size | RMalloc _ _ _ size _ => size_ok size
  | RMisc _ _ pd size a l => size_ok size /\ exists d, k_devs k !! l = Some d /\ like (new_dev pd a size) d
  | RAdd _ _ pd size a l | RLink _ _ pd size a l => exists d, k_devs k !! l = Some d /\ like (new_dev pd a size) d
  | UStart _ | UGet _ | UWalk _ _ | UDereg _ | UFree _ | UPut _ | UDel _ | UUnlink _ | UKfree _ => False
  | _ => True
  end.

Definition tinv k (ts : list kpc) : Prop :=
  owns k (k_list k ++ omap named ts) (omap held ts) (omap malloced ts) /\ Forall (pc_ok k) ts.

#[global] Instance tinv_proper k : Proper ((≡ₚ) ==> iff) (tinv k).
Proof. intros ts ts' E. unfold tinv. by rewrite E. Qed.

(** The list and the structures only grow. *)
Definition grows k k' : Prop :=
  (forall l, l ∈ k_list k -> l ∈ k_list k') /\
  (forall l d, k_devs k !! l = Some d -> exists d', k_devs k' !! l = Some d' /\ like d d').

Lemma pc_ok_grows k k' p : grows k k' -> pc_ok k p -> pc_ok k' p.
Proof.
  intros [Hl Hd]. destruct p as [|?|? ?|? ? ?|? ? ? [l|]|? ? ? ?|? ? ?|? ? ? ?|? ? ? ? ?|? ? pd size a l|? ? pd size a l|? ? pd size a l|? ? ?|? ? ? ?|? ?|?|?|? ?|?|?|?|?|?|?];
    simpl; auto.
  all: intros Hx; try (destruct Hx as [Hs Hx]; split; [exact Hs|]); destruct Hx as (d & Ed & [E1 E2]);
    destruct (Hd l d Ed) as (d' & Ed' & [E3 E4]); exists d'; (split; [done|]); split; congruence.
Qed.

Lemma tinv_next k k' p p' ts :
  tinv k (p :: ts) -> grows k k' -> pc_ok k' p' ->
  owns k' (k_list k' ++ omap named (p' :: ts)) (omap held (p' :: ts)) (omap malloced (p' :: ts)) ->
  tinv k' (p' :: ts).
Proof.
  intros [_ Ht] Hg Hp Ho. apply Forall_cons in Ht as [_ Ht]. split; [done|]. constructor; [done|].
  eapply Forall_impl; [exact Ht|]. intros q. by apply pc_ok_grows.
Qed.

(** A step that neither takes nor gives anything. *)
Lemma tinv_alike k k' p p' ts :
  tinv k (p :: ts) -> alike k k' -> k_list k' = k_list k -> pc_ok k' p' ->
  named p' = named p -> held p' = held p -> malloced p' = malloced p -> tinv k' (p' :: ts).
Proof.
  intros Ht Ha El Hp En Eh Em. eapply tinv_next; [done| |done|].
  - split; [by rewrite El|]. intros l d. by apply alike_to.
  - destruct Ht as [Ho _]. simpl in *. rewrite El, En, Eh, Em. by eapply owns_alike.
Qed.

Lemma tinv_quiet k p p' ts e :
  tinv k (p :: ts) -> quiet (k_env k) e -> pc_ok k p' ->
  named p' = named p -> held p' = held p -> malloced p' = malloced p -> tinv (with_env e k) (p' :: ts).
Proof. intros Ht Hq Hp. by eapply tinv_alike; [done|apply alike_env|..]. Qed.

Lemma tinv_same k p p' ts :
  tinv k (p :: ts) -> pc_ok k p' ->
  named p' = named p -> held p' = held p -> malloced p' = malloced p -> tinv k (p' :: ts).
Proof.
  intros Ht Hp. eapply tinv_alike; [done| |done|done]. constructor; [done..|].
  intros l. destruct (k_devs k !! l); by constructor.
Qed.

Lemma walk_step_ok k ns hs ms pd cur :
  owns k (k_list k ++ ns) hs ms -> (forall l, cur = Some l -> l ∈ k_list k) ->
  exists r, walk_step pd cur k = Ret (r, k) /\ forall l, r = inl (Some l) \/ r = inr l -> l ∈ k_list k.
Proof.
  intros Ho Hc. unfold walk_step. rewrite bind_gets.
  assert (exists rest, remaining cur (k_list k) = Some rest /\ forall l, l ∈ rest -> l ∈ k_list k) as (rest & -> & Hr).
  { destruct cur as [c|]; simpl; [apply after_elem; auto|eauto]. }
  destruct rest as [|l rest]; [exists (inl None); split; [done|]; by intros l [?|?]|].
  destruct (ow_dev _ _ _ _ Ho l) as (d & Ed & _); [apply elem_of_app; left; apply Hr; constructor|].
  assert (l ∈ k_list k) as Hl by (apply Hr; constructor).
  unfold require, mbind, M_bind, mret, M_ret. rewrite (load_dev_Some l d k Ed).
  destruct (d_pdev d =? pd); [exists (inr l)|exists (inl (Some l))]; (split; [done|]); intros ? [E|E]; by simplify_eq.
Qed.

(** Where a process stands after a step. *)
Definition next_pc (x : kpc + Z) : kpc := match x with inl p => p | inr _ => KIdle end.

(** The next step of a registration returns and keeps the invariant. *)
Definition steps_on k (p : kpc) (ts : list kpc) : Prop :=
  exists x k', ioctl_step p k = Ret (x, k') /\ tinv k' (next_pc x :: ts).

Lemma registered_quiet data reg pd size k :
  let p := registered data reg pd size in pc_ok k p /\ named p = None /\ held p = None /\ malloced p = None.
Proof. unfold registered. by destruct (size <? 0). Qed.

Lemma get_on data reg k ts : tinv k (RGet data reg :: ts) -> steps_on k (RGet data reg) ts.
Proof.
  intros Ht. unfold steps_on. simpl. unfold kcall, mbind, M_bind, mret, M_ret.
  pose proof (quiet_get (domain reg) (u32 (bus reg)) (PCI_DEVFN (slot reg) (func reg)) (k_env k)) as Hq.
  destruct (pci_get_domain_bus_and_slot _ _ _ (k_env k)) as [[pd|] e]; eexists _, _; (split; [done|]);
    by apply (tinv_quiet k (RGet data reg)).
Qed.

Lemma walk_on data reg pd cur k ts : tinv k (RWalk data reg pd cur :: ts) -> steps_on k (RWalk data reg pd cur) ts.
Proof.
  intros Ht. destruct (walk_step_ok k _ _ _ pd cur (proj1 Ht)) as (r & E & Hr).
  { intros l ->. destruct Ht as [_ Ht]. by apply Forall_cons in Ht as [Hp _]. }
  unfold steps_on. simpl. rewrite (bind_ret _ _ _ _ _ E). eexists _, _. split; [done|].
  apply (tinv_same k (RWalk data reg pd cur)); [done|..]; destruct r as [[l|]|l]; try done; apply Hr; auto.
Qed.

Lemma found_on data reg pd l k ts : tinv k (RFound data reg pd l :: ts) -> steps_on k (RFound data reg pd l) ts.
Proof.
  intros Ht. pose proof Ht as [Ho Hts]. apply Forall_cons in Hts as [Hp _].
  destruct (ow_dev _ _ _ _ Ho l) as (d & Ed & _); [apply elem_of_app; by left|].
  unfold steps_on. simpl. rewrite (bind_ret _ _ _ _ _ (load_dev_Some l d k Ed)). eexists _, _. split; [done|].
  destruct (registered_quiet data reg pd (i32 (d_size d)) k) as (? & ? & ? & ?).
  by apply (tinv_same k (RFound data reg pd l)).
Qed.

Lemma alloc_on data reg pd size k ts : tinv k (RAlloc data reg pd size :: ts) -> steps_on k (RAlloc data reg pd size) ts.
Proof.
  intros Ht. unfold steps_on. simpl. unfold kcall, mbind, M_bind, mret, M_ret.
  pose proof (pci_alloc_spec pd size (k_env k)) as S.
  destruct (pci_alloc_p2pmem pd size (k_env k)) as [a e] eqn:E. eexists _, _. split; [done|].
  destruct (Z.eqb_spec a 0) as [->|Ha].
  - apply (tinv_quiet k (RAlloc data reg pd size)); try done. split; [|apply S].
    intros r. rewrite (proj1 (proj2 (proj2 S)) r). tauto.
  - eapply tinv_next; [exact Ht| | |].
    + split; [done|]. intros l d Ed. by exists d.
    + destruct Ht as [_ Ht]. by apply Forall_cons in Ht as [Hp _].
    + simpl. by apply owns_alloc; [apply Ht| |].
Qed.

Lemma malloc_on data reg pd size a k ts :
  tinv k (RMalloc data reg pd size a :: ts) -> steps_on k (RMalloc data reg pd size a) ts.
Proof.
  intros Ht. unfold steps_on. simpl. unfold kmalloc_dev, mbind, M_bind, mret, M_ret.
  pose proof (quiet_kmalloc (k_env k)) as Hq. destruct (kmalloc_ok (k_env k)) as [[] e]; eexists _, _; (split; [done|]).
  2: by apply (tinv_quiet k (RMalloc data reg pd size a)).
  pose proof Ht as [Ho Hts]. pose proof Hts as Hts'. apply Forall_cons in Hts' as [Hp _].
  eapply tinv_next; [exact Ht| | |].
  - split; [done|]. intros l d Ed. exists d. split; [|done]. simpl. rewrite lookup_insert_ne; [done|].
    intros <-. apply (ow_fresh _ _ _ _ Ho) in Ed. lia.
  - split; [done|]. simpl. rewrite lookup_insert_eq. by eexists.
  - by apply owns_kmalloc.
Qed.

Lemma misc_on data reg pd size a l k ts :
  tinv k (RMisc data reg pd size a l :: ts) -> steps_on k (RMisc data reg pd size a l) ts.
Proof.
  intros Ht. pose proof Ht as [Ho Hts]. apply Forall_cons in Hts as [[Hs (d & Ed & [R N])] _].
  unfold steps_on, ioctl_step. unfold kcall, mbind, M_bind, mret, M_ret.
  pose proof (misc_register_spec (d_devname (new_dev pd a size)) (k_env k)) as S.
  destruct (misc_register _ (k_env k)) as [ret e]. destruct S as (_ & Sl & Sn & Sm). eexists _, _. split; [done|].
  eapply tinv_next; [exact Ht| | |]; [split; [done|]; intros ? d0 ?; by exists d0|destruct (ret =? 0); [by exists d|done]|].
  destruct (Z.eqb_spec ret 0) as [->|Hret]; simpl in *.
  - rewrite <- Permutation_middle. injection R as Rp Ra Rz.
    assert (region_of d = (pd, a, size)) as Er by (unfold region_of; congruence). rewrite <- Er in Ho.
    eapply owns_named; eauto; rewrite <- ?N, <- ?Rp, <- ?Rz; eauto.
    intros m. rewrite Sm. tauto.
  - eapply owns_alike; [apply alike_env; split; [done|]|by eapply owns_leak].
    intros n. rewrite Sm. tauto.
Qed.

Lemma reg_step k p ts : tinv k (p :: ts) -> p <> KIdle -> steps_on k p ts.
Proof.
  intros Ht Hp. pose proof (proj2 Ht) as Hts. apply Forall_cons in Hts as [Hok _].
  destruct p as [|data|data reg|data reg pd|data reg pd cur|data reg pd l|data reg pd|data reg pd size|
    data reg pd size a|data reg pd size a l|data reg pd size a l|data reg pd size a l|pd size a|data reg pd size|pd ret|?|?|? ?|?|?|?|?|?|?]; try done.
  - unfold steps_on. simpl. rewrite bind_gets. eexists _, _. split; [done|].
    destruct (copy_from_user data (k_env k)); by apply (tinv_same k (RStart data)).
  - by apply get_on.
  - unfold steps_on. simpl. rewrite bind_gets. eexists _, _. split; [done|].
    destruct (pci_has_p2pmem pd (k_env k)); by apply (tinv_same k (RHas data reg pd)).
  - by apply walk_on.
  - by apply found_on.
  - unfold steps_on, ioctl_step. rewrite bind_gets. eexists _, _. split; [done|].
    apply (tinv_same k (RPool data reg pd)); try done. apply wrap_size_ok.
  - by apply alloc_on.
  - by apply malloc_on.
  - by apply misc_on.
  - eexists _, _. split; [done|]. by apply (tinv_same k (RAdd data reg pd size a l)).
  - eexists _, _. split; [done|].
    destruct (registered_quiet data reg pd (i32 size) (with_list (k_list k ++ [l]) k)) as (H1 & H2 & H3 & H4).
    eapply tinv_next; [exact Ht| |done|].
    + split; [intros l' Hl'; simpl; apply elem_of_app; by left|]. intros l' d Ed. by exists d.
    + simpl in *. rewrite H2, H3, H4. rewrite <- app_assoc. destruct Ht as [[] _]. by constructor.
  - eexists _, _. split; [done|]. eapply tinv_next; [exact Ht| |done|by apply owns_free; apply Ht].
    split; [done|]. intros l d Ed. by exists d.
  - unfold steps_on. simpl. rewrite bind_gets.
    destruct (copy_to_user data _ (k_env k)) as [e|] eqn:E; eexists _, _; (split; [done|]).
    + apply (tinv_quiet k (RCopy data reg pd size)); try done. by eapply quiet_copy.
    + by apply (tinv_same k (RCopy data reg pd size)).
  - eexists _, _. split; [done|]. apply (tinv_quiet k (RPut pd ret)); try done. apply quiet_put.
Qed.

(** ** File operations in between *)

Definition same_list k k' : Prop := alike k k' /\ k_list k' = k_list k.

Lemma same_list_env k e : quiet (k_env k) e -> same_list k (with_env e k).
Proof. intros Hq. split; [by apply alike_env|done]. Qed.

Lemma same_list_refl k : same_list k k.
Proof. destruct k as [ds ls fs n e]. by apply (same_list_env (K ds ls fs n e) e). Qed.

Lemma same_list_refcnt k l d n x :
  k_devs k !! l = Some d -> same_list k (with_files x (with_devs (<[l:=set_refcnt d n]> (k_devs k)) k)).
Proof.
  intros Ed. split; [|done]. constructor; [done..|]. intros l'. simpl. destruct (decide (l' = l)) as [->|Hne].
  - rewrite lookup_insert_eq, Ed. by constructor.
  - rewrite lookup_insert_ne by done. destruct (k_devs k !! l'); by constructor.
Qed.

Lemma find_in_same ls pd k o k' : find_in ls pd k = Ret (o, k') -> k' = k.
Proof.
  induction ls as [|l ls IH]; simpl; [by intros [= _ <-]|].
  intros (d & k1 & [Ed ->]%load_dev_inv & E)%bind_Ret_inv. destruct (d_pdev d =? pd); [by injection E|auto].
Qed.

Lemma find_by_slot_env dom b fn k o k' :
  pop_find_dev_by_bus_and_slot dom b fn k = Ret (o, k') -> exists e, quiet (k_env k) e /\ k' = with_env e k.
Proof.
  unfold pop_find_dev_by_bus_and_slot. intros (o1 & k1 & E1 & E)%bind_Ret_inv. revert E1. unfold kcall.
  pose proof (quiet_get dom b fn (k_env k)) as [Q1 Q2].
  destruct (pci_get_domain_bus_and_slot dom b fn (k_env k)) as [o2 e]. intros [= -> <-].
  destruct o1 as [pd|]; [|injection E as _ <-; by exists e].
  apply bind_Ret_inv in E as (o3 & k2 & Ef & E). apply find_in_same in Ef as ->. injection E as _ <-.
  exists (pci_dev_put pd e). split; [|done]. destruct (quiet_put pd e) as [Q3 Q4].
  split; intros ?; [by rewrite Q3, Q1|by rewrite Q4, Q2].
Qed.

Lemma open_same f name k r k' : pop_dev_open f name k = Ret (r, k') -> same_list k k'.
Proof.
  unfold pop_dev_open. destruct (sscanf_x pci_seps name) as [|d0 [|b0 [|s0 [|f0 [|]]]]];
    try (intros [= _ <-]; apply same_list_refl).
  intros (o & k1 & (e & Hq & ->)%find_by_slot_env & E)%bind_Ret_inv.
  destruct o as [l|]; [|injection E as _ <-; by apply same_list_env].
  apply bind_Ret_inv in E as (d & k1 & [Ed ->]%load_dev_inv & E). injection E as _ <-.
  destruct (same_list_refcnt (with_env e k) l d (i32 (d_refcnt d + 1)) (<[f:=Some l]> (k_files k)) Ed) as [[? ? ?] ?].
  split; [by constructor|done].
Qed.

Lemma release_same f k r k' : pop_dev_release f k = Ret (r, k') -> same_list k k'.
Proof.
  unfold pop_dev_release. intros (o & k1 & E1 & E)%bind_Ret_inv.
  unfold private_data in E1. rewrite bind_gets in E1. injection E1 as _ ->.
  destruct o as [l|]; [|done]. unfold require in E. apply bind_Ret_inv in E as (l1 & k2 & E2 & E). injection E2 as <- <-.
  apply bind_Ret_inv in E as (d & k2 & [Ed ->]%load_dev_inv & E). injection E as _ <-.
  by apply (same_list_refcnt k1 l d (i32 (d_refcnt d - 1)) (<[f:=None]> (k_files k1))).
Qed.

Lemma file_event_same e k k' : file_event e = true -> run_event e k = Ret ((), k') -> same_list k k'.
Proof.
  destruct e as [cmd data|f name|f|f o w|f v|vf pg]; [done|..]; intros _;
    intros (r & k1 & E & [= <-])%bind_Ret_inv.
  - by eapply open_same.
  - by eapply release_same.
  - unfold pop_dev_llseek, private_data in E. rewrite bind_assoc, bind_gets in E.
    revert E. unfold mbind, M_bind, mret, M_ret. destruct (default None _) as [l|]; [|by intros [= _ <-]; apply same_list_refl].
    destruct (w =? SEEK_END); [|by intros [= _ <-]; apply same_list_refl].
    destruct (load_dev l k) as [[d k2]| |] eqn:El; [|done..]. apply load_dev_inv in El as [_ ->].
    by intros [= _ <-]; apply same_list_refl.
  - unfold pop_dev_mmap, private_data in E. rewrite bind_assoc, bind_gets in E.
    revert E. unfold mbind, M_bind, mret, M_ret. destruct (default None _) as [l|]; [|by intros [= _ <-]; apply same_list_refl].
    destruct (load_dev l k) as [[d k2]| |] eqn:El; [|done..]. apply load_dev_inv in El as [_ ->].
    by destruct (_ <? _); intros [= _ <-]; apply same_list_refl.
  - destruct vf as [f|]; simpl in E; [|injection E as _ <-; apply same_list_refl].
    unfold private_data in E. rewrite bind_assoc, bind_gets in E.
    revert E. unfold mbind, M_bind, mret, M_ret. destruct (default None _) as [l|]; [|by intros [= _ <-]; apply same_list_refl].
    destruct (load_dev l k) as [[d k2]| |] eqn:El; [|done..]. apply load_dev_inv in El as [_ ->].
    destruct (_ =? 0); [by intros [= _ <-]; apply same_list_refl|].
    destruct (pfn_valid _); intros [= _ <-]; [apply same_list_env, quiet_page|apply same_list_refl].
Qed.

Lemma tinv_file k k' ts : same_list k k' -> tinv k ts -> tinv k' ts.
Proof.
  intros [Ha El] [Ho Ht]. split; [rewrite El; by eapply owns_alike|].
  eapply Forall_impl; [exact Ht|]. intros p. apply pc_ok_grows. split; [by rewrite El|]. intros l d. by apply alike_to.
Qed.

(** ** Every interleaving *)

(** No process enters the unregistration. *)
Definition no_unreg (e : klabel) : bool := match e with KCall _ cmd _ => negb (cmd =? POP_P2PMEM_UNREG) | _ => true end.

Lemma insert_Permutation {A : Type} (ts : list A) t p q : ts !! t = Some p -> <[t:=q]> ts ≡ₚ q :: delete t ts.
Proof.
  intros Et%lookup_lt_Some. rewrite insert_take_drop by done. rewrite delete_take_drop.
  by rewrite <- Permutation_middle.
Qed.

Lemma kmod_step_tinv s e s' : no_unreg e = true -> tinv s.1 s.2 -> kmod_step s e s' -> tinv s'.1 s'.2.
Proof.
  intros He Ht Hs. destruct Hs as [k ts t cmd data p Et Ep|k ts t p p' k' Et _ Es|k ts t p r k' Et Es|k ts e k' Ef _ Er]; simpl in *.
  4: { eapply tinv_file; [by eapply file_event_same|done]. }
  all: rewrite (delete_Permutation _ _ _ Et) in Ht; rewrite (insert_Permutation _ _ _ _ Et).
  - unfold enter in Ep. destruct (cmd =? POP_P2PMEM_REG); [injection Ep as <-; by apply (tinv_same k KIdle)|].
    by destruct (cmd =? POP_P2PMEM_UNREG).
  - destruct (reg_step k p _ Ht) as (x & k1 & E & Ht'); [by intros ->|]. rewrite E in Es. by injection Es as -> ->.
  - destruct (reg_step k p _ Ht) as (x & k1 & E & Ht'); [by intros ->|]. rewrite E in Es. by injection Es as -> ->.
Qed.

Lemma omap_idle {B : Type} (f : kpc -> option B) ts : f KIdle = None -> Forall (eq KIdle) ts -> omap f ts = [].
Proof. intros Hf. induction 1 as [|? ts <- _ IH]; [done|]. simpl. by rewrite Hf. Qed.

Lemma kinv_tinv k ts :
  kinv k -> Forall (eq KIdle) ts -> tinv k ts.
Proof.
  intros [Hnd Hdev Hsz Hpd Hnm Hlv Hn Hms Hmo Hfr] Hts. unfold tinv.
  split; [|eapply Forall_impl; [exact Hts|]; by intros ? <-]. rewrite !omap_idle by done. rewrite app_nil_r.
  constructor; try done.
  - by rewrite app_nil_r.
  - intros l Hl. destruct (Hdev l Hl) as [d Ed]. assert (listed k l d) as Hd by done.
    exists d. split; [done|]. split; [eauto|]. split; [by apply (Hsz l)|eauto].
  - intros n Hl Hp. destruct (Hmo n Hl Hp) as (l & d & [H1 H2] & En). eauto.
  - intros l1 l2 d1 d2 H1 H2 E1 E2 [E|E]; [by eapply Hpd|by eapply Hnm].
  - intros r. rewrite Hlv, elem_of_nil. split; [intros (l & d & [] & ->); eauto 10|].
    intros [(l & d & ? & ? & ->)|[]]. exists l, d. done.
  - constructor.
  - by intros l d _ _ ?%elem_of_nil.
  - by intros l ?%elem_of_nil.
Qed.

Lemma tinv_kinv k ts : tinv k ts -> Forall (eq KIdle) ts -> kinv k.
Proof.
  intros [Ho _] Hts. rewrite !omap_idle, app_nil_r in Ho by done.
  destruct Ho as [H1 H2 Hm H3 H4 H5 H6 H7 H8]. constructor; try done.
  - by rewrite app_nil_r in H1.
  - intros l (d & Ed & _)%H2. by exists d.
  - intros l d [(d' & Ed & _ & Es & _)%H2 Ed']. by simplify_eq.
  - intros l1 l2 d1 d2 [] [] E. eapply H3; eauto.
  - intros l1 l2 d1 d2 [] [] E. eapply H3; eauto.
  - intros r. rewrite H4, elem_of_nil. split; [|intros (l & d & [] & ->); eauto 10].
    intros [(l & d & ? & ? & ->)|[]]. exists l, d. done.
  - intros l d [(d' & Ed & En & _)%H2 Ed']. by simplify_eq.
  - intros l d [(d' & Ed & _ & _ & Em)%H2 Ed']. by simplify_eq.
  - intros n Hn Hp. destruct (Hm n Hn Hp) as (l & d & Hl & Ed & En). exists l, d. done.
Qed.

(** The PCI device that a process is about to put on the list. *)
Definition adding (p : kpc) : option pdev :=
  match p with RAdd _ _ pd _ _ _ | RLink _ _ pd _ _ _ => Some pd | _ => None end.

Lemma pc_ok_adding k p pd :
  pc_ok k p -> adding p = Some pd -> exists l d, named p = Some l /\ k_devs k !! l = Some d /\ d_pdev d = pd.
Proof.
  destruct p; try done; simpl; intros (d & Ed & [R _]) [= <-]; injection R as R _ _; eexists _, d; by split_and!.
Qed.

(** Two processes at [list_add_tail] hold the names of different devices. *)
Lemma tinv_adds k ts t1 t2 p1 p2 pd1 pd2 :
  tinv k ts -> t1 <> t2 -> ts !! t1 = Some p1 -> ts !! t2 = Some p2 ->
  adding p1 = Some pd1 -> adding p2 = Some pd2 -> pd1 <> pd2.
Proof.
  intros [Ho Hp] Hne E1 E2 A1 A2 <-. rewrite Forall_lookup in Hp.
  destruct (pc_ok_adding _ _ _ (Hp _ _ E1) A1) as (l1 & d1 & N1 & D1 & P1).
  destruct (pc_ok_adding _ _ _ (Hp _ _ E2) A2) as (l2 & d2 & N2 & D2 & P2).
  assert (delete t1 ts !! (if decide (t2 < t1)%nat then t2 else pred t2) = Some p2) as E2'.
  { case_decide; [by rewrite list_lookup_delete_lt by lia|]. rewrite list_lookup_delete_ge by lia.
    by replace (S (pred t2)) with t2 by lia. }
  rewrite (delete_Permutation _ _ _ E1), (delete_Permutation _ _ _ E2') in Ho. simpl in Ho.
  rewrite N1, N2 in Ho.
  assert (l1 = l2) as -> by (eapply (ow_pdev _ _ _ _ Ho); eauto; [set_solver..|]; left; congruence).
  pose proof (ow_nodup _ _ _ _ Ho) as Hnd. apply NoDup_app in Hnd as [Hnd _]. apply NoDup_app in Hnd as (_ & _ & Hnd).
  apply NoDup_cons in Hnd as [Hn _]. apply Hn. constructor.
Qed.

Lemma interleavings_tinv k ts es k' ts' :
  tinv k ts -> steps kmod_step (k, ts) es (k', ts') -> Forall (fun e => no_unreg e = true) es -> tinv k' ts'.
Proof.
  intros Ht Hst Hes. change (tinv (k', ts').1 (k', ts').2).
  remember (k, ts) as s eqn:Es. induction Hst as [s|s es s1 e s2 Hst IH Hs]; [by subst|].
  apply Forall_app in Hes as [Hes [He _]%Forall_cons]. eapply kmod_step_tinv; eauto.
Qed.

(** The process that a label is about. *)
Definition label_of (e : klabel) : option nat :=
  match e with KCall t _ _ | KRun t | KReturn t _ => Some t | KFile _ => None end.

(** The next step of a process returns, unless it is a race. *)
Lemma tinv_progress k ts t p :
  tinv k ts -> ts !! t = Some p -> p <> KIdle -> races ts (KRun t) = false ->
  exists e s2, label_of e = Some t /\ kmod_step (k, ts) e s2.
Proof.
  intros Ht Et Hp Hr. rewrite (delete_Permutation _ _ _ Et) in Ht.
  destruct (reg_step k p _ Ht Hp) as ([p'|r] & k2 & E & _).
  - exists (KRun t). eexists. split; [done|by eapply kmod_advance].
  - exists (KReturn t r). eexists. split; [done|by eapply kmod_return].
Qed.

(** C7: registrations that run at the same time, in any number and with any
    file operations in between, are safe up to the first race on the list, which
    the module has no lock against.  In every state they reach without one: the
    next step of every process returns, unless it reads the list or calls
    [list_add_tail] while another process is inside [list_add_tail]; no PCI device
    is on the list twice; the peer-to-peer memory in use is that of the devices on
    the list, of those that have their name and are about to be put on it, and the
    regions that a process has just allocated or is about to give back; two
    processes that are calling [list_add_tail] add different PCI devices, because
    [misc_register] refuses a name that is taken; and when no process is inside
    [pop_ioctl], the module's invariant holds again. *)
Theorem concurrent_registrations k ts es k' ts' :
  kinv k -> Forall (eq KIdle) ts ->
  steps kmod_step (k, ts) es (k', ts') -> Forall (fun e => no_unreg e = true) es ->
  (forall t p, ts' !! t = Some p -> p <> KIdle ->
     (touches_list p = true /\ exists t2 p2, t2 <> t /\ ts' !! t2 = Some p2 /\ inside p2 = true) \/
     exists e s2, label_of e = Some t /\ kmod_step (k', ts') e s2) /\
  (forall l1 l2 d1 d2, listed k' l1 d1 -> listed k' l2 d2 -> d_pdev d1 = d_pdev d2 -> l1 = l2) /\
  (forall r, p2p_live (k_env k') r <->
     (exists l d, l ∈ k_list k' ++ omap named ts' /\ k_devs k' !! l = Some d /\ r = region_of d) \/
     r ∈ omap held ts') /\
  (forall t1 t2 p1 p2 pd1 pd2, t1 <> t2 -> ts' !! t1 = Some p1 -> ts' !! t2 = Some p2 ->
     adding p1 = Some pd1 -> adding p2 = Some pd2 -> pd1 <> pd2) /\
  (Forall (eq KIdle) ts' -> kinv k').
Proof.
  intros Hk Hts Hst Hes.
  assert (tinv k' ts') as Ht by (eapply interleavings_tinv; [by apply kinv_tinv|done|done]).
  split_and!.
  - intros t p Et Hp. destruct (races ts' (KRun t)) eqn:Hr; [left|right; by eapply tinv_progress].
    simpl in Hr. rewrite Et in Hr. apply andb_true_iff in Hr as [Hl Hin]. split; [done|].
    apply existsb_exists in Hin as (p2 & Hp2%list_elem_of_In & Hi).
    apply list_elem_of_lookup in Hp2 as (i & Hi2). destruct (decide (i < t)%nat).
    + rewrite list_lookup_delete_lt in Hi2 by done. exists i, p2. split; [lia|done].
    + rewrite list_lookup_delete_ge in Hi2 by lia. exists (S i), p2. split; [lia|done].
  - intros l1 l2 d1 d2 [Hl1 Hd1] [Hl2 Hd2] E. eapply (ow_pdev _ _ _ _ (proj1 Ht)); eauto; apply elem_of_app; by left.
  - apply (ow_live _ _ _ _ (proj1 Ht)).
  - intros *. by apply (tinv_adds k').
  - by apply tinv_kinv.
Qed.
End register.

(** ** An unregistration next to another ioctl *)

Section unregister.
Context {P : Type} `{KapiOk P}.
Implicit Type k : kstate P.

(** Nobody else changes the list. *)
Lemma no_race t ts e :
  (forall t' p, t' <> t -> ts !! t' = Some p -> inside p = false) -> label_of e = Some t -> races ts e = false.
Proof.
  intros Ho. destruct e as [| t' | |]; try done. simpl. intros [= ->]. destruct (ts !! t) as [p|]; [|done].
  apply andb_false_iff. right. apply not_true_iff_false. intros (q & Hq%list_elem_of_In & Hi)%existsb_exists.
  apply list_elem_of_lookup in Hq as (i & Hq). destruct (decide (i < t)%nat).
  - rewrite list_lookup_delete_lt in Hq by done. rewrite (Ho i q) in Hi; [done|lia|done].
  - rewrite list_lookup_delete_ge in Hq by lia. rewrite (Ho (S i) q) in Hi; [done|lia|done].
Qed.

Lemma process_runs t n p k x k' ts :
  iter_nat ioctl_step n p k = Ret (x, k') -> ts !! t = Some p ->
  (forall t' q, t' <> t -> ts !! t' = Some q -> inside q = false) ->
  exists es, steps kmod_step (k, ts) es (k', <[t:=next_pc x]> ts).
Proof.
  revert p k ts. induction n as [|n IH]; intros p k ts E Et Ho.
  { injection E as <- <-. exists []. simpl. rewrite list_insert_id by done. constructor. }
  simpl in E. apply bind_Ret_inv in E as ([p1|r] & k1 & E1 & E).
  - destruct (IH p1 k1 (<[t:=p1]> ts) E) as (es & Hes).
    { apply list_lookup_insert_eq. by apply lookup_lt_Some in Et. }
    { intros t' q Hne. rewrite list_lookup_insert_ne by done. by apply Ho. }
    exists ([KRun t] ++ es). rewrite list_insert_insert_eq in Hes. refine (steps_app _ _ _ _ _ _ _ Hes).
    apply (steps_snoc _ _ [] (k, ts)); [constructor|].
    apply (kmod_advance k ts t p); [done|by apply (no_race t)|done].
  - injection E as <- <-. exists ([] ++ [KReturn t r]). apply (steps_snoc _ _ [] (k, ts)); [constructor|].
    by econstructor.
Qed.

(** Where a process is when it has found the device. *)
Definition found_pc (cmd data : Z) (reg : pop_p2pmem_reg) (pd : pdev) (l : loc) : kpc :=
  if cmd =? POP_P2PMEM_REG then RFound data reg pd l else UDereg l.

Lemma device_reaches cmd data k reg pd l d p0 p2 :
  kinv k -> listed k l d -> d_pdev d = pd -> enter cmd data = Some p0 ->
  (cmd = POP_P2PMEM_REG -> pci_has_p2pmem pd p2 = true) ->
  copy_from_user data (k_env k) = Some reg ->
  exists p1, reaches p0 k p1 k /\ inside p1 = false /\
  forall k1, k_list k1 = k_list k -> k_devs k1 = k_devs k ->
    pci_get_domain_bus_and_slot (domain reg) (u32 (bus reg)) (PCI_DEVFN (slot reg) (func reg)) (k_env k1) = (Some pd, p2) ->
    quiet (k_env k) p2 ->
    reaches p1 k1 (found_pc cmd data reg pd l) (with_env p2 k1).
Proof.
  intros Hk Hl Ed Ep Hh Ec. unfold enter in Ep. unfold found_pc.
  assert (forall k1, k_list k1 = k_list k -> k_devs k1 = k_devs k -> quiet (k_env k) p2 ->
    NoDup (k_list (with_env p2 k1)) /\ pop_find_dev pd (with_env p2 k1) = Ret (Some l, with_env p2 k1)) as Hf.
  { intros k1 El1 Ed1 Hq. split; [simpl; rewrite El1; apply Hk|].
    assert (forall l' d', listed (with_env p2 k1) l' d' <-> listed k l' d') as Hls.
    { intros l' d'. unfold listed. simpl. by rewrite El1, Ed1. }
    destruct (find_in_spec (k_list (with_env p2 k1)) pd (with_env p2 k1)) as (o & Ef & Ho).
    { simpl. rewrite El1, Ed1. apply Hk. }
    unfold pop_find_dev. rewrite bind_gets, Ef. destruct o as [l'|].
    - destruct Ho as (Hl' & d' & Hd' & E'). do 3 f_equal.
      eapply (ki_pdev _ Hk); [by apply Hls|done|congruence].
    - destruct (proj2 (Hls l d) Hl) as [Hl1 Hd1]. by destruct (Ho l d Hl1 Hd1). }
  destruct (cmd =? POP_P2PMEM_REG) eqn:Ecmd.
  - apply Z.eqb_eq in Ecmd. injection Ep as <-. exists (RGet data reg). split_and!.
    { eapply reaches_step; [|apply reaches_refl]. simpl. rewrite bind_gets. by rewrite Ec. }
    { done. }
    intros k1 El1 Ed1 Eg Hq. destruct (Hf k1 El1 Ed1 Hq) as [Hnd Hfd].
    eapply reaches_step; [simpl; unfold kcall, mbind, M_bind; rewrite Eg; reflexivity|].
    eapply reaches_step; [simpl; rewrite bind_gets; simpl; rewrite (Hh Ecmd); reflexivity|].
    by apply (find_reaches (RWalk data reg pd) (RFound data reg pd) (RPool data reg pd) pd _ (Some l)).
  - destruct (cmd =? POP_P2PMEM_UNREG); [|done]. injection Ep as <-. exists (UGet reg). split_and!.
    { eapply reaches_step; [|apply reaches_refl]. simpl. rewrite bind_gets. by rewrite Ec. }
    { done. }
    intros k1 El1 Ed1 Eg Hq. destruct (Hf k1 El1 Ed1 Hq) as [Hnd Hfd].
    eapply reaches_step; [simpl; unfold kcall, mbind, M_bind; rewrite Eg; reflexivity|].
    by apply (find_reaches (UWalk pd) UDereg (RPut pd (- k_ENODEV)) pd _ (Some l)).
Qed.

(** Of two processes, the other one. *)
Lemma other_outside p q t :
  inside p = false -> inside q = false ->
  forall t' r, t' <> t -> [p; q] !! t' = Some r -> inside r = false.
Proof. intros Hp Hq [|[|t']] r _; simpl; intros [= <-]; done. Qed.

Lemma found_outside cmd data reg pd l : inside (found_pc cmd data reg pd l) = false.
Proof. unfold found_pc. by destruct (_ =? _). Qed.

(** C14: an unregistration next to another ioctl for the same device is not
    safe.  Whenever the device is on the list, a process that unregisters it can
    return with success while another one, which registers or unregisters it, has
    found the structure but not used it yet; the next access of that process is
    to freed memory. *)
Theorem unreg_race_dangles cmd data k reg pd p1 p2 l d q :
  kinv k -> listed k l d -> d_pdev d = pd -> enter cmd data = Some q ->
  copy_from_user data (k_env k) = Some reg ->
  pci_get_domain_bus_and_slot (domain reg) (u32 (bus reg)) (PCI_DEVFN (slot reg) (func reg)) (k_env k) = (Some pd, p1) ->
  pci_get_domain_bus_and_slot (domain reg) (u32 (bus reg)) (PCI_DEVFN (slot reg) (func reg)) p1 = (Some pd, p2) ->
  (cmd = POP_P2PMEM_REG -> pci_has_p2pmem pd p2 = true) ->
  exists es, let k' := unregistered l d (with_env p2 k) in
    steps kmod_step (k, [KIdle; KIdle])
      ([KCall 0 POP_P2PMEM_UNREG data; KCall 1 cmd data] ++ es) (k', [KIdle; found_pc cmd data reg pd l]) /\
    runs (UDereg l) (with_env p2 k) 0 k' /\
    ioctl_step (found_pc cmd data reg pd l) k' = Fault DanglingPtr.
Proof.
  intros Hk Hl Ed Eq Ec Eg1 Eg2 Hh.
  assert (quiet (k_env k) p1) as Hq1 by (pose proof (quiet_get (domain reg) (u32 (bus reg)) (PCI_DEVFN (slot reg) (func reg)) (k_env k)) as Hq; by rewrite Eg1 in Hq).
  assert (quiet (k_env k) p2) as Hq2.
  { pose proof (quiet_get (domain reg) (u32 (bus reg)) (PCI_DEVFN (slot reg) (func reg)) p1) as [Q1 Q2]. rewrite Eg2 in Q1, Q2.
    destruct Hq1 as [Q3 Q4]. split; intros ?; simpl in *; [by rewrite Q1|by rewrite Q2]. }
  destruct (device_reaches POP_P2PMEM_UNREG data k reg pd l d (UStart data) p1) as (q0 & [n0 R0] & I0 & H1); [done..|].
  destruct (device_reaches cmd data k reg pd l d q p2) as (q1 & [n1 R1] & I1 & H2); [done..|].
  assert (inside q = false) as Iq by (revert Eq; unfold enter; repeat destruct (_ =? _); by intros [= <-]).
  destruct (H1 k) as [n2 R2]; [done..|]. destruct (H2 (with_env p1 k)) as [n3 R3]; [done..|].
  destruct (unregister_runs l d (with_env p2 k)) as [n4 R4]; [apply Hl|apply Hl|].
  destruct (process_runs 0 _ _ _ _ _ [UStart data; q] R0 eq_refl (other_outside (UStart data) q _ ltac:(done) ltac:(done || apply found_outside))) as (e0 & S0).
  destruct (process_runs 1 _ _ _ _ _ [q0; q] R1 eq_refl (other_outside q0 q _ ltac:(done) ltac:(done || apply found_outside))) as (e1 & S1).
  destruct (process_runs 0 _ _ _ _ _ [q0; q1] R2 eq_refl (other_outside q0 q1 _ ltac:(done) ltac:(done || apply found_outside))) as (e2 & S2).
  destruct (process_runs 1 _ _ _ _ _ [UDereg l; q1] R3 eq_refl (other_outside (UDereg l) q1 _ ltac:(done) ltac:(done || apply found_outside))) as (e3 & S3).
  destruct (process_runs 0 _ _ _ _ _ [UDereg l; found_pc cmd data reg pd l] R4 eq_refl (other_outside (UDereg l) (found_pc cmd data reg pd l) _ ltac:(done) ltac:(done || apply found_outside))) as (e4 & S4).
  exists (e0 ++ e1 ++ e2 ++ e3 ++ e4). split_and!.
  - refine (steps_app _ _ _ _ _ _ _ (steps_app _ _ _ _ _ _ S0 (steps_app _ _ _ _ _ _ S1
      (steps_app _ _ _ _ _ _ S2 (steps_app _ _ _ _ _ _ S3 S4))))).
    apply (steps_snoc _ _ [KCall 0 POP_P2PMEM_UNREG data] (k, [UStart data; KIdle]));
      [|by apply (kmod_call k [UStart data; KIdle] 1 cmd data q)].
    apply (steps_snoc _ _ [] (k, [KIdle; KIdle]));
      [constructor|by apply (kmod_call k [KIdle; KIdle] 0 POP_P2PMEM_UNREG data (UStart data))].
  - by exists n4.
  - unfold found_pc. destruct (cmd =? _); simpl; unfold load_dev, gets, mbind, M_bind; simpl; by rewrite lookup_delete_eq.
Qed.
End unregister.

(** ** Witnesses *)

Lemma ioctl_steps_sequential_witness :
  exists r k', pop_ioctl POP_P2PMEM_REG 64 kernel0 = Ret (r, k') /\ runs (RStart 64) kernel0 r k'.
Proof.
  destruct (ioctl_steps_sequential POP_P2PMEM_REG 64 kernel0 (RStart 64) kinv_kernel0 eq_refl) as (r & k' & E & Hr & _).
  by exists r, k'.
Defined.

(** A run given by its labels. *)
Definition kmod_exec {P : Type} `{Kapi P} (e : klabel) (s : kstate P * list kpc) : option (kstate P * list kpc) :=
  let '(k, ts) := s in
  match e with
  | KCall t cmd data =>
      match ts !! t, enter cmd data with Some KIdle, Some p => Some (k, <[t:=p]> ts) | _, _ => None end
  | KRun t =>
      p ← ts !! t;
      if races ts e then None
      else match ioctl_step p k with Ret (inl p', k') => Some (k', <[t:=p']> ts) | _ => None end
  | KReturn t r =>
      p ← ts !! t;
      match ioctl_step p k with Ret (inr r', k') => if r' =? r then Some (k', <[t:=KIdle]> ts) else None | _ => None end
  | KFile ev =>
      if file_event ev && negb (races ts e)
      then match run_event ev k with Ret (_, k') => Some (k', ts) | _ => None end else None
  end.

Definition kmod_run {P : Type} `{Kapi P} (es : list klabel) (s : kstate P * list kpc) : option (kstate P * list kpc) :=
  foldl (fun o e => o ≫= kmod_exec e) (Some s) es.

Lemma kmod_exec_step {P : Type} `{Kapi P} e (s s' : kstate P * list kpc) : kmod_exec e s = Some s' -> kmod_step s e s'.
Proof.
  destruct s as [k ts]. destruct e as [t cmd data|t|t r|e]; simpl.
  - destruct (ts !! t) as [[]|] eqn:Et; try done. destruct (enter cmd data) eqn:Ep; [|done].
    intros [= <-]. by apply kmod_call.
  - destruct (ts !! t) as [p|] eqn:Et; [|done]. simpl. destruct (_ && _) eqn:Er; [done|].
    destruct (ioctl_step p k) as [[[p'|r] k']| |] eqn:E; try done.
    intros [= <-]. apply (kmod_advance k ts t p); [done| |done]. simpl. by rewrite Et.
  - destruct (ts !! t) as [p|] eqn:Et; [|done]. simpl. destruct (ioctl_step p k) as [[[p'|r'] k']| |] eqn:E; try done.
    destruct (Z.eqb_spec r' r) as [->|]; [|done]. intros [= <-]. by apply (kmod_return k ts t p).
  - destruct (file_event e) eqn:Ef; [|done]. simpl. destruct (negb _) eqn:Er; [|done].
    apply negb_true_iff in Er. destruct (run_event e k) as [[[] k']| |] eqn:E; try done.
    intros [= <-]. by apply kmod_file.
Qed.

Lemma kmod_run_steps {P : Type} `{Kapi P} es (s s' : kstate P * list kpc) : kmod_run es s = Some s' -> steps kmod_step s es s'.
Proof.
  revert s'. induction es as [|e es IH] using rev_ind; intros s'; unfold kmod_run.
  - intros [= <-]. constructor.
  - rewrite foldl_app. simpl. destruct (foldl _ (Some s) es) as [s1|] eqn:E; [|done]. simpl.
    intros Hs%kmod_exec_step. apply (steps_snoc _ _ _ s1); auto.
Qed.

(** Two processes register the device at once: both find that it is not on the
    list, both allocate, and one gets the name. *)
Definition race : list klabel :=
  [KCall 0 POP_P2PMEM_REG 64; KCall 1 POP_P2PMEM_REG 64; KRun 0; KRun 1; KRun 0; KRun 1; KRun 0; KRun 1; KRun 0; KRun 1;
   KRun 0; KRun 0; KRun 0; KRun 1; KRun 1; KRun 1; KRun 1; KRun 0; KRun 0; KReturn 0 0; KRun 1; KRun 1; KReturn 1 0].

Definition raced : kstate linux * list kpc := default (kernel0, []) (kmod_run race (kernel0, [KIdle; KIdle])).

Lemma concurrent_registrations_witness : kinv raced.1 /\ length (k_list raced.1) = 1%nat.
Proof.
  assert (kmod_run race (kernel0, [KIdle; KIdle]) = Some raced) as E by (vm_compute; reflexivity).
  split; [|vm_compute; reflexivity]. apply kmod_run_steps in E.
  rewrite (surjective_pairing raced) in E.
  apply (concurrent_registrations kernel0 [KIdle; KIdle] race raced.1 raced.2 kinv_kernel0); [by repeat constructor|done|..].
  - by repeat constructor.
  - vm_compute. by repeat constructor.
Defined.

Lemma unreg_race_dangles_witness :
  exists es k p, steps kmod_step (kernel1, [KIdle; KIdle])
    ([KCall 0 POP_P2PMEM_UNREG 64; KCall 1 POP_P2PMEM_REG 64] ++ es) (k, [KIdle; p]) /\
    ioctl_step p k = Fault DanglingPtr.
Proof.
  destruct (unreg_race_dangles POP_P2PMEM_REG 64 kernel1 (Reg 0 0x17 0 0 65536) 1
    (pci_get_domain_bus_and_slot 0 0x17 0 (k_env kernel1)).2
    (pci_get_domain_bus_and_slot 0 0x17 0 (pci_get_domain_bus_and_slot 0 0x17 0 (k_env kernel1)).2).2
    1%positive dev1 (RStart 64) kinv_kernel1 listed_kernel1) as (es & Hs & _ & Hf);
    [done..|by vm_compute|by vm_compute|by vm_compute|done|].
  eexists _, _, _. split; [exact Hs|exact Hf].
Defined.

(** A kernel with the two devices in 0000:17:00.0 and 0000:18:00.0, and two
    processes with a structure for each. *)
Definition two_slots : kstate linux :=
  K ∅ [] ∅ 1%positive
    (Linux ∅ [] [lit "boogiepop"] {[64 := Reg 0 0x17 0 0 0; 128 := Reg 0 0x18 0 0 0]} 65536 0xffff888000100000 ∅).

Definition both_add : list klabel :=
  KCall 0 POP_P2PMEM_REG 64 :: KCall 1 POP_P2PMEM_REG 128 :: replicate 8 (KRun 1) ++ replicate 9 (KRun 0).

