(* ===== verification/PopMemProps.v ===== *)
(** * Properties of pop memories

    The theorems on [pop_mem_init], [pop_mem_exit], [virt_to_phys] and
    [get_nr_hugepages] of lib/libpop.c, and the agreement of the device path
    that libpop opens with the name that the kernel module registers.  The
    witnesses run on a small operating system whose files have fixed contents. *)

From S2P Require Import Prelude CStr LibpopH PopBuf PopMem Boogiepop LinuxExample.

(** ** A small operating system *)

Record exos : Type := ExOs {
  ex_nr_hugepages : cstr;      (* contents of the sysfs file *)
  ex_pagemap : list Z;         (* the eight bytes of every pagemap entry *)
  ex_size : Z;                 (* bytes of peer-to-peer memory *)
  ex_addr : Z                  (* where mmap maps *)
}.

#[export] Instance exos_posix : Posix exos := {
  sys_open path w :=
    (if bool_decide (path = NR_HUGEPAGES) then 3 else if bool_decide (path = DEVPOP) then 4
     else if bool_decide (path = PAGEMAP) then 5
     else if bool_decide (take 9 path = lit "/dev/pop/") then 6 else -2, w);
  sys_close _ w := (0, w);
  sys_read fd n w :=
    let data := if fd =? 3 then ex_nr_hugepages w else if fd =? 5 then chr <$> ex_pagemap w else [] in
    ((Z.of_nat (length (take n data)), take n data), w);
  sys_lseek _ off w := (off, w);
  sys_ioctl _ _ r w := ((0, Reg (domain r) (bus r) (slot r) (func r) (ex_size w)), w);
  sys_mmap _ _ _ _ w := (ex_addr w, w);
  sys_pagesize := 4096
}.

Definition exos0 : exos := ExOs (lit "2048" ++ [chr 10]) [0x34; 0x12; 0; 0; 0; 0; 0; 0x80] 65536 0x7f0000001000.
Definition proc0 (w : exos) : proc exos := Proc ∅ ∅ ∅ ∅ 1%positive [] 0 0 w.

Section props.
Context {W : Type} `{Posix W}.
Implicit Type s : proc W.

(** ** What [pop_mem_init] asks of the operating system *)

Variant attempt : Type :=
  | Failed (errno : option Z)                          (* what errno says, where it is known *)
  | Mapped (reg : pop_p2pmem_reg) (mfd addr : Z).

(** The system calls for the structure [r0], up to the first that fails; the
    descriptors opened so far are closed, except that of the pop device on the
    way to success. *)
Inductive attaches (r0 : pop_p2pmem_reg) (w : W) : attempt -> W -> Prop :=
  | NoModule fd w1 :
      sys_open DEVPOP w = (fd, w1) -> fd < 0 -> attaches r0 w (Failed (Some (- fd))) w1
  | Refused fd w1 ret reg w2 :
      sys_open DEVPOP w = (fd, w1) -> 0 <= fd ->
      sys_ioctl fd POP_P2PMEM_REG r0 w1 = ((ret, reg), w2) -> ret <> 0 ->
      attaches r0 w (Failed None) (sys_close fd w2).2
  | NoDevice fd w1 reg w2 mfd w4 :
      sys_open DEVPOP w = (fd, w1) -> 0 <= fd ->
      sys_ioctl fd POP_P2PMEM_REG r0 w1 = ((0, reg), w2) ->
      sys_open (popdev_path reg) (sys_close fd w2).2 = (mfd, w4) -> mfd < 0 ->
      attaches r0 w (Failed (Some (- mfd))) w4
  | NoMapping fd w1 reg w2 mfd w4 addr w5 :
      sys_open DEVPOP w = (fd, w1) -> 0 <= fd ->
      sys_ioctl fd POP_P2PMEM_REG r0 w1 = ((0, reg), w2) ->
      sys_open (popdev_path reg) (sys_close fd w2).2 = (mfd, w4) -> 0 <= mfd ->
      sys_mmap (reg_size reg) MAP_device mfd 0 w4 = (addr, w5) -> addr < 0 ->
      attaches r0 w (Failed None) (sys_close mfd w5).2
  | Attached fd w1 reg w2 mfd w4 addr w5 :
      sys_open DEVPOP w = (fd, w1) -> 0 <= fd ->
      sys_ioctl fd POP_P2PMEM_REG r0 w1 = ((0, reg), w2) ->
      sys_open (popdev_path reg) (sys_close fd w2).2 = (mfd, w4) -> 0 <= mfd ->
      sys_mmap (reg_size reg) MAP_device mfd 0 w4 = (addr, w5) -> 0 <= addr ->
      attaches r0 w (Mapped reg mfd addr) w5.

(** The structure stays allocated although the caller does not get it. *)
Definition left_behind (l : loc) s s' : Prop := exists m, p_mems s' = <[l:=m]> (p_mems s).

(** What the caller sees of an attempt: [NULL], or the new pop memory over the
    mapping, unlocked, with no page handed out, the whole pages of the size the
    kernel reported, and the physical address that [virt_to_phys] finds. *)
Definition init_result (l : loc) s (o : attempt) (w : W) (r : option loc) s' : Prop :=
  match o with
  | Failed e => r = None /\ p_os s' = w /\ left_behind l s s' /\ (forall n, e = Some n -> p_errno s' = n)
  | Mapped reg mfd addr =>
      r = Some l /\ exists m s1 s2, p_mems s' = <[l:=m]> (p_mems s) /\
        m_reg m = reg /\ m_fd m = mfd /\ m_mem m = addr /\ m_size m = reg_size reg /\
        m_num_pages m = m_size m / 4096 /\ m_alloced_pages m = 0 /\ m_mutex m = false /\
        p_os s1 = w /\ virt_to_phys addr s1 = Ret (m_paddr m, s2) /\ p_os s' = p_os s2
  end.

Lemma libc_open_eq path s fd w :
  sys_open path (p_os s) = (fd, w) ->
  libc_open path s = if fd <? 0 then Ret (-1, with_errno (- fd) (with_os w s)) else Ret (fd, with_os w s).
Proof. intros E. unfold libc_open, libc_ret, plain, mbind, M_bind. rewrite E. by destruct (fd <? 0). Qed.

Lemma libc_mmap_eq len flags fd off s a w :
  sys_mmap len flags fd off (p_os s) = (a, w) ->
  libc_mmap len flags fd off s
  = if a <? 0 then Ret (-1, with_errno (- a) (with_os w s)) else Ret (a, with_os w s).
Proof. intros E. unfold libc_mmap, libc_ret, plain, mbind, M_bind. rewrite E. by destruct (a <? 0). Qed.

Lemma libc_close_eq fd s :
  exists r s', libc_close fd s = Ret (r, s') /\ os_only s s' /\ p_os s' = (sys_close fd (p_os s)).2.
Proof.
  unfold libc_close, libc_ret, plain, mbind, M_bind. destruct (sys_close fd (p_os s)) as [r w]. simpl.
  destruct (r <? 0); eexists _, _; (split; [done|]); (split; [|done]); [by exists (- r), w|].
  exists (p_errno s), w. by destruct s.
Qed.

(** The end of the function: the mapping. *)
Lemma pop_mem_map_attaches l m s0 s fd w1 w2 w4 r0 :
  sys_pagesize <> 0 -> os_only s0 s -> p_os s = w4 -> 0 <= m_fd m ->
  m_size m = reg_size (m_reg m) -> m_num_pages m = m_size m / 4096 ->
  m_alloced_pages m = 0 -> m_mutex m = false ->
  sys_open DEVPOP (p_os s0) = (fd, w1) -> 0 <= fd ->
  sys_ioctl fd POP_P2PMEM_REG r0 w1 = ((0, m_reg m), w2) ->
  sys_open (popdev_path (m_reg m)) (sys_close fd w2).2 = (m_fd m, w4) ->
  exists r s' o w', pop_mem_map l m MAP_device s = Ret (r, s') /\ p_bufs s' = p_bufs s0 /\
    attaches r0 (p_os s0) o w' /\ init_result l s0 o w' r s'.
Proof.
  intros Hp O Ew Hfd Hsz Hn Ha Hm E1 H1 E2 E4. unfold pop_mem_map.
  destruct (sys_mmap (m_size m) MAP_device (m_fd m) 0 (p_os s)) as [a w5] eqn:E5.
  rewrite Ew, Hsz in E5.
  pose proof (libc_mmap_eq (m_size m) MAP_device (m_fd m) 0 s a w5) as E5'. rewrite Ew, Hsz in E5'.
  specialize (E5' E5). rewrite Hsz. destruct (Z.ltb_spec a 0) as [Hneg|Hpos];
    rewrite (bind_ret _ _ _ _ _ E5'); [change (-1 =? -1) with true|replace (a =? -1) with false by lia]; cbv iota.
  - replace (negb (m_fd m =? -1)) with true by lia.
    set (s5 := with_errno (- a) (with_os w5 s)).
    destruct (libc_close_eq (m_fd m) s5) as (c & s6 & E6 & O6 & W6). rewrite (bind_ret _ _ _ _ _ E6).
    assert (os_only s s5) as O5 by (by exists (- a), w5).
    assert (os_only s0 s6) as O06 by (by transitivity s; [|transitivity s5]).
    apply os_only_fields in O06 as (F1 & F2 & _).
    eexists None, _, (Failed None), _. split; [done|]. split; [done|]. split; [by eapply NoMapping|]. split_and!; [done..| |done].
    exists (set_addrs m (-1) (m_paddr m)). simpl. by rewrite F1.
  - set (s5 := with_os w5 s). destruct (quiet_virt_to_phys a Hp s5) as (pa & s6 & E6 & O6).
    rewrite (bind_ret _ _ _ _ _ E6).
    assert (os_only s s5) as O5 by (exists (p_errno s), w5; by destruct s).
    assert (os_only s0 s6) as O06 by (by transitivity s; [|transitivity s5]).
    apply os_only_fields in O06 as (F1 & F2 & _).
    eexists (Some l), _, (Mapped (m_reg m) (m_fd m) a), w5. split; [done|].
    split; [done|]. split; [by eapply Attached|]. split; [done|]. exists (set_addrs m a pa), s5, s6. simpl. by rewrite F1.
Qed.

(** All system calls of the device branch. *)
Lemma init_device_attaches l dev size s d b sl f :
  sys_pagesize <> 0 -> parse_slot dev = Some (d, b, sl, f) ->
  exists r s' o w', pop_mem_init_device l dev size s = Ret (r, s') /\ p_bufs s' = p_bufs s /\
    attaches (Reg d b sl f size) (p_os s) o w' /\ init_result l s o w' r s'.
Proof.
  intros Hp Ep. unfold pop_mem_init_device. rewrite Ep.
  destruct (sys_open DEVPOP (p_os s)) as [fd w1] eqn:E1. pose proof (libc_open_eq _ _ _ _ E1) as E1'.
  destruct (Z.ltb_spec fd 0) as [Hneg|Hpos]; rewrite (bind_ret _ _ _ _ _ E1').
  { eexists None, _, (Failed (Some (- fd))), w1. split; [done|]. split; [done|]. split; [by eapply NoModule|]. split_and!; [done..| |].
    - by eexists.
    - by intros n [= <-]. }
  replace (fd <? 0) with false by lia.
  destruct (sys_ioctl fd POP_P2PMEM_REG (Reg d b sl f size) w1) as [[ret reg] w2] eqn:E2.
  assert (exists r' s2, libc_ioctl fd POP_P2PMEM_REG (Reg d b sl f size) (with_os w1 s) = Ret ((r', reg), s2) /\
    os_only s s2 /\ p_os s2 = w2 /\ (r' = 0 <-> ret = 0)) as (r' & s2 & E2' & O2 & W2 & Hr).
  { unfold libc_ioctl, libc_ret. simpl. rewrite E2.
    destruct (Z.ltb_spec ret 0); eexists _, _; (split; [done|]); (split_and!; [|done|lia]);
      [by exists (- ret), w2|exists (p_errno s), w2; by destruct s]. }
  rewrite (bind_ret _ _ _ _ _ E2'). cbv beta iota.
  destruct (libc_close_eq fd s2) as (c & s3 & E3 & O3 & W3). rewrite W2 in W3.
  assert (os_only s s3) as O13 by (by transitivity s2).
  destruct (Z.eqb_spec r' 0) as [Hr0|Hr0]; cbn [negb]; rewrite (bind_ret _ _ _ _ _ E3).
  2: { pose proof O13 as (F1 & F2 & _)%os_only_fields.
       eexists None, _, (Failed None), _. split; [done|]. split; [done|]. split; [eapply Refused; [done..|]; tauto|].
       split_and!; [done|exact W3| |done]. eexists. simpl. by rewrite F1. }
  assert (ret = 0) as -> by tauto.
  destruct (sys_open (popdev_path reg) (p_os s3)) as [mfd w4] eqn:E4.
  pose proof (libc_open_eq _ _ _ _ E4) as E4'. rewrite W3 in E4.
  destruct (Z.ltb_spec mfd 0) as [Hneg|Hpos2]; rewrite (bind_ret _ _ _ _ _ E4'); cbv zeta.
  { pose proof O13 as (F1 & F2 & _)%os_only_fields. change (-1 <? 0) with true. cbv iota.
    eexists None, _, (Failed (Some (- mfd))), w4. split; [done|]. split; [done|]. split; [by eapply NoDevice|]. split_and!; [done..| |].
    - eexists. simpl. by rewrite F1.
    - by intros n [= <-]. }
  replace (mfd <? 0) with false by lia.
  assert (os_only s3 (with_os w4 s3)) by (exists (p_errno s3), w4; by destruct s3).
  eapply pop_mem_map_attaches; simpl; try done; [by transitivity s3|apply shiftr_12].
Qed.

(** C10: [pop_mem_init] with a device always returns, whatever the operating
    system answers, and it returns a pop memory exactly when nothing fails.  If
    [malloc] fails, the result is [NULL] with [errno] [ENOMEM]; for a string that
    is no PCI slot it is [NULL] with [EINVAL]; in both cases no system call is
    made.  Otherwise the calls are those of [attaches]: open of /dev/boogiepop,
    the registration with the slot's fields and the size, close, open of the
    device's path, mmap of the size that the kernel reported.  At the first one
    that fails the result is [NULL], what is open is closed, and the structure is
    left behind; if all succeed, the result is a new pop memory over that mapping,
    unlocked, with no page handed out, with the whole pages of the reported size
    and the physical address that [virt_to_phys] finds.  Buffers are not
    touched. *)
Theorem pop_mem_init_device_returns dev size s :
  sys_pagesize <> 0 ->
  exists r s', pop_mem_init (Some dev) size s = Ret (r, s') /\ p_bufs s' = p_bufs s /\
  match p_oom s, parse_slot dev with
  | true :: _, _ => r = None /\ p_os s' = p_os s /\ p_errno s' = ENOMEM /\ p_mems s' = p_mems s
  | _, None => r = None /\ p_os s' = p_os s /\ p_errno s' = EINVAL /\ left_behind (p_next s) s s'
  | _, Some (d, b, sl, f) =>
      exists o w, attaches (Reg d b sl f size) (p_os s) o w /\ init_result (p_next s) s o w r s'
  end.
Proof.
  intros Hp. unfold pop_mem_init, malloc. unfold mbind at 1, M_bind at 1.
  assert (forall s1, p_mems s1 = p_mems s -> p_bufs s1 = p_bufs s -> p_os s1 = p_os s ->
    exists r s', (_ ← store_mem (p_next s) mem0; pop_mem_init_device (p_next s) dev size) s1 = Ret (r, s') /\
    p_bufs s' = p_bufs s /\
    match parse_slot dev with
    | None => r = None /\ p_os s' = p_os s /\ p_errno s' = EINVAL /\ left_behind (p_next s) s s'
    | Some (d, b, sl, f) =>
        exists o w, attaches (Reg d b sl f size) (p_os s) o w /\ init_result (p_next s) s o w r s'
    end) as Hcont.
  { intros s1 Em Eb Eo. set (s2 := with_mems (<[p_next s:=mem0]> (p_mems s1)) s1).
    change ((_ ← store_mem (p_next s) mem0; pop_mem_init_device (p_next s) dev size) s1)
      with (pop_mem_init_device (p_next s) dev size s2).
    assert (forall m, <[p_next s:=m]> (p_mems s2) = <[p_next s:=m]> (p_mems s)) as Hins
      by (intros m; simpl; by rewrite insert_insert_eq, Em).
    destruct (parse_slot dev) as [[[[d b] sl] f]|] eqn:Ep.
    - destruct (init_device_attaches (p_next s) dev size s2 d b sl f Hp Ep) as (r & s' & o & w & E & Hb & Ha & Hr).
      exists r, s'. split; [done|]. split; [by rewrite Hb|]. exists o, w. simpl in Ha. rewrite Eo in Ha. split; [done|].
      unfold init_result, left_behind in *. destruct o; setoid_rewrite Hins in Hr; exact Hr.
    - unfold pop_mem_init_device. rewrite Ep. eexists None, _. split; [done|]. split_and!; [done..|].
      eexists. apply Hins. }
  destruct (p_oom s) as [|[] o] eqn:Eo.
  - apply Hcont; done.
  - eexists None, _. split; [done|]. by split_and!.
  - apply Hcont; done.
Qed.

(** [virt_to_phys] reads the eight bytes of the pagemap entry of the
    page at [8 * (addr / pagesize)] and returns the physical address its low 55
    bits say, with the offset in the page kept; when the file cannot be opened,
    sought or read, or the entry is 0, it returns 0.  The file is closed on
    every path on which it was opened. *)
Theorem virt_to_phys_pagemap addr s fd w1 w2 w3 off bytes :
  sys_pagesize = 4096 -> 0 <= addr < 2 ^ 64 ->
  sys_open PAGEMAP (p_os s) = (fd, w1) -> 0 <= fd ->
  sys_lseek fd (addr / 4096 * 8) w1 = (off, w2) ->
  sys_read fd 8 w2 = ((8, bytes), w3) -> length bytes = 8%nat ->
  let closed w := (sys_close fd w).2 in
  let entry := entry_val (Some <$> bytes) in
  (off < 0 -> exists s', virt_to_phys addr s = Ret (0, s') /\ p_os s' = closed w2) /\
  (0 <= off -> entry = 0 -> exists s', virt_to_phys addr s = Ret (0, s') /\ p_os s' = closed w3) /\
  (0 <= off -> entry <> 0 -> exists s', p_os s' = closed w3 /\
     virt_to_phys addr s = Ret (u64 (entry `mod` 2 ^ 55 * 4096 + addr `mod` 4096), s')).
Proof.
  intros Hpg Ha Eo Hfd El Er Hlen closed entry.
  assert (libc_open PAGEMAP s = Ret (fd, with_os w1 s)) as E1.
  { unfold libc_open, libc_ret, plain, mbind, M_bind. rewrite Eo. by replace (fd <? 0) with false by lia. }
  assert (forall s', exists r e, libc_close fd s' = Ret (r, with_errno e (with_os (closed (p_os s')) s'))) as Ec.
  { intros s'. unfold libc_close, libc_ret, plain, closed, mbind, M_bind.
    destruct (sys_close fd (p_os s')) as [r w]. simpl. destruct (r <? 0).
    - by eexists _, (- r).
    - eexists _, (p_errno s'). by destruct s'. }
  unfold virt_to_phys. rewrite (bind_ret _ _ _ _ _ E1). replace (fd <? 0) with false by lia.
  rewrite Hpg. change (4096 =? 0) with false. cbv iota.
  replace (i64 (addr / 4096 *64 8)) with (addr / 4096 * 8) by wrap_lia.
  assert (forall A (k : Z -> M (proc W) A), (libc_lseek fd (addr / 4096 * 8) ≫= k) (with_os w1 s)
    = if off <? 0 then k (-1) (with_errno (- off) (with_os w2 s)) else k off (with_os w2 s)) as E2.
  { intros A k. unfold libc_lseek, libc_ret, plain, mbind, M_bind. simpl. rewrite El.
    by destruct (off <? 0). }
  rewrite E2.
  assert (libc_read fd (replicate 8 (Some (chr 0))) (with_os w2 s)
    = Ret ((8, Some <$> bytes), with_os w3 s)) as E3.
  { unfold libc_read, libc_ret, mbind, M_bind. rewrite length_replicate. simpl. rewrite Er. simpl.
    rewrite take_ge by lia. rewrite drop_ge by (rewrite Hlen; simpl; lia). by rewrite app_nil_r. }
  split_and!.
  - intros Hoff. replace (off <? 0) with true by lia. simpl.
    destruct (Ec (with_errno (- off) (with_os w2 s))) as (r & e & Ec').
    rewrite (bind_ret _ _ _ _ _ Ec'). eexists. by split.
  - intros Hoff He. replace (off <? 0) with false by lia. rewrite (bind_ret _ _ _ _ _ E3).
    fold entry. rewrite He. simpl. destruct (Ec (with_os w3 s)) as (r & e & Ec').
    rewrite (bind_ret _ _ _ _ _ Ec'). eexists. by split.
  - intros Hoff He. replace (off <? 0) with false by lia. rewrite (bind_ret _ _ _ _ _ E3).
    fold entry. replace (entry =? 0) with false by lia. simpl.
    destruct (Ec (with_os w3 s)) as (r & e & Ec'). rewrite (bind_ret _ _ _ _ _ Ec').
    eexists. split; [|unfold mret, M_ret; f_equal; f_equal]; [done|].
    change 0x7fffffffffffff with (2 ^ 55 - 1). rewrite land_ones_mod by lia.
    unfold u64. by rewrite Zplus_mod_idemp_l.
Qed.
End props.

(** ** Hugepages *)

(** The number that a list of decimal digits stands for. *)
Definition dec_val (ds : list Z) : Z := foldl (fun v d => v * 10 + d) 0 ds.
Definition dec_text (ds : list Z) : cstr := (fun d => chr (48 + d)) <$> ds.

Lemma code_chr z : 0 <= z < 256 -> code (chr z) = z.
Proof.
  intros Hz. unfold code, chr. rewrite N_ascii_embedding; [lia|]. lia.
Qed.

Lemma atoi_digits_dec ds rest acc :
  Forall (fun d => 0 <= d < 10) ds ->
  atoi_digits ((Some <$> dec_text ds) ++ rest) acc
  = atoi_digits rest (foldl (fun v d => v * 10 + d) acc ds).
Proof.
  intros Hds. revert acc. induction Hds as [|d ds Hd _ IH]; intros acc; [done|].
  simpl. unfold isdigit. rewrite code_chr by lia.
  replace (_ && _) with true by lia. rewrite IH. f_equal. f_equal. lia.
Qed.

Lemma dec_fold_nonneg ds acc :
  0 <= acc -> Forall (fun d => 0 <= d < 10) ds -> 0 <= foldl (fun v d => v * 10 + d) acc ds.
Proof.
  intros Hacc Hds. revert acc Hacc. induction Hds as [|d ds Hd _ IH]; intros acc Hacc; [done|].
  simpl. apply IH. lia.
Qed.

Lemma dec_val_nonneg ds : Forall (fun d => 0 <= d < 10) ds -> 0 <= dec_val ds.
Proof. by apply dec_fold_nonneg. Qed.

(** The digits of a number, then the newline sysfs ends the file with. *)
Lemma atoi_buf_dec d ds junk :
  Forall (fun d => 0 <= d < 10) (d :: ds) -> dec_val (d :: ds) < 2 ^ 31 ->
  atoi_buf ((Some <$> dec_text (d :: ds)) ++ Some (chr 10) :: junk) = Ret (dec_val (d :: ds)).
Proof.
  intros Hds Hlt. pose proof (dec_val_nonneg _ Hds) as Hnn.
  pose proof (atoi_digits_dec (d :: ds) (Some (chr 10) :: junk) 0 Hds) as E.
  fold (dec_val (d :: ds)) in E. change (atoi_digits (Some (chr 10) :: junk) (dec_val (d :: ds)))
    with (Ret (dec_val (d :: ds))) in E.
  inversion_clear Hds as [|? ? Hd _].
  change ((Some <$> dec_text (d :: ds)) ++ Some (chr 10) :: junk)
    with (Some (chr (48 + d)) :: (Some <$> dec_text ds) ++ Some (chr 10) :: junk) in *.
  revert E. generalize ((Some <$> dec_text ds) ++ Some (chr 10) :: junk). intros rest E.
  assert (code (chr (48 + d)) = 48 + d) as Hc by (apply code_chr; lia).
  assert (atoi_skip (Some (chr (48 + d)) :: rest) = Ret (dec_val (d :: ds))) as Hs.
  { cbn [atoi_skip]. unfold isspace. rewrite Hc. rewrite orb_false_intro by lia.
    unfold atoi_signed. rewrite Hc. replace (48 + d =? 45) with false by lia.
    replace (48 + d =? 43) with false by lia. exact E. }
  unfold atoi_buf. rewrite Hs. unfold clamp_long. rewrite Z.min_r, Z.max_r by lia.
  by rewrite i32_small by lia.
Qed.

Section hugepages.
Context {W : Type} `{Posix W}.
Implicit Type s : proc W.

Lemma get_nr_hugepages_eq s fd w1 w2 d ds :
  sys_open NR_HUGEPAGES (p_os s) = (fd, w1) -> 0 <= fd ->
  Forall (fun d => 0 <= d < 10) (d :: ds) -> (length ds < 14)%nat -> dec_val (d :: ds) < 2 ^ 31 ->
  sys_read fd 16 w1 = ((Z.of_nat (length ds) + 2, dec_text (d :: ds) ++ [chr 10]), w2) ->
  get_nr_hugepages s = Ret (dec_val (d :: ds), with_os w2 s).
Proof.
  intros Eo Hfd Hds Hlen Hn Er. unfold get_nr_hugepages.
  assert (libc_open NR_HUGEPAGES s = Ret (fd, with_os w1 s)) as E1.
  { unfold libc_open, libc_ret, plain, mbind, M_bind. rewrite Eo. by replace (fd <? 0) with false by lia. }
  rewrite (bind_ret _ _ _ _ _ E1). replace (fd <? 0) with false by lia.
  set (text := dec_text (d :: ds) ++ [chr 10]).
  assert (length text = length ds + 2)%nat as Ht.
  { unfold text, dec_text. rewrite length_app, length_fmap. simpl. lia. }
  assert (libc_read fd (replicate 16 None) (with_os w1 s) =
    Ret ((Z.of_nat (length ds) + 2, (Some <$> text) ++ replicate (16 - length text) None), with_os w2 s)) as E2.
  { unfold libc_read, libc_ret, mbind, M_bind. rewrite length_replicate. simpl p_os. rewrite Er.
    replace (Z.of_nat (length ds) + 2 <? 0) with false by lia. cbn [fst snd].
    replace (Z.of_nat (length ds) + 2 <? 0) with false by lia. fold text.
    rewrite take_ge by lia. by rewrite drop_replicate. }
  assert (atoi_buf ((Some <$> text) ++ replicate (16 - length text) None) = Ret (dec_val (d :: ds))) as E3.
  { unfold text. rewrite fmap_app, <- app_assoc. by apply atoi_buf_dec. }
  rewrite (bind_ret _ _ _ _ _ E2). unfold lift. cbn [snd]. by rewrite E3.
Qed.

(** The state in which the branches of [pop_mem_init] start. *)
Definition mem_malloced s : proc W :=
  with_mems (<[p_next s:=mem0]> (p_mems s)) (with_alloc (Pos.succ (p_next s)) [] s).

Lemma pop_mem_init_hugepage_start size s :
  p_oom s = [] -> pop_mem_init None size s = pop_mem_init_hugepage (p_next s) size (mem_malloced s).
Proof.
  intros Ho. unfold pop_mem_init, malloc. unfold mbind at 1, M_bind at 1. by rewrite Ho.
Qed.

(** [get_nr_hugepages] returns the number the sysfs file holds in
    decimal, and [pop_mem_init(NULL, 0)] takes a quarter of the huge pages, 2 MiB
    each, as long as that is less than 2 GiB: with 4096 huge pages or more the
    size overflows an [int], which is undefined.  (The README sets 2048.) *)
Theorem hugepage_size_overflow s fd w1 w2 d ds :
  sys_open NR_HUGEPAGES (p_os s) = (fd, w1) -> 0 <= fd ->
  Forall (fun d => 0 <= d < 10) (d :: ds) -> (length ds < 14)%nat -> dec_val (d :: ds) < 2 ^ 31 ->
  sys_read fd 16 w1 = ((Z.of_nat (length ds) + 2, dec_text (d :: ds) ++ [chr 10]), w2) ->
  p_oom s = [] ->
  let n := dec_val (d :: ds) in
  (exists s', get_nr_hugepages s = Ret (n, s')) /\
  (4096 <= n -> pop_mem_init None 0 s = Fault SignedOverflow) /\
  (n < 4096 -> sys_pagesize <> 0 -> exists r s', pop_mem_init None 0 s = Ret (r, s') /\
     forall l, r = Some l -> exists m, p_mems s' !! l = Some m /\
       m_size m = 2097152 * (n / 4) /\ m_num_pages m * 4096 = m_size m).
Proof.
  intros Eo Hfd Hds Hlen Hn Er Hoom n. pose proof (dec_val_nonneg _ Hds) as Hnn. fold n in Hnn.
  pose proof (get_nr_hugepages_eq s _ _ _ _ _ Eo Hfd Hds Hlen Hn Er) as E0.
  pose proof (get_nr_hugepages_eq (mem_malloced s) _ _ _ _ _ Eo Hfd Hds Hlen Hn Er) as E1.
  fold n in E0, E1. set (s1 := with_os w2 _) in E1.
  split_and!; [by eexists| |]; [intros Hbig|intros Hsmall Hpg];
    rewrite (pop_mem_init_hugepage_start 0 s Hoom); unfold pop_mem_init_hugepage; cbv zeta;
    rewrite (bind_ret _ _ _ _ _ E1); replace (n <? 0) with false by lia;
    change (negb (0 =? 0)) with false; cbv iota.
  - apply bind_fault. unfold quarter_hugepages. rewrite Z.quot_div_nonneg by lia.
    replace (_ || _) with true; [done|]. symmetry. apply orb_true_iff. right.
    Z.to_euclidean_division_equations; lia.
  - assert (quarter_hugepages n s1 = Ret (2097152 * (n / 4), s1)) as Eq.
    { unfold quarter_hugepages. rewrite Z.quot_div_nonneg by lia.
      rewrite orb_false_intro by (Z.to_euclidean_division_equations; lia).
      by rewrite u64_small by (Z.to_euclidean_division_equations; lia). }
    rewrite (bind_ret _ _ _ _ _ Eq).
    edestruct (pop_mem_map_ok (p_next s)) with (s0 := s1) (s := s1)
      (good := fun m => m_size m = 2097152 * (n / 4) /\ m_num_pages m * 4096 = m_size m)
      as (r & s' & E & m & Em & _ & _ & Hr); [done|reflexivity| | | |].
    4: { exists r, s'. split; [exact E|]. intros l ->. destruct Hr as (-> & _ & _ & _ & Hg).
      exists m. by rewrite Em, lookup_insert_eq. }
    1-2: done.
    intros a p. simpl. split; [done|]. unfold PAGE_SHIFT. rewrite shiftr_12.
    change (Z.shiftl 1 12) with 4096. wrap_lia.
Qed.

(** [pop_mem_exit] of a hugepage memory frees the structure and returns
    0; of a device memory it keeps the structure allocated on every path, and
    returns [-1] unless the module could be opened and the unregistration was
    accepted. *)
Theorem pop_mem_exit_frees_hugepage_only l m s :
  p_mems s !! l = Some m ->
  exists r s', pop_mem_exit l s = Ret (r, s') /\
  (m_fd m = -1 -> r = 0 /\ s' = with_mems (delete l (p_mems s)) s) /\
  (m_fd m <> -1 -> is_Some (p_mems s' !! l) /\ p_bufs s' = p_bufs s /\
     ((sys_open DEVPOP (p_os s)).1 < 0 -> r = -1)).
Proof.
  intros Hm. unfold pop_mem_exit. rewrite (bind_ret _ _ _ _ _ (load_mem_Some _ _ _ Hm)).
  destruct (Z.eqb_spec (m_fd m) (-1)) as [E|E]; [by exists 0, (with_mems (delete l (p_mems s)) s)|].
  destruct (quiet_open DEVPOP s) as (fd & s1 & E1 & O1).
  assert ((sys_open DEVPOP (p_os s)).1 < 0 -> fd = -1) as Hfd.
  { revert E1. unfold libc_open, libc_ret, plain, mbind, M_bind.
    destruct (sys_open DEVPOP (p_os s)) as [r w]. simpl. intros E1 Hr.
    replace (r <? 0) with true in E1 by lia. by injection E1. }
  rewrite (bind_ret _ _ _ _ _ E1). apply os_only_fields in O1 as (M1 & B1 & _).
  destruct (fd <? 0) eqn:Hneg.
  - exists (-1), s1. split; [done|]. split; [done|]. intros _. rewrite M1, Hm. by split_and!.
  - destruct (quiet_ioctl fd POP_P2PMEM_UNREG (m_reg m) s1) as ([ret reg] & s2 & E2 & O2).
    rewrite (bind_ret _ _ _ _ _ E2). apply os_only_fields in O2 as (M2 & B2 & _).
    unfold store_mem, modify. unfold mbind at 1, M_bind at 1. cbn [fst snd].
    set (s3 := with_mems _ s2). destruct (negb (ret =? 0)).
    + exists (-1), s3. split; [done|]. split; [done|]. intros _. simpl. rewrite lookup_insert_eq.
      split_and!; [eauto|by rewrite B2|]. intros Hr%Hfd. lia.
    + destruct (quiet_close (m_fd m) s3) as (c & s4 & E4 & O4). apply os_only_fields in O4 as (M4 & B4 & _).
      exists c, s4. split; [done|]. split; [done|]. intros _. rewrite M4, B4. simpl.
      rewrite lookup_insert_eq. split_and!; [eauto|by rewrite B2|]. intros Hr%Hfd. lia.
Qed.

Lemma pop_mem_exit_returns l m s :
  p_mems s !! l = Some m -> exists r s', pop_mem_exit l s = Ret (r, s').
Proof. intros Hm. destruct (pop_mem_exit_frees_hugepage_only l m s Hm) as (r & s' & E & _). eauto. Qed.
End hugepages.

(** ** The path of a device *)

Lemma parse_slot_full d b s f :
  0 <= d < 2 ^ 31 -> 0 <= b < 2 ^ 31 -> 0 <= s < 2 ^ 31 -> 0 <= f < 2 ^ 31 ->
  parse_slot (fmt_pci d b s f) = Some (d, b, s, f).
Proof.
  intros Hd Hb Hs Hf. unfold parse_slot. rewrite sscanf_fmt_pci by lia. by unwrap.
Qed.

(** The form without a domain, as lspci prints it. *)
Definition fmt_short (b s f : Z) : cstr :=
  fmt_x 2 b ++ lit ":" ++ fmt_x 2 s ++ lit "." ++ fmt_x 1 f.

Lemma parse_slot_short b s f :
  0 <= b < 2 ^ 31 -> 0 <= s < 2 ^ 31 -> 0 <= f < 2 ^ 31 ->
  parse_slot (fmt_short b s f) = Some (0, b, s, f).
Proof.
  intros Hb Hs Hf. unfold parse_slot, fmt_short, pci_seps.
  assert (sscanf_x (lit "::.") (fmt_x 2 b ++ lit ":" ++ fmt_x 2 s ++ lit "." ++ fmt_x 1 f) = [b; s]) as ->.
  { cbn [sscanf_x lit String.list_ascii_of_string]. rewrite scan_x_fmt by (done || lia). cbn.
    by rewrite scan_x_fmt by (done || lia). }
  assert (sscanf_x (tail (lit "::.")) (fmt_x 2 b ++ lit ":" ++ fmt_x 2 s ++ lit "." ++ fmt_x 1 f)
    = [b; s; f]) as ->.
  { cbn [sscanf_x lit String.list_ascii_of_string tail]. rewrite scan_x_fmt by (done || lia). cbn.
    rewrite scan_x_fmt by (done || lia). cbn.
    rewrite <- (app_nil_r (fmt_x 1 f)), scan_x_fmt by (done || lia). done. }
  by unwrap.
Qed.

(** C31: the two sides name a device alike.  For a slot of a PCI bus, the
    text of the slot parses back to its fields in the long form and, in domain
    0, in the short one; the path [pop_mem_init] opens is /dev/ followed by the
    name under which the kernel module registers the device (Linux calls a PCI
    device by its slot), and neither is cut off by its array. *)
Theorem device_path_agrees {P : Type} `{Kapi P} pd d b s f a sz size :
  0 <= d < 2 ^ 16 -> 0 <= b < 2 ^ 8 -> 0 <= s < 32 -> 0 <= f < 8 ->
  pci_name pd = fmt_pci d b s f ->
  parse_slot (fmt_pci d b s f) = Some (d, b, s, f) /\
  parse_slot (fmt_short b s f) = Some (0, b, s, f) /\
  popdev_path (Reg d b s f sz) = lit "/dev/" ++ d_devname (new_dev pd a size) /\
  d_devname (new_dev pd a size) = lit "pop/" ++ fmt_pci d b s f.
Proof.
  intros Hd Hb Hs Hf Hn. pose proof (length_fmt_pci d b s f) as Hlen.
  assert (d_devname (new_dev pd a size) = lit "pop/" ++ fmt_pci d b s f) as E.
  { unfold new_dev, snprintf; cbn [d_devname]. rewrite Hn. apply take_ge.
    rewrite length_app, Hlen by lia. cbn. lia. }
  split_and!; [apply parse_slot_full; lia|apply parse_slot_short; lia| |done].
  rewrite E. unfold popdev_path, snprintf; cbn [domain bus slot func]. unwrap.
  rewrite take_ge; [done|]. rewrite length_app, Hlen by lia. cbn. lia.
Qed.

(** ** Witnesses *)

(** The same system where [mmap] fails. *)
Definition no_mapping : proc exos := proc0 (ExOs [] [] 65536 (-12)).

Lemma pop_mem_init_device_returns_witness :
  (exists r s' m, pop_mem_init (Some (lit "17:00.0")) 0 (proc0 exos0) = Ret (r, s') /\
    r = Some 1%positive /\ p_mems s' !! 1%positive = Some m /\ m_num_pages m = 16) /\
  (exists s', pop_mem_init (Some (lit "17:00.0")) 0 no_mapping = Ret (None, s') /\
     is_Some (p_mems s' !! 1%positive)).
Proof.
  split.
  - destruct (pop_mem_init_device_returns (lit "17:00.0") 0 (proc0 exos0)) as (r & s' & E & _ & o & w & Ha & H);
      [done|].
    exists r, s'. destruct o as [e|reg mfd addr].
    + vm_compute in E. injection E as <- <-. destruct H as [[=] _].
    + destruct H as (Hr & m & s1 & s2 & Em & Ereg & _ & _ & Hsz & Hn & _). exists m.
      split; [exact E|]. split; [exact Hr|]. rewrite Em. split; [apply lookup_insert_eq|].
      rewrite Hn, Hsz. inversion Ha as [| | | |fd w1 reg' w2 mfd' w4 addr' w5 E1 _ E2]; subst.
      injection E1 as <- <-. injection E2 as <- <-. reflexivity.
  - destruct (pop_mem_init_device_returns (lit "17:00.0") 0 no_mapping) as (r & s' & E & _ & o & w & Ha & H);
      [done|].
    exists s'. destruct o as [e|reg mfd addr].
    + destruct H as (-> & _ & [m Hm] & _). split; [exact E|]. rewrite Hm. eexists. apply lookup_insert_eq.
    + vm_compute in E. injection E as <- <-. destruct H as [[=] _].
Defined.

Lemma virt_to_phys_pagemap_witness :
  exists s', virt_to_phys 0x7f0000001234 (proc0 exos0) = Ret (0x1234234, s').
Proof.
  destruct (virt_to_phys_pagemap 0x7f0000001234 (proc0 exos0) 5 exos0 exos0 exos0
    (0x7f0000001234 / 4096 * 8) (chr <$> ex_pagemap exos0)) as (_ & _ & H);
    [reflexivity|lia|reflexivity|lia|reflexivity|reflexivity|reflexivity|].
  destruct H as (s' & _ & E); [vm_compute; discriminate..|].
  exists s'. rewrite E. reflexivity.
Defined.

Lemma hugepage_size_overflow_witness :
  (exists s', get_nr_hugepages (proc0 exos0) = Ret (2048, s')) /\
  pop_mem_init None 0 (proc0 (ExOs (lit "4096" ++ [chr 10]) [] 0 4096)) = Fault SignedOverflow.
Proof.
  split.
  - destruct (hugepage_size_overflow (proc0 exos0) 3 exos0 exos0 2 [0; 4; 8]) as [H _];
      [reflexivity|lia|repeat constructor; lia|simpl; lia|reflexivity|reflexivity|reflexivity|exact H].
  - destruct (hugepage_size_overflow (proc0 (ExOs (lit "4096" ++ [chr 10]) [] 0 4096)) 3
      (ExOs (lit "4096" ++ [chr 10]) [] 0 4096) (ExOs (lit "4096" ++ [chr 10]) [] 0 4096) 4 [0; 9; 6])
      as (_ & H & _);
      [reflexivity|lia|repeat constructor; lia|simpl; lia|reflexivity|reflexivity|reflexivity|].
    apply H. vm_compute. discriminate.
Defined.

Lemma pop_mem_exit_frees_hugepage_only_witness :
  exists s', pop_mem_exit 1%positive
    (with_mems {[1%positive := set_fd mem0 (-1)]} (proc0 exos0)) = Ret (0, s') /\ p_mems s' = ∅.
Proof.
  destruct (pop_mem_exit_frees_hugepage_only 1%positive (set_fd mem0 (-1))
    (with_mems {[1%positive := set_fd mem0 (-1)]} (proc0 exos0))) as (r & s' & E & H & _);
    [reflexivity|].
  destruct (H eq_refl) as [-> ->]. eexists. split; [exact E|reflexivity].
Defined.

Lemma device_path_agrees_witness :
  popdev_path (Reg 0 0x17 0 0 65536) = lit "/dev/pop/0000:17:00.0" /\
  parse_slot (lit "17:00.0") = Some (0, 0x17, 0, 0).
Proof.
  destruct (device_path_agrees (P:=linux) 1 0 0x17 0 0 4096 65536 65536) as (_ & H2 & H3 & H4);
    [lia..|reflexivity|].
  split; [rewrite H3, H4; reflexivity|exact H2].
Defined.
