(* ===== verification/System.v ===== *)
(** * libpop on top of the kernel module

    [pop_mem_init] of lib/libpop.c makes system calls, and for the files under
    /dev/boogiepop and /dev/pop Linux answers them with the handlers of
    kmod/boogiepop.c.  [PopSystem] states how: which handler a call runs, on
    which arguments, and what the process can see of the pages that the fault
    handler has installed.  The theorem composes the two programs; [psys] is an
    operating system of this kind, on which its witness runs. *)

From S2P Require Import Prelude CStr LibpopH PopBuf PopMem Boogiepop LinuxExample BoogiepopProps PopMemProps.

(** ** What Linux does with the files of the module *)

(** What a descriptor refers to: /dev/boogiepop, an open pop device, or the
    pagemap of the process at an offset. *)
Variant ofile : Type := FControl | FPop (f : positive) | FPagemap (off : Z).

Definition is_pagemap (o : option ofile) : Prop := exists off, o = Some (FPagemap off).

Definition DEVPOPDIR : cstr := lit "/dev/pop/".

(** The memory of the calling process: what is written can be read back, and
    no other call of the kernel that the module makes to register a device
    touches it. *)
Class UserMem (P : Type) `{Kapi P} : Prop := {
  copy_roundtrip data r p p' : copy_to_user data r p = Some p' -> copy_from_user data p' = Some r;
  user_get data d b f p :
    copy_from_user data (pci_get_domain_bus_and_slot d b f p).2 = copy_from_user data p;
  user_put data pd p : copy_from_user data (pci_dev_put pd p) = copy_from_user data p;
  user_alloc data pd size p : copy_from_user data (pci_alloc_p2pmem pd size p).2 = copy_from_user data p;
  user_free data pd a size p : copy_from_user data (pci_free_p2pmem pd a size p) = copy_from_user data p;
  user_kmalloc data p : copy_from_user data (kmalloc_ok p).2 = copy_from_user data p;
  user_misc data n p : copy_from_user data (misc_register n p).2 = copy_from_user data p
}.

(** Page faults of a file. *)
Definition fault_of (f : positive) (e : kevent) : Prop := exists pg, e = EFault (Some f) pg.

Class PopSystem (W P : Type) `{Posix W} `{KapiOk P} : Type := {
  w_kernel : W -> kstate P;
  w_file : W -> Z -> option ofile;
  w_maps : W -> Z -> option (vma * positive);   (* the mapping of a pop device at a page *)
  page_4k : sys_pagesize (W:=W) = 4096;
  (** A descriptor is new; misc devices are found by name, and the handler for
      opening a pop device gets the last component of the path. *)
  open_spec path w fd w' : sys_open path w = (fd, w') ->
    w_maps w' = w_maps w /\ (path = DEVPOP \/ path = PAGEMAP -> w_kernel w' = w_kernel w) /\
    (0 <= fd -> (path = DEVPOP -> w_file w' fd = Some FControl) /\
       (path = PAGEMAP -> w_file w' fd = Some (FPagemap 0)) /\
       (forall name, path = DEVPOPDIR ++ name -> exists f,
          pop_dev_open f name (w_kernel w) = Ret (0, w_kernel w') /\ w_file w' fd = Some (FPop f)));
  close_spec fd w : w_file w fd = Some FControl \/ is_pagemap (w_file w fd) ->
    w_kernel (sys_close fd w).2 = w_kernel w /\ w_maps (sys_close fd w).2 = w_maps w;
  (** Closing the descriptor does not unmap: the mapping keeps the file open. *)
  close_mapped fd f pg v w : w_file w fd = Some (FPop f) -> w_maps w pg = Some (v, f) ->
    w_kernel (sys_close fd w).2 = w_kernel w /\ w_maps (sys_close fd w).2 = w_maps w;
  (** The structure lies in the memory of the process, where the module reads
      and writes it.  The handler returns from every state that the module's
      invariant holds in. *)
  ioctl_spec fd r w ret r' w' : w_file w fd = Some FControl -> kinv (w_kernel w) ->
    sys_ioctl fd POP_P2PMEM_REG r w = ((ret, r'), w') ->
    w_file w' fd = Some FControl /\
    exists data p, quiet (k_env (w_kernel w)) p /\ copy_from_user data p = Some r /\
      pop_ioctl POP_P2PMEM_REG data (with_env p (w_kernel w)) = Ret (ret, w_kernel w') /\
      copy_from_user data (k_env (w_kernel w')) = Some r';
  (** A mapping has whole pages and starts on a page, in memory and in the file;
      a locked one is populated by faults.  Addresses of a process are below
      [2 ^ 47], and a mapping ends before the last offset of the file ([EINVAL],
      [EOVERFLOW]). *)
  mmap_spec fd len off w a w' f : w_file w fd = Some (FPop f) -> 0 <= len < 2 ^ 64 -> 0 <= off < 2 ^ 64 ->
    sys_mmap len MAP_device fd off w = (a, w') -> 0 <= a ->
    let v := Vma a (a + pages_for len * 4096) (off / 4096) in
    w_file w' fd = Some (FPop f) /\ 0 < len /\ off `mod` 4096 = 0 /\ off + pages_for len * 4096 < 2 ^ 64 /\
    a `mod` 4096 = 0 /\ vm_end v <= 2 ^ 47 /\
    (forall pg, vm_start v <= pg * 4096 < vm_end v -> w_maps w' pg = Some (v, f)) /\
    exists k es, pop_dev_mmap f v (w_kernel w) = Ret ((0, true), k) /\
      Forall (fault_of f) es /\ steps kstep k es (w_kernel w');
  lseek_spec fd o off w r w' : w_file w fd = Some (FPagemap o) ->
    sys_lseek fd off w = (r, w') ->
    w_kernel w' = w_kernel w /\ w_maps w' = w_maps w /\
    w_file w' fd = Some (FPagemap (if r <? 0 then o else off));
  (** pagemap, as a process with CAP_SYS_ADMIN reads it: eight bytes per page,
      the frame number in the low 55 bits, and higher bits for a page that is
      present; the pages of a mapping are those its fault handler installs. *)
  pagemap_spec fd o w ret bytes w' : w_file w fd = Some (FPagemap o) ->
    sys_read fd 8 w = ((ret, bytes), w') ->
    w_kernel w' = w_kernel w /\ w_maps w' = w_maps w /\ is_pagemap (w_file w' fd) /\
    forall pg v f pfn k, 1 <= ret -> o = pg * 8 -> w_maps w pg = Some (v, f) ->
      pop_dev_mem_fault (Some f) (vm_pgoff v + (pg - vm_start v / 4096)) (w_kernel w)
        = Ret ((0, Some pfn), k) ->
      length bytes = 8%nat /\ entry_val (Some <$> bytes) <> 0 /\
      entry_val (Some <$> bytes) `mod` 2 ^ 55 = pfn
}.

(** ** The module's handlers, as the calls of [pop_mem_init] run them *)

Section module.
Context {P : Type} `{KapiOk P} `{!UserMem P}.
Implicit Type k : kstate P.

Lemma pop_register_user pd size k r k' data :
  pop_register_p2pmem pd size k = Ret (r, k') ->
  copy_from_user data (k_env k') = copy_from_user data (k_env k).
Proof.
  unfold pop_register_p2pmem. intros (o & k2 & Ef & E)%bind_Ret_inv.
  assert (k2 = k) as ->.
  { clear E. revert Ef. unfold pop_find_dev. change (find_in (k_list k) pd k = Ret (o, k2) -> k2 = k).
    generalize (k_list k). intros ls. induction ls as [|l ls IH]; simpl; [by intros [= <- <-]|].
    intros (d & k3 & [_ ->]%load_dev_inv & E)%bind_Ret_inv. destruct (_ =? pd); [by injection E|auto]. }
  destruct o as [l|].
  { apply bind_Ret_inv in E as (d & k3 & [_ ->]%load_dev_inv & [= <- <-]). done. }
  revert E. unfold gets, kcall, kproc, modify, kmalloc_dev, mbind, M_bind, mret, M_ret. cbn -[wrap_size new_dev].
  set (sz := wrap_size _). pose proof (user_alloc data pd sz (k_env k)) as Ua.
  destruct (pci_alloc_p2pmem pd sz (k_env k)) as [a p1]. cbn -[new_dev]. cbn [snd] in Ua.
  destruct (a =? 0); [by intros [= <- <-]|]. cbn -[new_dev]. pose proof (user_kmalloc data p1) as Uk.
  destruct (kmalloc_ok p1) as [[] p2]; cbn -[new_dev]; cbn [snd] in Uk.
  2: { intros [= <- <-]. simpl. by rewrite user_free, Uk. }
  pose proof (user_misc data (d_devname (new_dev pd a sz)) p2) as Um.
  destruct (misc_register _ p2) as [ret p3]. cbn -[new_dev]. cbn [snd] in Um.
  destruct (ret =? 0); intros [= <- <-]; simpl; rewrite ?user_free; congruence.
Qed.

(** What the structure holds after a registration that returned 0: the slot as
    it was, and the size of the device if that fits an [int]. *)
Lemma ioctl_reg_result data k reg pd k' :
  kinv k -> copy_from_user data (k_env k) = Some reg ->
  (forall p, (pci_get_domain_bus_and_slot (domain reg) (u32 (bus reg))
     (PCI_DEVFN (slot reg) (func reg)) p).1 = Some pd) -> 0 <= reg_size reg < 2 ^ 64 ->
  pop_ioctl POP_P2PMEM_REG data k = Ret (0, k') ->
  kinv k' /\ exists sz, 0 <= sz < 2 ^ 64 /\
    copy_from_user data (k_env k') = Some (Reg (domain reg) (bus reg) (slot reg) (func reg) sz) /\
    forall l d, listed k' l d -> d_pdev d = pd -> d_size d < 2 ^ 31 -> sz = d_size d.
Proof.
  intros Hk Ec Hpd Hrs E. destruct (pop_ioctl_inv POP_P2PMEM_REG data k Hk) as (r0 & k0 & E0 & Hk').
  rewrite E in E0. injection E0 as <- <-. split; [done|].
  revert E. unfold pop_ioctl. rewrite Z.eqb_refl. unfold ioctl_reg, gets, kcall, kproc, modify.
  intros (o1 & k1 & [= <- <-] & E)%bind_Ret_inv. rewrite Ec in E.
  apply bind_Ret_inv in E as (opd & k1 & Eg & E).
  pose proof (Hpd (k_env k)) as Hpdk.
  pose proof (quiet_get (domain reg) (u32 (bus reg)) (PCI_DEVFN (slot reg) (func reg)) (k_env k)) as Hq.
  pose proof (user_get data (domain reg) (u32 (bus reg)) (PCI_DEVFN (slot reg) (func reg)) (k_env k)) as Ug.
  destruct (pci_get_domain_bus_and_slot _ _ _ (k_env k)) as [opd' p1]. simpl in *.
  subst opd'. injection Eg as <- <-. apply (kinv_quiet k p1) in Hk; [|done].
  apply bind_Ret_inv in E as (has & k1 & [= <- <-] & E). destruct (negb _); [by apply bind_Ret_inv in E as ([] & ? & _ & [=])|].
  apply bind_Ret_inv in E as (size & k2 & Er & E).
  pose proof (pop_register_user _ _ _ _ _ data Er) as Ur. simpl in Ur. rewrite Ug, Ec in Ur.
  assert (forall l d, listed k2 l d -> d_pdev d = pd -> size = i32 (d_size d)) as Hsz.
  { intros l d Hd Epd. destruct (pop_find_dev_spec pd _ Hk) as ([l0|] & _ & Ho).
    - destruct Ho as (d0 & Hd0 & E0). rewrite (pop_register_again pd (reg_size reg) _ l0 d0 Hk Hd0 E0) in Er.
      injection Er as <- <-. assert (l = l0) as -> by (eapply (ki_pdev _ Hk); eauto; congruence).
      destruct Hd, Hd0. congruence.
    - destruct (pop_register_new pd (reg_size reg) _ Hk Ho) as (r & k3 & Er' & _ & _ & _ & Hcase).
      rewrite Er in Er'. injection Er' as <- <-. destruct Hcase as [(a & sz & El & Ed & -> & _)|(_ & _ & Hn)].
      + destruct Hd as [Hl Hd]. rewrite Ed in Hd. apply lookup_insert_Some in Hd as [[_ <-]|[Hne Hd]]; [done|].
        rewrite El in Hl. apply elem_of_app in Hl as [Hl|Hl%list_elem_of_singleton]; [|done].
        by destruct (Ho l d (conj Hl Hd)).
      + by destruct (Hn l d Hd). }
  destruct (size <? 0) eqn:Hneg.
  - apply bind_Ret_inv in E as ([] & k3 & [= <-] & [= <-]). exists (reg_size reg).
    simpl. rewrite user_put, Ur. split_and!; [lia|lia|by destruct reg|].
    intros l d Hd Epd Hlt. destruct (ki_size _ Hk' l d Hd). specialize (Hsz l d Hd Epd).
    rewrite i32_small in Hsz by lia. lia.
  - apply bind_Ret_inv in E as (op & k3 & [= <- <-] & E).
    destruct (copy_to_user data _ (k_env k2)) as [p3|] eqn:Eu; [|by apply bind_Ret_inv in E as ([] & ? & _ & [=])].
    apply bind_Ret_inv in E as ([] & k3 & [= <-] & [= <-]). exists (u64 size). simpl.
    pose proof (u64_range size). split_and!; [lia|lia|by apply copy_roundtrip in Eu|].
    intros l d Hd Epd Hlt. destruct (ki_size _ Hk' l d Hd). rewrite (Hsz l d Hd Epd).
    rewrite i32_small, u64_small by lia. done.
Qed.

(** After a registration the structure can still be read. *)
Lemma ioctl_reg_readable data k reg ret k' :
  copy_from_user data (k_env k) = Some reg -> pop_ioctl POP_P2PMEM_REG data k = Ret (ret, k') ->
  is_Some (copy_from_user data (k_env k')).
Proof.
  intros Ec. unfold pop_ioctl. rewrite Z.eqb_refl. unfold ioctl_reg, gets, kcall, kproc, modify.
  intros (o1 & k1 & [= <- <-] & E)%bind_Ret_inv. rewrite Ec in E.
  apply bind_Ret_inv in E as (opd & k1 & Eg & E).
  pose proof (user_get data (domain reg) (u32 (bus reg)) (PCI_DEVFN (slot reg) (func reg)) (k_env k)) as Ug.
  destruct (pci_get_domain_bus_and_slot _ _ _ (k_env k)) as [opd' p1]. simpl in *. injection Eg as <- <-.
  destruct opd' as [pd|]; [|injection E as <- <-; simpl; by rewrite Ug, Ec].
  apply bind_Ret_inv in E as (has & k1 & [= <- <-] & E). destruct (negb _).
  { apply bind_Ret_inv in E as ([] & k1 & [= <-] & [= <- <-]). simpl. by rewrite user_put, Ug, Ec. }
  apply bind_Ret_inv in E as (size & k2 & Er & E). pose proof (pop_register_user _ _ _ _ _ data Er) as Ur.
  simpl in Ur. rewrite Ug, Ec in Ur. destruct (size <? 0).
  { apply bind_Ret_inv in E as ([] & k3 & [= <-] & [= <- <-]). simpl. by rewrite user_put, Ur. }
  apply bind_Ret_inv in E as (op & k3 & [= <- <-] & E).
  destruct (copy_to_user data _ (k_env k2)) as [p3|] eqn:Eu;
    apply bind_Ret_inv in E as ([] & k3 & [= <-] & [= <- <-]); simpl.
  - by rewrite (copy_roundtrip _ _ _ _ Eu).
  - by rewrite user_put, Ur.
Qed.

(** Opening the device of a slot finds the device that is registered for it. *)
Lemma pop_dev_open_found f d b s fn pd k k' :
  kinv k -> 0 <= d < 2 ^ 16 -> 0 <= b < 2 ^ 8 -> 0 <= s < 32 -> 0 <= fn < 8 ->
  (forall p, (pci_get_domain_bus_and_slot d b (PCI_DEVFN s fn) p).1 = Some pd) ->
  pop_dev_open f (fmt_pci d b s fn) k = Ret (0, k') ->
  kinv k' /\ exists l D, listed k' l D /\ d_pdev D = pd /\ k_files k' !! f = Some (Some l) /\
    k_env k' = pci_dev_put pd (pci_get_domain_bus_and_slot d b (PCI_DEVFN s fn) (k_env k)).2 /\
    exists D0, listed k l D0 /\ D = set_refcnt D0 (d_refcnt D).
Proof.
  intros Hk Hd Hb Hs Hfn Hpd E.
  destruct (pop_dev_open_inv f (fmt_pci d b s fn) k Hk) as (r0 & k0 & E0 & Hk').
  rewrite E in E0. injection E0 as <- <-. split; [done|].
  revert E. unfold pop_dev_open. rewrite sscanf_fmt_pci by lia. rewrite i32_small by lia.
  pose proof (quiet_get d b (PCI_DEVFN s fn) (k_env k)) as Hq. pose proof (Hpd (k_env k)) as Hpdk.
  intros (o & k1 & Ef & E)%bind_Ret_inv. revert Ef.
  unfold pop_find_dev_by_bus_and_slot, kcall. intros (opd & k2 & Eg & Ef)%bind_Ret_inv.
  destruct (pci_get_domain_bus_and_slot d b (PCI_DEVFN s fn) (k_env k)) as [opd' p1].
  simpl in Hq, Hpdk. subst opd'. injection Eg as <- <-.
  assert (kinv (with_env p1 k)) as Hk1 by (by apply kinv_quiet).
  destruct (pop_find_dev_spec pd _ Hk1) as (o' & Ef' & Ho). rewrite (bind_ret _ _ _ _ _ Ef') in Ef.
  injection Ef as <- Ek1. destruct o' as [l|]; [|done]. destruct Ho as (D & [Hl HD] & Epd).
  assert (k_devs k1 !! l = Some D) as HD1 by (by subst k1).
  rewrite (bind_ret _ _ _ _ _ (load_dev_Some l D k1 HD1)) in E.
  injection E as <-. subst k1. exists l, (set_refcnt D (i32 (d_refcnt D + 1))). unfold listed. simpl. rewrite !lookup_insert_eq.
  split_and!; try done. by exists D.
Qed.

(** Page faults leave everything but the environment. *)
Lemma fault_keeps f k e k' :
  fault_of f e -> kstep k e k' ->
  k_devs k' = k_devs k /\ k_list k' = k_list k /\ k_files k' = k_files k.
Proof.
  intros [pg ->]. unfold kstep. simpl.
  intros (r & k1 & E & [= <-])%bind_Ret_inv. revert E.
  unfold pop_dev_mem_fault, private_data, gets, load_dev, mbind, M_bind, mret, M_ret. simpl.
  destruct (k_files k !! f) as [[l|]|]; simpl; [|by intros [= <- <-]..].
  destruct (k_devs k !! l); simpl; [|done].
  destruct (_ =? _); [by intros [= <- <-]|]. by destruct (pfn_valid _); intros [= <- <-].
Qed.

Lemma faults_keep f k es k' :
  Forall (fault_of f) es -> steps kstep k es k' ->
  (kinv k -> kinv k') /\ k_devs k' = k_devs k /\ k_list k' = k_list k /\ k_files k' = k_files k.
Proof.
  intros Hes Hst. induction Hst as [|k es k1 e k2 Hst IH Hs]; [done|].
  apply Forall_app in Hes as [Hes He]. rewrite Forall_singleton in He.
  destruct (IH Hes) as (Hi & E1 & E2 & E3). destruct (fault_keeps _ _ _ _ He Hs) as (F1 & F2 & F3).
  split_and!; [|congruence..]. intros Hk. exact (kstep_inv _ _ _ (Hi Hk) Hs).
Qed.
End module.

(** ** The calls of the process *)

Section calls.
Context {W P : Type} `{PopSystem W P}.
Implicit Type s : proc W.

Lemma libc_ret_inv {A : Type} (c : W -> (Z * A) * W) s r a s' :
  libc_ret c s = Ret ((r, a), s') ->
  -1 <= r /\ (c (p_os s)).2 = p_os s' /\ (0 <= r -> c (p_os s) = ((r, a), p_os s')).
Proof.
  unfold libc_ret. destruct (c (p_os s)) as [[r0 a0] w].
  destruct (r0 <? 0) eqn:Hr; intros [= <- <- <-]; (split_and!; [lia|done|done || lia]).
Qed.

Lemma plain_inv (c : W -> Z * W) s r s' :
  (r ← libc_ret (plain c); mret r.1) s = Ret (r, s') ->
  -1 <= r /\ (c (p_os s)).2 = p_os s' /\ (0 <= r -> c (p_os s) = (r, p_os s')).
Proof.
  intros ([r0 []] & s1 & E & [= <- <-])%bind_Ret_inv. apply libc_ret_inv in E as (Ho & E2 & E3).
  unfold plain in *. simpl in *. destruct (c (p_os s)) as [r1 w]. simpl in *.
  split_and!; [done|done|]. intros Hr. specialize (E3 Hr). by injection E3 as -> ->.
Qed.

Lemma libc_ret_neg {A : Type} (c : W -> (Z * A) * W) s r a s' :
  libc_ret c s = Ret ((r, a), s') -> r < 0 -> (c (p_os s)).1.1 < 0.
Proof.
  unfold libc_ret. destruct (c (p_os s)) as [[r0 a0] w]. simpl.
  destruct (r0 <? 0) eqn:Hr; intros [= <- <- <-]; lia.
Qed.

Lemma plain_neg (c : W -> Z * W) s r s' :
  (r ← libc_ret (plain c); mret r.1) s = Ret (r, s') -> r < 0 -> (c (p_os s)).1 < 0.
Proof.
  intros ([r0 []] & s1 & E & [= <- <-])%bind_Ret_inv Hr. pose proof (libc_ret_neg _ _ _ _ _ E Hr) as Hn.
  unfold plain in Hn. by destruct (c (p_os s)).
Qed.

(** Whether the three calls of [virt_to_phys] on the pagemap succeed. *)
Definition pagemap_readable (a : Z) (w : W) : bool :=
  let '(fd, w1) := sys_open PAGEMAP w in
  let '(o, w2) := sys_lseek fd (a / 4096 * 8) w1 in
  (0 <=? fd) && (0 <=? o) && (1 <=? (sys_read fd 8 w2).1.1).

(** The page fault of the first page. *)
Lemma first_fault f k l D :
  k_files k !! f = Some (Some l) -> k_devs k !! l = Some D ->
  0 <= d_p2pmem D < 2 ^ 64 -> 0 < kvirt_to_phys (d_p2pmem D) ->
  pfn_valid (kvirt_to_phys (d_p2pmem D) / 4096) = true ->
  exists k', pop_dev_mem_fault (Some f) 0 k = Ret ((0, Some (kvirt_to_phys (d_p2pmem D) / 4096)), k').
Proof.
  intros Ef Ed Hp Hpa Hv. unfold pop_dev_mem_fault, private_data, gets, load_dev, mbind, M_bind, mret, M_ret.
  simpl. rewrite Ef. simpl. rewrite Ed. simpl. change (0 <<64 12) with 0. rewrite Z.add_0_r, u64_small by lia.
  replace (_ =? 0) with false by lia. rewrite shiftr_12, Hv. simpl. eauto.
Qed.

Lemma close_pagemap {A : Type} fd (x y : A) s s' :
  (_ ← libc_close fd; mret x) s = Ret (y, s') -> is_pagemap (w_file (p_os s) fd) ->
  y = x /\ w_kernel (p_os s') = w_kernel (p_os s) /\ w_maps (p_os s') = w_maps (p_os s).
Proof.
  intros (z & s1 & Ec & [= <- <-])%bind_Ret_inv Hf. apply plain_inv in Ec as (_ & Wc & _).
  rewrite <- Wc. split; [done|]. apply close_spec. by right.
Qed.

(** The address translation of the first page of a mapping. *)
Lemma virt_to_phys_mapped s r s' v f :
  virt_to_phys (vm_start v) s = Ret (r, s') -> w_maps (p_os s) (vm_start v / 4096) = Some (v, f) ->
  vm_pgoff v = 0 -> 0 <= vm_start v < vm_end v -> vm_end v <= 2 ^ 47 -> vm_start v `mod` 4096 = 0 ->
  w_kernel (p_os s') = w_kernel (p_os s) /\ w_maps (p_os s') = w_maps (p_os s) /\
  (if pagemap_readable (vm_start v) (p_os s) then
     forall pfn k, pop_dev_mem_fault (Some f) 0 (w_kernel (p_os s)) = Ret ((0, Some pfn), k) ->
       r = u64 (pfn * 4096)
   else r = 0).
Proof.
  intros E Hin Hpg Hv Hend Hal. revert E. unfold virt_to_phys, pagemap_readable.
  intros (fd & s1 & E1 & E)%bind_Ret_inv. pose proof (plain_neg _ _ _ _ E1) as N1.
  apply plain_inv in E1 as (_ & W1 & O1).
  destruct (open_spec PAGEMAP (p_os s) _ _ (surjective_pairing _)) as (M1 & K1 & F1).
  rewrite W1 in M1, K1, F1. specialize (K1 (or_intror eq_refl)).
  destruct (fd <? 0) eqn:Hfd.
  { injection E as <- <-. split_and!; [done..|]. specialize (N1 ltac:(lia)).
    destruct (sys_open PAGEMAP (p_os s)) as [fd' w']. destruct (sys_lseek _ _ w') as [o w2].
    simpl in N1. by replace (0 <=? fd') with false by lia. }
  rewrite (O1 ltac:(lia)) in F1 |- *. simpl in F1. destruct (F1 ltac:(lia)) as (_ & F1' & _).
  specialize (F1' eq_refl). rewrite page_4k in E. change (4096 =? 0) with false in E. cbv iota in E.
  set (pg := vm_start v / 4096) in *. replace (0 <=? fd) with true by lia.
  replace (i64 (pg *64 8)) with (pg * 8) in E by (unfold pg in *; wrap_lia).
  apply bind_Ret_inv in E as (ret & s2 & E2 & E). pose proof (plain_neg _ _ _ _ E2) as N2.
  apply plain_inv in E2 as (_ & W2 & O2).
  destruct (lseek_spec fd 0 (pg * 8) (p_os s1) _ _ F1' (surjective_pairing _)) as (K2 & M2 & F2).
  rewrite W2 in K2, M2, F2.
  destruct (ret <? 0) eqn:Hret.
  { apply close_pagemap in E as (-> & EK & EM); [|by eexists]. rewrite EK, EM, K2, M2, K1, M1. split_and!; [done..|].
    specialize (N2 ltac:(lia)). destruct (sys_lseek fd (pg * 8) (p_os s1)) as [o w2]. simpl in N2.
    by replace (0 <=? o) with false by lia. }
  rewrite (O2 ltac:(lia)) in F2 |- *. simpl in F2. rewrite Hret in F2. replace (0 <=? ret) with true by lia.
  apply bind_Ret_inv in E as ([rc bytes] & s3 & E3 & E).
  revert E3. unfold libc_read. intros ([rc' data] & s4 & E3 & [= <- Eb <-])%bind_Ret_inv.
  pose proof (libc_ret_neg _ _ _ _ _ E3) as N3.
  apply libc_ret_inv in E3 as (_ & W3 & O3). rewrite length_replicate in *. simpl in Eb.
  destruct (pagemap_spec fd (pg * 8) (p_os s2) (sys_read fd 8 (p_os s2)).1.1
    (sys_read fd 8 (p_os s2)).1.2 (p_os s4) F2) as (K3 & M3 & F3 & Hent).
  { rewrite <- W3. by destruct (sys_read fd 8 (p_os s2)) as [[? ?] ?]. }
  cbn [andb]. destruct (Z.leb_spec 1 (sys_read fd 8 (p_os s2)).1.1) as [Hok|Hko].
  2: { assert (rc' < 1) as Hrc by (destruct (decide (0 <= rc')) as [Hr|]; [rewrite (O3 Hr) in Hko; simpl in Hko; lia|lia]).
       replace (rc' <? 1) with true in E by lia. simpl in E.
       apply close_pagemap in E as (-> & EK & EM); [|done]. rewrite EK, EM, K3, M3, K2, M2, K1, M1. done. }
  assert (0 <= rc') as Hrc by (destruct (decide (0 <= rc')); [done|]; specialize (N3 ltac:(lia)); lia).
  rewrite (O3 Hrc) in Hent, Hok. simpl in Hent, Hok. rewrite M2, M1, K2, K1 in Hent.
  assert (w_kernel (p_os s') = w_kernel (p_os s) /\ w_maps (p_os s') = w_maps (p_os s)) as [EK EM].
  { destruct (_ || _); apply close_pagemap in E as (_ & -> & ->); try done; by rewrite K3, M3, K2, M2, K1, M1. }
  split_and!; [done..|]. intros pfn k Hfault.
  destruct (Hent pg v f pfn k) as (Hlen & Hne & Hpfn); [lia|done|done| |].
  { unfold pg. rewrite Hpg, Z.sub_diag. exact Hfault. }
  revert E. rewrite <- Eb. replace (rc' <? 0) with false by lia.
  rewrite take_ge, drop_ge, app_nil_r by (rewrite ?Hlen; simpl; lia).
  replace (rc' <? 1) with false by lia. rewrite (proj2 (Z.eqb_neq _ _) Hne). simpl.
  intros (-> & _ & _)%close_pagemap; [|done].
  change 0x7fffffffffffff with (2 ^ 55 - 1). rewrite land_ones_mod, Hpfn, Hal, Z.add_0_r by lia.
  unfold u64. by rewrite Z.mod_mod.
Qed.

(** ** Composition *)

(** The pop memory [m] lies over the registered device [D] at [l]: it is
    mapped through a file whose private data is [D], within its size. *)
Definition over_device (m : pop_mem) (k : kstate P) (maps : Z -> option (vma * positive)) (l : loc) (D : pop_dev) : Prop :=
  listed k l D /\ 0 < m_size m <= d_size D /\ m_num_pages m = m_size m / 4096 /\
  0 <= m_mem m /\ m_mem m + m_size m <= 2 ^ 47 /\
  exists f, k_files k !! f = Some (Some l) /\
    forall pg, m_mem m <= pg * 4096 < m_mem m + m_size m ->
      maps pg = Some (Vma (m_mem m) (m_mem m + pages_for (m_size m) * 4096) 0, f).

(** The physical addresses of a region are contiguous, page aligned and those
    of memory the kernel manages. *)
Definition phys_ok (D : pop_dev) : Prop :=
  (forall x, 0 <= x < d_size D -> kvirt_to_phys (d_p2pmem D + x) = kvirt_to_phys (d_p2pmem D) + x) /\
  kvirt_to_phys (d_p2pmem D) `mod` 4096 = 0 /\ 0 < kvirt_to_phys (d_p2pmem D) /\
  kvirt_to_phys (d_p2pmem D) + d_size D < 2 ^ 64 /\ 0 <= d_p2pmem D < 2 ^ 64 /\
  pfn_valid (kvirt_to_phys (d_p2pmem D) / 4096) = true.

(** From [mem->mem = mmap(...)] on, when the file is that of device [D]. *)
Lemma pop_mem_map_over l m f lD D s l' s' :
  pop_mem_map l m MAP_device s = Ret (Some l', s') ->
  w_file (p_os s) (m_fd m) = Some (FPop f) -> kinv (w_kernel (p_os s)) ->
  listed (w_kernel (p_os s)) lD D -> k_files (w_kernel (p_os s)) !! f = Some (Some lD) ->
  0 <= m_size m < 2 ^ 64 -> m_num_pages m = m_size m / 4096 ->
  exists m', p_mems s' !! l' = Some m' /\ m_size m' = m_size m /\ m_reg m' = m_reg m /\
    kinv (w_kernel (p_os s')) /\ over_device m' (w_kernel (p_os s')) (w_maps (p_os s')) lD D /\
    m_fd m' = m_fd m /\ exists wm, sys_mmap (m_size m) MAP_device (m_fd m) 0 (p_os s) = (m_mem m', wm) /\
      if pagemap_readable (m_mem m') wm then phys_ok D -> m_paddr m' = kvirt_to_phys (d_p2pmem D)
      else m_paddr m' = 0.
Proof.
  intros E Hf Hk HD Hfile Hsz Hnp. revert E. unfold pop_mem_map.
  intros (a & s1 & E1 & E)%bind_Ret_inv. apply plain_inv in E1 as (Hge & _ & O1).
  destruct (Z.eqb_spec a (-1)) as [->|Ha].
  { apply bind_Ret_inv in E as (? & ? & _ & E). by apply bind_Ret_inv in E as (? & ? & _ & [=]). }
  specialize (O1 ltac:(lia)).
  destruct (mmap_spec _ _ 0 _ _ _ _ Hf Hsz ltac:(lia) O1 ltac:(lia)) as (_ & Hpos & _ & _ & Hal & Hend & Hmap & k & es & Em & Hes & Hst).
  change (0 / 4096) with 0 in *.
  simpl in Hend. set (v := Vma a _ 0) in *. destruct (proj1 (pages_for_spec (m_size m) _) eq_refl) as [Hp1 Hp2].
  assert (k = w_kernel (p_os s) /\ pages_for (m_size m) * 4096 <= d_size D) as [-> Hle].
  { revert Em. unfold pop_dev_mmap, private_data, gets, load_dev, mbind, M_bind, mret, M_ret. simpl.
    rewrite Hfile. simpl. rewrite (proj2 HD). simpl. change (0 <<64 12) with 0. unwrap.
    destruct (_ <? _) eqn:Hlt; [done|]. intros [= <-]. split; [done|lia]. }
  destruct (faults_keep _ _ _ _ Hes Hst) as (Hk1 & Ed & El & Ef).
  apply bind_Ret_inv in E as (pa & s2 & Ev & E). injection E as <- <-.
  destruct (virt_to_phys_mapped s1 pa s2 v f) as (K2 & M2 & Hpa); try done.
  { apply Hmap. simpl. clear -Hal Hpos Hp2. Z.to_euclidean_division_equations. lia. } { simpl. lia. }
  eexists. simpl. rewrite lookup_insert_eq, K2, M2. split_and!; [done|done|done|auto| |done|].
  - unfold over_device. simpl. split; [split; [rewrite El; apply HD|rewrite Ed; apply HD]|].
    split_and!; try lia. exists f. rewrite Ef. split; [done|]. intros pg Hpg. apply Hmap. simpl. lia.
  - exists (p_os s1). split; [exact O1|]. simpl in Hpa |- *.
    destruct (pagemap_readable a (p_os s1)); [|done]. intros (_ & Halp & Hpp & Hpb & Hpm & Hval).
    destruct (first_fault f (w_kernel (p_os s1)) lD D) as [k' Hfault]; try done.
    { by rewrite Ef. } { rewrite Ed. apply HD. }
    destruct (ki_size _ Hk lD D HD) as [Hds _]. specialize (Hpa _ _ Hfault). simpl. subst pa.
    clear -Halp Hpp Hpb Hds. assert (kvirt_to_phys (d_p2pmem D) / 4096 * 4096 = kvirt_to_phys (d_p2pmem D)) as ->
      by (Z.to_euclidean_division_equations; lia). apply u64_small. lia.
Qed.

Lemma popdev_path_slot d b sl fn sz :
  0 <= d < 2 ^ 16 -> 0 <= b < 2 ^ 8 -> 0 <= sl < 32 -> 0 <= fn < 8 ->
  popdev_path (Reg d b sl fn sz) = DEVPOPDIR ++ fmt_pci d b sl fn.
Proof.
  intros Hd Hb Hs Hf. unfold popdev_path, snprintf; cbn [domain bus slot func]. unwrap.
  apply take_ge. rewrite length_app, length_fmt_pci by lia. cbn. lia.
Qed.

Lemma over_device_phys m k maps l D x :
  over_device m k maps l D -> phys_ok D -> m_paddr m = kvirt_to_phys (d_p2pmem D) ->
  0 <= x < m_size m -> virt_to_phys_in m (m_mem m + x) = kvirt_to_phys (d_p2pmem D + x).
Proof.
  intros (_ & Hsz & _ & Hm & Hend & _) (Hlin & _ & Hpp & Hpb & _) Ep Hx. unfold virt_to_phys_in.
  rewrite (u64_small (m_mem m + m_size m)), orb_false_intro by lia. rewrite Ep, Hlin by lia. unwrap. lia.
Qed.

(** The ioctl of [pop_mem_init]. *)
Lemma libc_ioctl_reg fd d b sl fn size pd reg s s' `{!UserMem P} :
  libc_ioctl fd POP_P2PMEM_REG (Reg d b sl fn size) s = Ret ((0, reg), s') ->
  w_file (p_os s) fd = Some FControl -> kinv (w_kernel (p_os s)) -> 0 <= b < 2 ^ 8 -> 0 <= size < 2 ^ 64 ->
  (forall p : P, (pci_get_domain_bus_and_slot d b (PCI_DEVFN sl fn) p).1 = Some pd) ->
  w_file (p_os s') fd = Some FControl /\ kinv (w_kernel (p_os s')) /\
  exists sz, reg = Reg d b sl fn sz /\ 0 <= sz < 2 ^ 64 /\
    forall l D, listed (w_kernel (p_os s')) l D -> d_pdev D = pd -> d_size D < 2 ^ 31 -> sz = d_size D.
Proof.
  intros E F Hk Hb Hsize Hpd. apply libc_ret_inv in E as (_ & _ & O).
  destruct (ioctl_spec _ _ _ _ _ _ F Hk (O ltac:(lia))) as (F' & data & p & Hq & Hc & Hio & Hc').
  assert (kinv (with_env p (w_kernel (p_os s)))) as Hkp by (by apply kinv_quiet).
  destruct (ioctl_reg_result data _ (Reg d b sl fn size) pd (w_kernel (p_os s')) Hkp Hc)
    as (Hk' & sz & Hsz & Hreg & Hszeq); [|done|done|].
  { intros p0. simpl. rewrite u32_small by lia. apply Hpd. }
  rewrite Hreg in Hc'. injection Hc' as <-. split; [done|]. split; [done|]. by exists sz.
Qed.

(** C5: libpop and the kernel module together: a pop memory that
    [pop_mem_init] returns for the PCI device in a slot lies over the
    peer-to-peer memory that the module has registered for that very device,
    whatever slot text named it and whether the device was registered before.
    It is mapped through an open file of that device and never longer than the
    region, and it has exactly the region's size when that is below 2 GiB.  When
    the pagemap can be read right after the mapping was made (its open, its seek
    and its read succeed), the memory's physical address is that of the region,
    and [pop_virt_to_phys] gives for every byte of the mapping the physical
    address of that byte of the device; when it cannot be read, the physical
    address is 0.  The module's invariant still holds. *)
Theorem device_memory_is_p2pmem dev d b sl fn pd size s l s' `{!UserMem P} :
  parse_slot dev = Some (d, b, sl, fn) ->
  0 <= d < 2 ^ 16 -> 0 <= b < 2 ^ 8 -> 0 <= sl < 32 -> 0 <= fn < 8 -> 0 <= size < 2 ^ 64 ->
  (forall p : P, (pci_get_domain_bus_and_slot d b (PCI_DEVFN sl fn) p).1 = Some pd) ->
  kinv (w_kernel (p_os s)) ->
  pop_mem_init (Some dev) size s = Ret (Some l, s') ->
  kinv (w_kernel (p_os s')) /\
  exists m lD D wm, p_mems s' !! l = Some m /\ d_pdev D = pd /\
    over_device m (w_kernel (p_os s')) (w_maps (p_os s')) lD D /\
    (d_size D < 2 ^ 31 -> m_size m = d_size D) /\
    attaches (Reg d b sl fn size) (p_os s) (Mapped (m_reg m) (m_fd m) (m_mem m)) wm /\
    if pagemap_readable (m_mem m) wm then
      phys_ok D -> m_paddr m = kvirt_to_phys (d_p2pmem D) /\
        forall x, 0 <= x < m_size m ->
          virt_to_phys_in m (m_mem m + x) = kvirt_to_phys (d_p2pmem D + x)
    else m_paddr m = 0.
Proof.
  intros Hparse Hd Hb Hs Hfn Hsize Hpd Hk E. revert E. unfold pop_mem_init.
  intros (om & s1 & Em & E)%bind_Ret_inv.
  assert (p_os s1 = p_os s) as Eos.
  { revert Em. unfold malloc. destruct (p_oom s) as [|[] o]; by intros [= <- <-]. }
  destruct om as [l0|]; [|done]. apply bind_Ret_inv in E as ([] & s2 & [= <-] & E).
  set (s2 := with_mems _ s1) in E. assert (p_os s2 = p_os s) as Eos2 by done. clearbody s2. clear Em Eos s1.
  revert E. unfold pop_mem_init_device. rewrite Hparse.
  intros (fd & s3 & E1 & E)%bind_Ret_inv. apply plain_inv in E1 as (_ & W1 & O1).
  destruct (fd <? 0) eqn:Hfd; [by apply bind_Ret_inv in E as ([] & ? & _ & [=])|].
  specialize (O1 ltac:(lia)). destruct (open_spec _ _ _ _ O1) as (_ & K1 & F1).
  specialize (K1 (or_introl eq_refl)). destruct (F1 ltac:(lia)) as (F1' & _). specialize (F1' eq_refl).
  apply bind_Ret_inv in E as ([ret reg] & s4 & E2 & E).
  destruct (Z.eqb_spec ret 0) as [->|Hret]; cbn [negb] in E.
  2: { apply bind_Ret_inv in E as (? & ? & _ & E). by apply bind_Ret_inv in E as ([] & ? & _ & [=]). }
  pose proof E2 as (_ & _ & O2)%libc_ret_inv. specialize (O2 ltac:(lia)).
  destruct (libc_ioctl_reg _ _ _ _ _ _ pd _ _ _ E2 F1') as (F2 & Hk4 & sz & -> & Hsz & Hszeq);
    [by rewrite K1, Eos2|done..|].
  apply bind_Ret_inv in E as (c & s5 & E3 & E). apply plain_inv in E3 as (_ & W3 & _).
  destruct (close_spec fd (p_os s4)) as [K5 _]; [by left|]. rewrite W3 in K5.
  apply bind_Ret_inv in E as (mfd & s6 & E4 & E). apply plain_inv in E4 as (_ & _ & O4).
  cbv zeta in E. destruct (mfd <? 0) eqn:Hmfd; [by apply bind_Ret_inv in E as ([] & ? & _ & [=])|].
  specialize (O4 ltac:(lia)). destruct (open_spec _ _ _ _ O4) as (_ & _ & F6).
  destruct (F6 ltac:(lia)) as (_ & _ & F6'). rewrite popdev_path_slot in F6' by done.
  destruct (F6' _ eq_refl) as (f & Hopen & Hf). rewrite K5 in Hopen.
  destruct (pop_dev_open_found _ _ _ _ _ pd _ _ Hk4 Hd Hb Hs Hfn Hpd Hopen)
    as (Hk6 & lD & D & HD & Epd & Hfile & _ & D0 & HD0 & ED).
  destruct (pop_mem_map_over _ _ f lD D _ _ _ E) as (m & Hm & Hms & Hmr & Hk' & Hov & Hmfd' & wm & O5 & Hpa);
    [exact Hf|done|done|done|exact Hsz|apply shiftr_12|].
  split; [done|]. exists m, lD, D, wm. split_and!; [done|done|done| | |].
  - intros Hlt. rewrite Hms. simpl. rewrite ED. apply (Hszeq lD D0); [done|by rewrite ED in Epd|by rewrite ED in Hlt].
  - rewrite Hmr, Hmfd'. simpl. rewrite Eos2 in O1. rewrite <- W3 in O4.
    eapply Attached; [exact O1|lia|exact O2|exact O4|lia|exact O5|]. apply Hov.
  - destruct (pagemap_readable (m_mem m) wm); [|done]. intros Hph. split; [by apply Hpa|].
    intros x Hx. specialize (Hpa Hph). by apply (over_device_phys m (w_kernel (p_os s')) (w_maps (p_os s')) lD D x).
Qed.
End calls.

(** ** An operating system of this kind *)

(** Structures for the kernel lie at address 64 of the process. *)
Record psys : Type := Psys {
  ps_k : kstate linux;
  ps_fds : gmap Z ofile;
  ps_fd : nat;                                (* the next descriptor *)
  ps_maps : list (vma * positive);
  ps_page : N;                                (* the next free page of the process *)
  ps_file : positive                          (* the next file *)
}.

Definition ps_add (o : ofile) (k : kstate linux) (w : psys) : Z * psys :=
  (Z.of_nat (ps_fd w), Psys k (<[Z.of_nat (ps_fd w):=o]> (ps_fds w)) (S (ps_fd w)) (ps_maps w) (ps_page w)
     (Pos.succ (ps_file w))).

Definition ps_open (path : cstr) (w : psys) : Z * psys :=
  if bool_decide (path = DEVPOP) then ps_add FControl (ps_k w) w
  else if bool_decide (path = PAGEMAP) then ps_add (FPagemap 0) (ps_k w) w
  else if bool_decide (take 9 path = DEVPOPDIR) then
    match pop_dev_open (ps_file w) (drop 9 path) (ps_k w) with
    | Ret (0, k) => ps_add (FPop (ps_file w)) k w
    | _ => (-22, w)
    end
  else (-2, w).

Definition lx_put (r : pop_p2pmem_reg) (p : linux) : linux :=
  Linux (lx_refs p) (lx_p2p p) (lx_misc p) (<[64:=r]> (lx_user p)) (lx_pool p) (lx_next p) (lx_pages p).

Definition ps_with (k : kstate linux) (w : psys) : psys :=
  Psys k (ps_fds w) (ps_fd w) (ps_maps w) (ps_page w) (ps_file w).

Definition ps_ioctl (fd cmd : Z) (r : pop_p2pmem_reg) (w : psys) : (Z * pop_p2pmem_reg) * psys :=
  match ps_fds w !! fd with
  | Some FControl =>
      match pop_ioctl cmd 64 (with_env (lx_put r (k_env (ps_k w))) (ps_k w)) with
      | Ret (ret, k) => ((ret, default r (lx_user (k_env k) !! 64)), ps_with k w)
      | _ => ((-14, r), w)
      end
  | _ => ((-25, r), w)
  end.

Definition ps_vma (len off : Z) (w : psys) : vma :=
  Vma (Z.of_N (ps_page w) * 4096) (Z.of_N (ps_page w) * 4096 + pages_for len * 4096) (off / 4096).

Definition ps_mmap (len fd off : Z) (w : psys) : Z * psys :=
  match ps_fds w !! fd with
  | Some (FPop f) =>
      let v := ps_vma len off w in
      if (0 <? len) && (vm_end v <=? 2 ^ 47) && (off `mod` 4096 =? 0) && (off + pages_for len * 4096 <? 2 ^ 64) then
        match pop_dev_mmap f v (ps_k w) with
        | Ret ((0, true), k) =>
            (vm_start v, Psys k (ps_fds w) (ps_fd w) ((v, f) :: ps_maps w)
               (ps_page w + Z.to_N (pages_for len)) (ps_file w))
        | _ => (-12, w)
        end
      else (-22, w)
  | _ => (-22, w)
  end.

Definition ps_mapped (w : psys) (pg : Z) : option (vma * positive) :=
  head (filter (fun m => vm_start m.1 <= pg * 4096 < vm_end m.1) (ps_maps w)).

Definition ps_lseek (fd off : Z) (w : psys) : Z * psys :=
  if off <? 0 then (-22, w)
  else (off, Psys (ps_k w) (<[fd:=FPagemap off]> (ps_fds w)) (ps_fd w) (ps_maps w) (ps_page w) (ps_file w)).

(** Eight bytes, least significant first. *)
Fixpoint le_bytes (n : nat) (z : Z) : list ascii :=
  match n with O => [] | S n' => chr (z `mod` 256) :: le_bytes n' (z / 256) end.

Definition ps_entry (w : psys) (pg : Z) : Z :=
  match ps_mapped w pg with
  | Some (v, f) =>
      match pop_dev_mem_fault (Some f) (vm_pgoff v + (pg - vm_start v / 4096)) (ps_k w) with
      | Ret ((0, Some pfn), _) => pfn + 2 ^ 63
      | _ => 0
      end
  | None => 0
  end.

Definition ps_read (fd : Z) (n : nat) (w : psys) : (Z * list ascii) * psys :=
  match ps_fds w !! fd with
  | Some (FPagemap o) => ((8, le_bytes 8 (ps_entry w (o / 8))), w)
  | _ => ((-9, []), w)
  end.

#[export] Instance psys_posix : Posix psys := {
  sys_open := ps_open;
  sys_close fd w := (0, Psys (ps_k w) (delete fd (ps_fds w)) (ps_fd w) (ps_maps w) (ps_page w) (ps_file w));
  sys_read := ps_read;
  sys_lseek := ps_lseek;
  sys_ioctl := ps_ioctl;
  sys_mmap len _ fd off w := ps_mmap len fd off w;
  sys_pagesize := 4096
}.

#[export] Instance linux_user : UserMem linux.
Proof.
  constructor; simpl; try done.
  - intros data r p p'. unfold lx_copy_to. destruct (lx_user p !! data); [|done].
    intros [= <-]. simpl. by rewrite lookup_insert_eq.
  - intros data d b f p. unfold lx_get. by destruct (_ && _); [|destruct (_ && _)].
  - intros data pd size p. unfold lx_alloc. by destruct (_ && _).
  - intros data n p. unfold lx_misc_register. by destruct (bool_decide _).
Qed.

Lemma le_bytes_val n z : entry_val (Some <$> le_bytes n z) = z `mod` 256 ^ Z.of_nat n.
Proof.
  revert z. induction n as [|n IH]; intros z; [by rewrite Z.mod_1_r|].
  unfold entry_val, le_val in *. cbn [le_bytes fmap list_fmap foldr]. rewrite IH.
  rewrite code_chr by (apply Z.mod_pos_bound; lia).
  rewrite Nat2Z.inj_succ, Z.pow_succ_r by lia. rewrite Z.rem_mul_r by lia. lia.
Qed.

Lemma length_le_bytes n z : length (le_bytes n z) = n.
Proof. revert z. induction n as [|n IH]; intros z; [done|]. simpl. by rewrite IH. Qed.

(** Frame numbers of this Linux fit. *)
Lemma lx_fault_pfn f pg (k : kstate linux) pfn k' :
  pop_dev_mem_fault (Some f) pg k = Ret ((0, Some pfn), k') -> 0 <= pfn < 2 ^ 52.
Proof.
  unfold pop_dev_mem_fault, private_data, gets, load_dev, mbind, M_bind, mret, M_ret. simpl.
  destruct (k_files k !! f) as [[l|]|]; simpl; try done.
  destruct (k_devs k !! l) as [d|]; simpl; [|done]. destruct (_ =? 0); [done|].
  rewrite shiftr_12. set (x := d_p2pmem d +64 (pg <<64 12)). pose proof (u64_range (d_p2pmem d + (pg <<64 12))) as Hx.
  fold x in Hx. destruct (0 <=? _) eqn:Hv; intros [= <- _]. Z.to_euclidean_division_equations. lia.
Qed.

Lemma lx_put_quiet r p : quiet p (lx_put r p).
Proof. by split. Qed.

Lemma ps_mmap_spec fd len off w a w' f :
  ps_fds w !! fd = Some (FPop f) -> 0 <= len < 2 ^ 64 -> ps_mmap len fd off w = (a, w') -> 0 <= a ->
  let v := Vma a (a + pages_for len * 4096) (off / 4096) in
  ps_fds w' !! fd = Some (FPop f) /\ 0 < len /\ off `mod` 4096 = 0 /\ off + pages_for len * 4096 < 2 ^ 64 /\ a `mod` 4096 = 0 /\ vm_end v <= 2 ^ 47 /\
  (forall pg, vm_start v <= pg * 4096 < vm_end v -> ps_mapped w' pg = Some (v, f)) /\
  exists k es, pop_dev_mmap f v (ps_k w) = Ret ((0, true), k) /\
    Forall (fault_of f) es /\ steps kstep k es (ps_k w').
Proof.
  intros Hf Hlen. unfold ps_mmap. rewrite Hf. destruct (_ && _) eqn:Hc; [|by intros [= <- <-]].
  destruct (pop_dev_mmap f (ps_vma len off w) (ps_k w)) as [[[[| |] []] k]| |] eqn:Em; try by intros [= <- <-].
  rewrite !andb_true_iff in Hc. destruct Hc as [[[Hc1 Hc2] Hc3] Hc4]. simpl in Hc2.
  intros [= <- <-] _. simpl. split_and!; [done|lia|by apply Z.eqb_eq|lia|apply Z_mod_mult|lia| |].
  - intros pg Hpg. unfold ps_mapped. simpl. by rewrite filter_cons_True.
  - exists k, []. split_and!; [exact Em|constructor|constructor].
Qed.

#[export] Program Instance psys_ok : PopSystem psys linux := {
  w_kernel := ps_k; w_file w fd := ps_fds w !! fd; w_maps := ps_mapped
}.
Next Obligation. done. Qed.
Next Obligation.
  intros path w fd w'. simpl. unfold ps_open.
  case_bool_decide as H1; [|case_bool_decide as H2; [|case_bool_decide as H3]].
  - intros [= <- <-]. subst path. split_and!; [done|done|]. intros _. simpl. rewrite lookup_insert_eq.
    split_and!; [done|done|]. intros name Hn. discriminate Hn.
  - intros [= <- <-]. subst path. split_and!; [done|done|]. intros _. simpl. rewrite lookup_insert_eq.
    split_and!; [done|done|]. intros name Hn. discriminate Hn.
  - destruct (pop_dev_open (ps_file w) (drop 9 path) (ps_k w)) as [[[| |] k]| |] eqn:Eo;
      intros [= <- <-]; (split_and!; [done|by intros [|]|]); try lia.
    intros _. split_and!; [done|done|]. intros name ->. exists (ps_file w). simpl.
    rewrite lookup_insert_eq. split; [exact Eo|done].
  - intros [= <- <-]. split_and!; [done|by intros [|]|lia].
Qed.
Next Obligation. done. Qed.
Next Obligation. done. Qed.
Next Obligation.
  intros fd r w ret r' w' Hf Hk. simpl in *. unfold ps_ioctl. rewrite Hf.
  set (k0 := with_env _ _). assert (kinv k0) as Hk0 by (apply kinv_quiet; [apply lx_put_quiet|done]).
  destruct (pop_ioctl_inv POP_P2PMEM_REG 64 k0 Hk0) as (r0 & k1 & E & _). rewrite E. intros [= <- <- <-].
  split; [done|]. exists 64, (lx_put r (k_env (ps_k w))).
  assert (copy_from_user 64 (lx_put r (k_env (ps_k w))) = Some r) as Hu by (simpl; by rewrite lookup_insert_eq).
  split_and!; [by apply lx_put_quiet..|done|exact E|].
  destruct (ioctl_reg_readable 64 k0 r r0 k1 Hu E) as [x Hx]. simpl in *. by rewrite Hx.
Qed.
Next Obligation. intros fd len off w a w' f Hf Hlen _ E Ha. by apply (ps_mmap_spec fd). Qed.
Next Obligation.
  intros fd o off w r w' Hf. simpl in *. unfold ps_lseek. destruct (off <? 0) eqn:Ho; intros [= <- <-].
  - by split_and!.
  - split_and!; [done|done|]. simpl. by rewrite lookup_insert_eq, Ho.
Qed.
Next Obligation.
  intros fd o w ret bytes w' Hf. unfold sys_read, psys_posix, ps_read. rewrite Hf. intros [= <- <- <-].
  split_and!; [done|done|by exists o|]. intros pg v f pfn k _ -> Hm Hfault.
  rewrite Z_div_mult by lia. unfold ps_entry. rewrite Hm, Hfault.
  pose proof (lx_fault_pfn _ _ _ _ _ Hfault). 
  change (length (le_bytes 8 (pfn + 2 ^ 63)) = 8%nat /\ entry_val (Some <$> le_bytes 8 (pfn + 2 ^ 63)) <> 0
    /\ entry_val (Some <$> le_bytes 8 (pfn + 2 ^ 63)) `mod` 2 ^ 55 = pfn).
  rewrite length_le_bytes, le_bytes_val.
  change (256 ^ Z.of_nat 8) with (2 ^ 64). rewrite Z.mod_small by lia. split_and!; [done|lia|].
  Z.to_euclidean_division_equations; lia.
Qed.

(** The machine before anything is registered, and its process. *)
Definition psys0 : psys := Psys kernel0 ∅ 3 [] 0x7f0000000 7%positive.
Definition pproc0 : proc psys := Proc ∅ ∅ ∅ ∅ 1%positive [] 0 0 psys0.

Lemma kinv_psys0 : kinv (w_kernel (p_os pproc0)).
Proof. exact kinv_kernel0. Qed.

Lemma device_memory_is_p2pmem_witness :
  exists s' m, pop_mem_init (Some (lit "17:00.0")) 0 pproc0 = Ret (Some 1%positive, s') /\
    p_mems s' !! 1%positive = Some m /\ m_size m = 65536 /\
    virt_to_phys_in m (m_mem m + 5000) = 0x101388 /\ kinv (w_kernel (p_os s')).
Proof.
  destruct (pop_mem_init (Some (lit "17:00.0")) 0 pproc0) as [[[l|] s']| |] eqn:E;
    [|exfalso; vm_compute in E; discriminate E..].
  destruct (device_memory_is_p2pmem (lit "17:00.0") 0 0x17 0 0 1 0 pproc0 l s')
    as (Hk & m & lD & D & wm & Hm & HpD & Hov & Hsz & _ & Hph);
    [reflexivity|lia|lia|lia|lia|lia|reflexivity|apply kinv_psys0|exact E|].
  assert (l = 1%positive /\ forall l D, listed (w_kernel (p_os s')) l D -> D = set_refcnt dev1 1) as [-> HD].
  { vm_compute in E. injection E as <- <-. split; [reflexivity|].
    intros l0 D0 [Hl H0]. apply list_elem_of_singleton in Hl. subst l0. vm_compute in H0. by injection H0 as <-. }
  destruct Hov as (HlD & Hrest). rewrite (HD lD D HlD) in *. exists s', m. split_and!; [done|done|by apply Hsz| |done].
  destruct (pagemap_readable (m_mem m) wm).
  - destruct Hph as [_ Hph].
    + split; [intros x Hx; simpl; lia|]. split; [reflexivity|]. split; [simpl; lia|].
      split; [simpl; lia|]. split; [simpl; lia|reflexivity].
    + rewrite Hph; [reflexivity|]. rewrite Hsz by reflexivity. simpl. lia.
  - exfalso. vm_compute in E. injection E as <-. vm_compute in Hm. injection Hm as <-. discriminate Hph.
Defined.
