(* ===== verification/Netmap.v ===== *)
(** * The netmap interface

    netmap's user header and its kernel module are not part of the repository:
    what lib/pop_netmap.c and the traffic generators call of them are the
    operations of [Netmap], and [NetmapOk] states their documented behaviour.
    Every program binds a descriptor to one ring (NR_REG_ONE_NIC), so a sync
    call acts on the ring that the caller holds.  [nm_instance] is an
    implementation the witnesses run on. *)

From S2P Require Import Prelude CStr LibpopH.

Class Netmap (W : Type) : Type := {
  NS_PHY_INDIRECT : Z;                               (* a slot flag *)
  nm_ring_next : netmap_ring -> Z -> Z;
  nm_ring_empty : netmap_ring -> bool;
  nm_ring_space : netmap_ring -> Z;
  nm_tx_pending : netmap_ring -> bool;
  sys_rxsync : Z -> netmap_ring -> W -> (Z * netmap_ring) * W;   (* ioctl(fd, NIOCRXSYNC, NULL) *)
  sys_txsync : Z -> netmap_ring -> W -> (Z * netmap_ring) * W    (* ioctl(fd, NIOCTXSYNC, NULL) *)
}.

(** A ring as netmap sets it up: as many slots as it says, and the indices in
    range. *)
Record ring_wf (r : netmap_ring) : Prop := RingWf {
  rw_slots : Z.of_nat (length (r_slot r)) = r_num_slots r;
  rw_num : 0 < r_num_slots r < 2 ^ 31;
  rw_head : 0 <= r_head r < r_num_slots r;
  rw_tail : 0 <= r_tail r < r_num_slots r
}.

(** The geometry of a ring does not change. *)
Definition same_shape (r r' : netmap_ring) : Prop :=
  r_num_slots r' = r_num_slots r /\ r_nr_buf_size r' = r_nr_buf_size r /\
  length (r_slot r') = length (r_slot r).

(** The documented behaviour.  The index after the last one is 0; a ring is
    empty when [head] has reached [tail]; the space is the number of slots from
    [head] to [tail]; after a sync, accepted or not, the indices are in range,
    and a sync of a ring with valid indices leaves [head] to the program. *)
Class NetmapOk (W : Type) `{Netmap W} : Prop := {
  nm_flag : 0 <= NS_PHY_INDIRECT < 2 ^ 16;
  nm_next_spec r i :
    0 <= i < r_num_slots r -> nm_ring_next r i = if i + 1 =? r_num_slots r then 0 else i + 1;
  nm_empty_spec r : nm_ring_empty r = (r_head r =? r_tail r);
  nm_space_spec r : ring_wf r -> nm_ring_space r = (r_tail r - r_head r) `mod` r_num_slots r;
  nm_rxsync_spec fd r w :
    let '((ret, r'), w') := sys_rxsync fd r w in
    same_shape r r' /\
    (Z.of_nat (length (r_slot r)) = r_num_slots r -> 0 < r_num_slots r < 2 ^ 31 -> ring_wf r') /\
    (ring_wf r -> r_head r' = r_head r);
  nm_txsync_spec fd r w :
    let '((ret, r'), w') := sys_txsync fd r w in
    same_shape r r' /\
    (Z.of_nat (length (r_slot r)) = r_num_slots r -> 0 < r_num_slots r < 2 ^ 31 -> ring_wf r') /\
    (ring_wf r -> r_head r' = r_head r)
}.

(** The distance from one index to another. *)
Lemma ring_distance h t n :
  0 <= h < n -> 0 <= t < n -> (t - h) `mod` n = if h <=? t then t - h else t - h + n.
Proof.
  intros Hh Ht. destruct (Z.leb_spec h t).
  - apply Z.mod_small. lia.
  - rewrite <- (Z_mod_plus_full (t - h) 1 n). rewrite Z.mod_small; lia.
Qed.

Definition with_indices (r : netmap_ring) (head cur : Z) : netmap_ring :=
  NmRing (r_num_slots r) (r_nr_buf_size r) head cur (r_tail r) (r_slot r).
Definition with_slots (r : netmap_ring) (l : list netmap_slot) : netmap_ring :=
  NmRing (r_num_slots r) (r_nr_buf_size r) (r_head r) (r_cur r) (r_tail r) l.

Lemma same_shape_trans r1 r2 r3 : same_shape r1 r2 -> same_shape r2 r3 -> same_shape r1 r3.
Proof. unfold same_shape. intros (-> & -> & ->) (-> & -> & ->). done. Qed.

Lemma ring_wf_indices r i c : ring_wf r -> 0 <= i < r_num_slots r -> ring_wf (with_indices r i c).
Proof. intros [? ? ? ?] ?. by constructor. Qed.

Lemma ring_wf_slots r l : ring_wf r -> length l = length (r_slot r) -> ring_wf (with_slots r l).
Proof. intros [? ? ? ?] E. constructor; simpl; [by rewrite E|done..]. Qed.

(** ** Rings in the memory of the process *)

Section rings.
Context {W : Type} `{Netmap W}.
Implicit Type s : proc W.

Definition load_ring (l : loc) : M (proc W) netmap_ring :=
  o ← gets (fun s => p_rings s !! l); require DanglingPtr o.
Definition store_ring (l : loc) (r : netmap_ring) : M (proc W) () :=
  modify (fun s => with_rings (<[l:=r]> (p_rings s)) s).

(** [slot = &ring->slot[idx]] and an assignment through [slot]. *)
Definition upd_slot (l : loc) (idx : Z) (f : netmap_slot -> netmap_slot) : M (proc W) () :=
  r ← load_ring l;
  x ← require OutOfBounds (r_slot r !! Z.to_nat idx);
  store_ring l (with_slots r (<[Z.to_nat idx:=f x]> (r_slot r))).

(** [ring->head = ring->cur = idx]. *)
Definition advance (l : loc) (idx : Z) : M (proc W) () :=
  r ← load_ring l; store_ring l (with_indices r idx idx).

(** A sync call: the ring comes back changed. *)
Definition sync (f : netmap_ring -> W -> (Z * netmap_ring) * W) (l : loc) : M (proc W) Z :=
  r ← load_ring l;
  x ← libc_ret (f r);
  _ ← store_ring l x.2;
  mret x.1.

Definition niocrxsync (fd : Z) (l : loc) : M (proc W) Z := sync (sys_rxsync fd) l.
Definition nioctxsync (fd : Z) (l : loc) : M (proc W) Z := sync (sys_txsync fd) l.

Lemma load_ring_Some l r s : p_rings s !! l = Some r -> load_ring l s = Ret (r, s).
Proof. intros E. unfold load_ring, gets, mbind, M_bind. by rewrite E. Qed.

(** What a call that only touches the ring [l] and the operating system leaves
    alone. *)
Definition ring_only (l : loc) s s' : Prop :=
  p_mems s' = p_mems s /\ p_bufs s' = p_bufs s /\ p_rxrings s' = p_rxrings s /\
  p_next s' = p_next s /\ p_oom s' = p_oom s /\
  (forall l', l' <> l -> p_rings s' !! l' = p_rings s !! l').

#[export] Instance ring_only_preorder l : PreOrder (ring_only l).
Proof.
  split; [done|]. unfold ring_only.
  intros s1 s2 s3 (-> & -> & -> & -> & -> & H1) (-> & -> & -> & -> & -> & H2).
  split_and!; try done. intros l' Hne. by rewrite H2, H1.
Qed.

Lemma sync_returns f l r s :
  p_rings s !! l = Some r ->
  exists ret r' w' s', f r (p_os s) = ((ret, r'), w') /\
    sync f l s = Ret (if ret <? 0 then -1 else ret, s') /\
    p_rings s' !! l = Some r' /\ ring_only l s s' /\ p_os s' = w'.
Proof.
  intros E. unfold sync. rewrite (bind_ret _ _ _ _ _ (load_ring_Some _ _ _ E)).
  unfold libc_ret, mbind, M_bind. destruct (f r (p_os s)) as [[ret r'] w']. exists ret, r', w'.
  destruct (ret <? 0); eexists; (split; [done|split; [done|]]); simpl;
    rewrite lookup_insert_eq; (split_and!; try done);
    unfold ring_only; simpl; (split_and!; try done); intros; by rewrite lookup_insert_ne.
Qed.

Lemma upd_slot_eq l idx f r x s :
  p_rings s !! l = Some r -> r_slot r !! Z.to_nat idx = Some x ->
  upd_slot l idx f s =
  Ret ((), with_rings (<[l:=with_slots r (<[Z.to_nat idx:=f x]> (r_slot r))]> (p_rings s)) s).
Proof.
  intros Hr Hx. unfold upd_slot. rewrite (bind_ret _ _ _ _ _ (load_ring_Some _ _ _ Hr)). by rewrite Hx.
Qed.
End rings.

(** ** An implementation *)

(** A device whose sync calls take over the ring as it is, with [nm_tail] as the
    next value of [tail]; a ring with bad indices is reinitialised. *)
Record nm_os : Type := NmOs { nm_tail : Z }.

Definition nm_sync (r : netmap_ring) (w : nm_os) : (Z * netmap_ring) * nm_os :=
  let n := r_num_slots r in
  if (0 <=? r_head r) && (r_head r <? n) then
    ((0, NmRing n (r_nr_buf_size r) (r_head r) (r_cur r) (nm_tail w `mod` n) (r_slot r)), w)
  else ((-22, NmRing n (r_nr_buf_size r) 0 0 0 (r_slot r)), w).

#[export] Instance nm_instance : Netmap nm_os := {
  NS_PHY_INDIRECT := 0x40;
  nm_ring_next r i := if i + 1 =? r_num_slots r then 0 else i + 1;
  nm_ring_empty r := r_head r =? r_tail r;
  nm_ring_space r := (r_tail r - r_head r) `mod` r_num_slots r;
  nm_tx_pending r := negb (((r_tail r + 1) `mod` r_num_slots r) =? r_head r);
  sys_rxsync _ r w := nm_sync r w;
  sys_txsync _ r w := nm_sync r w
}.

Lemma nm_sync_spec r w :
  let '((ret, r'), w') := nm_sync r w in
  same_shape r r' /\
  (Z.of_nat (length (r_slot r)) = r_num_slots r -> 0 < r_num_slots r < 2 ^ 31 -> ring_wf r') /\
  (ring_wf r -> r_head r' = r_head r).
Proof.
  unfold nm_sync. destruct (_ && _) eqn:E; (split; [done|]); split; intros; simpl; try done.
  - constructor; simpl; try done; [lia|]. apply Z.mod_pos_bound. lia.
  - constructor; simpl; done || lia.
  - match goal with Hw : ring_wf r |- _ => destruct Hw end. lia.
Qed.

#[export] Instance nm_ok : NetmapOk nm_os.
Proof. constructor; try done; intros; apply nm_sync_spec. Qed.
