(* ===== verification/PopNetmap.v ===== *)
(** * lib/pop_netmap.c: receive rings on pop memory

    [pop_nm_rxring_init] gives every slot of a netmap receive ring a piece of
    one pop buffer, so that the device writes packets there; [pop_nm_set_buf]
    points one slot at a pop buffer.  Log output is not modelled. *)

From S2P Require Import Prelude CStr LibpopH PopBuf Netmap.

Section pop_netmap.
Context {W : Type} `{Netmap W}.

Definition load_rxring (l : loc) : M (proc W) pop_nm_rxring :=
  o ← gets (fun s => p_rxrings s !! l); require DanglingPtr o.

(** [pop_buf_put(pbuf, size)] of a pointer that may be null. *)
Definition put_ptr (pbuf : option loc) (len : Z) : M (proc W) (option Z) :=
  l ← require NullDeref pbuf; pop_buf_put l len.

(** The body of the loop over the slots: [ring->nr_buf_size * idx] is computed
    in 32 bits, then added to the address. *)
Definition point_slot (ring pbuf : loc) (idx : Z) : M (proc W) () :=
  r ← load_ring ring;
  pa ← pop_buf_paddr pbuf;
  upd_slot ring idx (fun x =>
    NmSlot (s_len x) (Z.lor (s_flags x) NS_PHY_INDIRECT) (pa +64 u32 (r_nr_buf_size r * idx))).

(** [while (!nm_ring_empty(ring))]: one round. *)
Definition flush_body (ring : loc) (_ : ()) : M (proc W) (() + ()) :=
  r ← load_ring ring;
  if nm_ring_empty r then mret (inr ())
  else _ ← advance ring (nm_ring_next r (r_head r)); mret (inl ()).

Definition pop_nm_rxring_init (fd : Z) (ring mem : loc) : M (proc W) (option loc) :=
  r ← load_ring ring;
  let size := u32 (r_num_slots r * r_nr_buf_size r) in
  opbuf ← pop_buf_alloc mem size;
  _ ← put_ptr opbuf size;
  match opbuf with
  | None => mret None
  | Some pbuf =>
      _ ← for_each (seqZ 0 (r_num_slots r)) (fun idx _ => point_slot ring pbuf idx) ();
      r ← load_ring ring;
      _ ← store_ring ring (with_indices r (r_num_slots r -32 1) (r_num_slots r -32 1));
      _ ← niocrxsync fd ring;
      prxring ← malloc;
      match prxring with
      | None => mret None
      | Some l =>
          _ ← modify (fun s => with_rxrings (<[l:=RxRing pbuf ring]> (p_rxrings s)) s);
          _ ← while_ (flush_body ring) ();
          _ ← niocrxsync fd ring;
          mret (Some l)
      end
  end.

Definition pop_nm_ring (prxring : loc) : M (proc W) loc :=
  x ← load_rxring prxring; mret (rx_ring x).

Definition clear_slot (ring : loc) (idx : Z) : M (proc W) () :=
  upd_slot ring idx (fun x => NmSlot (s_len x) (Z.land (s_flags x) (Z.lnot NS_PHY_INDIRECT)) 0).

Definition pop_nm_rxring_exit (prxring : loc) : M (proc W) () :=
  ring ← pop_nm_ring prxring;
  r ← load_ring ring;
  _ ← for_each (seqZ 0 (r_num_slots r)) (fun idx _ => clear_slot ring idx) ();
  x ← load_rxring prxring;
  _ ← pop_buf_free (rx_pbuf x);
  modify (fun s => with_rxrings (delete prxring (p_rxrings s)) s).

Definition pop_nm_rxring_buf (prxring : loc) (idx : Z) : M (proc W) Z :=
  x ← load_rxring prxring;
  r ← load_ring (rx_ring x);
  data ← pop_buf_data (rx_pbuf x);
  mret (data +64 u32 (r_nr_buf_size r * idx)).

(** [slot->len] has 16 bits. *)
Definition pop_nm_set_buf (ring : loc) (idx : Z) (pbuf : loc) : M (proc W) () :=
  pa ← pop_buf_paddr pbuf;
  len ← pop_buf_len pbuf;
  upd_slot ring idx (fun x => NmSlot (u16 len) (Z.lor (s_flags x) NS_PHY_INDIRECT) pa).
End pop_netmap.

(** ** Lemmas *)

Section lemmas.
Context {W : Type} `{NetmapOk W}.
Implicit Type s : proc W.

Definition put_ring (ring : loc) (r : netmap_ring) s : proc W :=
  with_rings (<[ring:=r]> (p_rings s)) s.

Lemma put_ring_twice ring r1 r2 s : put_ring ring r1 (put_ring ring r2 s) = put_ring ring r1 s.
Proof. unfold put_ring, with_rings; simpl. by rewrite insert_insert_eq. Qed.

Lemma put_ring_only ring r s : ring_only ring s (put_ring ring r s).
Proof.
  unfold ring_only, put_ring; simpl. split_and!; try done. intros; by rewrite lookup_insert_ne.
Qed.

(** A loop over all the slots that changes each of them by [g]. *)
Lemma for_each_slots_from (body : Z -> () -> M (proc W) ()) (g : Z -> netmap_slot -> netmap_slot)
    ring r s pre todo :
  (forall idx u slots, body idx u (put_ring ring (with_slots r slots) s)
     = upd_slot ring idx (g idx) (put_ring ring (with_slots r slots) s)) ->
  for_each (seqZ (Z.of_nat (length pre)) (Z.of_nat (length todo))) body ()
    (put_ring ring (with_slots r (pre ++ todo)) s)
  = Ret ((), put_ring ring
      (with_slots r (pre ++ imap (fun i x => g (Z.of_nat (length pre + i)) x) todo)) s).
Proof.
  intros Hb. revert pre. induction todo as [|x todo IH]; intros pre; [done|].
  rewrite seqZ_cons by (simpl; lia).
  cbn [for_each]. set (s1 := put_ring ring (with_slots r (pre ++ x :: todo)) s).
  assert (upd_slot ring (Z.of_nat (length pre)) (g (Z.of_nat (length pre))) s1 =
    Ret ((), put_ring ring
      (with_slots r ((pre ++ [g (Z.of_nat (length pre)) x]) ++ todo)) s)) as E.
  { unfold s1. erewrite upd_slot_eq;
      [|apply lookup_insert_eq|simpl; rewrite Nat2Z.id, lookup_app_r, Nat.sub_diag by lia; done].
    f_equal. f_equal. unfold put_ring, with_rings, with_slots; simpl. rewrite insert_insert_eq, Nat2Z.id.
    rewrite insert_app_r_alt, Nat.sub_diag by lia. simpl. by rewrite <- app_assoc. }
  rewrite (bind_ret _ _ _ _ _ (eq_trans (Hb _ _ _) E)).
  replace (Z.succ (Z.of_nat (length pre))) with (Z.of_nat (length (pre ++ [g (Z.of_nat (length pre)) x])))
    by (rewrite length_app; simpl; lia).
  replace (Z.pred (Z.of_nat (length (x :: todo)))) with (Z.of_nat (length todo)) by (simpl; lia).
  rewrite IH. do 3 f_equal. rewrite <- app_assoc. f_equal. f_equal. simpl. f_equal; [f_equal; lia|].
  apply imap_ext. intros i y _. simpl. f_equal. rewrite length_app. simpl. lia.
Qed.

Lemma for_each_slots (body : Z -> () -> M (proc W) ()) (g : Z -> netmap_slot -> netmap_slot) ring r s :
  p_rings s !! ring = Some r -> Z.of_nat (length (r_slot r)) = r_num_slots r ->
  (forall idx u slots, body idx u (put_ring ring (with_slots r slots) s)
     = upd_slot ring idx (g idx) (put_ring ring (with_slots r slots) s)) ->
  for_each (seqZ 0 (r_num_slots r)) body () s
  = Ret ((), put_ring ring (with_slots r (imap (fun i x => g (Z.of_nat i) x) (r_slot r))) s).
Proof.
  intros Hr Hn Hb. pose proof (for_each_slots_from body g ring r s [] (r_slot r) Hb) as E.
  simpl in E. rewrite <- Hn. rewrite <- E. f_equal.
  unfold put_ring, with_rings, with_slots. destruct s, r; simpl in *. by rewrite insert_id.
Qed.

(** The flush takes as many rounds as there are packets waiting. *)
Lemma flush_iter ring d : forall r s,
  p_rings s !! ring = Some r -> ring_wf r ->
  (r_tail r - r_head r) `mod` r_num_slots r = Z.of_nat d ->
  exists r' s', iter_nat (flush_body ring) (S d) () s = Ret (inr (), s') /\
    p_rings s' !! ring = Some r' /\ ring_only ring s s' /\ p_os s' = p_os s /\
    ring_wf r' /\ r_head r' = r_tail r' /\ r_tail r' = r_tail r /\ r_slot r' = r_slot r /\ same_shape r r'.
Proof.
  induction d as [|d IH]; intros r s Hr Hwf Hd; pose proof Hwf as [Hl Hnum Hh Ht];
    rewrite ring_distance in Hd by done.
  - exists r, s. assert (r_head r = r_tail r) as E by (destruct (_ <=? _) eqn:E; lia).
    assert (flush_body ring () s = Ret (inr (), s)) as Ef.
    { unfold flush_body. rewrite (bind_ret _ _ _ _ _ (load_ring_Some _ _ _ Hr)), nm_empty_spec.
      by replace (_ =? _) with true by lia. }
    split_and!; try done. cbn [iter_nat]. by rewrite (bind_ret _ _ _ _ _ Ef).
  - assert (r_head r <> r_tail r) as Hne by (destruct (_ <=? _) eqn:E; lia).
    set (r1 := with_indices r (nm_ring_next r (r_head r)) (nm_ring_next r (r_head r))).
    assert (0 <= nm_ring_next r (r_head r) < r_num_slots r) as Hnx.
    { rewrite nm_next_spec by done. destruct (_ =? _) eqn:E; lia. }
    assert (flush_body ring () s = Ret (inl (), put_ring ring r1 s)) as Ef.
    { unfold flush_body. rewrite (bind_ret _ _ _ _ _ (load_ring_Some _ _ _ Hr)), nm_empty_spec.
      replace (_ =? _) with false by lia. unfold advance.
      rewrite bind_assoc, (bind_ret _ _ _ _ _ (load_ring_Some _ _ _ Hr)). done. }
    destruct (IH r1 (put_ring ring r1 s)) as (r' & s' & E & Hr' & Ho & Hos & Hw & Hht & Htt & Hs & Hsh).
    { apply lookup_insert_eq. }
    { by apply ring_wf_indices. }
    { simpl. rewrite ring_distance by done. rewrite nm_next_spec by done.
      destruct (Z.eqb_spec (r_head r + 1) (r_num_slots r)), (Z.leb_spec (r_head r) (r_tail r));
        match goal with |- context [?a <=? ?b] => destruct (Z.leb_spec a b) end; lia. }
    exists r', s'. split_and!; try done; [|by etransitivity; [apply put_ring_only|]].
    change (iter_nat (flush_body ring) (S (S d)) () s) with
      ((x ← flush_body ring (); then_iter x (iter_nat (flush_body ring) (S d))) s).
    by rewrite (bind_ret _ _ _ _ _ Ef).
Qed.

Lemma flush_spec ring r s :
  p_rings s !! ring = Some r -> ring_wf r ->
  exists r' s', while_ (flush_body ring) () s = Ret ((), s') /\
    p_rings s' !! ring = Some r' /\ ring_only ring s s' /\ p_os s' = p_os s /\
    ring_wf r' /\ r_head r' = r_tail r' /\ r_tail r' = r_tail r /\ r_slot r' = r_slot r /\ same_shape r r'.
Proof.
  intros Hr Hwf. pose proof Hwf as [Hl Hnum Hh Ht].
  destruct (flush_iter ring (Z.to_nat ((r_tail r - r_head r) `mod` r_num_slots r)) r s Hr Hwf)
    as (r' & s' & E & Hrest); [pose proof (Z.mod_pos_bound (r_tail r - r_head r) (r_num_slots r)); lia|].
  exists r', s'. split; [|done]. eapply while_exit; [exact E|]. apply loop_fuel_le.
  pose proof (Z.mod_pos_bound (r_tail r - r_head r) (r_num_slots r)). lia.
Qed.
End lemmas.

(** ** Properties *)

Section props.
Context {W : Type} `{NetmapOk W}.
Implicit Type s : proc W.

(** The ring that is handed to the device: slot [i] points at the [i]-th piece
    of the buffer, and [head] and [cur] stand on the last slot. *)
Definition pointed (r : netmap_ring) (pa : Z) : netmap_ring :=
  with_indices
    (with_slots r (imap (fun i x => NmSlot (s_len x) (Z.lor (s_flags x) NS_PHY_INDIRECT)
       (pa +64 u32 (r_nr_buf_size r * Z.of_nat i))) (r_slot r)))
    (r_num_slots r - 1) (r_num_slots r - 1).

(** What the first two statements leave: a buffer for all the slots that is
    full of data. *)
Definition full_buf (lm : loc) (m : pop_mem) (size : Z) : pop_buf :=
  set_window (next_buf lm m (pages_for size)) 0 size.

Lemma put_fresh lm m size s l :
  0 <= size -> pages_for size * 4096 < 2 ^ 64 -> p_bufs s !! l = Some (next_buf lm m (pages_for size)) ->
  exists v, pop_buf_put l size s = Ret (Some v, with_bufs (<[l:=full_buf lm m size]> (p_bufs s)) s).
Proof.
  intros Hs Hp Hb. destruct (proj1 (pages_for_spec size (pages_for size)) eq_refl).
  unfold pop_buf_put, buf_op. rewrite (bind_ret _ _ _ _ _ (load_buf_Some _ _ _ Hb)).
  unfold buf_put, next_buf; cbn [b_size b_offset b_length].
  change (0 +64 0) with 0. rewrite !(u64_small (0 + size)) by lia.
  replace (_ <? _) with false by lia. eexists. done.
Qed.

Lemma point_slots_eq ring pbuf r b s :
  p_rings s !! ring = Some r -> Z.of_nat (length (r_slot r)) = r_num_slots r ->
  p_bufs s !! pbuf = Some b ->
  for_each (seqZ 0 (r_num_slots r)) (fun idx _ => point_slot ring pbuf idx) () s =
  Ret ((), put_ring ring (with_slots r (imap (fun i x =>
    NmSlot (s_len x) (Z.lor (s_flags x) NS_PHY_INDIRECT)
      (buf_paddr b +64 u32 (r_nr_buf_size r * Z.of_nat i))) (r_slot r))) s).
Proof.
  intros Hr Hn Hb. apply (for_each_slots _ (fun idx x => NmSlot (s_len x)
    (Z.lor (s_flags x) NS_PHY_INDIRECT) (buf_paddr b +64 u32 (r_nr_buf_size r * idx)))); [done..|].
  intros idx u slots. unfold point_slot.
  erewrite bind_ret by (apply load_ring_Some, lookup_insert_eq).
  unfold pop_buf_paddr. rewrite bind_assoc.
  erewrite bind_ret by (by apply load_buf_Some). done.
Qed.

(** Allocating a buffer and putting data of its full size: the state between
    the two calls and the one after them. *)
Definition full_state (lm : loc) (m : pop_mem) (size : Z) s : proc W :=
  with_bufs (<[p_next s:=full_buf lm m size]> (p_bufs s)) (alloced_state lm m (pages_for size) [] s).

Lemma alloc_put lm m size s :
  p_mems s !! lm = Some m -> mem_ok m -> m_mutex m = false -> 0 <= size <= 2 ^ 64 - 4096 ->
  pages_for size <= m_num_pages m - m_alloced_pages m -> p_oom s = [] ->
  pop_buf_alloc lm size s = Ret (Some (p_next s), alloced_state lm m (pages_for size) [] s) /\
  exists v, pop_buf_put (p_next s) size (alloced_state lm m (pages_for size) [] s) =
    Ret (Some v, full_state lm m size s).
Proof.
  intros Hm Hok Hmu Hsz Hp Ho. pose proof (mo_num _ Hok). pose proof (mo_alloced _ Hok). split.
  - rewrite (pop_buf_alloc_eq lm size s m) by (done || lia).
    replace (_ <? _) with false by lia. by rewrite Ho.
  - destruct (put_fresh lm m size (alloced_state lm m (pages_for size) [] s) (p_next s)) as [v ->];
      [lia|lia|apply lookup_insert_eq|].
    exists v. unfold full_state, with_bufs, alloced_state. simpl. by rewrite insert_insert_eq.
Qed.

(** The state in which the loop over the slots starts. *)
Lemma rxring_alloc lm m size s :
  p_mems s !! lm = Some m -> mem_ok m -> m_mutex m = false -> 0 <= size < 2 ^ 32 ->
  pages_for size <= m_num_pages m - m_alloced_pages m -> p_oom s = [] ->
  let pbuf := p_next s in
  exists s2 v, pop_buf_alloc lm size s = Ret (Some pbuf, alloced_state lm m (pages_for size) [] s) /\
    pop_buf_put pbuf size (alloced_state lm m (pages_for size) [] s) = Ret (Some v, s2) /\
    p_bufs s2 !! pbuf = Some (full_buf lm m size) /\ p_rings s2 = p_rings s /\ p_oom s2 = [] /\
    p_os s2 = p_os s /\ p_next s2 = Pos.succ pbuf.
Proof.
  intros Hm Hok Hmu Hsz Hp Ho pbuf. destruct (alloc_put lm m size s) as [Ea [v Ev]]; [done..|lia|done|done|].
  exists (full_state lm m size s), v. split_and!; try done. apply lookup_insert_eq.
Qed.

(** From the store of [head] and [cur] to the end of the function. *)
Lemma rxring_handover fd ring pbuf r1 s :
  p_rings s !! ring = Some r1 -> Z.of_nat (length (r_slot r1)) = r_num_slots r1 ->
  0 < r_num_slots r1 < 2 ^ 31 -> p_oom s = [] ->
  exists ret2 r2 w2 r3 ret4 r4 w4 s',
    sys_rxsync fd r1 (p_os s) = ((ret2, r2), w2) /\
    r_head r3 = r_tail r3 /\ ring_wf r3 /\ sys_rxsync fd r3 w2 = ((ret4, r4), w4) /\
    (_ ← niocrxsync fd ring;
     prxring ← malloc;
     match prxring with
     | None => mret None
     | Some l =>
         _ ← modify (fun s => with_rxrings (<[l:=RxRing pbuf ring]> (p_rxrings s)) s);
         _ ← while_ (flush_body ring) ();
         _ ← niocrxsync fd ring;
         mret (Some l)
     end) s = Ret (Some (p_next s), s') /\
    p_rings s' !! ring = Some r4 /\ same_shape r1 r4 /\ p_bufs s' = p_bufs s /\ p_mems s' = p_mems s /\
    p_rxrings s' !! p_next s = Some (RxRing pbuf ring).
Proof.
  intros Hr Hn Hnum Ho. unfold niocrxsync.
  destruct (sync_returns (sys_rxsync fd) ring r1 s Hr) as (ret2 & r2 & w2 & s2 & E2 & Es2 & Hr2 & O2 & Hw2).
  pose proof (nm_rxsync_spec fd r1 (p_os s)) as Hsync. rewrite E2 in Hsync.
  destruct Hsync as (Hsh2 & Hwf2 & _). specialize (Hwf2 Hn Hnum).
  destruct O2 as (M2 & B2 & X2 & N2 & A2 & _).
  set (s3 := with_rxrings (<[p_next s:=RxRing pbuf ring]> (p_rxrings s2)) (with_alloc (Pos.succ (p_next s)) [] s2)).
  destruct (flush_spec ring r2 s3 Hr2 Hwf2) as (r3 & s4 & E4 & Hr3 & O4 & Hos4 & Hwf3 & Hht & _ & _ & Hsh3).
  destruct (sync_returns (sys_rxsync fd) ring r3 s4 Hr3) as (ret4 & r4 & w4 & s5 & E5 & Es5 & Hr4 & O5 & Hw4).
  pose proof (nm_rxsync_spec fd r3 (p_os s4)) as Hsync. rewrite E5 in Hsync. destruct Hsync as (Hsh4 & _).
  destruct O4 as (M4 & B4 & X4 & _). destruct O5 as (M5 & B5 & X5 & _).
  exists ret2, r2, w2, r3, ret4, r4, w4, s5.
  assert (p_os s4 = w2) as Hos by (rewrite Hos4; exact Hw2). rewrite Hos in E5.
  split_and!; try done.
  - rewrite (bind_ret _ _ _ _ _ Es2). unfold malloc. unfold mbind at 1, M_bind at 1.
    rewrite A2, Ho, N2. unfold modify at 1. unfold mbind at 1, M_bind at 1.
    simpl tail. fold s3. rewrite (bind_ret _ _ _ _ _ E4). by rewrite (bind_ret _ _ _ _ _ Es5).
  - eapply same_shape_trans; [done|]. by eapply same_shape_trans.
  - by rewrite B5, B4, <- B2.
  - by rewrite M5, M4, <- M2.
  - rewrite X5, X4. apply lookup_insert_eq.
Qed.

Lemma rxring_buf_eq l idx pbuf ring r b s :
  p_rxrings s !! l = Some (RxRing pbuf ring) -> p_rings s !! ring = Some r -> p_bufs s !! pbuf = Some b ->
  pop_nm_rxring_buf l idx s = Ret (buf_data b +64 u32 (r_nr_buf_size r * idx), s).
Proof.
  intros Hx Hr Hb. unfold pop_nm_rxring_buf, load_rxring, gets. rewrite !bind_assoc.
  unfold mbind at 1, M_bind at 1. rewrite Hx. unfold require at 1. unfold mbind at 1, M_bind at 1.
  unfold mret at 1, M_ret at 1. cbn [rx_ring rx_pbuf].
  rewrite (bind_ret _ _ _ _ _ (load_ring_Some _ _ _ Hr)). unfold pop_buf_data. rewrite bind_assoc.
  by rewrite (bind_ret _ _ _ _ _ (load_buf_Some _ _ _ Hb)).
Qed.

(** C18: [pop_nm_rxring_init] of a ring whose slots together need less than
    4 GiB, on a pop memory with room for them, returns: the flush loop ends
    whatever the device did.  Before the first sync every slot [i] carries
    [NS_PHY_INDIRECT] and the physical address of the [i]-th piece of one new
    buffer; the pieces lie inside the buffer one behind the other, and
    [pop_nm_rxring_buf] later returns for each the virtual address that
    translates to it.  The second sync finds no packet waiting. *)
Theorem rxring_init_maps fd ring lm r m s :
  p_rings s !! ring = Some r -> Z.of_nat (length (r_slot r)) = r_num_slots r ->
  0 < r_num_slots r < 2 ^ 31 -> 0 <= r_nr_buf_size r ->
  r_num_slots r * r_nr_buf_size r < 2 ^ 32 ->
  p_mems s !! lm = Some m -> mem_ok m -> m_mutex m = false -> m_size m = m_num_pages m * 4096 ->
  pages_for (r_num_slots r * r_nr_buf_size r) <= m_num_pages m - m_alloced_pages m ->
  p_oom s = [] ->
  exists l pbuf b s' ret2 r2 w2 r3 ret4 r4 w4,
    pop_nm_rxring_init fd ring lm s = Ret (Some l, s') /\
    p_rxrings s' !! l = Some (RxRing pbuf ring) /\ p_bufs s' !! pbuf = Some b /\
    b_length b = r_num_slots r * r_nr_buf_size r /\ buf_within m (m_num_pages m) b /\
    sys_rxsync fd (pointed r (b_paddr b)) (p_os s) = ((ret2, r2), w2) /\
    r_head r3 = r_tail r3 /\ sys_rxsync fd r3 w2 = ((ret4, r4), w4) /\ p_rings s' !! ring = Some r4 /\
    forall idx, 0 <= idx < r_num_slots r -> exists x v,
      r_slot (pointed r (b_paddr b)) !! Z.to_nat idx = Some x /\
      s_ptr x = b_paddr b + r_nr_buf_size r * idx /\
      s_ptr x + r_nr_buf_size r <= b_paddr b + b_size b /\
      pop_nm_rxring_buf l idx s' = Ret (v, s') /\ virt_to_phys_in m v = s_ptr x.
Proof.
  intros Hr Hn Hnum Hbs Hsz Hm Hok Hmu Hms Hp Ho. set (size := r_num_slots r * r_nr_buf_size r) in *.
  assert (0 <= size) as Hs0 by (unfold size; nia).
  destruct (proj1 (pages_for_spec size (pages_for size)) eq_refl).
  destruct (rxring_alloc lm m size s Hm Hok Hmu (conj Hs0 Hsz) Hp Ho)
    as (s2 & v & Ea & Ep & Hb2 & Hr2 & Ho2 & Hos2 & Hn2).
  destruct Hok as [Hk1 Hk2 Hk3 Hk4]. set (b := full_buf lm m size) in *.
  assert (buf_paddr b = b_paddr b /\ b_paddr b = m_paddr m + m_alloced_pages m * 4096 /\
    buf_data b = m_mem m + m_alloced_pages m * 4096) as (Hbp & Hbp' & Hbd).
  { unfold buf_paddr, buf_data, b; simpl. unwrap. lia. }
  assert (p_rings s2 !! ring = Some r) as Hr2' by (by rewrite Hr2).
  pose proof (point_slots_eq ring (p_next s) r b s2 Hr2' Hn Hb2) as Ef. rewrite Hbp in Ef.
  set (s3 := put_ring ring (pointed r (b_paddr b)) s2).
  destruct (rxring_handover fd ring (p_next s) (pointed r (b_paddr b)) s3)
    as (ret2 & r2 & w2 & r3 & ret4 & r4 & w4 & s' & E1 & E2 & Hwf3 & E3 & E4 & Hr4 & Hsh & Hb & _ & Hx);
    [apply lookup_insert_eq|simpl; by rewrite length_imap|done|done|].
  exists (p_next s3), (p_next s), b, s', ret2, r2, w2, r3, ret4, r4, w4.
  assert (pop_nm_rxring_init fd ring lm s = Ret (Some (p_next s3), s')) as E.
  { unfold pop_nm_rxring_init. rewrite (bind_ret _ _ _ _ _ (load_ring_Some _ _ _ Hr)). cbv zeta.
    rewrite u32_small by done. fold size. rewrite (bind_ret _ _ _ _ _ Ea).
    unfold put_ptr, require. rewrite bind_assoc. unfold mbind at 1, M_bind at 1. unfold mret at 1, M_ret at 1.
    rewrite (bind_ret _ _ _ _ _ Ep), (bind_ret _ _ _ _ _ Ef).
    erewrite bind_ret by (apply load_ring_Some, lookup_insert_eq).
    unfold store_ring, modify at 1. unfold mbind at 1, M_bind at 1. cbn [r_num_slots with_slots].
    rewrite !u32_small by lia. rewrite <- E4. f_equal. unfold s3, pointed.
    apply put_ring_twice. }
  change (p_os s3) with (p_os s2) in E1. rewrite Hos2 in E1.
  assert (p_bufs s' !! p_next s = Some b) as Hbs' by (rewrite Hb; exact Hb2).
  split_and!; try done.
  - unfold buf_within, b; simpl. lia.
  - intros idx Hidx. destruct (lookup_lt_is_Some_2 (r_slot r) (Z.to_nat idx)) as [x0 Hx0]; [lia|].
    assert (0 <= r_nr_buf_size r * idx /\ r_nr_buf_size r * idx + r_nr_buf_size r <= size) as Hin
      by (unfold size; nia).
    eexists _, (buf_data b + r_nr_buf_size r * idx). split_and!.
    + simpl. rewrite list_lookup_imap, Hx0. simpl. rewrite Z2Nat.id by lia. reflexivity.
    + simpl. unwrap. done.
    + simpl. unwrap. lia.
    + rewrite (rxring_buf_eq _ _ _ _ _ _ _ Hx Hr4 Hbs'). destruct Hsh as (_ & -> & _).
      cbn [r_nr_buf_size pointed with_indices with_slots]. unwrap. done.
    + unfold virt_to_phys_in. simpl. unwrap. rewrite orb_false_intro by lia. unwrap. lia.
Qed.

(** When [pop_buf_alloc] cannot serve the ring, [pop_nm_rxring_init]
    does not return NULL: it passes the null pointer to [pop_buf_put] before it
    is checked. *)
Theorem rxring_init_null_deref fd ring lm r m s :
  p_rings s !! ring = Some r -> p_mems s !! lm = Some m -> mem_ok m -> m_mutex m = false ->
  m_num_pages m - m_alloced_pages m < pages_for (u32 (r_num_slots r * r_nr_buf_size r)) ->
  pop_nm_rxring_init fd ring lm s = Fault NullDeref.
Proof.
  intros Hr Hm Hok Hmu Hp. unfold pop_nm_rxring_init.
  rewrite (bind_ret _ _ _ _ _ (load_ring_Some _ _ _ Hr)). cbv zeta.
  set (size := u32 _) in *. pose proof (u32_range (r_num_slots r * r_nr_buf_size r)) as Hr32. fold size in Hr32.
  assert (pop_buf_alloc lm size s = Ret (None, with_errno ENOBUFS s)) as E.
  { rewrite (pop_buf_alloc_eq lm size s m Hm Hok Hmu) by lia. by replace (_ <? _) with true by lia. }
  by rewrite (bind_ret _ _ _ _ _ E).
Qed.

(** [pop_nm_rxring_exit] takes every slot off the pop memory (the flag
    and the address are cleared, the length is kept), frees the buffer and the
    structure, and changes nothing else; a second call of it is a use after
    free. *)
Theorem rxring_exit_clears l pbuf ring r b s :
  p_rxrings s !! l = Some (RxRing pbuf ring) -> p_rings s !! ring = Some r ->
  Z.of_nat (length (r_slot r)) = r_num_slots r -> p_bufs s !! pbuf = Some b ->
  exists s', pop_nm_rxring_exit l s = Ret ((), s') /\
    p_rings s' = <[ring:=with_slots r ((fun x =>
      NmSlot (s_len x) (Z.ldiff (s_flags x) NS_PHY_INDIRECT) 0) <$> r_slot r)]> (p_rings s) /\
    p_bufs s' = delete pbuf (p_bufs s) /\ p_rxrings s' = delete l (p_rxrings s) /\
    p_mems s' = p_mems s /\ p_os s' = p_os s /\
    pop_nm_rxring_exit l s' = Fault DanglingPtr.
Proof.
  intros Hl Hr Hn Hb.
  assert (load_rxring l s = Ret (RxRing pbuf ring, s)) as E1.
  { unfold load_rxring, gets, mbind, M_bind. by rewrite Hl. }
  pose proof (for_each_slots (fun idx _ => clear_slot ring idx) (fun _ x =>
    NmSlot (s_len x) (Z.land (s_flags x) (Z.lnot NS_PHY_INDIRECT)) 0) ring r s Hr Hn
    (fun _ _ _ => eq_refl)) as E2.
  set (s1 := put_ring ring _ s) in E2.
  assert (load_rxring l s1 = Ret (RxRing pbuf ring, s1)) as E3.
  { unfold load_rxring, gets, mbind, M_bind. simpl. by rewrite Hl. }
  assert (p_bufs s1 !! pbuf = Some b) as Hb1 by done.
  eexists. split.
  { unfold pop_nm_rxring_exit, pop_nm_ring. rewrite bind_assoc, (bind_ret _ _ _ _ _ E1).
    cbn [rx_ring]. unfold mbind at 1, M_bind at 1. unfold mret at 1, M_ret at 1.
    rewrite (bind_ret _ _ _ _ _ (load_ring_Some _ _ _ Hr)), (bind_ret _ _ _ _ _ E2).
    rewrite (bind_ret _ _ _ _ _ E3). unfold pop_buf_free. rewrite bind_assoc.
    cbn [rx_pbuf]. rewrite (bind_ret _ _ _ _ _ (load_buf_Some _ _ _ Hb1)). reflexivity. }
  simpl. split_and!; try done.
  - f_equal. f_equal. rewrite <- imap_const. apply imap_ext. intros i x _. simpl.
    f_equal. by rewrite Z.ldiff_land.
  - unfold pop_nm_rxring_exit, pop_nm_ring, load_rxring, gets. rewrite !bind_assoc.
    unfold mbind at 1, M_bind at 1. simpl. by rewrite lookup_delete_eq.
Qed.

(** [pop_nm_set_buf] gives the slot the physical address of the first
    byte of the buffer's data; the length it gives is that of the data when the
    data starts at the start of the buffer and has less than 64 KiB, but it is
    short by the offset when data was pulled off. *)
Theorem pop_nm_set_buf_len ring idx l r x b s :
  p_rings s !! ring = Some r -> r_slot r !! Z.to_nat idx = Some x -> p_bufs s !! l = Some b ->
  0 <= b_paddr b -> 0 <= b_offset b -> b_paddr b + b_offset b < 2 ^ 64 ->
  b_offset b <= b_length b < 2 ^ 16 ->
  exists s' x', pop_nm_set_buf ring idx l s = Ret ((), s') /\
    p_rings s' = <[ring:=with_slots r (<[Z.to_nat idx:=x']> (r_slot r))]> (p_rings s) /\
    s_ptr x' = b_paddr b + b_offset b /\ s_flags x' = Z.lor (s_flags x) NS_PHY_INDIRECT /\
    s_len x' = b_length b - b_offset b.
Proof.
  intros Hr Hx Hb Hp Ho Hpo Hl. unfold pop_nm_set_buf, pop_buf_paddr, pop_buf_len.
  rewrite bind_assoc, (bind_ret _ _ _ _ _ (load_buf_Some _ _ _ Hb)). unfold mbind at 1, M_bind at 1.
  unfold mret at 1, M_ret at 1. rewrite bind_assoc, (bind_ret _ _ _ _ _ (load_buf_Some _ _ _ Hb)).
  unfold mbind at 1, M_bind at 1. unfold mret at 1, M_ret at 1.
  rewrite (upd_slot_eq _ _ _ _ _ _ Hr Hx). eexists _, _. split; [done|]. split; [done|]. simpl.
  unfold buf_paddr, buf_len. unwrap. done.
Qed.
End props.

(** ** Witnesses *)

(** A process with the pop memory [mem4] and a ring of four slots of 2048
    bytes. *)
Definition ring4 : netmap_ring := NmRing 4 2048 0 0 3 (replicate 4 (NmSlot 60 0 0)).
Definition nm_proc : proc nm_os :=
  Proc {[1%positive := mem4]} ∅ ∅ {[9%positive := ring4]} 2%positive [] 0 0 (NmOs 2).

Lemma rxring_init_maps_witness :
  exists l s', pop_nm_rxring_init 7 9%positive 1%positive nm_proc = Ret (Some l, s') /\
    exists v, pop_nm_rxring_buf l 3 s' = Ret (v, s') /\ virt_to_phys_in mem4 v = 0x100001800.
Proof.
  destruct (rxring_init_maps 7 9%positive 1%positive ring4 mem4 nm_proc)
    as (l & pbuf & b & s' & ret2 & r2 & w2 & r3 & ret4 & r4 & w4 & E & Hl & Hb & _ & _ & _ & _ & _ & _ & H);
    [reflexivity|reflexivity|simpl; lia|simpl; lia|simpl; lia|reflexivity|apply mem_okb_ok; reflexivity
    |reflexivity|reflexivity|vm_compute; discriminate|reflexivity|].
  exists l, s'. split; [exact E|]. destruct (H 3) as (x & v & _ & Hx & _ & Hv & Hp); [simpl; lia|].
  exists v. split; [exact Hv|]. rewrite Hp, Hx. clear H Hx Hv Hp.
  vm_compute in E. injection E as <- <-. vm_compute in Hl. injection Hl as <-.
  vm_compute in Hb. injection Hb as <-. reflexivity.
Defined.

Lemma rxring_init_null_deref_witness :
  pop_nm_rxring_init 7 9%positive 1%positive
    (with_rings {[9%positive := NmRing 256 2048 0 0 0 []]} nm_proc) = Fault NullDeref.
Proof.
  apply (rxring_init_null_deref 7 9%positive 1%positive (NmRing 256 2048 0 0 0 []) mem4);
    [reflexivity|reflexivity|apply mem_okb_ok; reflexivity|reflexivity|reflexivity].
Defined.

(** The process after [pop_nm_rxring_init]. *)
Definition nm_proc' : proc nm_os :=
  match pop_nm_rxring_init 7 9%positive 1%positive nm_proc with Ret (_, s) => s | _ => nm_proc end.

Lemma rxring_exit_clears_witness :
  exists s' r, pop_nm_rxring_exit 3%positive nm_proc' = Ret ((), s') /\ p_bufs s' = ∅ /\
    p_rings s' !! 9%positive = Some r /\ s_ptr <$> r_slot r = replicate 4 0.
Proof.
  destruct (p_rings nm_proc' !! 9%positive) as [r0|] eqn:Er; [|vm_compute in Er; discriminate].
  destruct (p_bufs nm_proc' !! 2%positive) as [b|] eqn:Eb; [|vm_compute in Eb; discriminate].
  destruct (rxring_exit_clears 3%positive 2%positive 9%positive r0 b nm_proc')
    as (s' & E & Hr & Hb & _);
    [reflexivity|exact Er|vm_compute in Er; injection Er as <-; reflexivity|exact Eb|].
  exists s'. eexists. split; [exact E|]. rewrite Hb, Hr. split; [reflexivity|].
  split; [apply lookup_insert_eq|]. vm_compute in Er. injection Er as <-. reflexivity.
Defined.

(** A process whose slot 1 is to carry a buffer of 8 bytes after a pull of 3. *)
Lemma pop_nm_set_buf_len_witness :
  exists s' x', pop_nm_set_buf 9%positive 1 5%positive
    (with_bufs {[5%positive := set_window buf8 3 5]} nm_proc) = Ret ((), s') /\
    p_rings s' = <[9%positive:=with_slots ring4 (<[1%nat:=x']> (r_slot ring4))]> (p_rings nm_proc) /\
    s_ptr x' = 0x100000003 /\ s_len x' = 2.
Proof.
  destruct (pop_nm_set_buf_len 9%positive 1 5%positive ring4 (NmSlot 60 0 0) (set_window buf8 3 5)
    (with_bufs {[5%positive := set_window buf8 3 5]} nm_proc)) as (s' & x' & E & Hr & Hp & _ & Hl);
    [reflexivity|reflexivity|reflexivity|simpl; lia|simpl; lia|simpl; lia|simpl; lia|].
  exists s', x'. split; [exact E|]. split; [exact Hr|]. rewrite Hp, Hl. split; reflexivity.
Defined.
