(* ===== verification/Unvme.v ===== *)
(** * The UNVMe interface

    UNVMe, the user space NVMe driver, is a git submodule that is not part of
    the sources: what the programs under apps/ call of it are the operations of
    [Unvme], and [UnvmeOk] states what they rely on.  A descriptor of an
    asynchronous command is a number. *)

From S2P Require Import Prelude CStr LibpopH.

Class Unvme (W : Type) : Type := {
  un_blocksize : Z;                                 (* of the namespace *)
  un_blockshift : Z;
  unvme_aread : Z -> Z -> Z -> Z -> W -> Z * W;     (* queue, buffer, block, number of blocks *)
  unvme_awrite : Z -> Z -> Z -> Z -> W -> Z * W;
  unvme_apoll : Z -> W -> Z * W;                    (* 0 when the command has completed *)
  unvme_write : Z -> Z -> Z -> Z -> W -> Z * W;     (* returns when it has completed, 0 if it succeeded *)
  unvme_open : option cstr -> W -> bool * W;        (* whether the namespace is not NULL *)
  unvme_register_pop_mem : option loc -> W -> Z * W;
  unvme_close : W -> Z * W
}.

Arguments un_blocksize W {_}.
Arguments un_blockshift W {_}.

(** A call into the outside world. *)
Definition os_call {W A : Type} (f : W -> A * W) : M (proc W) A := fun s =>
  let '(a, w) := f (p_os s) in Ret (a, with_os w s).

Lemma os_call_eq {W A : Type} (f : W -> A * W) (s : proc W) :
  os_call f s = Ret ((f (p_os s)).1, with_os (f (p_os s)).2 s).
Proof. unfold os_call. by destruct (f (p_os s)). Qed.

(** A command as it was submitted. *)
Record io : Type := Io {
  io_write : bool; io_qid : Z; io_buf : Z; io_lba : Z; io_nblocks : Z
}.

(** [un_log] is the history of submitted commands: each submission adds its
    command and a poll adds none.  The block size is the power of two that the
    shift says. *)
Class UnvmeOk (W : Type) `{Unvme W} : Type := {
  un_log : W -> list io;
  un_block : 0 <= un_blockshift W <= 30 /\ un_blocksize W = 2 ^ un_blockshift W;
  un_aread_log q buf lba n w : un_log (unvme_aread q buf lba n w).2 = un_log w ++ [Io false q buf lba n];
  un_awrite_log q buf lba n w : un_log (unvme_awrite q buf lba n w).2 = un_log w ++ [Io true q buf lba n];
  un_apoll_log d w : un_log (unvme_apoll d w).2 = un_log w;
  un_write_log q buf lba n w : un_log (unvme_write q buf lba n w).2 = un_log w ++ [Io true q buf lba n];
  un_open_log name w : un_log (unvme_open name w).2 = un_log w;
  un_register_log mem w : un_log (unvme_register_pop_mem mem w).2 = un_log w;
  un_close_log w : un_log (unvme_close w).2 = un_log w
}.
Arguments un_block W {_ _}.
