(* ===== verification/Lba.v ===== *)
(** * Walking over an NVMe namespace

    [next_lba] of apps/nvgen.c, apps/bench-nvme.c and apps/generator.c, and the
    split of the blocks among the threads of each program; BenchNvme.v, Nvgen.v
    and Generator.v use them.  The value [rand]
    returns is an argument. *)

From S2P Require Import Prelude.

(** ** [next_lba] *)

(** [rand() % (lba_end - lba_start - nblocks) + lba_start]. *)
Definition random_lba (rnd lba_start lba_end nblocks : Z) : outcome Z :=
  let d := lba_end -64 lba_start -64 nblocks in
  if d =? 0 then Fault DivByZero else Ret (rnd `mod` d +64 lba_start).

Module Nvgen.
Definition WALK_MODE_SEQ : Z := 0.
Definition WALK_MODE_RANDOM : Z := 1.
Definition WALK_MODE_SAME : Z := 2.

Definition nvgen_next_lba (rnd walk lba lba_start lba_end nblocks : Z) : outcome Z :=
  if walk =? WALK_MODE_SEQ then
    Ret (if lba +64 (nblocks <<64 1) <? lba_end then lba +64 nblocks else lba_start)
  else if walk =? WALK_MODE_RANDOM then random_lba rnd lba_start lba_end nblocks
  else if walk =? WALK_MODE_SAME then Ret lba
  else Ret 0.

(** The range of a thread: [gen->lba_end / gen->ncpus * th->cpu] and so on. *)
Definition nvgen_range (lba_end ncpus cpu : Z) : outcome (Z * Z) :=
  if ncpus =? 0 then Fault DivByZero
  else Ret (lba_end / u64 ncpus *64 cpu, lba_end / u64 ncpus *64 (cpu + 1)).
End Nvgen.

Module Bench.
Definition WALK_RANDOM : Z := 0.
Definition WALK_SEQ : Z := 1.
Definition WALK_SAME : Z := 2.
Definition SPLIT_EQUAL : Z := 0.
Definition SPLIT_NOSPLIT : Z := 1.

Definition bench_next_lba (rnd walk lba lba_start lba_end nblocks : Z) : outcome Z :=
  if walk =? WALK_RANDOM then random_lba rnd lba_start lba_end nblocks
  else if walk =? WALK_SAME then Ret lba
  else if walk =? WALK_SEQ then
    Ret (if lba +64 (nblocks <<64 1) <? lba_end then lba +64 nblocks else lba_start)
  else Ret 0.

(** The [switch (p.split)] of [main]; [th] was cleared before. *)
Definition bench_range (split lba_end ncpus n : Z) : outcome (Z * Z) :=
  if split =? SPLIT_EQUAL then
    if ncpus =? 0 then Fault DivByZero
    else Ret (lba_end / u64 ncpus *64 n, lba_end / u64 ncpus *64 (n + 1))
  else if split =? SPLIT_NOSPLIT then Ret (0, lba_end)
  else Ret (0, 0).
End Bench.

Module Generator.
Definition WALK_MODE_SEQ : Z := 0.
Definition WALK_MODE_RANDOM : Z := 1.

Definition generator_next_lba (rnd walk lba lba_start lba_end nblocks : Z) : outcome Z :=
  if walk =? WALK_MODE_SEQ then
    Ret (if lba +64 nblocks <? lba_end then lba +64 nblocks else lba_start)
  else if walk =? WALK_MODE_RANDOM then random_lba rnd lba_start lba_end nblocks
  else Ret 0.

Definition generator_range (lba_start lba_end ncpus n : Z) : outcome (Z * Z) :=
  if ncpus =? 0 then Fault DivByZero
  else Ret ((lba_end -64 lba_start) / u64 ncpus *64 n, (lba_end -64 lba_start) / u64 ncpus *64 (n + 1)).
End Generator.

(** ** Walks *)

(** The blocks a command transfers lie in the range of the thread. *)
Definition in_range (lo hi n lba : Z) : Prop := lo <= lba /\ lba + n <= hi.

Lemma random_in_range rnd lo hi n :
  0 <= rnd < 2 ^ 31 -> 0 <= lo -> 0 <= n -> lo + n < hi -> hi < 2 ^ 63 ->
  exists x, random_lba rnd lo hi n = Ret x /\ in_range lo hi n x.
Proof.
  intros Hr Hlo Hn Hlt Hhi. unfold random_lba, in_range.
  rewrite (u64_small (hi - lo)), (u64_small (hi - lo - n)) by lia.
  replace (_ =? 0) with false by lia. pose proof (Z.mod_pos_bound rnd (hi - lo - n)).
  eexists. split; [done|]. unwrap. lia.
Qed.

(** One step of the walks that look two commands ahead. *)
Lemma seq_ahead_in_range lba lo hi n :
  0 <= lo -> 0 < n -> lo + n <= hi -> hi < 2 ^ 62 -> in_range lo hi n lba ->
  in_range lo hi n (if lba +64 (n <<64 1) <? hi then lba +64 n else lo).
Proof.
  unfold in_range. intros Hlo Hn Hle Hhi Hin. rewrite Z.shiftl_mul_pow2 by lia. change (2 ^ 1) with 2.
  unwrap. destruct (Z.ltb_spec (lba + n * 2) hi); lia.
Qed.

Lemma nvgen_step rnd walk lba lo hi n :
  0 <= rnd < 2 ^ 31 -> walk = 0 \/ walk = 1 \/ walk = 2 ->
  0 <= lo -> 0 < n -> lo + n < hi -> hi < 2 ^ 62 -> in_range lo hi n lba ->
  exists x, Nvgen.nvgen_next_lba rnd walk lba lo hi n = Ret x /\ in_range lo hi n x.
Proof.
  intros Hr Hw Hlo Hn Hlt Hhi Hin. unfold Nvgen.nvgen_next_lba.
  destruct Hw as [->|[->| ->]]; simpl; [|apply random_in_range; lia|by eexists].
  eexists. split; [done|]. apply seq_ahead_in_range; lia || done.
Qed.

Lemma bench_step rnd walk lba lo hi n :
  0 <= rnd < 2 ^ 31 -> walk = 0 \/ walk = 1 \/ walk = 2 ->
  0 <= lo -> 0 < n -> lo + n < hi -> hi < 2 ^ 62 -> in_range lo hi n lba ->
  exists x, Bench.bench_next_lba rnd walk lba lo hi n = Ret x /\ in_range lo hi n x.
Proof.
  intros Hr Hw Hlo Hn Hlt Hhi Hin. unfold Bench.bench_next_lba.
  destruct Hw as [->|[->| ->]]; simpl; [apply random_in_range; lia| |by eexists].
  eexists. split; [done|]. apply seq_ahead_in_range; lia || done.
Qed.

(** ** Ranges of the threads *)

(** The part of thread [i] when [total] blocks are split among [ncpus]. *)
Definition part (total ncpus i : Z) : Z * Z := (total / ncpus * i, total / ncpus * (i + 1)).

Lemma part_bounds total ncpus i :
  0 <= total -> 0 < ncpus -> 0 <= i < ncpus ->
  0 <= (part total ncpus i).1 <= (part total ncpus i).2 /\ (part total ncpus i).2 <= total.
Proof.
  intros Ht Hn Hi. unfold part; simpl.
  assert (0 <= total / ncpus) by (apply Z.div_pos; lia).
  pose proof (Z.mul_div_le total ncpus). split; nia.
Qed.

Lemma part_disjoint total ncpus i j :
  0 <= total -> 0 < ncpus -> 0 <= i -> i < j -> (part total ncpus i).2 <= (part total ncpus j).1.
Proof.
  intros Ht Hn Hi Hj. unfold part; simpl. assert (0 <= total / ncpus) by (apply Z.div_pos; lia). nia.
Qed.

Lemma nvgen_range_part total ncpus i :
  0 <= total < 2 ^ 62 -> 0 < ncpus < 2 ^ 31 -> 0 <= i < ncpus ->
  Nvgen.nvgen_range total ncpus i = Ret (part total ncpus i).
Proof.
  intros Ht Hn Hi. unfold Nvgen.nvgen_range. replace (ncpus =? 0) with false by lia.
  rewrite (u64_small ncpus) by lia. pose proof (part_bounds total ncpus i) as Hb. unfold part in *; simpl in *.
  by rewrite !u64_small by lia.
Qed.

Lemma bench_range_part total ncpus i :
  0 <= total < 2 ^ 62 -> 0 < ncpus < 2 ^ 31 -> 0 <= i < ncpus ->
  Bench.bench_range 0 total ncpus i = Ret (part total ncpus i).
Proof. apply nvgen_range_part. Qed.

Lemma generator_range_part lo total ncpus i :
  0 <= lo <= total -> total < 2 ^ 62 -> 0 < ncpus < 2 ^ 31 -> 0 <= i < ncpus ->
  Generator.generator_range lo total ncpus i = Ret (part (total - lo) ncpus i).
Proof.
  intros Ht Hlo Hn Hi. unfold Generator.generator_range. rewrite (u64_small (total - lo)) by lia.
  apply nvgen_range_part; lia.
Qed.

(** ** Properties *)

(** Generator's sequential walk compares the start of the next command
    with the end of the range, not its end.  It stays inside the range when the
    command size divides the range, and otherwise issues, once it gets to the
    last whole command, one that runs over the end, into the next thread's
    blocks. *)
Theorem generator_seq_overruns rnd lo hi n k :
  0 <= lo -> 0 < n -> hi < 2 ^ 62 -> 0 <= k -> lo + (k + 1) * n < hi ->
  let lba := lo + k * n in
  let lba' := lba + n in
  Generator.generator_next_lba rnd 0 lba lo hi n = Ret lba' /\
  ((hi - lo) `mod` n = 0 -> in_range lo hi n lba') /\
  ((hi - lo) `mod` n <> 0 -> hi < lo + (k + 2) * n -> ~ in_range lo hi n lba').
Proof.
  intros Hlo Hn Hhi Hk Hlt lba lba'. unfold Generator.generator_next_lba, in_range. simpl.
  assert (lba + n < hi) by (unfold lba; nia). assert (0 <= lba) by (unfold lba; nia). unwrap.
  replace (lba + n <? hi) with true by lia. split_and!; [done| |].
  - intros Hm. apply Z.div_exact in Hm; [|lia]. unfold lba', lba. split; [nia|].
    assert (k + 1 < (hi - lo) / n) by nia. nia.
  - intros Hm Hend [_ Hle]. unfold lba', lba in Hle. nia.
Qed.

(** Generator's threads split the right number of blocks but from block
    0 on: the start address (-s) is subtracted and never added again, so with a
    start address the first thread works below it. *)
Theorem generator_ignores_start lo total ncpus i :
  0 <= lo <= total -> total < 2 ^ 62 -> 0 < ncpus < 2 ^ 31 -> 0 <= i < ncpus ->
  Generator.generator_range lo total ncpus i = Generator.generator_range 0 (total - lo) ncpus i /\
  Generator.generator_range lo total ncpus 0 = Ret (0, (total - lo) / ncpus).
Proof.
  intros Hlo Ht Hn Hi. rewrite !generator_range_part by lia. split; [by rewrite Z.sub_0_r|].
  unfold part. do 2 f_equal; lia.
Qed.

(** A random walk faults with a division by zero when the range is as
    large as one command, in each of the three programs. *)
Theorem random_walk_div_by_zero rnd lba lo n :
  0 <= lo -> 0 <= n -> lo + n < 2 ^ 64 ->
  Nvgen.nvgen_next_lba rnd 1 lba lo (lo + n) n = Fault DivByZero /\
  Bench.bench_next_lba rnd 0 lba lo (lo + n) n = Fault DivByZero /\
  Generator.generator_next_lba rnd 1 lba lo (lo + n) n = Fault DivByZero.
Proof.
  intros Hlo Hn Hlt.
  assert (random_lba rnd lo (lo + n) n = Fault DivByZero) as E.
  { unfold random_lba. rewrite (u64_small (lo + n - lo)) by lia.
    by replace (lo + n - lo - n) with 0 by lia. }
  by split_and!.
Qed.

(** The sequential walk of nvgen looks one command of the present size ahead.
    Its commands are as large as the ring has room for, and a larger one after a
    smaller one may run over the end of the range. *)
Lemma nvgen_seq_resize rnd lba lo hi n n' :
  0 <= lba -> 0 < n -> lba + 2 * n < hi -> hi < 2 ^ 62 -> hi < lba + n + n' ->
  Nvgen.nvgen_next_lba rnd 0 lba lo hi n = Ret (lba + n) /\ in_range (lba + n) hi n (lba + n) /\
  ~ in_range lo hi n' (lba + n).
Proof.
  intros Hl Hn Hhi Hm Hn'. unfold Nvgen.nvgen_next_lba, in_range. simpl.
  rewrite Z.shiftl_mul_pow2 by lia. change (2 ^ 1) with 2. unwrap.
  replace (_ <? hi) with true by lia. split_and!; [done|lia|lia|lia].
Qed.

(** ** Witnesses *)

Lemma generator_seq_overruns_witness :
  Generator.generator_next_lba 0 0 4 0 11 4 = Ret 8 /\ ~ in_range 0 11 4 8.
Proof.
  destruct (generator_seq_overruns 0 0 11 4 1) as (E & _ & H); [lia..|].
  split; [exact E|]. apply H; [vm_compute; discriminate|lia].
Defined.

Lemma generator_ignores_start_witness :
  Generator.generator_range 0x1000 0x2000 4 0 = Ret (0, 0x400).
Proof. apply (generator_ignores_start 0x1000 0x2000 4 0); lia. Defined.

Lemma random_walk_div_by_zero_witness : Generator.generator_next_lba 7 1 0 0 16 16 = Fault DivByZero.
Proof. apply (random_walk_div_by_zero 7 0 0 16); lia. Defined.
