(* ===== verification/NvRing.v ===== *)
(** * The ring between NVMe and netmap of apps/nvgen.c

    [struct nvgen_ring] and its operations: one thread fills slots from NVMe and
    moves [head], another sends them and moves [tail].  The specification is a
    queue that counts what was written and read so far; the theorems say where
    the operations agree with it and where they do not. *)

From S2P Require Import Prelude.

Definition SLOT_NUM : Z := 256.

(** All three fields are [uint32_t]. *)
Record nvgen_ring : Type := NvRing { nr_head : Z; nr_tail : Z; nr_mask : Z }.

Definition nvgen_ring_init : nvgen_ring := NvRing 0 0 (SLOT_NUM - 1).

Definition ring_empty (r : nvgen_ring) : bool := nr_head r =? nr_tail r.
Definition ring_full (r : nvgen_ring) : bool := Z.land (nr_head r +32 1) (nr_mask r) =? nr_tail r.

Definition ring_write_next (r : nvgen_ring) (head : Z) : Z := Z.land (head +32 1) (nr_mask r).
Definition ring_write_next_batch (r : nvgen_ring) (head batch : Z) : Z :=
  Z.land (head +32 batch) (nr_mask r).
Definition ring_read_next (r : nvgen_ring) (tail : Z) : Z := Z.land (tail +32 1) (nr_mask r).

(** The macro: the comparison is one of unsigned integers. *)
Definition ring_read_avail (r : nvgen_ring) : Z :=
  if nr_head r -32 nr_tail r <? 0 then nr_head r -32 nr_tail r +32 SLOT_NUM
  else nr_head r -32 nr_tail r.

(** [remain] is an [int]; the result is a [uint32_t]. *)
Definition ring_write_avail (r : nvgen_ring) : Z :=
  let remain := i32 (nr_tail r -32 nr_head r) in
  if remain =? 0 then SLOT_NUM
  else u32 (if remain <? 0 then remain + (SLOT_NUM - 1) else remain).

(** ** The queue *)

(** [w] slots were written and [rd] read since the start; a ring of 256 slots
    whose indices say which is which holds at most 255. *)
Definition counts (w rd : Z) (r : nvgen_ring) : Prop :=
  0 <= rd <= w /\ w - rd <= 255 /\ nr_head r = w `mod` 256 /\ nr_tail r = rd `mod` 256 /\ nr_mask r = 255.

(** The written slots lie in one piece. *)
Definition unwrapped (r : nvgen_ring) : Prop := nr_tail r <= nr_head r.

Lemma land_mask z : Z.land z 255 = z `mod` 256.
Proof. change 255 with (2 ^ 8 - 1). by rewrite land_ones_mod. Qed.

Lemma mod_mod_32 z : u32 z `mod` 256 = z `mod` 256.
Proof. unfold u32. wrap_lia. Qed.

Lemma next_batch_counts r h n :
  nr_mask r = 255 -> ring_write_next_batch r (h `mod` 256) n = (h + n) `mod` 256.
Proof.
  intros E. unfold ring_write_next_batch. rewrite E, land_mask, mod_mod_32.
  by rewrite Zplus_mod_idemp_l.
Qed.

(** The two indices tell how full the ring is. *)
Lemma counts_filled w rd r :
  counts w rd r ->
  w - rd = if nr_tail r <=? nr_head r then nr_head r - nr_tail r else nr_head r - nr_tail r + 256.
Proof.
  intros (H1 & H2 & Eh & Et & _). rewrite Eh, Et.
  destruct (Z.leb_spec (rd `mod` 256) (w `mod` 256)); Z.to_euclidean_division_equations; lia.
Qed.

Lemma counts_range w rd r : counts w rd r -> 0 <= nr_head r < 256 /\ 0 <= nr_tail r < 256.
Proof.
  intros (_ & _ & -> & -> & _).
  pose proof (Z.mod_pos_bound w 256). pose proof (Z.mod_pos_bound rd 256). lia.
Qed.

Lemma write_avail_eq r :
  0 <= nr_head r < 256 -> 0 <= nr_tail r < 256 ->
  ring_write_avail r =
  if nr_tail r =? nr_head r then 256
  else if nr_tail r <? nr_head r then nr_tail r - nr_head r + 255 else nr_tail r - nr_head r.
Proof.
  intros Hh Ht. unfold ring_write_avail, SLOT_NUM.
  assert (i32 (nr_tail r -32 nr_head r) = nr_tail r - nr_head r) as -> by wrap_lia.
  destruct (Z.eqb_spec (nr_tail r) (nr_head r)); [by replace (_ =? 0) with true by lia|].
  replace (_ =? 0) with false by lia.
  destruct (Z.ltb_spec (nr_tail r) (nr_head r)).
  - replace (_ <? 0) with true by lia. apply u32_small. lia.
  - replace (_ <? 0) with false by lia. apply u32_small. lia.
Qed.

Lemma read_avail_eq r : ring_read_avail r = nr_head r -32 nr_tail r.
Proof.
  unfold ring_read_avail. pose proof (u32_range (nr_head r - nr_tail r)).
  by replace (_ <? 0) with false by lia.
Qed.

(** ** Properties *)

(** C35: with the counters as specification, the empty and full tests are
    exact, and advancing an index by [n] is what writing or reading [n] slots
    does to it, for any number of slots moved since the start. *)
Theorem nvring_indices w rd r n :
  counts w rd r -> 0 <= n ->
  (ring_empty r = true <-> w = rd) /\ (ring_full r = true <-> w - rd = 255) /\
  ring_write_next r (nr_head r) = (w + 1) `mod` 256 /\
  ring_read_next r (nr_tail r) = (rd + 1) `mod` 256 /\
  ring_write_next_batch r (nr_head r) n = (w + n) `mod` 256 /\
  (w + n - rd <= 255 -> counts (w + n) rd (NvRing (ring_write_next_batch r (nr_head r) n) (nr_tail r) 255)).
Proof.
  intros Hc Hn. pose proof (counts_filled _ _ _ Hc) as Hf. pose proof (counts_range _ _ _ Hc) as [Hh Ht].
  destruct Hc as (H1 & H2 & Eh & Et & Em).
  assert (forall k, ring_write_next_batch r (nr_head r) k = (w + k) `mod` 256) as Hb.
  { intros k. rewrite Eh. by apply next_batch_counts. }
  assert (ring_read_next r (nr_tail r) = (rd + 1) `mod` 256) as Hr.
  { unfold ring_read_next. rewrite Em, land_mask, mod_mod_32, Et. by rewrite Zplus_mod_idemp_l. }
  split_and!; [..|done|apply Hb|].
  - unfold ring_empty. destruct (Z.leb_spec (nr_tail r) (nr_head r)); lia.
  - unfold ring_full. change (Z.land (nr_head r +32 1) (nr_mask r)) with (ring_write_next_batch r (nr_head r) 1).
    rewrite Hb, Et. Z.to_euclidean_division_equations. lia.
  - exact (Hb 1).
  - intros Hle. unfold counts. simpl. rewrite Hb. split_and!; try done; lia.
Qed.

(** [ring_read_avail] is the number of slots to read while they lie in
    one piece; once [head] has wrapped around and [tail] has not, the test for a
    negative difference, on unsigned operands, is never true and the result is
    2^32 - 256 too large. *)
Theorem nvring_read_avail w rd r :
  counts w rd r ->
  (unwrapped r -> ring_read_avail r = w - rd) /\
  (~ unwrapped r -> ring_read_avail r = w - rd + (2 ^ 32 - 256)).
Proof.
  intros Hc. pose proof (counts_filled _ _ _ Hc) as Hf. pose proof (counts_range _ _ _ Hc) as [Hh Ht].
  rewrite read_avail_eq. unfold unwrapped.
  destruct (Z.leb_spec (nr_tail r) (nr_head r)); split; intros; try lia; wrap_lia.
Qed.

(** [ring_write_avail] is the number of free slots while the written
    ones lie in one piece and there is one; on an empty ring, and once [head]
    has wrapped around, it is one too large, and writing that many slots makes
    [head] equal to [tail]: 256 unsent slots look like an empty ring. *)
Theorem nvring_write_avail w rd r :
  counts w rd r ->
  let free := 255 - (w - rd) in
  (unwrapped r -> w <> rd -> ring_write_avail r = free) /\
  (~ unwrapped r \/ w = rd ->
     ring_write_avail r = free + 1 /\
     ring_empty (NvRing (ring_write_next_batch r (nr_head r) (ring_write_avail r)) (nr_tail r) 255) = true).
Proof.
  intros Hc free. pose proof (counts_filled _ _ _ Hc) as Hf. pose proof (counts_range _ _ _ Hc) as [Hh Ht].
  pose proof (write_avail_eq r Hh Ht) as Ew. unfold unwrapped, free.
  split.
  - intros Hu Hne. rewrite Ew. destruct (Z.leb_spec (nr_tail r) (nr_head r)); [|lia].
    destruct (Z.eqb_spec (nr_tail r) (nr_head r)); [lia|]. replace (_ <? _) with true by lia. lia.
  - intros Hor. assert (ring_write_avail r = 255 - (w - rd) + 1) as E.
    { rewrite Ew. destruct (Z.leb_spec (nr_tail r) (nr_head r)), (Z.eqb_spec (nr_tail r) (nr_head r));
        try lia; destruct (Z.ltb_spec (nr_tail r) (nr_head r)); lia. }
    split; [done|]. rewrite E. destruct Hc as (H1 & H2 & Eh & Et & Em).
    unfold ring_empty; simpl. rewrite Eh, next_batch_counts by done. rewrite Et.
    apply Z.eqb_eq. replace (w + (255 - (w - rd) + 1)) with (rd + 1 * 256) by lia. apply Z_mod_plus_full.
Qed.

(** ** Witnesses *)

(** 260 slots written, 250 of them read. *)
Definition ring_260 : nvgen_ring := NvRing 4 250 255.

Lemma nvring_indices_witness : ring_write_next_batch ring_260 4 6 = 10 /\ ring_empty ring_260 = false.
Proof.
  destruct (nvring_indices 260 250 ring_260 6) as (He & _ & _ & _ & Hb & _);
    [unfold counts; simpl; split_and!; reflexivity || lia|lia|].
  split; [exact Hb|]. apply not_true_is_false. rewrite He. discriminate.
Defined.

Lemma nvring_read_avail_witness : ring_read_avail ring_260 = 10 + (2 ^ 32 - 256).
Proof.
  apply (nvring_read_avail 260 250 ring_260); [unfold counts; simpl; split_and!; reflexivity || lia|].
  unfold unwrapped; simpl. lia.
Defined.

Lemma nvring_write_avail_witness :
  ring_write_avail ring_260 = 246 /\ ring_write_avail nvgen_ring_init = 256.
Proof.
  split.
  - apply (nvring_write_avail 260 250 ring_260); [unfold counts; simpl; split_and!; reflexivity || lia|].
    left. unfold unwrapped; simpl. lia.
  - apply (nvring_write_avail 0 0 nvgen_ring_init); [unfold counts; simpl; split_and!; reflexivity || lia|].
    by right.
Defined.
