(* ===== verification/Packet.v ===== *)
(** * Packets

    The packet builders of apps/nmgen.c, apps/generator.c, apps/store.c and
    apps/put_packet.c, the Internet checksum of nmgen.c, the packet descriptor
    of apps/pkt_desc.h, and the copy loop of put_packet.c.  A builder works on
    the bytes from the start of the packet to the end of the memory it may
    write; a write behind that end is a fault.  [htons] followed by the store of
    the result on the little-endian machine writes the most significant byte
    first. *)

From S2P Require Import Prelude.

Abbreviation bytes := (list Z).

(** ** Memory accesses *)

Definition write (off : nat) (l : bytes) : M bytes () := fun b =>
  if decide (off + length l <= length b)%nat then Ret ((), list_inserts off l b)
  else Fault OutOfBounds.

(** [memset(buf, 0, len)]: [len] is converted to [size_t]. *)
Definition memset0 (len : Z) : M bytes () :=
  if len <? 0 then throw OutOfBounds else write 0 (replicate (Z.to_nat len) 0).

Definition be16 (v : Z) : bytes := [u16 v / 256; u16 v `mod` 256].
Definition le16 (v : Z) : bytes := [u16 v `mod` 256; u16 v / 256].
Definition le32 (v : Z) : bytes :=
  [u32 v `mod` 256; (u32 v / 2 ^ 8) `mod` 256; (u32 v / 2 ^ 16) `mod` 256; u32 v / 2 ^ 24].

Definition ETH_LEN : Z := 14.
Definition IP_LEN : Z := 20.

(** ** apps/pkt_desc.h *)

(** [get_pkt_desc(buf, len)]: where the descriptor of a slot of [len] bytes is. *)
Definition get_pkt_desc (len : Z) : Z := len - 4.

(** [get_pktlen_from_desc(buf, 2048) = v] and the read of it. *)
Definition set_pktlen (len v : Z) : M bytes () := write (Z.to_nat (get_pkt_desc len)) (le32 v).
Definition get_pktlen (len : Z) (b : bytes) : Z := le_val (take 4 (drop (Z.to_nat (get_pkt_desc len)) b)).

(** ** The checksum of apps/nmgen.c *)

Definition fold_carry (sum : Z) : Z := if 0xFFFF <? sum then sum - 0xFFFF else sum.

Fixpoint checksum_loop (data : bytes) (sum : Z) : Z :=
  match data with
  | a :: b :: data' => checksum_loop data' (fold_carry (sum +32 (a * 256 + b)))
  | [a] => fold_carry (sum +32 a * 256)
  | [] => sum
  end.

Definition checksum (data : bytes) (len : nat) (sum : Z) : outcome Z :=
  if decide (len <= length data)%nat then Ret (u16 (checksum_loop (take len data) sum))
  else Fault OutOfBounds.

(** [~sum & 0xFFFF], the argument of [htons]. *)
Definition wrapsum (sum : Z) : Z := Z.land (Z.lnot sum) 0xFFFF.

(** ** Builders *)

(** [struct ip] up to the addresses: version and header length share a byte,
    the low four bits first. *)
Definition ip_header (tos len ttl : Z) (src dst : bytes) : bytes :=
  [4 * 16 + 5; tos] ++ be16 len ++ [0; 0] ++ [0; 0] ++ [ttl; 17] ++ [0; 0] ++ src ++ dst.

Section nmgen.
(** The fields of [struct nmgen] and [struct nmgen_thread] the builder reads. *)
Variables (pktlen cpu rnd : Z) (dstmac srcmac srcip dstip : bytes).

Definition nmgen_build_packet : M bytes () :=
  _ ← memset0 pktlen;
  _ ← write 0 dstmac;
  _ ← write 6 srcmac;
  _ ← write 12 (be16 0x0800);
  _ ← write 14 (ip_header 0x10 (pktlen - ETH_LEN) 16 srcip dstip);
  b ← gets (fun b => b);
  sum ← lift (checksum (drop 14 b) 20 0);
  _ ← write 24 (be16 (wrapsum sum));
  _ ← write 38 (be16 (pktlen - ETH_LEN - IP_LEN));
  _ ← write 36 (be16 (60000 + cpu));
  _ ← write 34 (le16 (Z.land rnd 0xFFFF));
  _ ← write 40 [0; 0];
  mret ().
End nmgen.

Definition ip_10_0_0_1 : bytes := [10; 0; 0; 1].
Definition ip_10_0_0_2 : bytes := [10; 0; 0; 2].

Definition generator_build_pkt (len id : Z) : M bytes () :=
  _ ← memset0 len;
  _ ← write 6 [0x01; 0x02; 0x03; 0x04; 0x05; 0x06];
  _ ← write 0 [0xff; 0xff; 0xff; 0xff; 0xff; 0xff];
  _ ← write 12 (be16 0x0800);
  _ ← write 14 (ip_header 0x10 (len - ETH_LEN) 16 ip_10_0_0_2 ip_10_0_0_1);
  _ ← write 38 (be16 (len - ETH_LEN - IP_LEN));
  _ ← write 36 (be16 60000);
  _ ← write 34 (be16 (id + 60000));
  _ ← write 40 [0; 0];
  mret ().

Definition store_build_pkt (len id : Z) : M bytes () :=
  _ ← memset0 len;
  _ ← write 6 [0; 0; 0; 0; 0; 0];
  _ ← write 0 [0xff; 0xff; 0xff; 0xff; 0xff; 0xff];
  _ ← write 12 (be16 0x0800);
  _ ← write 14 (ip_header 0 (len - ETH_LEN) 16 ip_10_0_0_2 ip_10_0_0_1);
  _ ← write 38 (be16 (len - ETH_LEN - IP_LEN));
  _ ← write 36 (be16 60000);
  _ ← write 34 (be16 id);
  _ ← write 40 [0; 0];
  set_pktlen 2048 len.

(** No [memset] here: it is commented out. *)
Definition put_packet_build_pkt (len id : Z) : M bytes () :=
  _ ← write 6 [0x01; 0x02; 0x03; 0x04; 0x05; 0x06];
  _ ← write 0 [0xff; 0xff; 0xff; 0xff; 0xff; 0xff];
  _ ← write 12 (be16 0x0800);
  _ ← write 14 (ip_header 0 (len - ETH_LEN) 16 ip_10_0_0_2 ip_10_0_0_1);
  _ ← write 38 (be16 (len - ETH_LEN - IP_LEN));
  _ ← write 36 (be16 60000);
  _ ← write 34 (be16 id);
  _ ← write 40 [0; 0];
  mret ().

(** [copy(dst, src, len)] of put_packet.c: [len >> 3] is the last index, not
    the number of words. *)
Definition copy_word (src : bytes) (n : nat) (_ : ()) : M bytes () :=
  w ← require OutOfBounds
        (if decide (n * 8 + 8 <= length src)%nat then Some (take 8 (drop (n * 8) src)) else None);
  write (n * 8) w.
Definition copy (src : bytes) (len : Z) : M bytes () :=
  for_each (seq 0 (S (Z.to_nat (Z.shiftr len 3)))) (copy_word src) ().

(** ** Writes that fit *)

Lemma write_ok off l b : (off + length l <= length b)%nat -> write off l b = Ret ((), list_inserts off l b).
Proof. intros E. unfold write. by rewrite decide_True. Qed.

Lemma write_mid off l x y z :
  off = length x -> length y = length l -> write off l (x ++ y ++ z) = Ret ((), x ++ l ++ z).
Proof.
  intros -> E. rewrite write_ok by (rewrite !length_app; lia). f_equal. f_equal.
  rewrite <- (Nat.add_0_r (length x)), list_inserts_app_r. f_equal. by rewrite list_inserts_0_r.
Qed.

(** A buffer in pieces, one of which is overwritten. *)
Lemma write_seg k off l segs y :
  segs !! k = Some y -> length y = length l -> off = length (concat (take k segs)) ->
  write off l (concat segs) = Ret ((), concat (<[k:=l]> segs)).
Proof.
  intros Hk Hl Ho. rewrite <- (take_drop_middle segs k y Hk) at 1.
  rewrite (insert_take_drop segs k) by (by eapply lookup_lt_Some).
  rewrite !concat_app. cbn [concat]. by apply write_mid.
Qed.

Ltac seg k :=
  erewrite bind_ret; [|eapply (write_seg k); [reflexivity|cbn [concat take]; rewrite ?length_app; simpl; lia..]];
  cbn [insert list_insert].

Lemma memset0_eq n b :
  (n <= length b)%nat -> memset0 (Z.of_nat n) b = Ret ((), replicate n 0 ++ drop n b).
Proof.
  intros Hn. unfold memset0. replace (_ <? 0) with false by lia. rewrite Nat2Z.id.
  rewrite <- (take_drop n b) at 1. rewrite write_ok by (rewrite length_app, length_replicate, length_take; lia).
  f_equal. f_equal. apply list_inserts_0_r. rewrite length_replicate, length_take. lia.
Qed.

Lemma zeros_split (ks : list nat) (n : nat) (z : bytes) :
  (sum_list ks <= n)%nat ->
  replicate n 0 ++ z = concat (((fun k => replicate k 0) <$> ks) ++ [replicate (n - sum_list ks) 0 ++ z]).
Proof.
  revert n. induction ks as [|k ks IH]; intros n Hn.
  - simpl. by rewrite Nat.sub_0_r, app_nil_r.
  - change (sum_list (k :: ks)) with (k + sum_list ks)%nat in *. rewrite Nat.sub_add_distr.
    replace n with (k + (n - k))%nat at 1 by lia. rewrite replicate_add, <- app_assoc.
    rewrite fmap_cons. cbn [app concat]. f_equal. rewrite IH by lia. done.
Qed.

(** ** The bytes of the packets *)

(** Ethernet, IP and UDP header. *)
Definition headers (dmac smac ip sport dport ulen : bytes) : bytes :=
  dmac ++ smac ++ [0x08; 0x00] ++ ip ++ sport ++ dport ++ ulen ++ [0; 0].

Definition pieces : list nat := [6; 6; 2; 20; 2; 2; 2; 2]%nat.

(** The eight pieces of the first 42 bytes of a buffer. *)
Lemma split_pieces (b : bytes) :
  (42 <= length b)%nat ->
  exists x0 x1 x2 x3 x4 x5 x6 x7, b = concat [x0; x1; x2; x3; x4; x5; x6; x7; drop 42 b] /\
    length x0 = 6%nat /\ length x1 = 6%nat /\ length x2 = 2%nat /\ length x3 = 20%nat /\
    length x4 = 2%nat /\ length x5 = 2%nat /\ length x6 = 2%nat /\ length x7 = 2%nat.
Proof.
  intros Hb.
  exists (take 6 b), (take 6 (drop 6 b)), (take 2 (drop 12 b)), (take 20 (drop 14 b)),
    (take 2 (drop 34 b)), (take 2 (drop 36 b)), (take 2 (drop 38 b)), (take 2 (drop 40 b)).
  split; [|rewrite !length_take, !length_drop; lia].
  cbn [concat]. rewrite app_nil_r.
  assert (forall n k, drop n b = take k (drop n b) ++ drop (n + k) b) as Hp.
  { intros n k. by rewrite <- drop_drop, take_drop. }
  etransitivity; [apply (Hp 0 6)%nat|]. f_equal. etransitivity; [apply (Hp 6 6)%nat|]. f_equal.
  etransitivity; [apply (Hp 12 2)%nat|]. f_equal. etransitivity; [apply (Hp 14 20)%nat|]. f_equal.
  etransitivity; [apply (Hp 34 2)%nat|]. f_equal. etransitivity; [apply (Hp 36 2)%nat|]. f_equal.
  etransitivity; [apply (Hp 38 2)%nat|]. f_equal. apply (Hp 40 2)%nat.
Qed.

Lemma length_ip_header tos len ttl src dst :
  length src = 4%nat -> length dst = 4%nat -> length (ip_header tos len ttl src dst) = 20%nat.
Proof. intros E1 E2. unfold ip_header. rewrite !length_app, E1, E2. done. Qed.

(** The common part of the three builders without a checksum. *)
Lemma headers_written (smac dmac ip sport dport ulen b : bytes) {A : Type} (k : M bytes A) :
  (42 <= length b)%nat -> length smac = 6%nat -> length dmac = 6%nat -> length ip = 20%nat ->
  length sport = 2%nat -> length dport = 2%nat -> length ulen = 2%nat ->
  (_ ← write 6 smac; _ ← write 0 dmac; _ ← write 12 (be16 0x0800); _ ← write 14 ip;
   _ ← write 38 ulen; _ ← write 36 dport; _ ← write 34 sport; _ ← write 40 [0; 0]; k) b
  = k (headers dmac smac ip sport dport ulen ++ drop 42 b).
Proof.
  intros Hb Hs Hd Hi Hsp Hdp Hu.
  destruct (split_pieces b Hb) as (x0 & x1 & x2 & x3 & x4 & x5 & x6 & x7 & E & L0 & L1 & L2 & L3 & L4 & L5 & L6 & L7).
  rewrite E at 1. seg 1%nat. seg 0%nat. seg 2%nat. seg 3%nat. seg 6%nat. seg 5%nat. seg 4%nat. seg 7%nat.
  f_equal. unfold headers. cbn [concat]. rewrite app_nil_r, <- !app_assoc. done.
Qed.

(** ** Properties of the builders *)

(** After the [memset], 42 zero bytes or more stand in front. *)
Lemma after_memset n b : (42 <= n <= length b)%nat ->
  drop 42 (replicate n 0 ++ drop n b) = replicate (n - 42) 0 ++ drop n b.
Proof.
  intros Hn. rewrite drop_app_le by (rewrite length_replicate; lia). by rewrite drop_replicate.
Qed.

Lemma length_memset n (b : bytes) : (n <= length b)%nat -> length (replicate n 0 ++ drop n b) = length b.
Proof. intros Hn. rewrite length_app, length_replicate, length_drop. lia. Qed.

Lemma generator_build_eq n id b :
  (42 <= n <= length b)%nat ->
  generator_build_pkt (Z.of_nat n) id b =
  Ret ((), headers (replicate 6 0xff) [1; 2; 3; 4; 5; 6]
        (ip_header 0x10 (Z.of_nat n - 14) 16 ip_10_0_0_2 ip_10_0_0_1)
        (be16 (id + 60000)) (be16 60000) (be16 (Z.of_nat n - 14 - 20))
      ++ replicate (n - 42) 0 ++ drop n b).
Proof.
  intros Hn. unfold generator_build_pkt.
  rewrite (bind_ret _ _ _ _ _ (memset0_eq n b (proj2 Hn))), <- (after_memset n b Hn).
  rewrite headers_written; [reflexivity|rewrite length_memset; lia|reflexivity..].
Qed.

Lemma store_build_eq n id b :
  (42 <= n <= 2044)%nat -> (2048 <= length b)%nat ->
  store_build_pkt (Z.of_nat n) id b =
  Ret ((), headers (replicate 6 0xff) (replicate 6 0)
        (ip_header 0 (Z.of_nat n - 14) 16 ip_10_0_0_2 ip_10_0_0_1)
        (be16 id) (be16 60000) (be16 (Z.of_nat n - 14 - 20))
      ++ replicate (n - 42) 0 ++ take (2044 - n) (drop n b) ++ le32 (Z.of_nat n) ++ drop 2048 b).
Proof.
  intros Hn Hb. unfold store_build_pkt.
  rewrite (bind_ret _ _ _ _ _ (memset0_eq n b ltac:(lia))).
  rewrite headers_written; [|rewrite length_memset; lia|reflexivity..].
  rewrite after_memset by lia. unfold set_pktlen, get_pkt_desc.
  replace (drop n b) with (take (2044 - n) (drop n b) ++ drop (2044 - n) (drop n b)) at 1 by apply take_drop.
  rewrite !app_assoc. set (y := drop (2044 - n) (drop n b)). rewrite <- (take_drop 4 y).
  assert (drop 4 y = drop 2048 b) as -> by (unfold y; rewrite !drop_drop; f_equal; lia).
  rewrite write_mid; [by rewrite app_assoc| |].
  - unfold headers. rewrite !length_app, length_replicate, length_take, length_drop. simpl. lia.
  - unfold y. rewrite length_take, !length_drop. change (length (le32 _)) with 4%nat. lia.
Qed.

(** A slot that is cut short: some write of the builder is behind its end. *)
Lemma store_build_short n id b :
  (42 <= n)%nat -> (length b < 2048)%nat -> store_build_pkt (Z.of_nat n) id b = Fault OutOfBounds.
Proof.
  intros Hn Hb. unfold store_build_pkt. destruct (decide (n <= length b)%nat) as [Hle|Hgt].
  - rewrite (bind_ret _ _ _ _ _ (memset0_eq n b Hle)).
    rewrite headers_written; [|rewrite length_memset; lia|reflexivity..].
    unfold set_pktlen, write. rewrite decide_False; [done|]. unfold headers, get_pkt_desc.
    rewrite !length_app, length_drop, length_memset by lia. simpl. lia.
  - apply bind_fault. unfold memset0, write. replace (_ <? 0) with false by lia.
    rewrite decide_False; [done|]. rewrite length_replicate. lia.
Qed.

Lemma put_packet_build_eq len id b :
  (42 <= length b)%nat ->
  put_packet_build_pkt len id b =
  Ret ((), headers (replicate 6 0xff) [1; 2; 3; 4; 5; 6]
        (ip_header 0 (len - 14) 16 ip_10_0_0_2 ip_10_0_0_1)
        (be16 id) (be16 60000) (be16 (len - 14 - 20)) ++ drop 42 b).
Proof.
  intros Hb. unfold put_packet_build_pkt. rewrite headers_written; [reflexivity|done|reflexivity..].
Qed.

(** ** The checksum *)

(** Sum of the 16-bit words, a last odd byte being the high one. *)
Fixpoint wsum (data : bytes) : Z :=
  match data with
  | a :: b :: data' => a * 256 + b + wsum data'
  | [a] => a * 256
  | [] => 0
  end.

Definition is_byte (x : Z) : Prop := 0 <= x < 256.

Lemma fold_carry_spec s w :
  0 <= s <= 0xFFFF -> 0 <= w <= 0xFFFF ->
  0 <= fold_carry (s +32 w) <= 0xFFFF /\ (exists k, fold_carry (s +32 w) = s + w - k * 0xFFFF) /\
  (0 < s + w -> 0 < fold_carry (s +32 w)).
Proof.
  intros Hs Hw. unfold fold_carry. rewrite u32_small by lia.
  destruct (Z.ltb_spec 0xFFFF (s + w)); (split_and!; [lia|lia| |lia]); [exists 1|exists 0]; lia.
Qed.

(** The loop computes the one's complement sum. *)
Lemma checksum_loop_spec n : forall data s,
  (length data <= n)%nat -> Forall is_byte data -> 0 <= s <= 0xFFFF ->
  0 <= checksum_loop data s <= 0xFFFF /\
  (exists k, checksum_loop data s = s + wsum data - k * 0xFFFF) /\
  (0 < s + wsum data -> 0 < checksum_loop data s) /\ 0 <= wsum data.
Proof.
  induction n as [|n IH]; intros data s Hn Hd Hs.
  - destruct data; [|simpl in Hn; lia]. simpl. split_and!; try lia. exists 0. lia.
  - destruct data as [|a [|b data]]; simpl in *.
    + split_and!; try lia. exists 0. lia.
    + inversion_clear Hd as [|? ? Ha _]. unfold is_byte in Ha.
      destruct (fold_carry_spec s (a * 256)) as (H1 & H2 & H3); [lia..|]. split_and!; try done; lia.
    + inversion_clear Hd as [|? ? Ha Hd']. inversion_clear Hd' as [|? ? Hb Hd]. unfold is_byte in Ha, Hb.
      destruct (fold_carry_spec s (a * 256 + b)) as (H1 & [k1 H2] & H3); [lia..|].
      destruct (IH data (fold_carry (s +32 (a * 256 + b)))) as (I1 & [k2 I2] & I3 & I4); [lia|done|lia|].
      split_and!; try lia. exists (k1 + k2). lia.
Qed.

Lemma wrapsum_eq c : 0 <= c <= 0xFFFF -> wrapsum c = 0xFFFF - c.
Proof.
  intros Hc. unfold wrapsum. change 0xFFFF with (2 ^ 16 - 1) at 1. rewrite land_ones_mod by lia.
  unfold Z.lnot. Z.to_euclidean_division_equations. lia.
Qed.

Lemma be16_sum v : 0 <= v < 2 ^ 16 -> u16 v / 256 * 256 + u16 v `mod` 256 = v.
Proof. intros Hv. rewrite u16_small by lia. Z.to_euclidean_division_equations. lia. Qed.

(** The header nmgen writes: as [ip_header], with a checksum [c]. *)
Definition ip_header_sum (tos len ttl c : Z) (src dst : bytes) : bytes :=
  ([4 * 16 + 5; tos] ++ be16 len ++ [0; 0; 0; 0; ttl; 17]) ++ be16 c ++ src ++ dst.

Definition nmgen_sum (n : nat) (src dst : bytes) : Z :=
  wrapsum (u16 (checksum_loop (ip_header 0x10 (Z.of_nat n - 14) 16 src dst) 0)).

Lemma nmgen_build_eq n cpu rnd dmac smac src dst b :
  (42 <= n <= length b)%nat -> length dmac = 6%nat -> length smac = 6%nat ->
  length src = 4%nat -> length dst = 4%nat ->
  nmgen_build_packet (Z.of_nat n) cpu rnd dmac smac src dst b =
  Ret ((), headers dmac smac
        (ip_header_sum 0x10 (Z.of_nat n - 14) 16 (nmgen_sum n src dst) src dst)
        (le16 (Z.land rnd 0xFFFF)) (be16 (60000 + cpu)) (be16 (Z.of_nat n - 14 - 20))
      ++ replicate (n - 42) 0 ++ drop n b).
Proof.
  intros Hn Hd Hs Hsrc Hdst. unfold nmgen_build_packet.
  rewrite (bind_ret _ _ _ _ _ (memset0_eq n b (proj2 Hn))), <- (after_memset n b Hn).
  set (b1 := replicate n 0 ++ drop n b).
  destruct (split_pieces b1) as (x0 & x1 & x2 & x3 & x4 & x5 & x6 & x7 & E & L0 & L1 & L2 & L3 & L4 & L5 & L6 & L7);
    [unfold b1; rewrite length_memset; lia|].
  remember (ip_header 0x10 (Z.of_nat n - ETH_LEN) 16 src dst) as ip eqn:Eip.
  assert (length ip = 20%nat) as Hip by (subst ip; by apply length_ip_header).
  rewrite E at 1. seg 0%nat. seg 1%nat. seg 2%nat. seg 3%nat.
  unfold gets at 1. unfold mbind at 1, M_bind at 1.
  assert (forall rest, checksum (drop 14 (concat (dmac :: smac :: be16 0x0800 :: ip :: rest))) 20 0
    = Ret (u16 (checksum_loop ip 0))) as Ec.
  { intros rest. cbn [concat]. rewrite app_assoc, (app_assoc _ (be16 _)). rewrite drop_app_length'
      by (rewrite !length_app; simpl; lia).
    unfold checksum. rewrite decide_True by (rewrite length_app; lia). by rewrite take_app_length' by lia. }
  unfold lift at 1. rewrite Ec. unfold mbind at 1, M_bind at 1.
  set (ip1 := [4 * 16 + 5; 0x10] ++ be16 (Z.of_nat n - ETH_LEN) ++ [0; 0; 0; 0; 16; 17]).
  assert (forall rest, concat (dmac :: smac :: be16 0x0800 :: ip :: rest) =
    concat (dmac :: smac :: be16 0x0800 :: ip1 :: [0; 0] :: (src ++ dst) :: rest)) as Es.
  { intros rest. cbn [concat]. do 3 f_equal. rewrite Eip. unfold ip_header, ip1. rewrite <- !app_assoc. done. }
  rewrite Es. seg 4%nat. seg 8%nat. seg 7%nat. seg 6%nat. seg 9%nat.
  unfold mret, M_ret. f_equal. f_equal. unfold headers, ip_header_sum, nmgen_sum. rewrite Eip. cbn [concat].
  unfold ip1. rewrite app_nil_r, <- !app_assoc. done.
Qed.

(** RFC 1071, independently of the code: the 16-bit words are added with the
    end-around carry, and a header verifies when its sum is 0xFFFF. *)
Definition ones_add (x y : Z) : Z := (x + y) `mod` 2 ^ 16 + (x + y) / 2 ^ 16.

Fixpoint ones_sum (data : bytes) : Z :=
  match data with
  | a :: b :: data' => ones_add (a * 256 + b) (ones_sum data')
  | [a] => a * 256
  | [] => 0
  end.

Lemma ones_add_spec x y :
  0 <= x <= 0xFFFF -> 0 <= y <= 0xFFFF ->
  0 <= ones_add x y <= 0xFFFF /\ (exists k, ones_add x y = x + y - k * 0xFFFF) /\
  (0 < x + y -> 0 < ones_add x y).
Proof.
  intros Hx Hy. unfold ones_add. split_and!.
  - Z.to_euclidean_division_equations; lia.
  - Z.to_euclidean_division_equations; lia.
  - exists ((x + y) / 2 ^ 16). Z.to_euclidean_division_equations; lia.
  - Z.to_euclidean_division_equations; lia.
Qed.

Lemma ones_sum_spec n : forall data, (length data <= n)%nat -> Forall is_byte data ->
  0 <= ones_sum data <= 0xFFFF /\ (exists k, ones_sum data = wsum data - k * 0xFFFF) /\
  (0 < wsum data -> 0 < ones_sum data) /\ 0 <= wsum data.
Proof.
  induction n as [|n IH]; intros data Hn Hd; destruct data as [|a [|b data]]; simpl in *; try lia.
  1, 2: split_and!; try lia; by exists 0.
  - inversion_clear Hd as [|? ? Ha _]. unfold is_byte in Ha. split_and!; try lia. exists 0. lia.
  - inversion_clear Hd as [|? ? Ha Hd']. inversion_clear Hd' as [|? ? Hb Hd]. unfold is_byte in Ha, Hb.
    destruct (IH data) as (I1 & [k1 I2] & I3 & I4); [lia|done|].
    destruct (ones_add_spec (a * 256 + b) (ones_sum data)) as (O1 & [k2 O2] & O3); [lia..|].
    split_and!; try lia. exists (k1 + k2). lia.
Qed.

(** A field that holds the complement of the code's sum of the rest makes the
    RFC's sum 0xFFFF. *)
Lemma complement_cancels data data' c :
  Forall is_byte data -> Forall is_byte data' ->
  c = wrapsum (u16 (checksum_loop data 0)) -> wsum data' = wsum data + c -> 0 < wsum data' ->
  ones_sum data' = 0xFFFF.
Proof.
  intros Hd Hd' Ec Es Hp.
  destruct (checksum_loop_spec _ _ 0 (le_n _) Hd ltac:(lia)) as (B0 & [k0 E0] & _ & _).
  destruct (ones_sum_spec _ _ (le_n _) Hd') as (B1 & [k1 E1] & P1 & _).
  rewrite (u16_small (checksum_loop data 0)), wrapsum_eq in Ec by lia. lia.
Qed.

Lemma is_byte_be16 v : Forall is_byte (be16 v).
Proof.
  unfold be16, is_byte. pose proof (u16_range v).
  repeat (apply Forall_cons_2 || apply Forall_nil_2); Z.to_euclidean_division_equations; lia.
Qed.

Lemma wrapsum_range z : 0 <= wrapsum z < 2 ^ 16.
Proof.
  unfold wrapsum. change 0xFFFF with (2 ^ 16 - 1). rewrite land_ones_mod by lia.
  apply Z.mod_pos_bound. lia.
Qed.

Lemma wsum_app_even (l1 l2 : bytes) : Nat.even (length l1) = true -> wsum (l1 ++ l2) = wsum l1 + wsum l2.
Proof.
  remember (length l1) as n eqn:En. revert l1 En.
  induction n as [n IH] using lt_wf_ind; intros [|a [|b l1]] En He; simpl in *; subst; try done.
  rewrite (IH (length l1)) by (done || lia). lia.
Qed.

Lemma wsum_nonneg data : Forall is_byte data -> 0 <= wsum data.
Proof. intros Hd. by apply (checksum_loop_spec _ _ 0 (le_n _) Hd ltac:(lia)). Qed.

(** The header verifies. *)
Lemma ip_checksum_verifies tos len ttl src dst :
  is_byte tos -> is_byte ttl -> Forall is_byte src -> Forall is_byte dst ->
  let c := wrapsum (u16 (checksum_loop (ip_header tos len ttl src dst) 0)) in
  ones_sum (ip_header_sum tos len ttl c src dst) = 0xFFFF.
Proof.
  intros Ht Htt Hs Hd c. set (ip1 := [4 * 16 + 5; tos] ++ be16 len ++ [0; 0; 0; 0; ttl; 17]).
  assert (ip_header tos len ttl src dst = ip1 ++ [0; 0] ++ src ++ dst) as E0 by done.
  assert (ip_header_sum tos len ttl c src dst = ip1 ++ be16 c ++ src ++ dst) as E1 by done.
  assert (Forall is_byte ip1) as Hb.
  { unfold ip1. rewrite !Forall_app. pose proof (is_byte_be16 len).
    split_and!; try done; repeat (apply Forall_cons_2 || apply Forall_nil_2); try done; unfold is_byte; lia. }
  pose proof (wrapsum_range (u16 (checksum_loop (ip_header tos len ttl src dst) 0))) as Hc. fold c in Hc.
  assert (wsum (be16 c) = c) as Hbc by (cbn [wsum be16]; rewrite be16_sum; lia).
  assert (0 < wsum ip1) as Hp.
  { pose proof (is_byte_be16 len) as [Hx [Hy _]%Forall_cons]%Forall_cons. unfold is_byte in *.
    unfold ip1. cbn [app be16 wsum]. lia. }
  pose proof (wsum_nonneg _ (proj2 (Forall_app _ _ _) (conj Hs Hd))).
  apply (complement_cancels (ip_header tos len ttl src dst) _ c); rewrite ?E0, ?E1.
  - rewrite !Forall_app. split_and!; try done. repeat (apply Forall_cons_2 || apply Forall_nil_2); unfold is_byte; lia.
  - rewrite !Forall_app. split_and!; try done. apply is_byte_be16.
  - by rewrite <- E0.
  - rewrite !(wsum_app_even ip1) by done. rewrite (wsum_app_even [0; 0]), (wsum_app_even (be16 c)) by done.
    rewrite Hbc. simpl. lia.
  - rewrite !(wsum_app_even ip1), (wsum_app_even (be16 c)) by done. lia.
Qed.

(** ** Properties *)

(** C21: nmgen's [build_packet] with a packet length between the 42 bytes of
    the three headers and the size of the slot writes exactly these bytes and
    none behind them: the two MAC addresses and the type 0x0800; an IPv4 header
    of 20 bytes (version 4, TOS 0x10, the packet less 14 bytes as total length,
    identification and fragment offset 0, TTL 16, protocol 17, checksum, the two
    addresses); a UDP header with a random source port, the destination port
    60000 plus the thread's CPU, the packet less 34 bytes as length and no
    checksum; and zeros up to the packet length.  The IP header verifies by RFC
    1071: the sum of its words with the end-around carry, which is defined apart
    from the code's [checksum], is 0xFFFF. *)
Theorem nmgen_packet_valid n cpu rnd dmac smac src dst b :
  (42 <= n <= length b)%nat -> length dmac = 6%nat -> length smac = 6%nat ->
  length src = 4%nat -> length dst = 4%nat -> Forall is_byte src -> Forall is_byte dst ->
  exists c,
    let ip := [0x45; 0x10] ++ be16 (Z.of_nat n - 14) ++ [0; 0] ++ [0; 0] ++ [16; 17] ++ be16 c ++ src ++ dst in
    let udp := le16 (Z.land rnd 0xFFFF) ++ be16 (60000 + cpu) ++ be16 (Z.of_nat n - 34) ++ [0; 0] in
    nmgen_build_packet (Z.of_nat n) cpu rnd dmac smac src dst b
      = Ret ((), dmac ++ smac ++ [0x08; 0x00] ++ ip ++ udp ++ replicate (n - 42) 0 ++ drop n b) /\
    length ip = 20%nat /\ length udp = 8%nat /\ ones_sum ip = 0xFFFF.
Proof.
  intros Hn Hd Hs Hsrc Hdst Bs Bd. rewrite nmgen_build_eq by done. exists (nmgen_sum n src dst).
  split_and!.
  - do 2 f_equal. unfold headers, ip_header_sum. rewrite <- !app_assoc.
    by replace (Z.of_nat n - 14 - 20) with (Z.of_nat n - 34) by lia.
  - rewrite !length_app, Hsrc, Hdst. done.
  - done.
  - apply (ip_checksum_verifies 0x10 (Z.of_nat n - 14) 16 src dst); try done; unfold is_byte; lia.
Qed.

Lemma le_val_le32 v : 0 <= v < 2 ^ 32 -> le_val (le32 v) = v.
Proof.
  intros Hv. unfold le_val, le32. rewrite u32_small by lia. cbn [foldr].
  replace (v / 2 ^ 16) with (v / 2 ^ 8 / 2 ^ 8) by (by rewrite Z.div_div by lia).
  replace (v / 2 ^ 24) with (v / 2 ^ 8 / 2 ^ 8 / 2 ^ 8) by (by rewrite !Z.div_div by lia).
  Z.to_euclidean_division_equations. lia.
Qed.

(** C30: the length that store writes behind a packet is the one the traffic
    generators read: for every length from the three headers to the descriptor
    (store accepts 64 to 1500), the packet is complete (headers, then zeros),
    the bytes between packet and descriptor are untouched, and
    [get_pktlen_from_desc] of the slot gives the length back. *)
Theorem pkt_desc_roundtrip n id b :
  (42 <= n <= 2044)%nat -> length b = 2048%nat ->
  exists b' hdr, store_build_pkt (Z.of_nat n) id b = Ret ((), b') /\ length b' = 2048%nat /\
    take n b' = hdr ++ replicate (n - 42) 0 /\ length hdr = 42%nat /\
    take 4 (drop 34 hdr) = be16 id ++ be16 60000 /\
    (forall i, (n <= i < 2044)%nat -> b' !! i = b !! i) /\
    get_pktlen 2048 b' = Z.of_nat n.
Proof.
  intros Hn Hb. rewrite store_build_eq, (drop_ge b 2048) by lia. eexists. exists (headers (replicate 6 0xff) (replicate 6 0)
        (ip_header 0 (Z.of_nat n - 14) 16 ip_10_0_0_2 ip_10_0_0_1)
        (be16 id) (be16 60000) (be16 (Z.of_nat n - 14 - 20))). split; [done|].
  set (hdr := headers _ _ _ _ _ _). assert (length hdr = 42%nat) as Hh by done.
  assert (take 4 (drop 34 hdr) = be16 id ++ be16 60000) as Hports by done. clearbody hdr.
  split_and!; try done.
  - rewrite !length_app, length_replicate, length_take, length_drop, Hh. simpl. lia.
  - rewrite app_assoc. apply take_app_length'. rewrite length_app, length_replicate, Hh. lia.
  - intros i Hi. rewrite app_assoc. set (pre := hdr ++ replicate (n - 42) 0).
    assert (length pre = n) as Hp by (unfold pre; rewrite length_app, length_replicate; lia).
    rewrite lookup_app_r, Hp by lia.
    rewrite lookup_app_l by (rewrite length_take, length_drop; lia). rewrite lookup_take_lt by lia. rewrite lookup_drop. f_equal. lia.
  - unfold get_pktlen, get_pkt_desc. change (Z.to_nat (2048 - 4)) with 2044%nat.
    rewrite app_assoc, (app_assoc _ (take _ _)). rewrite drop_app_length'
      by (rewrite !length_app, length_replicate, length_take, length_drop, Hh; lia).
    change (take 4 (le32 (Z.of_nat n))) with (le32 (Z.of_nat n)). apply le_val_le32. lia.
Qed.

(** ** The copy loop *)

Lemma copy_words src k b :
  (k * 8 <= length src)%nat -> (k * 8 <= length b)%nat ->
  for_each (seq 0 k) (copy_word src) () b = Ret ((), take (k * 8) src ++ drop (k * 8) b).
Proof.
  induction k as [|k IH]; intros Hs Hb; [done|].
  rewrite seq_S, for_each_app. rewrite (bind_ret _ _ _ _ _ (IH ltac:(lia) ltac:(lia))). cbn [for_each Nat.add].
  assert (copy_word src k () (take (k * 8) src ++ drop (k * 8) b)
    = Ret ((), take (S k * 8) src ++ drop (S k * 8) b)) as E.
  { unfold copy_word. rewrite decide_True by lia. unfold require, mbind, M_bind, mret, M_ret.
    rewrite <- (take_drop 8 (drop (k * 8) b)), drop_drop.
    rewrite write_mid by (rewrite ?length_take, ?length_drop; lia).
    do 2 f_equal. rewrite app_assoc. f_equal; [|f_equal; lia].
    rewrite <- (take_drop (k * 8) (take (S k * 8) src)). f_equal.
    - rewrite take_take. f_equal. lia.
    - rewrite skipn_firstn_comm. f_equal. lia. }
  by rewrite (bind_ret _ _ _ _ _ E).
Qed.

(** Put_packet's [copy] moves more than it is asked for: it copies the
    next whole 8-byte word behind the end as well, that is [8 * (len / 8 + 1)]
    bytes, up to 8 too many, and reads out of bounds when the source holds
    exactly [len] bytes. *)
Theorem copy_overruns src len b :
  0 <= len < 2 ^ 32 ->
  let n := Z.to_nat (8 * (len / 8 + 1)) in
  len < Z.of_nat n <= len + 8 /\
  ((n <= length src)%nat -> (n <= length b)%nat -> copy src len b = Ret ((), take n src ++ drop n b)) /\
  (Z.of_nat (length src) = len -> len <= Z.of_nat (length b) -> copy src len b = Fault OutOfBounds).
Proof.
  intros Hl n. unfold copy. rewrite Z.shiftr_div_pow2 by lia. change (2 ^ 3) with 8.
  set (k := Z.to_nat (len / 8)). assert (n = S k * 8)%nat as En
    by (unfold n, k; Z.to_euclidean_division_equations; lia).
  split; [|split].
  - unfold n. Z.to_euclidean_division_equations. lia.
  - intros Hs Hb. rewrite En in *. by apply copy_words.
  - intros Hs Hb. assert (k * 8 <= length src)%nat by (unfold k; Z.to_euclidean_division_equations; lia).
    rewrite seq_S, for_each_app. rewrite (bind_ret _ _ _ _ _ (copy_words src k b ltac:(lia) ltac:(lia))).
    cbn [for_each Nat.add]. apply bind_fault. unfold copy_word. rewrite decide_False; [done|].
    unfold k. Z.to_euclidean_division_equations. lia.
Qed.

(** ** Witnesses *)

Definition mac1 : bytes := [2; 0; 0; 0; 0; 1].

Lemma nmgen_packet_valid_witness :
  exists c, nmgen_build_packet 60 3 7 (replicate 6 0xff) mac1 [10; 0; 10; 2] [10; 0; 10; 1] (replicate 64 9)
    = Ret ((), replicate 6 0xff ++ mac1 ++ [8; 0; 0x45; 0x10; 0; 46; 0; 0; 0; 0; 16; 17] ++ be16 c ++
        [10; 0; 10; 2; 10; 0; 10; 1; 7; 0; 0xea; 0x63; 0; 26; 0; 0] ++ replicate 18 0 ++ replicate 4 9).
Proof.
  destruct (nmgen_packet_valid 60 3 7 (replicate 6 0xff) mac1 [10; 0; 10; 2] [10; 0; 10; 1] (replicate 64 9))
    as (c & E & _);
    [simpl; lia|reflexivity|reflexivity|reflexivity|reflexivity
    |repeat (apply Forall_cons_2 || apply Forall_nil_2); unfold is_byte; lia
    |repeat (apply Forall_cons_2 || apply Forall_nil_2); unfold is_byte; lia|].
  exists c. exact E.
Defined.

Lemma pkt_desc_roundtrip_witness :
  exists b', store_build_pkt 64 5 (replicate 2048 0) = Ret ((), b') /\ get_pktlen 2048 b' = 64.
Proof.
  destruct (pkt_desc_roundtrip 64 5 (replicate 2048 0)) as (b' & hdr & E & _ & _ & _ & _ & _ & H);
    [lia|reflexivity|]. exists b'. split; [exact E|exact H].
Defined.

Lemma copy_overruns_witness :
  copy (replicate 16 1) 8 (replicate 24 0) = Ret ((), replicate 16 1 ++ replicate 8 0) /\
  copy (replicate 8 1) 8 (replicate 24 0) = Fault OutOfBounds.
Proof.
  split.
  - apply (copy_overruns (replicate 16 1) 8 (replicate 24 0)); [lia|vm_compute; lia..].
  - apply (copy_overruns (replicate 8 1) 8 (replicate 24 0)); [lia|reflexivity|simpl; lia].
Defined.
