(* ===== verification/Options.v ===== *)
(** * Command lines

    The option loops of the programs under apps/ and tools/.  [getopt] splits
    the command line: a program sees a sequence of option characters, each with
    its argument (the empty string for an option without one), an option it does
    not know being [?].  Every [case] of a [switch] is a branch of the program's
    [step], which gives the new configuration or the exit status.  Settings that
    are floating point numbers (the report intervals of nmgen, nvgen and
    bench-nvme) are accepted and not kept.  Pointers to an argument are options
    over strings, [None] being NULL. *)

From S2P Require Import Prelude CStr LibpopH PopMem.

Definition opt : Type := ascii * cstr.

(** The loop: an exit status ends it. *)
Fixpoint run_opts {C : Type} (step : C -> opt -> Z + C) (c : C) (os : list opt) : Z + C :=
  match os with
  | [] => inr c
  | o :: os' => match step c o with inl e => inl e | inr c' => run_opts step c' os' end
  end.

(** What every step keeps, an accepted command line has. *)
Lemma run_opts_inv {C : Type} (step : C -> opt -> Z + C) (P : C -> Prop) c os c' :
  (forall c o c', P c -> step c o = inr c' -> P c') ->
  P c -> run_opts step c os = inr c' -> P c'.
Proof.
  intros Hs. revert c. induction os as [|o os IH]; intros c Hc; simpl; [by intros [= <-]|].
  destruct (step c o) as [e|c1] eqn:E; [done|]. apply IH. by eapply Hs.
Qed.

(** [count_online_cpus], from what [sched_getaffinity] returns and the number of
    processors in the set it fills. *)
Definition count_online_cpus (ret count : Z) : Z := if ret =? 0 then count else -1.

(** An option that is "hugepage" or a slot. *)
Definition slot_arg (a : cstr) : option cstr :=
  if strncmp_eq a (lit "hugepage") 8 then None else Some a.

(** ** [inet_pton(AF_INET, ...)] *)

(** Decimal number of at most 255 without a leading zero. *)
Fixpoint octet_loop (s : cstr) (seen : bool) (v : Z) : option (Z * cstr) :=
  match s with
  | c :: s' =>
      if isdigit c then
        if seen && (v =? 0) then None
        else let v' := v * 10 + (code c - 48) in
             if 255 <? v' then None else octet_loop s' true v'
      else if seen then Some (v, s) else None
  | [] => if seen then Some (v, []) else None
  end.

Definition dot (s : cstr) : option cstr :=
  match s with c :: s' => if code c =? 46 then Some s' else None | [] => None end.

Definition inet_pton (s : cstr) : option (list Z) :=
  '(a, s) ← octet_loop s false 0; s ← dot s;
  '(b, s) ← octet_loop s false 0; s ← dot s;
  '(c, s) ← octet_loop s false 0; s ← dot s;
  '(d, s) ← octet_loop s false 0;
  match s with [] => Some [a; b; c; d] | _ => None end.

(** [sscanf(s, "%hhx:%hhx:%hhx:%hhx:%hhx:%hhx", ...)]: the fields that were
    converted are stored, the others keep their value. *)
Definition scan_mac (s : cstr) (mac : list Z) : list Z :=
  let fields := u8 <$> sscanf_x (lit ":::::") s in
  fields ++ drop (length fields) mac.

(** ** apps/nmgen.c *)

Module NmgenOpt.
Definition MODE_TX : Z := 0.
Definition MODE_RX : Z := 1.
Definition MAX_BATCH_NUM : Z := 64.
Definition MAX_CPU_NUM : Z := 32.

Record nmgen : Type := Nmgen {
  port : option cstr; pci : option cstr; mode : Z; pktlen : Z; ncpus : Z; batch : Z; timeout : Z;
  dstip : list Z; srcip : list Z; dstmac : list Z; srcmac : list Z
}.

Definition nmgen_init : nmgen :=
  Nmgen None None MODE_TX 60 1 1 0 [10; 0; 10; 1] [10; 0; 10; 2] (replicate 6 0xFF) (replicate 6 0).

Definition nmgen_opt (g : nmgen) (o : opt) : Z + nmgen :=
  let '(Nmgen po pc mo pl nc ba ti di si dm sm) := g in
  let '(ch, optarg) := o in
  if bool_decide (ch = "p"%char) then inr (Nmgen (Some optarg) pc mo pl nc ba ti di si dm sm)
  else if bool_decide (ch = "P"%char) then inr (Nmgen po (slot_arg optarg) mo pl nc ba ti di si dm sm)
  else if bool_decide (ch = "m"%char) then
    if strncmp_eq optarg (lit "tx") 2 then inr (Nmgen po pc MODE_TX pl nc ba ti di si dm sm)
    else if strncmp_eq optarg (lit "rx") 2 then inr (Nmgen po pc MODE_RX pl nc ba ti di si dm sm)
    else inl (-1)
  else if bool_decide (ch = "l"%char) then inr (Nmgen po pc mo (atoi optarg) nc ba ti di si dm sm)
  else if bool_decide (ch = "n"%char) then
    if MAX_CPU_NUM <? atoi optarg then inl (-1) else inr (Nmgen po pc mo pl (atoi optarg) ba ti di si dm sm)
  else if bool_decide (ch = "b"%char) then
    if MAX_BATCH_NUM <? atoi optarg then inl (-1) else inr (Nmgen po pc mo pl nc (atoi optarg) ti di si dm sm)
  else if bool_decide (ch = "i"%char) then inr g
  else if bool_decide (ch = "t"%char) then inr (Nmgen po pc mo pl nc ba (atoi optarg) di si dm sm)
  else if bool_decide (ch = "d"%char) then
    inr (Nmgen po pc mo pl nc ba ti (default di (inet_pton optarg)) si dm sm)
  else if bool_decide (ch = "s"%char) then
    inr (Nmgen po pc mo pl nc ba ti di (default si (inet_pton optarg)) dm sm)
  else if bool_decide (ch = "D"%char) then inr (Nmgen po pc mo pl nc ba ti di si (scan_mac optarg dm) sm)
  else if bool_decide (ch = "S"%char) then inr (Nmgen po pc mo pl nc ba ti di si dm (scan_mac optarg sm))
  else inl (-1).

(** [main] up to the call of [print_nmgen_info]; [online] is what
    [count_online_cpus] returns. *)
Definition nmgen_main_opts (online : Z) (os : list opt) : Z + nmgen :=
  match run_opts nmgen_opt nmgen_init os with
  | inl e => inl e
  | inr g =>
      match port g with
      | None => inl (-1)
      | Some _ =>
          if mode g =? MODE_RX then
            let '(Nmgen po pc mo pl _ ba ti di si dm sm) := g in
            inr (Nmgen po pc mo pl online ba ti di si dm sm)
          else inr g
      end
  end.
End NmgenOpt.

(** ** apps/nvgen.c *)

Module NvgenOpt.
Definition MAX_CPU_NUM : Z := 32.
Definition MAX_BATCH_NUM : Z := 64.
Definition MAX_NVBATCH_NUM : Z := 128.

Record nvgen : Type := Nvgen {
  pci : option cstr; mode : Z; ncpus : Z; port : option cstr; batch : Z; nvme : option cstr;
  nvbatch : Z; walk : Z; lba_start : Z; lba_end : Z; timeout : Z
}.

Definition nvgen_init : nvgen := Nvgen None 0 1 None 1 None 1 0 0 0xF0000 0.

Definition nvgen_opt (g : nvgen) (o : opt) : Z + nvgen :=
  let '(Nvgen pc mo nc po ba nv nb wa ls le ti) := g in
  let '(ch, optarg) := o in
  if bool_decide (ch = "p"%char) then inr (Nvgen pc mo nc (Some optarg) ba nv nb wa ls le ti)
  else if bool_decide (ch = "P"%char) then inr (Nvgen (slot_arg optarg) mo nc po ba nv nb wa ls le ti)
  else if bool_decide (ch = "u"%char) then inr (Nvgen pc mo nc po ba (Some optarg) nb wa ls le ti)
  else if bool_decide (ch = "m"%char) then
    if strncmp_eq optarg (lit "tx") 2 then inr (Nvgen pc 0 nc po ba nv nb wa ls le ti)
    else if strncmp_eq optarg (lit "rx") 2 then inr (Nvgen pc 1 nc po ba nv nb wa ls le ti)
    else inl (-1)
  else if bool_decide (ch = "n"%char) then
    if MAX_CPU_NUM <? atoi optarg then inl (-1) else inr (Nvgen pc mo (atoi optarg) po ba nv nb wa ls le ti)
  else if bool_decide (ch = "b"%char) then
    if MAX_BATCH_NUM <? atoi optarg then inl (-1) else inr (Nvgen pc mo nc po (atoi optarg) nv nb wa ls le ti)
  else if bool_decide (ch = "e"%char) then
    match sscanf_0xlx optarg with
    | None => inl (-1)
    | Some e => inr (Nvgen pc mo nc po ba nv nb wa ls e ti)
    end
  else if bool_decide (ch = "B"%char) then
    if MAX_NVBATCH_NUM <? atoi optarg then inl (-1) else inr (Nvgen pc mo nc po ba nv (atoi optarg) wa ls le ti)
  else if bool_decide (ch = "w"%char) then
    if strncmp_eq (lit "seq") optarg 3 then inr (Nvgen pc mo nc po ba nv nb 0 ls le ti)
    else if strncmp_eq (lit "random") optarg 6 then inr (Nvgen pc mo nc po ba nv nb 1 ls le ti)
    else inl (-1)
  else if bool_decide (ch = "i"%char) then inr g
  else if bool_decide (ch = "t"%char) then inr (Nvgen pc mo nc po ba nv nb wa ls le (atoi optarg))
  else inl (-1).

(** [gen.ncpus * 2] is an [int]; the product of a count below [- 2 ^ 30], which
    would overflow, wraps around. *)
Definition nvgen_main_opts (online : Z) (os : list opt) : Z + nvgen :=
  match run_opts nvgen_opt nvgen_init os with
  | inl e => inl e
  | inr g =>
      match port g, nvme g with
      | None, _ | _, None => inl (-1)
      | Some _, Some _ =>
          if online <? i32 (ncpus g * 2) then inl (-1)
          else if mode g =? 1 then
            let '(Nvgen pc mo _ po ba nv nb wa ls le ti) := g in
            inr (Nvgen pc mo online po ba nv nb wa ls le ti)
          else inr g
      end
  end.
End NvgenOpt.

(** ** apps/generator.c *)

Module GeneratorOpt.
Definition MAX_CPUS : Z := 32.
Definition MAX_BATCH_SIZE : Z := 32.
Definition MAX_NVBATCH_SIZE : Z := 64.

Record generator : Type := Gen {
  pci : option cstr; nvme : option cstr; port : option cstr;
  ncpus : Z; batch : Z; nvbatch : Z; walk : Z; lba_start : Z; lba_end : Z;
  fake_packet : Z; hex_dump : Z; interval : Z; verbose : Z; timeout : Z; bpkts : Z
}.

Definition generator_init : generator := Gen None None None 1 1 1 0 0 0x40000 0 0 0 0 0 0.

(** [max_cpu] is the number of processors, at most [MAX_CPUS]; the walk mode
    "random" is compared on five characters.  [atoi(optarg) * 1000] wraps. *)
Definition generator_opt (max_cpu : Z) (g : generator) (o : opt) : Z + generator :=
  let '(Gen pc nv po nc ba nb wa ls le fa hd iv ve ti bp) := g in
  let '(ch, optarg) := o in
  if bool_decide (ch = "p"%char) then inr (Gen (slot_arg optarg) nv po nc ba nb wa ls le fa hd iv ve ti bp)
  else if bool_decide (ch = "u"%char) then inr (Gen pc (Some optarg) po nc ba nb wa ls le fa hd iv ve ti bp)
  else if bool_decide (ch = "i"%char) then inr (Gen pc nv (Some optarg) nc ba nb wa ls le fa hd iv ve ti bp)
  else if bool_decide (ch = "n"%char) then
    if (atoi optarg <? 1) || (max_cpu <? atoi optarg) then inl (-1)
    else inr (Gen pc nv po (atoi optarg) ba nb wa ls le fa hd iv ve ti bp)
  else if bool_decide (ch = "b"%char) then
    if (atoi optarg <? 1) || (MAX_BATCH_SIZE <? atoi optarg) then inl (-1)
    else inr (Gen pc nv po nc (atoi optarg) nb wa ls le fa hd iv ve ti bp)
  else if bool_decide (ch = "B"%char) then
    if (atoi optarg <? 1) || (MAX_NVBATCH_SIZE <? atoi optarg) then inl (-1)
    else inr (Gen pc nv po nc ba (atoi optarg) wa ls le fa hd iv ve ti bp)
  else if bool_decide (ch = "w"%char) then
    if strncmp_eq optarg (lit "seq") 3 then inr (Gen pc nv po nc ba nb 0 ls le fa hd iv ve ti bp)
    else if strncmp_eq optarg (lit "random") 5 then inr (Gen pc nv po nc ba nb 1 ls le fa hd iv ve ti bp)
    else inl (-1)
  else if bool_decide (ch = "s"%char) then
    match sscanf_0xlx optarg with
    | None => inl (-1)
    | Some s => inr (Gen pc nv po nc ba nb wa s le fa hd iv ve ti bp)
    end
  else if bool_decide (ch = "e"%char) then
    match sscanf_0xlx optarg with
    | None => inl (-1)
    | Some e => inr (Gen pc nv po nc ba nb wa ls e fa hd iv ve ti bp)
    end
  else if bool_decide (ch = "I"%char) then
    inr (Gen pc nv po nc ba nb wa ls le fa hd (i32 (atoi optarg * 1000)) ve ti bp)
  else if bool_decide (ch = "v"%char) then inr (Gen pc nv po nc ba nb wa ls le fa hd iv (i32 (ve + 1)) ti bp)
  else if bool_decide (ch = "F"%char) then inr (Gen pc nv po nc ba nb wa ls le 1 hd iv ve ti bp)
  else if bool_decide (ch = "H"%char) then inr (Gen pc nv po nc ba nb wa ls le fa 1 iv ve ti bp)
  else if bool_decide (ch = "T"%char) then inr (Gen pc nv po nc ba nb wa ls le fa hd iv ve (atoi optarg) bp)
  else inl (-1).

(** [main] up to the assignment of [gen.bpkts]. *)
Definition generator_main_opts (online : Z) (os : list opt) : Z + generator :=
  let max_cpu := if MAX_CPUS <? online then MAX_CPUS else online in
  match run_opts (generator_opt max_cpu) generator_init os with
  | inl e => inl e
  | inr (Gen pc nv po nc ba nb wa ls le fa hd iv ve ti bp) =>
      match nv, po with
      | None, _ | _, None => inl (-1)
      | Some _, Some _ => inr (Gen pc nv po nc ba nb wa ls le fa hd iv ve ti (u64 (ba * nb)))
      end
  end.
End GeneratorOpt.

(** ** apps/bench-nvme.c *)

Module BenchOpt.
Definition MAX_BATCH_SIZE : Z := 64.

(** [p_write] is the mode: NVME_CMD_WRITE or NVME_CMD_READ. *)
Record bench_param : Type := Bench {
  p_write : bool; walk : Z; split : Z; size : Z; batch : Z; ncpus : Z; time : Z;
  nvme : option cstr; p2p : option cstr; lba_end : Z; verbose_level : Z
}.

Definition bench_init : bench_param := Bench false 0 0 64 1 1 1 None None 0xe8e088b0 0.

(** An invalid time is reported and kept. *)
Definition bench_opt (online : Z) (p : bench_param) (o : opt) : Z + bench_param :=
  let '(Bench md wa sp sz ba nc ti nv pp le ve) := p in
  let '(ch, optarg) := o in
  if bool_decide (ch = "m"%char) then
    if strncmp_eq optarg (lit "read") 4 then inr (Bench false wa sp sz ba nc ti nv pp le ve)
    else if strncmp_eq optarg (lit "write") 5 then inr (Bench true wa sp sz ba nc ti nv pp le ve)
    else inl (-1)
  else if bool_decide (ch = "w"%char) then
    if strncmp_eq optarg (lit "random") 6 then inr (Bench md 0 sp sz ba nc ti nv pp le ve)
    else if strncmp_eq optarg (lit "seq") 3 then inr (Bench md 1 sp sz ba nc ti nv pp le ve)
    else if strncmp_eq optarg (lit "same") 4 then inr (Bench md 2 sp sz ba nc ti nv pp le ve)
    else inl (-1)
  else if bool_decide (ch = "S"%char) then
    if strncmp_eq optarg (lit "equal") 5 then inr (Bench md wa 0 sz ba nc ti nv pp le ve)
    else if strncmp_eq optarg (lit "nosplit") 7 then inr (Bench md wa 1 sz ba nc ti nv pp le ve)
    else inl (-1)
  else if bool_decide (ch = "s"%char) then
    if atoi optarg <? 0 then inl (-1) else inr (Bench md wa sp (atoi optarg) ba nc ti nv pp le ve)
  else if bool_decide (ch = "b"%char) then
    if (atoi optarg <? 0) || (MAX_BATCH_SIZE <? atoi optarg) then inl (-1)
    else inr (Bench md wa sp sz (atoi optarg) nc ti nv pp le ve)
  else if bool_decide (ch = "n"%char) then
    if (atoi optarg <? 1) || (online <? atoi optarg) then inl (-1)
    else inr (Bench md wa sp sz ba (atoi optarg) ti nv pp le ve)
  else if bool_decide (ch = "e"%char) then
    match sscanf_0xlx optarg with
    | None => inl (-1)
    | Some e => inr (Bench md wa sp sz ba nc ti nv pp e ve)
    end
  else if bool_decide (ch = "t"%char) then inr (Bench md wa sp sz ba nc (atoi optarg) nv pp le ve)
  else if bool_decide (ch = "i"%char) then inr p
  else if bool_decide (ch = "u"%char) then inr (Bench md wa sp sz ba nc ti (Some optarg) pp le ve)
  else if bool_decide (ch = "p"%char) then inr (Bench md wa sp sz ba nc ti nv (slot_arg optarg) le ve)
  else if bool_decide (ch = "v"%char) then inr (Bench md wa sp sz ba nc ti nv pp le (i32 (ve + 1)))
  else inl (-1).

(** [main] up to [unvme_open]. *)
Definition bench_main_opts (online : Z) (os : list opt) : Z + bench_param :=
  match run_opts (bench_opt online) bench_init os with
  | inl e => inl e
  | inr p => match nvme p with None => inl (-1) | Some _ => inr p end
  end.
End BenchOpt.

(** ** apps/store.c *)

Module StoreOpt.
Record store : Type := Store {
  nvme : option cstr; pktlen : Z; batch : Z; lba_start : Z; lba_end : Z
}.

Definition store_init : store := Store None 64 512 0 0.

Definition store_opt (c : store) (o : opt) : Z + store :=
  let '(Store nv pl ba ls le) := c in
  let '(ch, optarg) := o in
  if bool_decide (ch = "u"%char) then inr (Store (Some optarg) pl ba ls le)
  else if bool_decide (ch = "l"%char) then
    if (atoi optarg <? 64) || (1500 <? atoi optarg) then inl (-1) else inr (Store nv (atoi optarg) ba ls le)
  else if bool_decide (ch = "b"%char) then
    if atoi optarg <? 0 then inl (-1) else inr (Store nv pl (atoi optarg) ls le)
  else if bool_decide (ch = "s"%char) then
    match sscanf_0xlx optarg with None => inl (-1) | Some s => inr (Store nv pl ba s le) end
  else if bool_decide (ch = "e"%char) then
    match sscanf_0xlx optarg with None => inl (-1) | Some e => inr (Store nv pl ba ls e) end
  else inl (-1).

Definition store_main_opts (os : list opt) : Z + store := run_opts store_opt store_init os.
End StoreOpt.

(** ** apps/mb.c *)

Module MbOpt.
Record mb : Type := Mb { nwrite : Z; nloop : Z; size : Z; mem : option cstr; dir : Z }.

Definition mb_init : mb := Mb 100 100 64 None 1.

Definition mb_opt (c : mb) (o : opt) : Z + mb :=
  let '(Mb nw nl sz me di) := c in
  let '(ch, optarg) := o in
  if bool_decide (ch = "n"%char) then inr (Mb (atoi optarg) nl sz me di)
  else if bool_decide (ch = "l"%char) then inr (Mb nw (atoi optarg) sz me di)
  else if bool_decide (ch = "s"%char) then inr (Mb nw nl (atoi optarg) me di)
  else if bool_decide (ch = "p"%char) then inr (Mb nw nl sz (slot_arg optarg) di)
  else if bool_decide (ch = "d"%char) then
    if strncmp_eq optarg (lit "write") 5 then inr (Mb nw nl sz me 1)
    else if strncmp_eq optarg (lit "read") 4 then inr (Mb nw nl sz me 0)
    else inl (-1)
  else inl (-1).

Definition mb_main_opts (os : list opt) : Z + mb := run_opts mb_opt mb_init os.
End MbOpt.

(** ** apps/put_packet.c *)

Module PutPacketOpt.
Record put_packet : Type := PutPacket { pktlen : Z; pktnum : Z; pci : option cstr }.

Definition put_packet_init : put_packet := PutPacket 64 1 None.

Definition put_packet_opt (c : put_packet) (o : opt) : Z + put_packet :=
  let '(PutPacket pl pn pc) := c in
  let '(ch, optarg) := o in
  if bool_decide (ch = "p"%char) then inr (PutPacket pl pn (Some optarg))
  else if bool_decide (ch = "s"%char) then
    if (atoi optarg <? 60) || (2048 <? atoi optarg) then inl (-1) else inr (PutPacket (atoi optarg) pn pc)
  else if bool_decide (ch = "n"%char) then
    if atoi optarg <? 1 then inl (-1) else inr (PutPacket pl (atoi optarg) pc)
  else inl (-1).

Definition put_packet_main_opts (os : list opt) : Z + put_packet := run_opts put_packet_opt put_packet_init os.
End PutPacketOpt.

(** ** tools/pop-ioctl.c *)

Module PopIoctlOpt.
(** The request: [cmd] is 0 until -c is seen.  Unlike [parse_slot], a first
    [sscanf] that stores some of the fields before it fails leaves them there;
    the second stores the bus, the slot and the function again. *)
Record request : Type := Request { cmd : Z; reg : pop_p2pmem_reg }.

Definition request_init : request := Request 0 reg0.

Definition slot_opt (r : pop_p2pmem_reg) (s : cstr) : option pop_p2pmem_reg :=
  match sscanf_x pci_seps s with
  | [d; b; sl; f] => Some (Reg (i32 d) (i32 b) (i32 sl) (i32 f) (reg_size r))
  | _ =>
      match sscanf_x (tail pci_seps) s with
      | [b; sl; f] => Some (Reg 0 (i32 b) (i32 sl) (i32 f) (reg_size r))
      | _ => None
      end
  end.

Definition pop_ioctl_opt (q : request) (o : opt) : Z + request :=
  let '(ch, optarg) := o in
  if bool_decide (ch = "b"%char) then
    match slot_opt (reg q) optarg with None => inl (-1) | Some r => inr (Request (cmd q) r) end
  else if bool_decide (ch = "c"%char) then
    if strncmp_eq optarg (lit "register") 8 then inr (Request POP_P2PMEM_REG (reg q))
    else if strncmp_eq optarg (lit "unregister") 10 then inr (Request POP_P2PMEM_UNREG (reg q))
    else inl (-1)
  else inl (-1).

(** The command of the program: the exit status, and the size that "N byte
    registered" reports.  A failing [ioctl] leaves the descriptor open. *)
Definition pop_ioctl_main {W : Type} `{Posix W} (os : list opt) : M (proc W) (Z * option Z) :=
  match run_opts pop_ioctl_opt request_init os with
  | inl e => mret (e, None)
  | inr q =>
      if cmd q =? 0 then mret (-1, None)
      else
        fd ← libc_open DEVPOP;
        if fd <? 0 then mret (fd, None)
        else
          x ← libc_ioctl fd (cmd q) (reg q);
          if negb (x.1 =? 0) then mret (x.1, None)
          else mret (0, if cmd q =? POP_P2PMEM_REG then Some (reg_size x.2) else None)
  end.
End PopIoctlOpt.

(** ** Properties *)

(** Splits a step into its branches. *)
Ltac step_cases :=
  repeat match goal with
  | H : context [if ?b then _ else _] |- _ => destruct b eqn:?
  | H : context [match sscanf_0xlx ?s with _ => _ end] |- _ => destruct (sscanf_0xlx s)
  end; simplify_eq/=.

Lemma length_sscanf_x seps s : (length (sscanf_x seps s) <= S (length seps))%nat.
Proof.
  revert s. induction seps as [|c seps IH]; intros s; simpl.
  - destruct (scan_x s) as [[v [|]]|]; simpl; lia.
  - destruct (scan_x s) as [[v [|c' r]]|]; simpl; try lia. case_bool_decide; simpl; [|lia].
    specialize (IH r). lia.
Qed.

Definition is_octet (x : Z) : Prop := 0 <= x < 256.
Definition octets (n : nat) (l : list Z) : Prop := length l = n /\ Forall is_octet l.

Lemma scan_mac_ok s mac :
  octets 6 mac -> octets 6 (scan_mac s mac).
Proof.
  intros [Hl Hm]. unfold scan_mac. pose proof (length_sscanf_x (lit ":::::") s) as Hx.
  change (S (length (lit ":::::"))) with 6%nat in Hx. split.
  - rewrite length_app, length_drop, length_fmap. lia.
  - apply Forall_app. split; [|by apply Forall_drop]. apply Forall_fmap, Forall_true.
    intros x. apply u8_range.
Qed.

Lemma octet_loop_range s seen v x rest :
  0 <= v < 256 -> octet_loop s seen v = Some (x, rest) -> is_octet x.
Proof.
  unfold is_octet. revert seen v. induction s as [|c s IH]; intros seen v Hv; simpl.
  - destruct seen; [by intros [= <- _]|done].
  - unfold isdigit. destruct ((48 <=? code c) && (code c <=? 57)) eqn:Ed;
      [|destruct seen; [by intros [= <- _]|done]].
    apply andb_true_iff in Ed. destruct (_ && _); [done|].
    destruct (255 <? _) eqn:E; [done|]. intros Hx. eapply IH; [|exact Hx]. lia.
Qed.

Lemma inet_pton_ok s ip : octets 4 ip -> octets 4 (default ip (inet_pton s)).
Proof.
  intros Hip. destruct (inet_pton s) as [ip'|] eqn:E; simpl; [|done]. revert E.
  unfold inet_pton, mbind, option_bind.
  destruct (octet_loop s false 0) as [[a s1]|] eqn:E1; [|done]. destruct (dot s1) as [s2|]; [|done].
  destruct (octet_loop s2 false 0) as [[b s3]|] eqn:E2; [|done]. destruct (dot s3) as [s4|]; [|done].
  destruct (octet_loop s4 false 0) as [[c s5]|] eqn:E3; [|done]. destruct (dot s5) as [s6|]; [|done].
  destruct (octet_loop s6 false 0) as [[d [|]]|] eqn:E4; try done. intros [= <-]. split; [done|].
  assert (0 <= 0 < 256) as Hz by lia. repeat (apply Forall_cons_2 || apply Forall_nil_2).
  all: by eapply octet_loop_range; [exact Hz|eassumption].
Qed.

(** The addresses of a configuration have the lengths [build_packet] copies. *)
Definition nmgen_wf (g : NmgenOpt.nmgen) : Prop :=
  NmgenOpt.batch g <= 64 /\ NmgenOpt.ncpus g <= 32 /\ (NmgenOpt.mode g = 0 \/ NmgenOpt.mode g = 1) /\
  octets 4 (NmgenOpt.dstip g) /\ octets 4 (NmgenOpt.srcip g) /\
  octets 6 (NmgenOpt.dstmac g) /\ octets 6 (NmgenOpt.srcmac g).

Lemma nmgen_init_wf : nmgen_wf NmgenOpt.nmgen_init.
Proof.
  unfold nmgen_wf, octets, is_octet; simpl. split_and!; try lia; try done; [by left|..];
    repeat (apply Forall_cons_2 || apply Forall_nil_2); lia.
Qed.

Lemma nmgen_opt_wf g o g' : nmgen_wf g -> NmgenOpt.nmgen_opt g o = inr g' -> nmgen_wf g'.
Proof.
  destruct g as [po pc mo pl nc ba ti di si dm sm], o as [ch a]. unfold nmgen_wf; simpl.
  intros (Hb & Hn & Hm & Hdi & Hsi & Hdm & Hsm) E.
  unfold NmgenOpt.MAX_CPU_NUM, NmgenOpt.MAX_BATCH_NUM in E.
  step_cases; split_and!; try done; try lia; try tauto; auto using inet_pton_ok, scan_mac_ok.
Qed.

(** C40: A command line nmgen accepts has a port, a batch of at most 64, which
    the arrays of a sender thread hold, and addresses of the lengths the packet
    builder copies.  In tx mode there are at most 32 threads, which the array of
    thread structures holds; in rx mode their number is that of the processors,
    without a bound.  A batch of -1 is accepted. *)
Theorem nmgen_options online os g :
  NmgenOpt.nmgen_main_opts online os = inr g ->
  is_Some (NmgenOpt.port g) /\ NmgenOpt.batch g <= 64 /\
  octets 4 (NmgenOpt.dstip g) /\ octets 4 (NmgenOpt.srcip g) /\
  octets 6 (NmgenOpt.dstmac g) /\ octets 6 (NmgenOpt.srcmac g) /\
  (NmgenOpt.mode g = NmgenOpt.MODE_TX /\ NmgenOpt.ncpus g <= NmgenOpt.MAX_CPU_NUM \/
   NmgenOpt.mode g = NmgenOpt.MODE_RX /\ NmgenOpt.ncpus g = online).
Proof.
  unfold NmgenOpt.nmgen_main_opts. destruct (run_opts _ _ os) as [e|g1] eqn:E; [done|].
  eapply run_opts_inv in E; [|exact nmgen_opt_wf|exact nmgen_init_wf].
  destruct g1 as [[po|] pc mo pl nc ba ti di si dm sm]; simpl; [|done].
  destruct E as (Hb & Hn & Hm & H1 & H2 & H3 & H4); simpl in *.
  destruct (Z.eqb_spec mo NmgenOpt.MODE_RX); intros [= <-]; simpl; (split_and!; try done); [by right|].
  left. split; [|done]. unfold NmgenOpt.MODE_RX, NmgenOpt.MODE_TX in *. lia.
Qed.

(** The bounds of generator's options. *)
Definition generator_wf (max_cpu : Z) (g : GeneratorOpt.generator) : Prop :=
  1 <= GeneratorOpt.ncpus g /\ (1 <= max_cpu -> GeneratorOpt.ncpus g <= max_cpu) /\
  1 <= GeneratorOpt.batch g <= 32 /\ 1 <= GeneratorOpt.nvbatch g <= 64 /\
  (GeneratorOpt.walk g = 0 \/ GeneratorOpt.walk g = 1).

Lemma generator_opt_wf m g o g' :
  generator_wf m g -> GeneratorOpt.generator_opt m g o = inr g' -> generator_wf m g'.
Proof.
  destruct g as [pc nv po nc ba nb wa ls le fa hd iv ve ti bp], o as [ch a]. unfold generator_wf; simpl.
  intros (Hn & Hn' & Hb & Hv & Hw) E.
  unfold GeneratorOpt.MAX_BATCH_SIZE, GeneratorOpt.MAX_NVBATCH_SIZE in E. step_cases; auto;
    split_and!; try done; try lia; tauto.
Qed.

(** A command line generator accepts names an NVMe device and a port; its
    numbers of threads, packets per command and commands per round lie between 1
    and 32, 32 and 64, and the number of packets per round is their product. *)
Theorem generator_options online os g :
  1 <= online -> GeneratorOpt.generator_main_opts online os = inr g ->
  is_Some (GeneratorOpt.nvme g) /\ is_Some (GeneratorOpt.port g) /\
  1 <= GeneratorOpt.ncpus g <= GeneratorOpt.MAX_CPUS /\ GeneratorOpt.ncpus g <= online /\
  1 <= GeneratorOpt.batch g <= GeneratorOpt.MAX_BATCH_SIZE /\
  1 <= GeneratorOpt.nvbatch g <= GeneratorOpt.MAX_NVBATCH_SIZE /\
  (GeneratorOpt.walk g = 0 \/ GeneratorOpt.walk g = 1) /\
  GeneratorOpt.bpkts g = GeneratorOpt.batch g * GeneratorOpt.nvbatch g.
Proof.
  intros Ho. unfold GeneratorOpt.generator_main_opts, GeneratorOpt.MAX_CPUS,
    GeneratorOpt.MAX_BATCH_SIZE, GeneratorOpt.MAX_NVBATCH_SIZE.
  set (m := if 32 <? online then 32 else online). assert (1 <= m <= 32 /\ m <= online) as Hm
    by (unfold m; destruct (32 <? online) eqn:E; lia).
  destruct (run_opts _ _ os) as [e|g1] eqn:E; [done|].
  eapply run_opts_inv in E; [|exact (generator_opt_wf m)|unfold generator_wf; simpl; lia].
  destruct g1 as [pc [nv|] [po|] nc ba nb wa ls le fa hd iv ve ti bp]; simpl; try done.
  intros [= <-]. destruct E as (Hn & Hn' & Hb & Hv & Hw); simpl in *.
  split_and!; try done; try lia. apply u64_small. nia.
Qed.

(** ** Witnesses *)

Definition arg (ch : ascii) (s : string) : opt := (ch, lit s).

Lemma nmgen_options_witness :
  exists g, NmgenOpt.nmgen_main_opts 8 [arg "p" "netmap:eth0"; arg "b" "-1"; arg "D" "02:00:5e"] = inr g /\
    NmgenOpt.batch g = -1 /\ NmgenOpt.batch g <= 64.
Proof.
  eexists. split; [reflexivity|]. split; [reflexivity|].
  apply (nmgen_options 8 [arg "p" "netmap:eth0"; arg "b" "-1"; arg "D" "02:00:5e"]). reflexivity.
Defined.

Lemma generator_options_witness :
  exists g, GeneratorOpt.generator_main_opts 8
    [arg "u" "18:00.0"; arg "i" "eth0"; arg "b" "32"; arg "B" "64"; arg "w" "rando"] = inr g /\
    GeneratorOpt.bpkts g = 2048.
Proof.
  destruct (generator_options 8
    [arg "u" "18:00.0"; arg "i" "eth0"; arg "b" "32"; arg "B" "64"; arg "w" "rando"]
    (GeneratorOpt.Gen None (Some (lit "18:00.0")) (Some (lit "eth0")) 1 32 64 1 0 0x40000 0 0 0 0 0 2048))
    as (_ & _ & _ & _ & _ & _ & _ & H); [lia|reflexivity|].
  eexists. split; [reflexivity|exact H].
Defined.
