(* ===== verification/PopMmap.v ===== *)
(** * tools/pop-mmap.c

    The tool that maps a pop device and exits: its options, [main], and what is
    mapped when it exits with success, on top of the kernel module. *)

From S2P Require Import Prelude CStr LibpopH PopBuf PopMem Boogiepop LinuxExample BoogiepopProps PopMemProps System Options.

Module PopMmap.
(** [size] has no value until -s is seen; [offset] is a [size_t]. *)
Record args : Type := Args { path : option cstr; size : option Z; offset : Z }.

Definition args_init : args := Args None None 0.

Definition pop_mmap_opt (a : args) (o : opt) : Z + args :=
  let '(ch, optarg) := o in
  if bool_decide (ch = "p"%char) then inr (Args (Some optarg) (size a) (offset a))
  else if bool_decide (ch = "s"%char) then inr (Args (path a) (Some (atoi optarg)) (offset a))
  else if bool_decide (ch = "o"%char) then inr (Args (path a) (size a) (u64 (atoi optarg)))
  else inl 1.

Section main.
Context {W : Type} `{Posix W}.

(** [open(path, O_RDWR)]; without a path the kernel answers [EFAULT]. *)
Definition open_path (p : option cstr) : M (proc W) Z :=
  match p with Some p => libc_open p | None => _ ← set_errno 14; mret (-1) end.

Definition map_and_close (a : args) (fd : Z) : M (proc W) Z :=
  len ← require UninitRead (size a);
  p2pmem ← libc_mmap (u64 len) MAP_device fd (offset a);
  _ ← libc_close fd;
  mret (if p2pmem =? -1 then 1 else 0).

Definition pop_mmap_main (os : list opt) : M (proc W) Z :=
  match run_opts pop_mmap_opt args_init os with
  | inl e => mret e
  | inr a =>
      fd ← open_path (path a);
      if fd <? 0 then mret (-1) else map_and_close a fd
  end.
End main.
End PopMmap.
Import PopMmap.

Lemma offset_range os a : run_opts pop_mmap_opt args_init os = inr a -> 0 <= offset a < 2 ^ 64.
Proof.
  apply (run_opts_inv _ (fun a => 0 <= offset a < 2 ^ 64)); [|simpl; lia].
  intros c [ch arg] c' Hc. unfold pop_mmap_opt. repeat case_bool_decide; intros [= <-]; try done. apply u64_range.
Qed.

Section device.
Context {W P : Type} `{PopSystem W P}.
Implicit Type s : proc W.

(** The physical memory of a region is contiguous, in whole pages, and managed. *)
Definition region_ok (D : pop_dev) : Prop :=
  0 <= d_p2pmem D /\ d_p2pmem D + d_size D < 2 ^ 64 /\
  (forall x, 0 <= x < d_size D -> kvirt_to_phys (d_p2pmem D + x) = kvirt_to_phys (d_p2pmem D) + x) /\
  kvirt_to_phys (d_p2pmem D) `mod` 4096 = 0 /\ 0 < kvirt_to_phys (d_p2pmem D) /\
  (forall pfn, kvirt_to_phys (d_p2pmem D) <= pfn * 4096 < kvirt_to_phys (d_p2pmem D) + d_size D ->
     pfn_valid pfn = true).

(** What is mapped by [v], a mapping of file [f] from [off] on: pages of the
    memory of the device [D], which is behind the file. *)
Record maps_device (f : positive) (v : vma) (l : loc) (D : pop_dev) (off len : Z) (w : W) : Prop := MapsDevice {
  md_inv : kinv (w_kernel w);
  md_listed : listed (w_kernel w) l D;
  md_file : k_files (w_kernel w) !! f = Some (Some l);
  md_range : off `mod` 4096 = 0 /\ 0 < len /\ off + pages_for len * 4096 <= d_size D;
  md_vma : vm_start v `mod` 4096 = 0 /\ vm_end v = vm_start v + pages_for len * 4096 /\ vm_pgoff v = off / 4096;
  md_maps pg : vm_start v <= pg * 4096 < vm_end v -> w_maps w pg = Some (v, f);
  md_fault pg : region_ok D -> vm_start v <= pg * 4096 < vm_end v ->
    exists pfn k, pop_dev_mem_fault (Some f) (vm_pgoff v + (pg - vm_start v / 4096)) (w_kernel w) = Ret ((0, Some pfn), k) /\
      pfn * 4096 = kvirt_to_phys (d_p2pmem D) + off + (pg * 4096 - vm_start v)
}.

Lemma mmap_maps fd f l D len off s addr s' :
  w_file (p_os s) fd = Some (FPop f) -> kinv (w_kernel (p_os s)) -> listed (w_kernel (p_os s)) l D ->
  k_files (w_kernel (p_os s)) !! f = Some (Some l) -> 0 <= len < 2 ^ 64 -> 0 <= off < 2 ^ 64 ->
  libc_mmap len MAP_device fd off s = Ret (addr, s') -> addr <> -1 ->
  exists v, w_file (p_os s') fd = Some (FPop f) /\ maps_device f v l D off len (p_os s').
Proof.
  intros Hf Hk HD Hfile Hlen Hoff E Ha. apply plain_inv in E as (Hge & _ & O1). specialize (O1 ltac:(lia)).
  destruct (mmap_spec _ _ _ _ _ _ _ Hf Hlen Hoff O1 ltac:(lia)) as (Hf' & Hpos & Hal & Hov & Haa & Hend & Hmap & k & es & Em & Hes & Hst).
  simpl in Hend. set (v := Vma addr _ _) in *. destruct (proj1 (pages_for_spec len _) eq_refl) as [Hp1 Hp2].
  assert (off / 4096 * 4096 = off) as Eoff by (clear -Hal; Z.to_euclidean_division_equations; lia).
  assert (k = w_kernel (p_os s) /\ off + pages_for len * 4096 <= d_size D) as [-> Hle].
  { revert Em. unfold pop_dev_mmap, private_data, gets, load_dev, mbind, M_bind, mret, M_ret. simpl.
    rewrite Hfile. simpl. rewrite (proj2 HD). simpl. rewrite shiftl_12, Eoff. unwrap.
    destruct (_ <? _) eqn:Hlt; [done|]. intros [= <-]. split; [done|lia]. }
  destruct (faults_keep _ _ _ _ Hes Hst) as (Hk1 & Ed & El & Ef).
  exists v. split; [done|]. constructor; try done.
  - auto.
  - split; [rewrite El; apply HD|rewrite Ed; apply HD].
  - by rewrite Ef.
  - intros pg (Hr1 & Hr2 & Hr3 & Hr4 & Hr5 & Hr6) Hpg. simpl in Hpg |- *.
    assert (addr / 4096 * 4096 = addr) as Eaddr by (clear -Haa; Z.to_euclidean_division_equations; lia).
    destruct (device_fault f (w_kernel (p_os s')) l D (off / 4096 + (pg - addr / 4096))) as (pfn & Efault & Hpfn); try done.
    + by rewrite Ef.
    + rewrite Ed. apply HD.
    + lia.
    + lia.
    + exists pfn. eexists. split; [exact Efault|]. lia.
Qed.

(** C17: pop-mmap maps what it is asked for and nothing else.  When the tool
    exits with status 0 on the character device of a registered PCI device, the
    process has a mapping, in whole pages, of the part of that device's
    peer-to-peer memory that starts at the offset and holds the size of the
    options, which lies inside the device's memory; every access to a page of it
    is answered with the page of the memory at that place; and the mapping
    outlives the descriptor, which is closed. *)
Theorem pop_mmap_maps_device os a d b sl fn pd s s' :
  run_opts pop_mmap_opt args_init os = inr a -> path a = Some (DEVPOPDIR ++ fmt_pci d b sl fn) ->
  0 <= d < 2 ^ 16 -> 0 <= b < 2 ^ 8 -> 0 <= sl < 32 -> 0 <= fn < 8 ->
  (forall p, (pci_get_domain_bus_and_slot d b (PCI_DEVFN sl fn) p).1 = Some pd) ->
  kinv (w_kernel (p_os s)) -> pop_mmap_main os s = Ret (0, s') ->
  exists len f v l D, size a = Some len /\ d_pdev D = pd /\ maps_device f v l D (offset a) (u64 len) (p_os s').
Proof.
  intros Ho Hpath Hd Hb Hsl Hfn Hpd Hk. unfold pop_mmap_main. rewrite Ho, Hpath. cbn [open_path].
  intros (fd & s1 & E1 & E)%bind_Ret_inv. apply plain_inv in E1 as (Hge & _ & O1).
  destruct (Z.ltb_spec fd 0) as [|Hfd]; [done|]. specialize (O1 Hfd).
  destruct (open_spec _ _ _ _ O1) as (_ & _ & Hop). destruct (Hop Hfd) as (_ & _ & Hop').
  destruct (Hop' _ eq_refl) as (f & Eopen & Hf).
  destruct (pop_dev_open_found f d b sl fn pd _ _ Hk Hd Hb Hsl Hfn Hpd Eopen) as (Hk1 & l & D & HD & Epd & Hfile & _).
  unfold map_and_close in E. destruct (size a) as [len|]; [|done]. unfold require in E.
  apply bind_Ret_inv in E as (len' & s1' & E0 & E). injection E0 as <- <-.
  apply bind_Ret_inv in E as (addr & s2 & E2 & E). apply bind_Ret_inv in E as (r & s3 & E3 & E).
  destruct (Z.eqb_spec addr (-1)) as [|Ha]; [done|]. injection E as <-.
  destruct (mmap_maps fd f l D (u64 len) (offset a) s1 addr s2) as (v & Hf2 & Hv); try done;
    [apply u64_range|by eapply offset_range|].
  apply plain_inv in E3 as (_ & E3 & _). exists len, f, v, l, D. split_and!; [done..|].
  destruct Hv as [V1 V2 V3 V4 V5 V6 V7]. destruct (proj1 (pages_for_spec (u64 len) _) eq_refl) as [Hp1 Hp2].
  destruct (close_mapped fd f (vm_start v / 4096) v (p_os s2) Hf2) as [Ek Em].
  { apply V6. destruct V5 as (Hal & -> & _). clear -Hal V4 Hp2. Z.to_euclidean_division_equations. lia. }
  rewrite <- E3. constructor; rewrite ?Ek, ?Em; done.
Qed.

(** Without -s the size is whatever is on the stack. *)
Lemma pop_mmap_needs_size os a fd s s1 :
  run_opts pop_mmap_opt args_init os = inr a -> size a = None ->
  open_path (path a) s = Ret (fd, s1) -> 0 <= fd -> pop_mmap_main os s = Fault UninitRead.
Proof.
  intros Ho Hs E Hfd. unfold pop_mmap_main. rewrite Ho, (bind_ret _ _ _ _ _ E).
  rewrite (proj2 (Z.ltb_ge fd 0)) by lia. unfold map_and_close. by rewrite Hs.
Qed.
End device.

(** ** Witness *)

(** "pop-mmap -p /dev/pop/0000:17:00.0 -s 8192 -o 4096", with the device
    registered. *)
Definition mmap_opts : list opt :=
  [("p"%char, DEVPOPDIR ++ fmt_pci 0 0x17 0 0); ("s"%char, lit "8192"); ("o"%char, lit "4096")].
Definition mmap_proc : proc psys := Proc ∅ ∅ ∅ ∅ 1%positive [] 0 0 (Psys kernel1 ∅ 3 [] 0x7f0000000 7%positive).

Lemma pop_mmap_maps_device_witness :
  exists s' f v l D, pop_mmap_main mmap_opts mmap_proc = Ret (0, s') /\ maps_device f v l D 4096 8192 (p_os s').
Proof.
  assert (exists s', pop_mmap_main mmap_opts mmap_proc = Ret (0, s')) as [s' E].
  { eexists. vm_compute. reflexivity. }
  exists s'. destruct (pop_mmap_maps_device mmap_opts (Args (Some (DEVPOPDIR ++ fmt_pci 0 0x17 0 0)) (Some 8192) 4096)
    0 0x17 0 0 1 mmap_proc s') as (len & f & v & l & D & [= <-] & _ & Hm);
    [vm_compute; reflexivity|reflexivity|lia|lia|lia|lia|reflexivity|exact kinv_kernel1|exact E|].
  exists f, v, l, D. split; [exact E|exact Hm].
Defined.
