(* ===== verification/TxRing.v ===== *)
(** * Filling a transmit ring

    The assignments with which every sender of apps/ fills a netmap slot and
    moves on to the next one, and what a run of them leaves: the items stand in
    the slots from [head] on, in order and around the end of the ring, and no
    other slot has changed.  The memory of the machine, which packets are built
    in and read from, is part of the outside world ([Ram]). *)

From S2P Require Import Prelude CStr LibpopH PopBuf Netmap PopNetmap Unvme.

(** ** Main memory *)

Class Ram (W : Type) : Type := {
  ram_read : Z -> nat -> W -> list Z;
  ram_write : Z -> list Z -> W -> W
}.

Class RamOk (W : Type) `{Ram W} : Prop := {
  ram_read_length a n w : length (ram_read a n w) = n;
  ram_read_take a n m w : (n <= m)%nat -> ram_read a n w = take n (ram_read a m w);
  ram_read_app a n m w : ram_read a (n + m) w = ram_read a n w ++ ram_read (a + Z.of_nat n) m w;
  ram_read_same a l w : ram_read a (length l) (ram_write a l w) = l;
  ram_read_other a n b l w :
    a + Z.of_nat n <= b \/ b + Z.of_nat (length l) <= a -> ram_read a n (ram_write b l w) = ram_read a n w
}.

(** Code that works on the [room] bytes from [addr] on. *)
Definition at_mem {W : Type} `{Ram W} (addr : Z) (room : nat) (f : M (list Z) ()) : M (proc W) () := fun s =>
  match f (ram_read addr room (p_os s)) with
  | Ret (_, b) => Ret ((), with_os (ram_write addr b (p_os s)) s)
  | Diverge => Diverge
  | Fault e => Fault e
  end.

(** A packet builder that starts at [pkt] may write up to the end of the pop
    buffer. *)
Definition build_at {W : Type} `{Ram W} (pbuf : loc) (pkt : Z) (f : M (list Z) ()) : M (proc W) () :=
  b ← load_buf pbuf;
  at_mem pkt (Z.to_nat (b_vaddr b + b_size b - pkt)) f.

(** ** One slot *)

Section tx.
Context {W : Type} `{Netmap W}.

Definition tx_put (ptr len : Z) (x : netmap_slot) : netmap_slot :=
  NmSlot (u16 len) (Z.lor (s_flags x) NS_PHY_INDIRECT) ptr.

(** [slot->flags |= NS_PHY_INDIRECT; slot->ptr = ptr; slot->len = len;] and
    [head = nm_ring_next(ring, head)]. *)
Definition tx_slot (ring : loc) (head ptr len : Z) : M (proc W) Z :=
  _ ← upd_slot ring head (tx_put ptr len);
  r ← load_ring ring;
  mret (nm_ring_next r head).

(** A run of them: the ring and the next index. *)
Fixpoint filled (r : netmap_ring) (head : Z) (items : list (Z * Z)) : netmap_ring * Z :=
  match items with
  | [] => (r, head)
  | (ptr, len) :: items' =>
      filled (with_slots r (alter (tx_put ptr len) (Z.to_nat head) (r_slot r))) (nm_ring_next r head) items'
  end.
End tx.

(** ** What a run leaves *)

(** The index [i] places behind [head]. *)
Definition ring_index (r : netmap_ring) (head i : Z) : Z := (head + i) `mod` r_num_slots r.

Section tx_lemmas.
Context {W : Type} `{NetmapOk W}.
Implicit Type s : proc W.

Lemma next_index r head : ring_wf r -> 0 <= head < r_num_slots r -> nm_ring_next r head = ring_index r head 1.
Proof.
  intros [_ Hn _ _] Hh. rewrite nm_next_spec by done. unfold ring_index.
  destruct (Z.eqb_spec (head + 1) (r_num_slots r)) as [E|E].
  - rewrite E. by rewrite Z_mod_same_full.
  - rewrite Z.mod_small; lia.
Qed.

Lemma ring_index_range r head i : ring_wf r -> 0 <= ring_index r head i < r_num_slots r.
Proof. intros [_ Hn _ _]. apply Z.mod_pos_bound. lia. Qed.

Lemma ring_index_index r head i j :
  ring_wf r -> ring_index r (ring_index r head i) j = ring_index r head (i + j).
Proof.
  intros [_ Hn _ _]. unfold ring_index. rewrite Zplus_mod_idemp_l. f_equal. lia.
Qed.

(** Indices less than a whole round apart differ. *)
Lemma ring_index_inj r head i j :
  ring_wf r -> 0 <= i < r_num_slots r -> 0 <= j < r_num_slots r ->
  ring_index r head i = ring_index r head j -> i = j.
Proof.
  intros [_ Hn _ _] Hi Hj E. unfold ring_index in E.
  apply (f_equal (fun z => (z - head) `mod` r_num_slots r)) in E.
  rewrite !Zminus_mod_idemp_l in E. replace (head + i - head) with i in E by lia.
  replace (head + j - head) with j in E by lia. by rewrite !Z.mod_small in E.
Qed.

(** Advancing takes away from the distance. *)
Lemma ring_advance r k :
  ring_wf r -> 0 <= k <= (r_tail r - r_head r) `mod` r_num_slots r ->
  (r_tail r - ring_index r (r_head r) k) `mod` r_num_slots r
  = (r_tail r - r_head r) `mod` r_num_slots r - k.
Proof.
  intros [_ Hn _ _] Hk. pose proof (Z.mod_pos_bound (r_tail r - r_head r) (r_num_slots r)).
  unfold ring_index. rewrite Zminus_mod_idemp_r.
  replace (r_tail r - (r_head r + k)) with (r_tail r - r_head r - k) by lia.
  rewrite <- (Zminus_mod_idemp_l (r_tail r - r_head r)). apply Z.mod_small. lia.
Qed.

Lemma ring_wf_alter r f i : ring_wf r -> ring_wf (with_slots r (alter f i (r_slot r))).
Proof. intros Hw. apply ring_wf_slots; [done|]. apply length_alter. Qed.

(** The run in terms of slots. *)
Lemma filled_spec items : forall r head,
  ring_wf r -> 0 <= head < r_num_slots r -> Z.of_nat (length items) <= r_num_slots r ->
  let r' := (filled r head items).1 in
  (filled r head items).2 = ring_index r head (Z.of_nat (length items)) /\
  ring_wf r' /\ same_shape r r' /\ r_head r' = r_head r /\ r_tail r' = r_tail r /\
  (forall i ptr len, items !! i = Some (ptr, len) -> exists x,
     r_slot r !! Z.to_nat (ring_index r head (Z.of_nat i)) = Some x /\
     r_slot r' !! Z.to_nat (ring_index r head (Z.of_nat i)) = Some (tx_put ptr len x)) /\
  (forall i, Z.of_nat (length items) <= i < r_num_slots r ->
     r_slot r' !! Z.to_nat (ring_index r head i) = r_slot r !! Z.to_nat (ring_index r head i)).
Proof.
  induction items as [|[ptr len] items IH]; intros r head Hwf Hh Hlen r'.
  - simpl in *. split_and!; try done.
    unfold ring_index. by rewrite Z.add_0_r, Z.mod_small.
  - set (r1 := with_slots r (alter (tx_put ptr len) (Z.to_nat head) (r_slot r))).
    assert (ring_wf r1) as Hwf1 by (by apply ring_wf_alter).
    assert (nm_ring_next r head = ring_index r head 1) as Hnx by (by apply next_index).
    simpl in Hlen. destruct (IH r1 (ring_index r head 1)) as (E2 & Hwf' & Hsh & Hh' & Ht' & Hin & Hout);
      [done|exact (ring_index_range r head 1 Hwf)|simpl; lia|].
    assert ((filled r head ((ptr, len) :: items)) = filled r1 (ring_index r head 1) items) as Ef
      by (simpl; by rewrite Hnx).
    unfold r'. rewrite Ef. set (rf := (filled r1 (ring_index r head 1) items).1) in *.
    assert (forall i, ring_index r1 (ring_index r head 1) i = ring_index r head (1 + i)) as Hidx
      by (intros i; by rewrite <- (ring_index_index r)).
    assert (ring_index r head 0 = head) as H0i by (unfold ring_index; by rewrite Z.add_0_r, Z.mod_small).
    assert (forall i, 0 < i < r_num_slots r ->
      r_slot r1 !! Z.to_nat (ring_index r head i) = r_slot r !! Z.to_nat (ring_index r head i)) as Hother.
    { intros i Hi. apply list_lookup_alter_ne. intros E.
      assert (ring_index r head 0 = ring_index r head i) as Ei.
      { rewrite H0i. pose proof (ring_index_range r head i Hwf). lia. }
      apply (ring_index_inj r) in Ei; [lia|done|destruct Hwf; lia|lia]. }
    split_and!; try done.
    + rewrite E2, Hidx. simpl length. f_equal. lia.
    + eapply same_shape_trans; [|exact Hsh]. split_and!; try done. apply length_alter.
    + intros [|i] p l Hi.
      * injection Hi as <- <-. change (Z.of_nat 0) with 0. rewrite H0i.
        destruct (lookup_lt_is_Some_2 (r_slot r) (Z.to_nat head)) as [x Hx]; [destruct Hwf; lia|].
        exists x. split; [done|].
        specialize (Hout (r_num_slots r - 1)). rewrite Hidx in Hout.
        replace (ring_index r head (1 + (r_num_slots r - 1))) with head in Hout.
        -- rewrite Hout by (simpl; lia). unfold r1; simpl.
           rewrite list_lookup_alter, decide_True by done. by rewrite Hx.
        -- unfold ring_index. replace (head + (1 + (r_num_slots r - 1))) with (head + 1 * r_num_slots r) by lia.
           rewrite Z_mod_plus_full. by rewrite Z.mod_small.
      * destruct (Hin i p l Hi) as (x & Hx & Hx'). rewrite Hidx in Hx, Hx'.
        replace (Z.of_nat (S i)) with (1 + Z.of_nat i) by lia. exists x. split; [|done].
        rewrite <- Hx. symmetry. apply Hother. apply lookup_lt_Some in Hi. simpl in Hi. lia.
    + intros i Hi. simpl length in Hi. specialize (Hout (i - 1)). rewrite Hidx in Hout.
      replace (1 + (i - 1)) with i in Hout by lia. rewrite Hout by (simpl; lia). apply Hother. lia.
Qed.

Lemma filled_app l1 l2 r head :
  filled r head (l1 ++ l2) = filled (filled r head l1).1 (filled r head l1).2 l2.
Proof. revert r head. induction l1 as [|[p l] l1 IH]; intros r head; [done|]. apply IH. Qed.

Lemma tx_slot_eq ring head ptr len r s :
  p_rings s !! ring = Some r -> ring_wf r -> 0 <= head < r_num_slots r ->
  tx_slot ring head ptr len s =
  Ret (nm_ring_next r head, put_ring ring (with_slots r (alter (tx_put ptr len) (Z.to_nat head) (r_slot r))) s).
Proof.
  intros Hr Hwf Hh. unfold tx_slot.
  destruct (lookup_lt_is_Some_2 (r_slot r) (Z.to_nat head)) as [x Hx]; [destruct Hwf; lia|].
  rewrite (bind_ret _ _ _ _ _ (upd_slot_eq _ _ _ _ _ _ Hr Hx)).
  erewrite bind_ret by (apply load_ring_Some, lookup_insert_eq).
  unfold mret, M_ret. f_equal. f_equal.
  - by rewrite !nm_next_spec.
  - unfold put_ring. do 3 f_equal. rewrite list_insert_alter.
    apply list_alter_ext; [|done]. intros y Hy. by simplify_eq.
Qed.
End tx_lemmas.

(** ** An implementation *)

(** The device of [nm_instance], a memory that is zero where nothing was
    written, and a disk that keeps the commands it was given. *)
Record gen_os : Type := GenOs { go_nm : nm_os; go_ram : gmap Z Z; go_log : list io }.

Definition lift_sync (x : (Z * netmap_ring) * nm_os) (w : gen_os) : (Z * netmap_ring) * gen_os :=
  (x.1, GenOs x.2 (go_ram w) (go_log w)).

#[export] Instance gen_netmap : Netmap gen_os := {
  NS_PHY_INDIRECT := NS_PHY_INDIRECT (W:=nm_os);
  nm_ring_next := nm_ring_next (W:=nm_os);
  nm_ring_empty := nm_ring_empty (W:=nm_os);
  nm_ring_space := nm_ring_space (W:=nm_os);
  nm_tx_pending := nm_tx_pending (W:=nm_os);
  sys_rxsync _ r w := lift_sync (nm_sync r (go_nm w)) w;
  sys_txsync _ r w := lift_sync (nm_sync r (go_nm w)) w
}.

#[export] Instance gen_netmap_ok : NetmapOk gen_os.
Proof.
  constructor; try done; intros fd r w; simpl; pose proof (nm_sync_spec r (go_nm w)) as Hs;
    destruct (nm_sync r (go_nm w)) as [[ret r'] w']; exact Hs.
Qed.

Definition gen_peek (a : Z) (n : nat) (w : gen_os) : list Z :=
  (fun i => default 0 (go_ram w !! (a + Z.of_nat i))) <$> seq 0 n.

Fixpoint write_bytes (a : Z) (l : list Z) (m : gmap Z Z) : gmap Z Z :=
  match l with [] => m | x :: l' => write_bytes (a + 1) l' (<[a:=x]> m) end.

#[export] Instance gen_ram : Ram gen_os := {
  ram_read := gen_peek;
  ram_write a l w := GenOs (go_nm w) (write_bytes a l (go_ram w)) (go_log w)
}.

Lemma write_bytes_lookup l : forall a m k,
  write_bytes a l m !! k =
  if decide (a <= k < a + Z.of_nat (length l)) then l !! Z.to_nat (k - a) else m !! k.
Proof.
  induction l as [|x l IH]; intros a m k; simpl.
  - rewrite decide_False by lia. done.
  - rewrite IH. destruct (decide (a = k)) as [->|Hne].
    + rewrite decide_False by lia. rewrite decide_True by lia. rewrite Z.sub_diag. apply lookup_insert_eq.
    + rewrite lookup_insert_ne by done.
      destruct (decide (a + 1 <= k < a + 1 + Z.of_nat (length l))).
      * rewrite decide_True by lia. replace (Z.to_nat (k - a)) with (S (Z.to_nat (k - (a + 1)))) by lia. done.
      * by rewrite decide_False by lia.
Qed.

#[export] Instance gen_ram_ok : RamOk gen_os.
Proof.
  constructor; simpl.
  - intros. unfold gen_peek. by rewrite length_fmap, length_seq.
  - intros a n m w Hn. unfold gen_peek. rewrite <- fmap_take. f_equal.
    replace m with (n + (m - n))%nat by lia. rewrite seq_app, take_app_length' by (by rewrite length_seq). done.
  - intros a n m w. unfold gen_peek. rewrite seq_app, fmap_app. apply (f_equal2 app); [done|].
    replace (seq (0 + n) m) with (Nat.add n <$> seq 0 m) by (rewrite fmap_add_seq; f_equal; lia).
    rewrite <- list_fmap_compose. apply list_fmap_ext. intros i k _. unfold compose. do 2 f_equal. lia.
  - intros a l w. unfold gen_peek; simpl. apply list_eq. intros i. rewrite list_lookup_fmap.
    destruct (decide (i < length l)%nat) as [Hi|Hi].
    + rewrite lookup_seq_lt by done. simpl. rewrite write_bytes_lookup, decide_True by lia.
      replace (Z.to_nat (a + Z.of_nat i - a)) with i by lia.
      destruct (lookup_lt_is_Some_2 l i Hi) as [x ->]. done.
    + rewrite lookup_seq_ge by lia. rewrite lookup_ge_None_2 by lia. done.
  - intros a n b l w Hd. unfold gen_peek; simpl. apply list_fmap_ext. intros i k Hk.
    apply lookup_seq in Hk as [-> Hk]. by rewrite write_bytes_lookup, decide_False by lia.
Qed.

(** A disk with blocks of 4 KiB whose commands all succeed. *)
Definition go_submit (c : io) (w : gen_os) : gen_os := GenOs (go_nm w) (go_ram w) (go_log w ++ [c]).

#[export] Instance gen_unvme : Unvme gen_os := {
  un_blocksize := 4096;
  un_blockshift := 12;
  unvme_aread q buf lba n w := (lba, go_submit (Io false q buf lba n) w);
  unvme_awrite q buf lba n w := (lba, go_submit (Io true q buf lba n) w);
  unvme_apoll _ w := (0, w);
  unvme_write q buf lba n w := (0, go_submit (Io true q buf lba n) w);
  unvme_open _ w := (true, w);
  unvme_register_pop_mem _ w := (0, w);
  unvme_close w := (0, w)
}.

#[export] Program Instance gen_unvme_ok : UnvmeOk gen_os := { un_log := go_log }.
Solve Obligations with (simpl; done || lia).
