(* ===== verification/Nmgen.v ===== *)
(** * apps/nmgen.c: the packet generator

    The bodies of the sender and receiver threads.  [th->cancel] is set by
    another thread: a run of a loop on it is a run of some number of rounds
    ([iter_nat]), and the theorems hold for every number.  What [rand] returns
    for the n-th packet is an argument.  Pinning the thread to a processor, the
    clock and the printed rates are not modelled. *)

From S2P Require Import Prelude CStr LibpopH PopBuf Netmap PopNetmap TxRing Packet Options.

Section nmgen.
Context {W : Type} `{Netmap W} `{Ram W}.
Import NmgenOpt.

(** ** The sender thread *)

(** [2048 * gen->batch], an [int], as the [size_t] argument. *)
Definition batch_bytes {St : Type} (batch : Z) : M St Z :=
  if (2 ^ 31 <=? 2048 * batch) || (2048 * batch <? - 2 ^ 31) then throw SignedOverflow
  else mret (u64 (2048 * batch)).

(** The body of the loop that prepares the packets; [pkts_phy] has
    [MAX_BATCH_NUM] elements. *)
Definition prepare (g : nmgen) (mem pbuf : loc) (cpu : Z) (rnd : Z -> Z) (n : Z) (pkts_phy : list Z)
    : M (proc W) (list Z) :=
  if MAX_BATCH_NUM <=? n then throw OutOfBounds
  else
    data ← pop_buf_data pbuf;
    let pkt := data +64 2048 * n in
    pa ← pop_virt_to_phys mem pkt;
    _ ← build_at pbuf pkt
          (nmgen_build_packet (pktlen g) cpu (rnd n) (dstmac g) (srcmac g) (srcip g) (dstip g));
    mret (pkts_phy ++ [pa]).

(** Up to the start of the transmit loop. *)
Definition nmgen_sender_setup (g : nmgen) (mem : loc) (cpu : Z) (rnd : Z -> Z)
    : M (proc W) (option (list Z)) :=
  size ← batch_bytes (batch g);
  opbuf ← pop_buf_alloc mem size;
  match opbuf with
  | None => mret None
  | Some pbuf =>
      _ ← pop_buf_put pbuf size;
      pkts_phy ← for_each (seqZ 0 (batch g)) (prepare g mem pbuf cpu rnd) [];
      mret (Some pkts_phy)
  end.

(** The body of the loop over the batch: the next index and the two counters
    of the round.  [gen->pktlen << 3] is an [int]. *)
Definition nmgen_fill (g : nmgen) (ring : loc) (pkts_phy : list Z) (b : Z) (x : Z * Z * Z)
    : M (proc W) (Z * Z * Z) :=
  let '(head, npkts, nbits) := x in
  pa ← require OutOfBounds (pkts_phy !! Z.to_nat b);
  head' ← tx_slot ring head pa (pktlen g);
  mret (head', npkts +64 1, nbits +64 i32 (Z.shiftl (pktlen g) 3)).

(** One round of the transmit loop on the thread's counters. *)
Definition nmgen_send_round (g : nmgen) (fd : Z) (ring : loc) (pkts_phy : list Z) (c : Z * Z)
    : M (proc W) ((Z * Z) + (Z * Z)) :=
  ret ← nioctxsync fd ring;
  if ret <? 0 then mret (inr c)
  else
    r ← load_ring ring;
    let space := nm_ring_space r in
    if space =? 0 then mret (inl c)
    else
      let n := if u64 (batch g) <? space then u64 (batch g) else space in
      x ← for_each (seqZ 0 n) (nmgen_fill g ring pkts_phy) (r_head r, 0, 0);
      let '(head, npkts, nbits) := x in
      _ ← advance ring head;
      mret (inl (c.1 +64 npkts, c.2 +64 nbits)).

(** [while (nm_tx_pending(ring)) ioctl(..., NIOCTXSYNC, ...)]. *)
Definition nmgen_drain (fd : Z) (ring : loc) (_ : ()) : M (proc W) (() + ()) :=
  r ← load_ring ring;
  if nm_tx_pending r then _ ← nioctxsync fd ring; mret (inl ()) else mret (inr ()).

(** The thread, cancelled after [rounds] rounds: its counters. *)
Definition nmgen_sender_body (g : nmgen) (mem : loc) (cpu : Z) (rnd : Z -> Z) (fd : Z) (ring : loc)
    (rounds : nat) : M (proc W) (Z * Z) :=
  opkts ← nmgen_sender_setup g mem cpu rnd;
  match opkts with
  | None => mret (0, 0)
  | Some pkts_phy =>
      x ← iter_nat (nmgen_send_round g fd ring pkts_phy) rounds (0, 0);
      match x with
      | inr c => mret c
      | inl c => _ ← while_ (nmgen_drain fd ring) (); mret c
      end
  end.

(** ** The receiver thread *)

(** [while (!nm_ring_empty(ring))]: one packet. *)
Definition nmgen_recv_packet (ring : loc) (c : Z * Z) : M (proc W) ((Z * Z) + (Z * Z)) :=
  r ← load_ring ring;
  if nm_ring_empty r then mret (inr c)
  else
    x ← require OutOfBounds (r_slot r !! Z.to_nat (r_head r));
    _ ← advance ring (nm_ring_next r (r_head r));
    mret (inl (c.1 +64 1, c.2 +64 Z.shiftl (s_len x) 3)).

Definition nmgen_recv_round (fd : Z) (ring : loc) (c : Z * Z) : M (proc W) ((Z * Z) + (Z * Z)) :=
  ret ← niocrxsync fd ring;
  if ret <? 0 then mret (inr c)
  else
    x ← while_ (nmgen_recv_packet ring) (0, 0);
    mret (inl (c.1 +64 x.1, c.2 +64 x.2)).

(** [prxring] is not checked, nor used. *)
Definition nmgen_receiver_body (mem : loc) (fd : Z) (ring : loc) (rounds : nat) : M (proc W) (Z * Z) :=
  _ ← pop_nm_rxring_init fd ring mem;
  x ← iter_nat (nmgen_recv_round fd ring) rounds (0, 0);
  match x with inl c | inr c => mret c end.
End nmgen.

(** ** Lemmas *)

Section lemmas.
Context {W : Type} `{NetmapOk W} `{RamOk W}.
Implicit Type s : proc W.
Import NmgenOpt.

Lemma put_ring_same ring r s : p_rings s !! ring = Some r -> put_ring ring r s = s.
Proof. intros E. unfold put_ring, with_rings. rewrite insert_id by done. by destruct s. Qed.

Lemma flag_set a b : Z.land (Z.lor a b) b = b.
Proof.
  apply Z.bits_inj'. intros n Hn. rewrite Z.land_spec, Z.lor_spec. by destruct (Z.testbit a n), (Z.testbit b n).
Qed.

(** The bits of a packet, as the counter adds them. *)
Definition pkt_bits (g : nmgen) : Z := i32 (Z.shiftl (pktlen g) 3).

Definition items (g : nmgen) (pkts_phy : list Z) : list (Z * Z) := (fun pa => (pa, pktlen g)) <$> pkts_phy.

Lemma u64_add_idemp a b : (u64 a +64 b) = u64 (a + b).
Proof. unfold u64. apply Zplus_mod_idemp_l. Qed.

(** The loop over the batch is a run of slots. *)
Lemma nmgen_fill_run g ring pkts k : forall i head np nb r s,
  p_rings s !! ring = Some r -> ring_wf r -> 0 <= head < r_num_slots r -> (i + k <= length pkts)%nat ->
  let f := filled r head (items g (take k (drop i pkts))) in
  for_each (seqZ (Z.of_nat i) (Z.of_nat k)) (nmgen_fill g ring pkts) (head, u64 np, u64 nb) s =
  Ret ((f.2, u64 (np + Z.of_nat k), u64 (nb + Z.of_nat k * pkt_bits g)), put_ring ring f.1 s).
Proof.
  induction k as [|k IH]; intros i head np nb r s Hr Hwf Hh Hi f.
  - simpl. rewrite !Z.add_0_r, put_ring_same by done. done.
  - rewrite seqZ_cons by lia. cbn [for_each].
    destruct (lookup_lt_is_Some_2 pkts i) as [pa Hpa]; [lia|].
    set (r1 := with_slots r (alter (tx_put pa (pktlen g)) (Z.to_nat head) (r_slot r))).
    assert (nmgen_fill g ring pkts (Z.of_nat i) (head, u64 np, u64 nb) s =
      Ret ((nm_ring_next r head, u64 (np + 1), u64 (nb + pkt_bits g)), put_ring ring r1 s)) as E.
    { unfold nmgen_fill. rewrite Nat2Z.id, Hpa. unfold require. unfold mbind at 1, M_bind at 1.
      unfold mret at 1, M_ret at 1. rewrite (bind_ret _ _ _ _ _ (tx_slot_eq _ _ _ _ _ _ Hr Hwf Hh)).
      unfold mret, M_ret. rewrite !u64_add_idemp. done. }
    rewrite (bind_ret _ _ _ _ _ E).
    replace (Z.succ (Z.of_nat i)) with (Z.of_nat (S i)) by lia.
    replace (Z.pred (Z.of_nat (S k))) with (Z.of_nat k) by lia.
    rewrite (IH (S i) _ (np + 1) (nb + pkt_bits g) r1 (put_ring ring r1 s)); [|apply lookup_insert_eq|..].
    + unfold f. rewrite (drop_S _ _ _ Hpa). cbn [take items fmap list_fmap filled].
      rewrite put_ring_twice. fold r1.
      replace (np + 1 + Z.of_nat k) with (np + Z.of_nat (S k)) by lia.
      by replace (nb + pkt_bits g + Z.of_nat k * pkt_bits g) with (nb + Z.of_nat (S k) * pkt_bits g) by lia.
    + by apply ring_wf_alter.
    + rewrite next_index by done. exact (ring_index_range r head 1 Hwf).
    + lia.
Qed.

(** What a round does, in terms of the ring the sync call left. *)
Lemma nmgen_send_round_eq g fd ring pkts c r0 s :
  p_rings s !! ring = Some r0 -> ring_wf r0 -> 1 <= batch g <= 64 -> Z.of_nat (length pkts) = batch g ->
  exists ret r1 w1 s1, sys_txsync fd r0 (p_os s) = ((ret, r1), w1) /\ ring_wf r1 /\ same_shape r0 r1 /\
    p_rings s1 !! ring = Some r1 /\ ring_only ring s s1 /\ p_os s1 = w1 /\
    let k := Z.min (batch g) (nm_ring_space r1) in
    let f := filled r1 (r_head r1) (items g (take (Z.to_nat k) pkts)) in
    nmgen_send_round g fd ring pkts c s =
    if ret <? 0 then Ret (inr c, s1)
    else if nm_ring_space r1 =? 0 then Ret (inl c, s1)
    else Ret (inl (c.1 +64 u64 k, c.2 +64 u64 (k * pkt_bits g)),
              put_ring ring (with_indices f.1 f.2 f.2) s1).
Proof.
  intros Hr Hwf Hb Hl. unfold nmgen_send_round, nioctxsync.
  destruct (sync_returns (sys_txsync fd) ring r0 s Hr) as (ret & r1 & w1 & s1 & E1 & Es & Hr1 & Ho & Hw).
  pose proof (nm_txsync_spec fd r0 (p_os s)) as Hsync. rewrite E1 in Hsync.
  destruct Hsync as (Hsh & Hwf1 & _). destruct Hwf as [Hn1 Hn2 _ _]. specialize (Hwf1 Hn1 Hn2).
  exists ret, r1, w1, s1. split_and!; try done. cbv zeta. rewrite (bind_ret _ _ _ _ _ Es).
  destruct (ret <? 0) eqn:Eret; [done|]. rewrite Eret.
  rewrite (bind_ret _ _ _ _ _ (load_ring_Some _ _ _ Hr1)). cbv zeta.
  destruct (Z.eqb_spec (nm_ring_space r1) 0) as [E0|E0]; [done|].
  assert (0 <= nm_ring_space r1) as Hsp.
  { rewrite nm_space_spec by done. apply Z.mod_pos_bound. destruct Hwf1. lia. }
  rewrite (u64_small (batch g)) by lia.
  replace (if batch g <? nm_ring_space r1 then batch g else nm_ring_space r1)
    with (Z.of_nat (Z.to_nat (Z.min (batch g) (nm_ring_space r1)))) by (destruct (Z.ltb_spec (batch g) (nm_ring_space r1)); lia).
  set (k := Z.to_nat (Z.min (batch g) (nm_ring_space r1))).
  pose proof (nmgen_fill_run g ring pkts k 0 (r_head r1) 0 0 r1 s1 Hr1 Hwf1 (rw_head _ Hwf1) ltac:(lia)) as Ef.
  change (drop 0 pkts) with pkts in Ef. cbv zeta in Ef. change (u64 0) with 0 in Ef.
  change (Z.of_nat 0) with 0 in Ef. rewrite (bind_ret _ _ _ _ _ Ef).
  set (f := filled r1 (r_head r1) (items g (take k pkts))).
  assert (advance ring f.2 (put_ring ring f.1 s1) = Ret ((), put_ring ring (with_indices f.1 f.2 f.2) s1)) as Ea.
  { unfold advance. erewrite bind_ret by (apply load_ring_Some, lookup_insert_eq).
    unfold store_ring, modify. f_equal. f_equal. apply put_ring_twice. }
  rewrite (bind_ret _ _ _ _ _ Ea). unfold mret, M_ret. rewrite !Z.add_0_l.
  replace (Z.of_nat k) with (Z.min (batch g) (nm_ring_space r1)) by lia. done.
Qed.

(** ** Setting up *)

(** The packet in a slot is complete: it begins with Ethernet, IPv4 and UDP
    headers, and the IP header verifies by RFC 1071. *)
Definition slot_ready (g : nmgen) (cpu addr : Z) s : Prop :=
  exists hdr n, pktlen g = Z.of_nat n /\ ram_read addr n (p_os s) = hdr ++ replicate (n - 42) 0 /\
    length hdr = 42%nat /\ take 14 hdr = dstmac g ++ srcmac g ++ [0x08; 0x00] /\
    take 2 (drop 36 hdr) = be16 (60000 + cpu) /\ ones_sum (take 20 (drop 14 hdr)) = 0xFFFF.

Lemma octets_bytes n l : octets n l -> length l = n /\ Forall is_byte l.
Proof. done. Qed.

Lemma nmgen_build_ready g cpu rnd n b :
  nmgen_wf g -> pktlen g = Z.of_nat n -> (42 <= n <= length b)%nat ->
  exists hdr, nmgen_build_packet (pktlen g) cpu rnd (dstmac g) (srcmac g) (srcip g) (dstip g) b
    = Ret ((), hdr ++ replicate (n - 42) 0 ++ drop n b) /\ length hdr = 42%nat /\
    take 14 hdr = dstmac g ++ srcmac g ++ [0x08; 0x00] /\
    take 2 (drop 36 hdr) = be16 (60000 + cpu) /\ ones_sum (take 20 (drop 14 hdr)) = 0xFFFF.
Proof.
  intros (_ & _ & _ & [Ld Bd] & [Ls Bs] & [Ldm _] & [Lsm _]) -> Hn.
  rewrite nmgen_build_eq by done. eexists. split; [done|].
  pose proof (ip_checksum_verifies 0x10 (Z.of_nat n - 14) 16 (srcip g) (dstip g)) as Hv. cbv zeta in Hv.
  fold (nmgen_sum n (srcip g) (dstip g)) in Hv. set (c := nmgen_sum n (srcip g) (dstip g)) in *.
  unfold headers.
  assert (length (ip_header_sum 0x10 (Z.of_nat n - 14) 16 c (srcip g) (dstip g)) = 20%nat) as Hip.
  { unfold ip_header_sum. rewrite !length_app, Ls, Ld. done. }
  split_and!.
  - rewrite !length_app, Ldm, Lsm, Hip. done.
  - rewrite app_assoc, app_assoc, <- (app_assoc (dstmac g)). apply take_app_length'.
    rewrite !length_app, Ldm, Lsm. done.
  - rewrite !app_assoc. rewrite <- 2 app_assoc. rewrite drop_app_length' by (rewrite !length_app, Ldm, Lsm, Hip; done).
    done.
  - rewrite 2 app_assoc. rewrite drop_app_length' by (rewrite !length_app, Ldm, Lsm; done).
    rewrite take_app_length' by done. apply Hv; done || (unfold is_byte; lia).
Qed.

(** What the preparing loop keeps. *)
Definition preparing (g : nmgen) (cpu : Z) (m : pop_mem) (pbuf : loc) (b : pop_buf) s0 (rest acc : list Z) s : Prop :=
  rest = seqZ (Z.of_nat (length acc)) (batch g - Z.of_nat (length acc)) /\
  (Z.of_nat (length acc) <= batch g) /\
  (forall i, (i < length acc)%nat -> acc !! i = Some (b_paddr b + 2048 * Z.of_nat i) /\
     slot_ready g cpu (b_vaddr b + 2048 * Z.of_nat i) s) /\
  p_mems s = p_mems s0 /\ p_bufs s = p_bufs s0 /\ p_rings s = p_rings s0.

Lemma slot_ready_write g cpu a addr l s :
  a + pktlen g <= addr -> slot_ready g cpu a s -> slot_ready g cpu a (with_os (ram_write addr l (p_os s)) s).
Proof.
  intros Hle (hdr & n & En & Er & Hrest). exists hdr, n. split; [done|]. split; [|done]. simpl.
  rewrite ram_read_other by lia. done.
Qed.

Lemma prepare_step g cpu rnd m lm pbuf b s0 i rest acc s :
  nmgen_wf g -> 42 <= pktlen g <= 2048 -> p_mems s0 !! lm = Some m -> p_bufs s0 !! pbuf = Some b ->
  b_offset b = 0 -> 2048 * batch g <= b_size b -> 0 <= b_vaddr b -> b_vaddr b + b_size b < 2 ^ 64 ->
  (forall k, 0 <= k <= b_size b -> virt_to_phys_in m (b_vaddr b + k) = b_paddr b + k) ->
  preparing g cpu m pbuf b s0 (i :: rest) acc s ->
  exists acc' s', prepare g lm pbuf cpu rnd i acc s = Ret (acc', s') /\ preparing g cpu m pbuf b s0 rest acc' s'.
Proof.
  intros Hwf Hpl Hm Hb Ho Hsz Hv0 Hv Ht (Er & Hle & Hacc & Em & Eb & Ers).
  set (k := length acc) in *.
  assert (Z.of_nat k < batch g) as Hk.
  { destruct (decide (Z.of_nat k < batch g)); [done|]. by rewrite seqZ_nil in Er by lia. }
  rewrite seqZ_cons in Er by lia. injection Er as -> ->. pose proof (proj1 Hwf) as Hb64.
  set (pkt := b_vaddr b + 2048 * Z.of_nat k). set (room := Z.to_nat (b_vaddr b + b_size b - pkt)).
  assert (2048 <= Z.of_nat room) as Hroom by (unfold room, pkt; lia).
  destruct (nmgen_build_ready g cpu (rnd (Z.of_nat k)) (Z.to_nat (pktlen g)) (ram_read pkt room (p_os s)))
    as (hdr & Ebd & Hlen & Hrest); [done|lia|rewrite ram_read_length; lia|].
  set (b' := hdr ++ replicate (Z.to_nat (pktlen g) - 42) 0 ++ drop (Z.to_nat (pktlen g)) (ram_read pkt room (p_os s))) in *.
  assert (length b' = room) as Hb'.
  { unfold b'. rewrite !length_app, length_replicate, length_drop, ram_read_length, Hlen. lia. }
  exists (acc ++ [b_paddr b + 2048 * Z.of_nat k]), (with_os (ram_write pkt b' (p_os s)) s). split.
  - unfold prepare, MAX_BATCH_NUM. replace (64 <=? Z.of_nat k) with false by lia.
    assert (p_bufs s !! pbuf = Some b) as Hbs by (by rewrite Eb).
    assert (p_mems s !! lm = Some m) as Hms by (by rewrite Em).
    unfold pop_buf_data. rewrite bind_assoc, (bind_ret _ _ _ _ _ (load_buf_Some _ _ _ Hbs)).
    unfold mbind at 1, M_bind at 1. unfold mret at 1, M_ret at 1. unfold buf_data. rewrite Ho.
    rewrite (u64_small (b_vaddr b + 0)), (u64_small (b_vaddr b + 0 + 2048 * Z.of_nat k)) by lia.
    rewrite Z.add_0_r. fold pkt. unfold pop_virt_to_phys.
    rewrite bind_assoc, (bind_ret _ _ _ _ _ (load_mem_Some _ _ _ Hms)).
    unfold mbind at 1, M_bind at 1. unfold mret at 1, M_ret at 1.
    unfold build_at. rewrite bind_assoc, (bind_ret _ _ _ _ _ (load_buf_Some _ _ _ Hbs)).
    fold room. unfold mbind at 1, M_bind at 1. unfold at_mem. rewrite Ebd.
    unfold mret, M_ret. do 4 f_equal. apply Ht. lia.
  - unfold preparing. rewrite length_app. fold k. change (length [_]) with 1%nat.
    split_and!; try done; [f_equal; lia|lia|]. intros j Hj.
    destruct (decide (j = k)) as [->|Hne].
    + split; [by rewrite lookup_app_r, Nat.sub_diag by lia|].
      exists hdr, (Z.to_nat (pktlen g)). split; [lia|]. split; [|done]. simpl.
      rewrite (ram_read_take _ _ (length b')), ram_read_same by lia. unfold b'. rewrite app_assoc.
      apply take_app_length'. rewrite length_app, length_replicate, Hlen. lia.
    + destruct (Hacc j) as [Hj1 Hj2]; [lia|]. split; [by rewrite lookup_app_l by lia|].
      apply slot_ready_write; [unfold pkt; nia|done].
Qed.

(** The allocation and the loop together. *)
Lemma nmgen_setup_eq g lm cpu rnd m s :
  nmgen_wf g -> 1 <= batch g -> 42 <= pktlen g <= 2048 ->
  p_mems s !! lm = Some m -> mem_ok m -> m_mutex m = false -> m_size m = m_num_pages m * 4096 ->
  pages_for (2048 * batch g) <= m_num_pages m - m_alloced_pages m -> p_oom s = [] ->
  exists pkts s' b, nmgen_sender_setup g lm cpu rnd s = Ret (Some pkts, s') /\
    b = full_buf lm m (2048 * batch g) /\ p_bufs s' !! p_next s = Some b /\
    p_rings s' = p_rings s /\ Z.of_nat (length pkts) = batch g /\
    forall i, (i < length pkts)%nat -> pkts !! i = Some (b_paddr b + 2048 * Z.of_nat i) /\
      slot_ready g cpu (b_vaddr b + 2048 * Z.of_nat i) s'.
Proof.
  intros Hwf Hb1 Hpl Hm Hok Hmu Hms Hp Ho. pose proof (proj1 Hwf) as Hb64.
  destruct (proj1 (pages_for_spec (2048 * batch g) (pages_for (2048 * batch g))) eq_refl) as [_ Hpg].
  destruct (rxring_alloc lm m (2048 * batch g) s Hm Hok Hmu) as (s2 & v & Ea & Ep & Hb2 & Hr2 & Ho2 & Hos2 & Hn2);
    [lia|done|done|].
  set (b := full_buf lm m (2048 * batch g)) in *. pose proof Hok as [Hk1 Hk2 Hk3 Hk4].
  assert (exists m2, p_mems s2 !! lm = Some m2 /\ m_mem m2 = m_mem m /\ m_size m2 = m_size m /\
    m_paddr m2 = m_paddr m) as (m2 & Hm2 & E1 & E2 & E3).
  { revert Ep. unfold pop_buf_put, buf_op. intros Ep.
    apply bind_Ret_inv in Ep as (b0 & s3 & [_ ->]%load_buf_inv & Ep). revert Ep.
    destruct (buf_put b0 (2048 * batch g)) as [b1 r]. unfold store_buf, modify, mbind, M_bind, mret, M_ret.
    intros [= _ <-]. simpl. rewrite lookup_insert_eq. by eexists. }
  assert (forall k, 0 <= k <= b_size b -> virt_to_phys_in m2 (b_vaddr b + k) = b_paddr b + k) as Ht.
  { intros k Hk. unfold virt_to_phys_in. rewrite E1, E2, E3. unfold b in *. simpl in *. unwrap.
    rewrite orb_false_intro by lia. unwrap. lia. }
  destruct (for_each_inv (preparing g cpu m2 (p_next s) b s2) (prepare g lm (p_next s) cpu rnd)
    (seqZ 0 (batch g)) [] s2) as (pkts & s' & Ef & Er & Hle & Hall & _ & Eb & Ers).
  { unfold preparing. simpl. split_and!; try done; [f_equal; lia|lia|]. intros i Hi. lia. }
  { intros i rest acc s3 Hprep. eapply prepare_step; try done; unfold b; simpl; lia. }
  exists pkts, s', b. split_and!; try done.
  - unfold nmgen_sender_setup, batch_bytes. rewrite orb_false_intro by lia. unfold mbind at 1, M_bind at 1.
    unfold mret at 1, M_ret at 1. rewrite u64_small by lia. rewrite (bind_ret _ _ _ _ _ Ea).
    rewrite (bind_ret _ _ _ _ _ Ep). by rewrite (bind_ret _ _ _ _ _ Ef).
  - by rewrite Eb.
  - by rewrite Ers, Hr2.
  - destruct (decide (Z.of_nat (length pkts) = batch g)); [done|].
    rewrite seqZ_cons in Er by lia. done.
Qed.
End lemmas.

(** ** Properties *)

Section props.
Context {W : Type} `{NetmapOk W} `{RamOk W}.
Implicit Type s : proc W.
Import NmgenOpt.

(** The setup of an nmgen sender, on a pop memory with room for the batch
    and with a packet that fits its 2048-byte slot, prepares one packet per slot
    of a new pop buffer: every one of them is complete in memory (later packets
    do not damage earlier ones), and the physical addresses the transmit loop
    will use are those of the packets. *)
Theorem nmgen_setup_prepares g lm cpu rnd m s :
  nmgen_wf g -> 1 <= batch g -> 42 <= pktlen g <= 2048 ->
  p_mems s !! lm = Some m -> mem_ok m -> m_mutex m = false -> m_size m = m_num_pages m * 4096 ->
  pages_for (2048 * batch g) <= m_num_pages m - m_alloced_pages m -> p_oom s = [] ->
  exists pkts s' b, nmgen_sender_setup g lm cpu rnd s = Ret (Some pkts, s') /\
    p_bufs s' !! p_next s = Some b /\ Z.of_nat (length pkts) = batch g /\ b_length b = 2048 * batch g /\
    forall i pa, pkts !! i = Some pa ->
      pa = b_paddr b + 2048 * Z.of_nat i /\ pa + pktlen g <= b_paddr b + b_size b /\
      virt_to_phys_in m (b_vaddr b + 2048 * Z.of_nat i) = pa /\
      slot_ready g cpu (b_vaddr b + 2048 * Z.of_nat i) s'.
Proof.
  intros Hwf Hb1 Hpl Hm Hok Hmu Hms Hp Ho. pose proof (proj1 Hwf) as Hb64.
  destruct (nmgen_setup_eq g lm cpu rnd m s) as (pkts & s' & b & E & Eb & Hb & _ & Hlen & Hall); try done.
  destruct (proj1 (pages_for_spec (2048 * batch g) (pages_for (2048 * batch g))) eq_refl) as [_ Hpg].
  exists pkts, s', b. split_and!; try done; [by rewrite Eb|]. intros i pa Hi.
  pose proof (lookup_lt_Some _ _ _ Hi) as Hlt. destruct (Hall i Hlt) as [Hpa Hr]. simplify_eq.
  destruct Hok as [Hk1 Hk2 Hk3 Hk4]. simpl in *. split_and!; try done; [lia|].
  unfold virt_to_phys_in. unwrap. rewrite orb_false_intro by lia. unwrap. lia.
Qed.

(** C20: one round of nmgen's transmit loop, whatever the device did in the
    sync call: when the call fails the thread stops; otherwise the round posts as
    many packets as fit, at most a batch, in the slots from [head] on.  Posted
    slots carry the packets' addresses and length and the flag; every other slot,
    in particular each that belongs to the device, is unchanged; [head] advances
    by the number posted, never past [tail]; and the counters grow by the packets
    and bits posted. *)
Theorem nmgen_round_posts g fd ring pkts c r0 s :
  p_rings s !! ring = Some r0 -> ring_wf r0 -> 1 <= batch g <= 64 -> Z.of_nat (length pkts) = batch g ->
  0 <= c.1 < 2 ^ 64 -> 0 <= c.2 < 2 ^ 64 ->
  exists ret r1 w1 r2 s' c', sys_txsync fd r0 (p_os s) = ((ret, r1), w1) /\
    p_rings s' !! ring = Some r2 /\ ring_wf r2 /\ ring_only ring s s' /\
    nmgen_send_round g fd ring pkts c s = Ret (if ret <? 0 then inr c' else inl c', s') /\
    (ret < 0 -> c' = c /\ r2 = r1) /\
    (0 <= ret ->
       let k := Z.min (batch g) ((r_tail r1 - r_head r1) `mod` r_num_slots r1) in
       r_head r2 = ring_index r1 (r_head r1) k /\ r_tail r2 = r_tail r1 /\
       (r_tail r2 - r_head r2) `mod` r_num_slots r2 = (r_tail r1 - r_head r1) `mod` r_num_slots r1 - k /\
       c' = (u64 (c.1 + k), u64 (c.2 + k * pkt_bits g)) /\
       (forall i, 0 <= i < k -> exists pa x, pkts !! Z.to_nat i = Some pa /\
          r_slot r2 !! Z.to_nat (ring_index r1 (r_head r1) i) = Some x /\
          s_ptr x = pa /\ s_len x = u16 (pktlen g) /\ Z.land (s_flags x) NS_PHY_INDIRECT = NS_PHY_INDIRECT) /\
       (forall i, k <= i < r_num_slots r1 ->
          r_slot r2 !! Z.to_nat (ring_index r1 (r_head r1) i)
          = r_slot r1 !! Z.to_nat (ring_index r1 (r_head r1) i))).
Proof.
  intros Hr Hwf Hb Hl Hc1 Hc2.
  destruct (nmgen_send_round_eq g fd ring pkts c r0 s Hr Hwf Hb Hl)
    as (ret & r1 & w1 & s1 & E1 & Hwf1 & _ & Hr1 & Ho & _ & E). cbv zeta in E.
  exists ret, r1, w1. rewrite (nm_space_spec r1 Hwf1) in E.
  set (sp := (r_tail r1 - r_head r1) `mod` r_num_slots r1) in *.
  assert (0 <= sp < r_num_slots r1) as Hsp by (apply Z.mod_pos_bound; destruct Hwf1; lia).
  pose proof Hwf1 as [Hn1 Hn2 Hh1 Ht1].
  assert (ring_index r1 (r_head r1) 0 = r_head r1) as H0i
    by (unfold ring_index; by rewrite Z.add_0_r, Z.mod_small).
  destruct (Z.ltb_spec ret 0) as [Hneg|Hpos].
  { exists r1, s1, c. split_and!; try done. lia. }
  destruct (Z.eqb_spec sp 0) as [E0|E0].
  { exists r1, s1, c. split_and!; try done. intros _. rewrite E0, Z.min_r by lia. cbv zeta.
    rewrite Z.sub_0_r, H0i, !Z.add_0_r, !u64_small by lia. destruct c. split_and!; try done. lia. }
  set (k := Z.min (batch g) sp) in *.
  set (its := items g (take (Z.to_nat k) pkts)) in *.
  assert (length its = Z.to_nat k) as Hits.
  { unfold its, items. rewrite length_fmap, length_take. lia. }
  destruct (filled_spec its r1 (r_head r1) Hwf1 Hh1) as (F2 & Fwf & Fsh & Fh & Ft & Fin & Fout); [lia|].
  set (f := filled r1 (r_head r1) its) in *. rewrite Hits, Z2Nat.id in F2 by lia.
  pose proof (ring_index_range r1 (r_head r1) k Hwf1) as Hidx. destruct Fsh as (Fs1 & Fs2 & Fs3).
  exists (with_indices f.1 f.2 f.2), (put_ring ring (with_indices f.1 f.2 f.2) s1),
    (c.1 +64 u64 k, c.2 +64 u64 (k * pkt_bits g)).
  split; [done|]. split; [apply lookup_insert_eq|]. split.
  { apply ring_wf_indices; [done|]. rewrite F2. lia. }
  split.
  { etransitivity; [exact Ho|apply put_ring_only]. }
  split; [exact E|]. split; [lia|]. intros _. cbv zeta. fold k. simpl. split_and!; try done.
  - rewrite Ft, F2, Fs1. apply ring_advance; [done|]. unfold k. lia.
  - f_equal; unfold u64; apply Zplus_mod_idemp_r.
  - intros i Hi. destruct (lookup_lt_is_Some_2 pkts (Z.to_nat i)) as [pa Hpa]; [lia|].
    destruct (Fin (Z.to_nat i) pa (pktlen g)) as (x & _ & Hx).
    { unfold its, items. rewrite list_lookup_fmap, lookup_take_lt by lia. by rewrite Hpa. }
    rewrite Z2Nat.id in Hx by lia. exists pa, (tx_put pa (pktlen g) x).
    split; [done|]. split; [exact Hx|]. split; [done|]. split; [done|]. simpl. apply flag_set.
  - intros i Hi. apply Fout. lia.
Qed.

(** The loop keeps the ring well-formed and the two counters in step. *)
Definition sending (g : nmgen) (ring : loc) (c : Z * Z) s : Prop :=
  (exists r, p_rings s !! ring = Some r /\ ring_wf r) /\
  0 <= c.1 < 2 ^ 64 /\ c.2 = u64 (c.1 * pkt_bits g).

Lemma counters_step a b k d : b = u64 (a * d) -> (b +64 u64 (k * d)) = u64 ((a +64 u64 k) * d).
Proof.
  intros ->. unfold u64. rewrite <- Zplus_mod, Zmult_mod_idemp_l. rewrite <- (Zmult_mod_idemp_l (a + _ `mod` _)).
  rewrite Zplus_mod_idemp_r, Zmult_mod_idemp_l. f_equal. lia.
Qed.

Lemma send_round_keeps g fd ring pkts c s :
  1 <= batch g <= 64 -> Z.of_nat (length pkts) = batch g -> sending g ring c s ->
  exists x s', nmgen_send_round g fd ring pkts c s = Ret (x, s') /\
    sending g ring (match x with inl c' | inr c' => c' end) s'.
Proof.
  intros Hb Hl [(r & Hr & Hwf) [Hc1 Hc2]].
  destruct (nmgen_send_round_eq g fd ring pkts c r s Hr Hwf Hb Hl)
    as (ret & r1 & w1 & s1 & E1 & Hwf1 & _ & Hr1 & Ho & _ & E). cbv zeta in E.
  destruct (ret <? 0); [by exists (inr c), s1; split; [|split; [exists r1|]]|].
  destruct (_ =? 0) eqn:E0; [by exists (inl c), s1; split; [|split; [exists r1|]]|].
  assert (0 <= nm_ring_space r1 < r_num_slots r1) as Hsp.
  { rewrite nm_space_spec by done. apply Z.mod_pos_bound. destruct Hwf1. lia. }
  set (k := Z.min (batch g) (nm_ring_space r1)) in *.
  set (its := items g (take (Z.to_nat k) pkts)) in *.
  assert (length its = Z.to_nat k) as Hits.
  { unfold its, items. rewrite length_fmap, length_take. lia. }
  destruct (filled_spec its r1 (r_head r1) Hwf1 (rw_head _ Hwf1)) as (F2 & Fwf & [Fs _] & _); [lia|].
  eexists _, _. split; [exact E|]. unfold sending. split.
  - eexists. split; [apply lookup_insert_eq|]. apply ring_wf_indices; [done|].
    rewrite F2, Fs. by apply ring_index_range.
  - split; [apply u64_range|]. by apply counters_step.
Qed.

Lemma send_loop_keeps g fd ring pkts rounds : forall c s,
  1 <= batch g <= 64 -> Z.of_nat (length pkts) = batch g -> sending g ring c s ->
  exists x s', iter_nat (nmgen_send_round g fd ring pkts) rounds c s = Ret (x, s') /\
    sending g ring (match x with inl c' | inr c' => c' end) s'.
Proof.
  induction rounds as [|n IH]; intros c s Hb Hl Hs; [by exists (inl c), s|].
  destruct (send_round_keeps g fd ring pkts c s Hb Hl Hs) as ([c1|c1] & s1 & E & Hs1); cbn [iter_nat];
    rewrite (bind_ret _ _ _ _ _ E); [by apply IH|by exists (inr c1), s1].
Qed.

(** Waiting for the device cannot fault. *)
Lemma drain_step fd ring s :
  (exists r, p_rings s !! ring = Some r /\ ring_wf r) ->
  exists x s', nmgen_drain fd ring () s = Ret (x, s') /\ (exists r, p_rings s' !! ring = Some r /\ ring_wf r).
Proof.
  intros (r & Hr & Hwf). unfold nmgen_drain. rewrite (bind_ret _ _ _ _ _ (load_ring_Some _ _ _ Hr)).
  destruct (nm_tx_pending r); [|by exists (inr ()), s; split; [|exists r]].
  unfold nioctxsync. destruct (sync_returns (sys_txsync fd) ring r s Hr) as (ret & r1 & w1 & s1 & E1 & Es & Hr1 & _).
  pose proof (nm_txsync_spec fd r (p_os s)) as Hsync. rewrite E1 in Hsync.
  destruct Hsync as (_ & Hwf1 & _). destruct Hwf as [Hn1 Hn2 _ _]. specialize (Hwf1 Hn1 Hn2).
  rewrite (bind_ret _ _ _ _ _ Es). by exists (inl ()), s1; split; [|exists r1].
Qed.

Lemma drain_iter fd ring n : forall s,
  (exists r, p_rings s !! ring = Some r /\ ring_wf r) ->
  exists x s', iter_nat (nmgen_drain fd ring) n () s = Ret (x, s') /\
    (exists r, p_rings s' !! ring = Some r /\ ring_wf r).
Proof.
  induction n as [|n IH]; intros s Hs; [by exists (inl ()), s|].
  destruct (drain_step fd ring s Hs) as ([[]|[]] & s1 & E & Hs1); cbn [iter_nat];
    rewrite (bind_ret _ _ _ _ _ E); [by apply IH|by exists (inr ()), s1].
Qed.

(** What the drain loop leaves when it ends: nothing is pending. *)
Lemma drain_done fd ring n : forall s s',
  iter_nat (nmgen_drain fd ring) n () s = Ret (inr (), s') ->
  exists r, p_rings s' !! ring = Some r /\ nm_tx_pending r = false.
Proof.
  induction n as [|n IH]; intros s s'; [done|]. cbn [iter_nat].
  intros ([[]|[]] & s1 & E & E1)%bind_Ret_inv; [by eapply IH|]. injection E1 as <-. revert E. unfold nmgen_drain.
  intros (r & s2 & E & E2)%bind_Ret_inv. revert E. unfold load_ring, gets, mbind, M_bind.
  destruct (p_rings s !! ring) as [r'|] eqn:Er; [|done]. intros [= -> <-]. revert E2.
  destruct (nm_tx_pending r) eqn:Ep.
  - intros (? & ? & _ & [= ])%bind_Ret_inv.
  - intros [= <-]. by exists r.
Qed.

(** A packet that is longer than the whole buffer, or of negative length. *)
Lemma nmgen_setup_overruns g lm cpu rnd m s :
  1 <= batch g <= 64 -> pktlen g < 0 \/ 4096 * pages_for (2048 * batch g) < pktlen g ->
  p_mems s !! lm = Some m -> mem_ok m -> m_mutex m = false ->
  pages_for (2048 * batch g) <= m_num_pages m - m_alloced_pages m -> p_oom s = [] ->
  nmgen_sender_setup g lm cpu rnd s = Fault OutOfBounds.
Proof.
  intros Hb Hpl Hm Hok Hmu Hp Ho.
  destruct (proj1 (pages_for_spec (2048 * batch g) (pages_for (2048 * batch g))) eq_refl) as [_ Hpg].
  destruct (rxring_alloc lm m (2048 * batch g) s Hm Hok Hmu) as (s2 & v & Ea & Ep & Hb2 & _);
    [lia|done|done|].
  assert (exists m2, p_mems s2 !! lm = Some m2) as [m2 Hm2].
  { revert Ep. unfold pop_buf_put, buf_op. intros (b0 & s3 & [_ ->]%load_buf_inv & Ep)%bind_Ret_inv. revert Ep.
    destruct (buf_put b0 (2048 * batch g)) as [b1 r]. unfold store_buf, modify, mbind, M_bind, mret, M_ret.
    intros [= _ <-]. simpl. rewrite lookup_insert_eq. by eexists. }
  pose proof Hok as [Hk1 Hk2 Hk3 Hk4].
  unfold nmgen_sender_setup, batch_bytes. rewrite orb_false_intro by lia. unfold mbind at 1, M_bind at 1.
  unfold mret at 1, M_ret at 1. rewrite u64_small by lia.
  rewrite (bind_ret _ _ _ _ _ Ea), (bind_ret _ _ _ _ _ Ep), seqZ_cons by lia.
  apply bind_fault. cbn [for_each]. apply bind_fault. unfold prepare, pop_buf_data, pop_virt_to_phys, build_at.
  change (MAX_BATCH_NUM <=? 0) with false. cbv iota.
  rewrite bind_assoc, (bind_ret _ _ _ _ _ (load_buf_Some _ _ _ Hb2)). unfold mbind at 1, M_bind at 1.
  unfold mret at 1, M_ret at 1. rewrite bind_assoc, (bind_ret _ _ _ _ _ (load_mem_Some _ _ _ Hm2)).
  unfold mbind at 1, M_bind at 1. unfold mret at 1, M_ret at 1. apply bind_fault.
  rewrite (bind_ret _ _ _ _ _ (load_buf_Some _ _ _ Hb2)). unfold at_mem, nmgen_build_packet.
  set (b := full_buf lm m (2048 * batch g)) in *.
  assert (buf_data b +64 2048 * 0 = b_vaddr b) as Ed.
  { unfold buf_data, b. simpl. unwrap. lia. }
  rewrite Ed, (bind_fault _ _ _ OutOfBounds); [done|]. unfold memset0.
  destruct (Z.ltb_spec (pktlen g) 0); [done|]. unfold write. rewrite decide_False; [done|]. rewrite length_replicate, ram_read_length. unfold b. simpl. lia.
Qed.

(** C19: an nmgen sender thread, on addresses of the right length, a free pop
    memory and a well-formed ring.
    With a batch of 1 to 64 packets of 42 to 2048 bytes for which the pop memory
    has room, nothing undefined happens, for every number of rounds until the
    thread is cancelled and whatever the device does: it prepares its packets,
    and then it either returns or waits for ever, all its rounds done, for the
    device to take the last packets.  When it returns, either a sync call has
    failed or nothing is pending on the ring, which is well-formed, and the bit
    counter equals the packet counter times the bits of a packet (both modulo
    2^64).
    Without room for the batch it returns with both counters 0 and the ring
    untouched.  The options also let these through: a batch of -1 makes it hang
    in the allocation, with the mutex held, and a negative packet length or one
    longer than the buffer makes it write out of bounds. *)
Theorem nmgen_sender_safe g lm cpu rnd fd ring rounds r m s :
  nmgen_wf g -> p_mems s !! lm = Some m -> mem_ok m -> m_mutex m = false ->
  m_size m = m_num_pages m * 4096 -> p_oom s = [] -> p_rings s !! ring = Some r -> ring_wf r ->
  let body := nmgen_sender_body g lm cpu rnd fd ring rounds s in
  let room := pages_for (2048 * batch g) <= m_num_pages m - m_alloced_pages m in
  (1 <= batch g -> room -> 42 <= pktlen g <= 2048 ->
   exists pkts s1 x s2, nmgen_sender_setup g lm cpu rnd s = Ret (Some pkts, s1) /\
     iter_nat (nmgen_send_round g fd ring pkts) rounds (0, 0) s1 = Ret (x, s2) /\
     match x, body with
     | inr c, Ret (c', s') => c' = c /\ s' = s2 /\ sending g ring c s'
     | inl c, Ret (c', s') => c' = c /\ sending g ring c s' /\
         exists r', p_rings s' !! ring = Some r' /\ nm_tx_pending r' = false
     | inl c, Diverge => while_ (nmgen_drain fd ring) () s2 = Diverge
     | _, _ => False
     end) /\
  (1 <= batch g -> ~ room -> exists s', body = Ret ((0, 0), s') /\ p_rings s' = p_rings s) /\
  (batch g = -1 -> body = Diverge) /\
  (1 <= batch g -> room -> pktlen g < 0 \/ 4096 * pages_for (2048 * batch g) < pktlen g ->
   body = Fault OutOfBounds).
Proof.
  intros Hwf Hm Hok Hmu Hms Ho Hr Hrwf body room. pose proof (proj1 Hwf) as Hb64.
  unfold body, nmgen_sender_body. split_and!.
  - intros Hb1 Hp Hpl.
    destruct (nmgen_setup_eq g lm cpu rnd m s) as (pkts & s1 & b & E & _ & _ & Hrs & Hlen & _); try done.
    rewrite (bind_ret _ _ _ _ _ E).
    destruct (send_loop_keeps g fd ring pkts rounds (0, 0) s1) as (x & s2 & E2 & Hs2); try done.
    { split; [exists r; by rewrite Hrs|]. simpl. split; [lia|done]. }
    exists pkts, s1, x, s2. split_and!; [done..|]. rewrite (bind_ret _ _ _ _ _ E2).
    destruct x as [c|c]; [|done]. destruct Hs2 as (Hr2 & Hc).
    destruct (drain_iter fd ring (Pos.to_nat loop_fuel) s2 Hr2) as ([[]|[]] & s3 & E3 & Hr3).
    + pose proof (while_stuck _ _ _ _ _ E3) as Ew. by rewrite (bind_diverge _ _ _ Ew).
    + rewrite (bind_ret _ _ _ _ _ (while_exit _ _ _ _ _ _ E3 (le_n _))).
      split_and!; [done|exact (conj Hr3 Hc)|by eapply drain_done].
  - intros Hb1 Hp. unfold room in Hp. exists (with_errno ENOBUFS s). split; [|done].
    unfold nmgen_sender_setup, batch_bytes. rewrite orb_false_intro by lia.
    rewrite bind_assoc. unfold mbind at 1, M_bind at 1. unfold mret at 1, M_ret at 1.
    rewrite u64_small by lia. rewrite bind_assoc.
    erewrite bind_ret; [|rewrite (pop_buf_alloc_eq lm _ s m) by (done || lia);
      by replace (_ <? _) with true by lia]. done.
  - intros Hb. apply bind_diverge. unfold nmgen_sender_setup, batch_bytes. rewrite Hb.
    change (_ || _) with false. unfold mbind at 1, M_bind at 1. unfold mret at 1, M_ret at 1.
    apply bind_diverge. by apply (pop_buf_alloc_diverge lm _ s m).
  - intros Hb1 Hp Hpl. apply bind_fault. by apply (nmgen_setup_overruns g lm cpu rnd m s).
Qed.

(** With a batch of -1, which the options accept, every sender thread
    hangs in [pop_buf_alloc]: the buffer size 2048 * -1 becomes 2^64 - 2048. *)
Theorem nmgen_negative_batch_hangs g lm cpu rnd fd ring rounds m s :
  batch g = -1 -> p_mems s !! lm = Some m -> m_mutex m = false ->
  nmgen_sender_body g lm cpu rnd fd ring rounds s = Diverge.
Proof.
  intros Hb Hm Hmu. unfold nmgen_sender_body. apply bind_diverge. unfold nmgen_sender_setup, batch_bytes.
  rewrite Hb. change (_ || _) with false. unfold mbind at 1, M_bind at 1. unfold mret at 1, M_ret at 1.
  apply bind_diverge. by apply (pop_buf_alloc_diverge lm _ s m).
Qed.

(** ** Receiving *)

(** Total length of the [d] packets from [head] on. *)
Fixpoint waiting_len (r : netmap_ring) (head : Z) (d : nat) : Z :=
  match d with
  | O => 0
  | S d' => match r_slot r !! Z.to_nat head with Some x => s_len x | None => 0 end
            + waiting_len r (ring_index r head 1) d'
  end.

Lemma recv_packet_step ring a b r s :
  p_rings s !! ring = Some r -> ring_wf r ->
  nmgen_recv_packet ring (u64 a, u64 b) s =
  if r_head r =? r_tail r then Ret (inr (u64 a, u64 b), s)
  else let h := ring_index r (r_head r) 1 in
       Ret (inl (u64 (a + 1), u64 (b + 8 * match r_slot r !! Z.to_nat (r_head r) with
                                           Some x => s_len x | None => 0 end)),
            put_ring ring (with_indices r h h) s).
Proof.
  intros Hr Hwf. unfold nmgen_recv_packet. rewrite (bind_ret _ _ _ _ _ (load_ring_Some _ _ _ Hr)), nm_empty_spec.
  destruct (r_head r =? r_tail r); [done|].
  destruct (lookup_lt_is_Some_2 (r_slot r) (Z.to_nat (r_head r))) as [x Hx]; [destruct Hwf; lia|].
  rewrite Hx. unfold require. unfold mbind at 1, M_bind at 1. unfold mret at 1, M_ret at 1.
  unfold advance. rewrite bind_assoc, (bind_ret _ _ _ _ _ (load_ring_Some _ _ _ Hr)).
  rewrite next_index by (done || apply Hwf). unfold mbind, M_bind, mret, M_ret, store_ring, modify. cbn [fst snd].
  rewrite !u64_add_idemp, Z.shiftl_mul_pow2 by lia. change (2 ^ 3) with 8.
  by rewrite (Z.mul_comm (s_len x)).
Qed.

(** As many rounds as there are packets, and one more. *)
Lemma recv_iter ring d : forall a b r s,
  p_rings s !! ring = Some r -> ring_wf r ->
  (r_tail r - r_head r) `mod` r_num_slots r = Z.of_nat d ->
  exists r' s', iter_nat (nmgen_recv_packet ring) (S d) (u64 a, u64 b) s
      = Ret (inr (u64 (a + Z.of_nat d), u64 (b + 8 * waiting_len r (r_head r) d)), s') /\
    p_rings s' !! ring = Some r' /\ ring_only ring s s' /\ ring_wf r' /\ r_head r' = r_tail r /\
    r_tail r' = r_tail r /\ r_slot r' = r_slot r.
Proof.
  induction d as [|d IH]; intros a b r s Hr Hwf Hd;
    pose proof (recv_packet_step ring a b r s Hr Hwf) as Es; pose proof Hwf as [_ Hn Hh Ht].
  - rewrite ring_distance in Hd by done.
    assert (r_head r = r_tail r) as E by (destruct (Z.leb_spec (r_head r) (r_tail r)); lia).
    rewrite E, Z.eqb_refl in Es. exists r, s. split_and!; try done.
    cbn [iter_nat]. rewrite (bind_ret _ _ _ _ _ Es). simpl. by rewrite !Z.add_0_r.
  - assert (r_head r <> r_tail r) as Hne.
    { intros E. rewrite E, Z.sub_diag, Zmod_0_l in Hd. lia. }
    rewrite (proj2 (Z.eqb_neq _ _) Hne) in Es. cbv zeta in Es. set (h := ring_index r (r_head r) 1) in *.
    destruct (IH (a + 1) (b + 8 * match r_slot r !! Z.to_nat (r_head r) with Some x => s_len x | None => 0 end)
      (with_indices r h h) (put_ring ring (with_indices r h h) s))
      as (r' & s' & E' & Hr' & Ho & Hwf' & Hh' & Ht' & Hs').
    { apply lookup_insert_eq. }
    { apply ring_wf_indices; [done|]. by apply ring_index_range. }
    { simpl. unfold h. rewrite ring_advance by (done || lia). lia. }
    exists r', s'. split_and!; try done; [|by etransitivity; [apply put_ring_only|]].
    change (iter_nat (nmgen_recv_packet ring) (S (S d)) (u64 a, u64 b) s) with
      ((x ← nmgen_recv_packet ring (u64 a, u64 b); then_iter x (iter_nat (nmgen_recv_packet ring) (S d))) s).
    rewrite (bind_ret _ _ _ _ _ Es). cbn [then_iter]. rewrite E'. cbn [waiting_len]. fold h.
    assert (waiting_len (with_indices r h h) (r_head (with_indices r h h)) d = waiting_len r h d) as ->.
    { clear. simpl. generalize h at 3 4. induction d as [|d IH]; intros x; [done|]. simpl. f_equal. apply IH. }
    do 4 f_equal; f_equal; lia.
Qed.

(** One round of nmgen's receive loop, when the sync call succeeds,
    counts exactly the packets that were waiting and eight times the sum of
    their lengths, gives every slot back to the device ([head] meets [tail]), and
    ends: the inner loop takes as many rounds as packets are waiting. *)
Theorem nmgen_recv_round_counts fd ring c r0 s ret r1 w1 :
  p_rings s !! ring = Some r0 -> ring_wf r0 -> sys_rxsync fd r0 (p_os s) = ((ret, r1), w1) -> 0 <= ret ->
  let d := Z.to_nat ((r_tail r1 - r_head r1) `mod` r_num_slots r1) in
  exists r2 s', nmgen_recv_round fd ring c s
      = Ret (inl (u64 (c.1 + Z.of_nat d), u64 (c.2 + 8 * waiting_len r1 (r_head r1) d)), s') /\
    p_rings s' !! ring = Some r2 /\ ring_wf r2 /\ ring_only ring s s' /\
    r_head r2 = r_tail r1 /\ r_tail r2 = r_tail r1 /\ r_slot r2 = r_slot r1.
Proof.
  intros Hr Hwf E1 Hret d. unfold nmgen_recv_round, niocrxsync.
  destruct (sync_returns (sys_rxsync fd) ring r0 s Hr) as (ret' & r1' & w1' & s1 & E1' & Es & Hr1 & Ho & _).
  rewrite E1 in E1'. injection E1' as <- <- <-.
  pose proof (nm_rxsync_spec fd r0 (p_os s)) as Hsync. rewrite E1 in Hsync.
  destruct Hsync as (_ & Hwf1 & _). destruct Hwf as [Hn1 Hn2 _ _]. specialize (Hwf1 Hn1 Hn2).
  replace (ret <? 0) with false in Es by lia. rewrite (bind_ret _ _ _ _ _ Es).
  replace (ret <? 0) with false by lia.
  assert (0 <= (r_tail r1 - r_head r1) `mod` r_num_slots r1 < r_num_slots r1) as Hd
    by (apply Z.mod_pos_bound; destruct Hwf1; lia).
  destruct (recv_iter ring d 0 0 r1 s1 Hr1 Hwf1) as (r2 & s2 & E2 & Hr2 & Ho2 & Hwf2 & Hh2 & Ht2 & Hs2);
    [unfold d; lia|].
  assert (while_ (nmgen_recv_packet ring) (0, 0) s1 = Ret ((u64 (0 + Z.of_nat d),
    u64 (0 + 8 * waiting_len r1 (r_head r1) d)), s2)) as Ew.
  { eapply while_exit; [exact E2|]. apply loop_fuel_le. destruct Hwf1. unfold d. lia. }
  exists r2, s2. split_and!; try done.
  - rewrite (bind_ret _ _ _ _ _ Ew). cbn [fst snd]. rewrite !Z.add_0_l. unfold mret, M_ret.
    do 4 f_equal; unfold u64; apply Zplus_mod_idemp_r.
  - by transitivity s1.
Qed.
End props.

(** ** Witnesses *)

(** A sender of 60-byte packets in batches of two, on [mem4] and a ring of four
    slots; the device frees two slots at every sync. *)
Definition gen2 : NmgenOpt.nmgen :=
  NmgenOpt.Nmgen (Some (lit "netmap:eth0")) None 0 60 1 2 0 [10; 0; 10; 1] [10; 0; 10; 2]
    (replicate 6 0xff) (replicate 6 0).
Definition gen_proc : proc gen_os :=
  Proc {[1%positive := mem4]} ∅ ∅ {[9%positive := ring4]} 2%positive [] 0 0 (GenOs (NmOs 3) ∅ []).

Lemma gen2_wf : nmgen_wf gen2.
Proof.
  unfold nmgen_wf, octets, is_octet; simpl. split_and!; try lia; try done;
    repeat (apply Forall_cons_2 || apply Forall_nil_2); lia.
Defined.

Lemma ring4_wf : ring_wf ring4.
Proof. constructor; simpl; reflexivity || lia. Defined.

Lemma nmgen_setup_prepares_witness :
  exists pkts s' b, nmgen_sender_setup gen2 1%positive 0 (fun _ => 7) gen_proc = Ret (Some pkts, s') /\
    p_bufs s' !! 2%positive = Some b /\ Z.of_nat (length pkts) = 2 /\ b_length b = 4096.
Proof.
  destruct (nmgen_setup_prepares gen2 1%positive 0 (fun _ => 7) mem4 gen_proc)
    as (pkts & s' & b & E & Hb & Hl & Hbl & _);
    [exact gen2_wf|simpl; lia|simpl; lia|reflexivity|apply mem_okb_ok; reflexivity|reflexivity|reflexivity
    |vm_compute; discriminate|reflexivity|].
  exists pkts, s', b. split; [exact E|]. split; [exact Hb|]. split; [exact Hl|exact Hbl].
Defined.

Lemma nmgen_round_posts_witness :
  exists s', nmgen_send_round gen2 7 9%positive [4096; 6144] (0, 0) gen_proc = Ret (inl (2, 960), s') /\
    exists r2, p_rings s' !! 9%positive = Some r2 /\ r_head r2 = 2.
Proof.
  destruct (nmgen_round_posts gen2 7 9%positive [4096; 6144] (0, 0) ring4 gen_proc)
    as (ret & r1 & w1 & r2 & s' & c' & E1 & Hr2 & _ & _ & E & _ & H);
    [reflexivity|exact ring4_wf|simpl; lia|reflexivity|simpl; lia|simpl; lia|].
  vm_compute in E1. injection E1 as <- <- <-. destruct H as (Hh & _ & _ & Hc & _); [lia|].
  exists s'. split; [|exists r2; split; [exact Hr2|exact Hh]]. rewrite E, Hc. reflexivity.
Defined.

(** The same with packets of 9000 bytes, which the options accept. *)
Definition gen2_jumbo : NmgenOpt.nmgen :=
  NmgenOpt.Nmgen (Some (lit "netmap:eth0")) None 0 9000 1 2 0 [10; 0; 10; 1] [10; 0; 10; 2]
    (replicate 6 0xff) (replicate 6 0).

Lemma gen2_jumbo_wf : nmgen_wf gen2_jumbo.
Proof.
  unfold nmgen_wf, octets, is_octet; simpl. split_and!; try lia; try done;
    repeat (apply Forall_cons_2 || apply Forall_nil_2); lia.
Defined.

(** Three rounds fill the three free slots of the ring with 60-byte packets. *)
Lemma nmgen_sender_safe_witness :
  (exists o, nmgen_sender_body gen2 1%positive 0 (fun _ => 7) 7 9%positive 3 gen_proc = o /\
     match o with Ret (c, _) => c = (3, 1440) | Diverge => True | Fault _ => False end) /\
  nmgen_sender_body gen2_jumbo 1%positive 0 (fun _ => 7) 7 9%positive 3 gen_proc = Fault OutOfBounds.
Proof.
  split.
  - destruct (nmgen_sender_safe gen2 1%positive 0 (fun _ => 7) 7 9%positive 3 ring4 mem4 gen_proc)
      as [H _]; [exact gen2_wf|reflexivity|apply mem_okb_ok; reflexivity|reflexivity
      |reflexivity|reflexivity|reflexivity|exact ring4_wf|].
    destruct H as (pkts & s1 & x & s2 & E1 & E2 & H); [simpl; lia|vm_compute; discriminate|simpl; lia|].
    eexists. split; [reflexivity|].
    assert (x = inl (3, 1440)) as ->.
    { assert (match nmgen_sender_setup gen2 1%positive 0 (fun _ => 7) gen_proc with
        | Ret (Some p, s) => match iter_nat (nmgen_send_round gen2 7 9%positive p) 3 (0, 0) s with
                             | Ret (x, _) => Some x | _ => None end
        | _ => None end = Some (inl (3, 1440))) as E by (vm_compute; reflexivity).
      rewrite E1, E2 in E. injection E as E. exact E. }
    destruct (nmgen_sender_body _ _ _ _ _ _ _ _) as [[c s']| |f]; [apply H|exact I|exact H].
  - apply (nmgen_sender_safe gen2_jumbo 1%positive 0 (fun _ => 7) 7 9%positive 3 ring4 mem4 gen_proc);
      [exact gen2_jumbo_wf|reflexivity|apply mem_okb_ok; reflexivity|reflexivity
      |reflexivity|reflexivity|reflexivity|exact ring4_wf|simpl; lia|vm_compute; discriminate|right; vm_compute; reflexivity].
Defined.

Lemma nmgen_negative_batch_hangs_witness :
  exists g, NmgenOpt.nmgen_main_opts 8 [arg "p" "netmap:eth0"; arg "b" "-1"] = inr g /\
    nmgen_sender_body g 1%positive 0 (fun _ => 7) 7 9%positive 3 gen_proc = Diverge.
Proof.
  eexists. split; [reflexivity|].
  apply (nmgen_negative_batch_hangs _ 1%positive 0 (fun _ => 7) 7 9%positive 3 mem4); reflexivity.
Defined.

Lemma nmgen_recv_round_counts_witness :
  exists s', nmgen_recv_round 7 9%positive (0, 0) gen_proc = Ret (inl (3, 1440), s').
Proof.
  destruct (nmgen_recv_round_counts 7 9%positive (0, 0) ring4 gen_proc 0 ring4 (GenOs (NmOs 3) ∅ []))
    as (r2 & s' & E & _); [reflexivity|exact ring4_wf|reflexivity|lia|].
  exists s'. exact E.
Defined.
