(* ===== verification/BenchNvme.v ===== *)
(** * apps/bench-nvme.c: the NVMe benchmark

    The thread [bench_start]: it allocates a pop buffer per command of a batch
    and submits reads or writes until a signal ends the loop between two rounds.
    What [rand] returns for the b-th command of a round is an argument.  Pinning
    the thread, the clock, verbose output and the printed rates are not
    modelled. *)

From S2P Require Import Prelude CStr LibpopH PopBuf Netmap PopNetmap Unvme TxRing Options Lba.

(** The counters of [struct bench_thread] and the next block. *)
Record bench_thread : Type := BenchThread { bt_lba : Z; bt_count : Z; bt_bytes : Z }.

Section bench.
Context {W : Type} `{Unvme W}.
Import BenchOpt.

(** Number of blocks of one command. *)
Definition bench_nblocks (p : bench_param) : Z :=
  if negb (size p `mod` un_blocksize W =? 0) then Z.shiftr (size p) (un_blockshift W) + 1
  else Z.shiftr (size p) (un_blockshift W).

(** One buffer; [None] says that the program has called [exit(0)]. *)
Definition bench_alloc (p : bench_param) (mem : loc) (n : Z) (bufs : option (list loc))
    : M (proc W) (option (list loc)) :=
  match bufs with
  | None => mret None
  | Some bufs =>
      if MAX_BATCH_SIZE <=? n then throw OutOfBounds
      else
        buf ← pop_buf_alloc mem (bench_nblocks p <<64 (un_blockshift W));
        match buf with
        | None => mret None
        | Some l =>
            _ ← pop_buf_put l (bench_nblocks p <<64 (un_blockshift W));
            mret (Some (bufs ++ [l]))
        end
  end.

Definition bench (mode_write : bool) (qid buf lba nblocks : Z) : M (proc W) Z :=
  if mode_write then os_call (unvme_awrite qid buf lba nblocks)
  else os_call (unvme_aread qid buf lba nblocks).

(** One command of the first loop: the descriptors so far and the next block. *)
Definition bench_submit (p : bench_param) (qid lo hi : Z) (bufs : list loc) (rnd : Z -> Z) (b : Z)
    (x : list Z * Z) : M (proc W) (list Z * Z) :=
  let '(iod, lba) := x in
  buf ← require OutOfBounds (bufs !! Z.to_nat b);
  data ← pop_buf_data buf;
  d ← bench (p_write p) qid data lba (u32 (bench_nblocks p));
  lba' ← lift (Bench.bench_next_lba (rnd b) (walk p) lba lo hi (bench_nblocks p));
  mret (iod ++ [d], lba').

(** One command of the second loop: the two counters. *)
Definition bench_poll (p : bench_param) (iod : list Z) (b : Z) (c : Z * Z) : M (proc W) (Z * Z) :=
  d ← require OutOfBounds (iod !! Z.to_nat b);
  ret ← os_call (unvme_apoll d);
  mret (if ret =? 0 then (c.1 +64 1, c.2 +64 size p) else c).

Definition bench_round (p : bench_param) (qid lo hi : Z) (bufs : list loc) (rnd : Z -> Z)
    (t : bench_thread) : M (proc W) bench_thread :=
  x ← for_each (seqZ 0 (batch p)) (bench_submit p qid lo hi bufs rnd) ([], bt_lba t);
  let '(iod, lba) := x in
  c ← for_each (seqZ 0 (batch p)) (bench_poll p iod) (bt_count t, bt_bytes t);
  mret (BenchThread lba c.1 c.2).

Definition bench_start (p : bench_param) (mem : loc) (qid lo hi : Z) (rnds : list (Z -> Z))
    : M (proc W) (option bench_thread) :=
  obufs ← for_each (seqZ 0 (batch p)) (bench_alloc p mem) (Some []);
  match obufs with
  | None => mret None
  | Some bufs =>
      t ← for_each rnds (bench_round p qid lo hi bufs) (BenchThread lo 0 0);
      mret (Some t)
  end.
End bench.
Arguments bench_nblocks W {_} p.

(** [struct timeval]; the result is an [unsigned long]. *)
Record timeval : Type := Timeval { tv_sec : Z; tv_usec : Z }.

Definition get_usec_elapsed (start stop : timeval) : Z :=
  let e := if tv_usec stop <? tv_usec start
           then Timeval (tv_sec stop - 1) (tv_usec stop + 1000000) else stop in
  u64 ((tv_sec e - tv_sec start) * 1000000 + tv_usec e - tv_usec start).

(** ** The setup *)

Section lemmas.
Context {W : Type} `{UnvmeOk W}.
Implicit Type s : proc W.
Import BenchOpt.

(** What [main] guarantees of the options, and a command of at least a block. *)
Record bench_ok (p : bench_param) : Prop := BenchOk {
  bo_batch : 0 <= batch p <= 64;
  bo_size : 0 < size p < 2 ^ 31;
  bo_walk : walk p = 0 \/ walk p = 1 \/ walk p = 2
}.

Definition bench_bytes (p : bench_param) : Z := bench_nblocks W p * 2 ^ un_blockshift W.

(** A command transfers its size rounded up to whole blocks. *)
Lemma bench_bytes_range p :
  bench_ok p -> 0 < bench_nblocks W p < 2 ^ 31 + 1 /\
  size p <= bench_bytes p < size p + 2 ^ un_blockshift W /\ bench_bytes p < 2 ^ 32 /\
  bench_nblocks W p <<64 un_blockshift W = bench_bytes p.
Proof.
  intros [_ Hsz _]. destruct (un_block W) as [Hs Hbs].
  assert (0 < 2 ^ un_blockshift W) as Hpos by (apply Z.pow_pos_nonneg; lia).
  assert (2 ^ un_blockshift W <= 2 ^ 30) as Hle by (apply Z.pow_le_mono_r; lia).
  assert (0 < bench_nblocks W p < 2 ^ 31 + 1 /\
    size p <= bench_bytes p < size p + 2 ^ un_blockshift W) as [Hn Hb].
  { unfold bench_bytes, bench_nblocks. rewrite Hbs, Z.shiftr_div_pow2 by lia.
    set (bs := 2 ^ un_blockshift W) in *. pose proof (Z.div_mod (size p) bs ltac:(lia)) as Hd.
    pose proof (Z.mod_pos_bound (size p) bs Hpos).
    assert (0 <= size p / bs <= size p) by (split; [apply Z.div_pos; lia|apply Z.div_le_upper_bound; nia]).
    set (q := size p / bs) in *. clearbody q bs.
    destruct (Z.eqb_spec (size p `mod` bs) 0) as [E|E]; cbn [negb].
    - rewrite E in Hd. assert (0 < q) by nia. lia.
    - lia. }
  split_and!; [lia..|]. rewrite Z.shiftl_mul_pow2 by lia. fold (bench_bytes p). apply u64_small. lia.
Qed.

(** The i-th buffer lies behind the i buffers before it. *)
Definition bench_addr (p : bench_param) (m : pop_mem) (i : Z) : Z :=
  m_mem m + (m_alloced_pages m + i * pages_for (bench_bytes p)) * 4096.

Definition bench_bufs_ok (p : bench_param) (m : pop_mem) (bufs : list loc) s : Prop :=
  forall i l, bufs !! i = Some l -> (l < p_next s)%positive /\
    exists b, p_bufs s !! l = Some b /\ buf_data b = bench_addr p m (Z.of_nat i).

Definition bench_allocating (p : bench_param) (lm : loc) (m : pop_mem) (os : W) (rest : list Z)
    (o : option (list loc)) s : Prop :=
  exists bufs, o = Some bufs /\
  rest = seqZ (Z.of_nat (length bufs)) (batch p - Z.of_nat (length bufs)) /\
  Z.of_nat (length bufs) <= batch p /\
  p_mems s !! lm = Some (set_alloced m (m_alloced_pages m + Z.of_nat (length bufs) * pages_for (bench_bytes p))) /\
  p_oom s = [] /\ p_os s = os /\ bench_bufs_ok p m bufs s.

Lemma bench_alloc_step p lm m os n rest o s :
  bench_ok p -> mem_ok m -> m_mutex m = false ->
  batch p * pages_for (bench_bytes p) <= m_num_pages m - m_alloced_pages m ->
  bench_allocating p lm m os (n :: rest) o s ->
  exists o' s', bench_alloc p lm n o s = Ret (o', s') /\ bench_allocating p lm m os rest o' s'.
Proof.
  intros Hp Hok Hmu Hpg (bufs & -> & Er & Hle & Hm & Ho & Eos & Hb). set (k := length bufs) in *.
  assert (Z.of_nat k < batch p) as Hk.
  { destruct (decide (Z.of_nat k < batch p)); [done|]. by rewrite seqZ_nil in Er by lia. }
  rewrite seqZ_cons in Er by lia. injection Er as -> ->.
  destruct (bench_bytes_range p Hp) as (_ & Hsz1 & Hsz2 & Esz). pose proof (bo_batch _ Hp). pose proof (bo_size _ Hp).
  assert (0 < bench_bytes p) as Hsz0 by lia. clear Hsz1.
  set (pg := pages_for (bench_bytes p)) in *.
  destruct (proj1 (pages_for_spec (bench_bytes p) pg) eq_refl) as [Hp1 Hp2].
  set (m1 := set_alloced m (m_alloced_pages m + Z.of_nat k * pg)) in *.
  destruct Hok as [Hk1 Hk2 Hk3 Hk4].
  assert (Z.of_nat k * pg + pg <= batch p * pg) as Hkpg by nia.
  assert (mem_ok m1) as Hok1 by (unfold m1; constructor; simpl; nia).
  destruct (alloc_put lm m1 (bench_bytes p) s) as [Ea [v Ev]];
    [done|done|done|lia|unfold m1; simpl; fold pg; lia|done|].
  set (s2 := full_state lm m1 (bench_bytes p) s) in *.
  exists (Some (bufs ++ [p_next s])), s2. split.
  - unfold bench_alloc, MAX_BATCH_SIZE. replace (64 <=? Z.of_nat k) with false by lia.
    rewrite Esz, (bind_ret _ _ _ _ _ Ea), (bind_ret _ _ _ _ _ Ev). done.
  - exists (bufs ++ [p_next s]). rewrite length_app. change (length [_]) with 1%nat. fold k.
    replace (k + 1)%nat with (S k) by lia. split_and!; [done|f_equal; lia|lia| |done|done|].
    + simpl. rewrite lookup_insert_eq. f_equal. unfold m1, set_alloced; simpl. f_equal. fold pg. lia.
    + intros i l Hi. simpl. apply lookup_app_Some in Hi as [Hi|[Hge Hi]].
      * destruct (Hb i l Hi) as (Hlt & b & Hbl & E). split; [lia|]. exists b. split; [|done].
        rewrite lookup_insert_ne by lia. done.
      * apply list_lookup_singleton_Some in Hi as [Hi0 <-]. split; [lia|].
        eexists. split; [apply lookup_insert_eq|]. unfold buf_data, bench_addr; simpl.
        assert (i = k) as -> by (apply Nat.le_antisymm; [by apply Nat.sub_0_le|exact Hge]). fold pg. unwrap. lia.
Qed.

Lemma bench_setup_eq p lm m s :
  bench_ok p -> p_mems s !! lm = Some m -> mem_ok m -> m_mutex m = false -> p_oom s = [] ->
  batch p * pages_for (bench_bytes p) <= m_num_pages m - m_alloced_pages m ->
  exists bufs s', for_each (seqZ 0 (batch p)) (bench_alloc p lm) (Some []) s = Ret (Some bufs, s') /\
    Z.of_nat (length bufs) = batch p /\ p_os s' = p_os s /\ bench_bufs_ok p m bufs s'.
Proof.
  intros Hp Hm Hok Hmu Ho Hpg.
  destruct (for_each_inv (bench_allocating p lm m (p_os s)) (bench_alloc p lm) (seqZ 0 (batch p)) (Some []) s)
    as (o & s' & E & bufs & -> & Er & Hle & _ & _ & Eos & Hb).
  { exists []. simpl. pose proof (bo_batch _ Hp). split_and!; try done; [f_equal; lia|lia|].
    rewrite Hm. f_equal. rewrite Z.add_0_r. by destruct m. }
  { intros n rest o s1 Ha. by eapply bench_alloc_step. }
  exists bufs, s'. split_and!; try done.
  destruct (decide (Z.of_nat (length bufs) = batch p)); [done|]. by rewrite seqZ_cons in Er by lia.
Qed.

(** ** A round *)

(** The k-th command of a thread. *)
Definition bench_cmd_ok (p : bench_param) (m : pop_mem) (qid lo hi : Z) (k : nat) (c : io) : Prop :=
  io_write c = p_write p /\ io_qid c = qid /\ io_nblocks c = bench_nblocks W p /\
  in_range lo hi (bench_nblocks W p) (io_lba c) /\
  io_buf c = bench_addr p m (Z.of_nat k `mod` batch p).

(** The state [s] with the commands [cmds] submitted since [s0]. *)
Definition submitted (cmds : list io) s0 s : Prop :=
  un_log (p_os s) = un_log (p_os s0) ++ cmds /\ p_bufs s = p_bufs s0 /\ p_next s = p_next s0.

Lemma submitted_refl s : submitted [] s s.
Proof. split; [|done]. by rewrite app_nil_r. Qed.

Lemma submitted_trans c1 c2 s0 s1 s2 :
  submitted c1 s0 s1 -> submitted c2 s1 s2 -> submitted (c1 ++ c2) s0 s2.
Proof.
  intros (E1 & B1 & N1) (E2 & B2 & N2). split_and!; [by rewrite E2, E1, app_assoc|congruence..].
Qed.

Lemma bench_submits b qid data lba n s :
  exists d s', bench b qid data lba n s = Ret (d, s') /\ submitted [Io b qid data lba n] s s'.
Proof.
  unfold bench, os_call. destruct b.
  - pose proof (un_awrite_log qid data lba n (p_os s)) as E.
    destruct (unvme_awrite qid data lba n (p_os s)) as [d w]. by exists d, (with_os w s).
  - pose proof (un_aread_log qid data lba n (p_os s)) as E.
    destruct (unvme_aread qid data lba n (p_os s)) as [d w]. by exists d, (with_os w s).
Qed.

Definition submitting (p : bench_param) (m : pop_mem) (qid lo hi : Z) s0 (rest : list Z)
    (x : list Z * Z) s : Prop :=
  exists cmds, rest = seqZ (Z.of_nat (length cmds)) (batch p - Z.of_nat (length cmds)) /\
    Z.of_nat (length cmds) <= batch p /\ length x.1 = length cmds /\
    in_range lo hi (bench_nblocks W p) x.2 /\ submitted cmds s0 s /\
    forall k c, cmds !! k = Some c -> bench_cmd_ok p m qid lo hi k c.

(** A thread's range: larger than a command. *)
Definition bench_room (p : bench_param) (lo hi : Z) : Prop :=
  0 <= lo /\ lo + bench_nblocks W p < hi /\ hi < 2 ^ 62.

Lemma bench_submit_step p m qid lo hi bufs rnd s0 n rest x s :
  bench_ok p -> bench_room p lo hi -> (forall b, 0 <= rnd b < 2 ^ 31) ->
  Z.of_nat (length bufs) = batch p -> bench_bufs_ok p m bufs s0 ->
  submitting p m qid lo hi s0 (n :: rest) x s ->
  exists x' s', bench_submit p qid lo hi bufs rnd n x s = Ret (x', s') /\
    submitting p m qid lo hi s0 rest x' s'.
Proof.
  intros Hp (Hlo & Hlt & Hhi) Hrnd Hlen Hb (cmds & Er & Hle & Hx1 & Hx2 & Hsub & Hok).
  destruct x as [iod lba]; cbn [fst snd] in *. set (k := length cmds) in *.
  assert (Z.of_nat k < batch p) as Hk.
  { destruct (decide (Z.of_nat k < batch p)); [done|]. by rewrite seqZ_nil in Er by lia. }
  rewrite seqZ_cons in Er by lia. injection Er as -> ->.
  destruct (bench_bytes_range p Hp) as (Hn & _).
  destruct (lookup_lt_is_Some_2 bufs k) as [l Hl]; [lia|].
  destruct (Hb k l Hl) as (_ & b & Hbl & Ed).
  destruct (bench_step (rnd (Z.of_nat k)) (walk p) lba lo hi (bench_nblocks W p)) as (lba' & El & Hin);
    [done|apply Hp|lia|lia|lia|lia|done|].
  assert (bench_nblocks W p < 2 ^ 32) as Hn32 by lia.
  destruct (bench_submits (p_write p) qid (buf_data b) lba (u32 (bench_nblocks W p)) s) as (d & s1 & E1 & Hs1).
  exists (iod ++ [d], lba'), s1. split.
  - unfold bench_submit. rewrite Nat2Z.id, Hl. unfold require, pop_buf_data.
    unfold mbind at 1, M_bind at 1. unfold mret at 1, M_ret at 1.
    rewrite bind_assoc. erewrite bind_ret by (apply load_buf_Some; rewrite (proj1 (proj2 Hsub)); exact Hbl).
    unfold mbind at 1, M_bind at 1. unfold mret at 1, M_ret at 1.
    rewrite (bind_ret _ _ _ _ _ E1). unfold lift. unfold mbind, M_bind. by rewrite El.
  - exists (cmds ++ [Io (p_write p) qid (buf_data b) lba (u32 (bench_nblocks W p))]).
    rewrite !length_app. cbn [fst snd length]. fold k. replace (k + 1)%nat with (S k) by lia.
    split_and!; [f_equal; lia|lia|rewrite length_app; simpl; lia|done|by eapply submitted_trans|].
    intros k' c Hc. apply lookup_app_Some in Hc as [Hc|[Hge Hc]]; [by apply Hok|].
    apply list_lookup_singleton_Some in Hc as [Hk0 <-]. fold k in Hge, Hk0.
    replace k' with k by lia. unfold bench_cmd_ok; simpl. rewrite u32_small by lia.
    rewrite Z.mod_small by lia. done.
Qed.

(** Polling changes neither the buffers nor the history. *)
Definition polling (p : bench_param) s0 (rest : list Z) (c : Z * Z) s : Prop :=
  Forall (fun b => 0 <= b < batch p) rest /\ submitted [] s0 s /\
  0 <= c.1 < 2 ^ 64 /\ c.2 = u64 (c.1 * size p).

Lemma bench_poll_step p iod s0 n rest c s :
  Z.of_nat (length iod) = batch p -> polling p s0 (n :: rest) c s ->
  exists c' s', bench_poll p iod n c s = Ret (c', s') /\ polling p s0 rest c' s'.
Proof.
  intros Hlen ((Hn & Hf)%Forall_cons & Hsub & Hc1 & Hc2).
  destruct (lookup_lt_is_Some_2 iod (Z.to_nat n)) as [d Hd]; [lia|].
  unfold bench_poll. rewrite Hd. unfold require, os_call, mbind, M_bind, mret, M_ret.
  pose proof (un_apoll_log d (p_os s)) as El. destruct (unvme_apoll d (p_os s)) as [ret w].
  eexists _, _. split; [done|]. split; [done|]. split.
  - apply (submitted_trans [] [] s0 s); [done|]. split; [|done]. simpl. by rewrite app_nil_r.
  - destruct (ret =? 0); [|done]. split; [apply u64_range|]. cbn [fst snd]. rewrite Hc2.
    unfold u64. rewrite Zplus_mod_idemp_l, Zmult_mod_idemp_l. f_equal. lia.
Qed.

Lemma bench_round_eq p m qid lo hi bufs rnd t s :
  bench_ok p -> bench_room p lo hi -> (forall b, 0 <= rnd b < 2 ^ 31) ->
  Z.of_nat (length bufs) = batch p -> bench_bufs_ok p m bufs s ->
  in_range lo hi (bench_nblocks W p) (bt_lba t) ->
  0 <= bt_count t < 2 ^ 64 -> bt_bytes t = u64 (bt_count t * size p) ->
  exists t' s' cmds, bench_round p qid lo hi bufs rnd t s = Ret (t', s') /\ submitted cmds s s' /\
    Z.of_nat (length cmds) = batch p /\ (forall k c, cmds !! k = Some c -> bench_cmd_ok p m qid lo hi k c) /\
    in_range lo hi (bench_nblocks W p) (bt_lba t') /\
    0 <= bt_count t' < 2 ^ 64 /\ bt_bytes t' = u64 (bt_count t' * size p).
Proof.
  intros Hp Hroom Hrnd Hlen Hb Hlba Hc1 Hc2. unfold bench_round. pose proof (bo_batch _ Hp).
  destruct (for_each_inv (submitting p m qid lo hi s) (bench_submit p qid lo hi bufs rnd) (seqZ 0 (batch p))
    ([], bt_lba t) s) as ([iod lba] & s1 & E1 & cmds & Er & Hle & Hx1 & Hx2 & Hsub & Hok).
  { exists []. simpl. split_and!; try done; [f_equal; lia|lia|apply submitted_refl]. }
  { intros. by eapply bench_submit_step. }
  cbn [fst snd] in *.
  assert (Z.of_nat (length cmds) = batch p) as Hcl.
  { destruct (decide (Z.of_nat (length cmds) = batch p)); [done|]. by rewrite seqZ_cons in Er by lia. }
  rewrite (bind_ret _ _ _ _ _ E1).
  destruct (for_each_inv (polling p s1) (bench_poll p iod) (seqZ 0 (batch p)) (bt_count t, bt_bytes t) s1)
    as ([c b] & s2 & E2 & _ & Hsub2 & Hc).
  { split; [|split; [apply submitted_refl|done]]. apply Forall_forall. intros x Hx%elem_of_seqZ. lia. }
  { intros. eapply bench_poll_step; [|done]. lia. }
  eexists _, s2, cmds. rewrite (bind_ret _ _ _ _ _ E2). split; [done|]. split_and!; try done; try apply Hc.
  rewrite <- (app_nil_r cmds). by eapply submitted_trans.
Qed.

Lemma bench_rounds_eq p m qid lo hi bufs rnds : forall t s,
  bench_ok p -> bench_room p lo hi -> Forall (fun rnd => forall b, 0 <= rnd b < 2 ^ 31) rnds ->
  Z.of_nat (length bufs) = batch p -> bench_bufs_ok p m bufs s ->
  in_range lo hi (bench_nblocks W p) (bt_lba t) ->
  0 <= bt_count t < 2 ^ 64 -> bt_bytes t = u64 (bt_count t * size p) ->
  exists t' s' cmds, for_each rnds (bench_round p qid lo hi bufs) t s = Ret (t', s') /\ submitted cmds s s' /\
    Z.of_nat (length cmds) = batch p * Z.of_nat (length rnds) /\
    (forall k c, cmds !! k = Some c -> bench_cmd_ok p m qid lo hi k c) /\
    0 <= bt_count t' < 2 ^ 64 /\ bt_bytes t' = u64 (bt_count t' * size p).
Proof.
  induction rnds as [|rnd rnds IH]; intros t s Hp Hroom Hrnd Hlen Hb Hlba Hc1 Hc2.
  - exists t, s, []. split; [done|]. split; [apply submitted_refl|]. split; [simpl; lia|done].
  - inversion_clear Hrnd as [|? ? Hr Hrs].
    destruct (bench_round_eq p m qid lo hi bufs rnd t s) as (t1 & s1 & c1 & E1 & Hs1 & Hl1 & Hok1 & Hb1 & Hd1 & Hd2);
      try done.
    destruct (IH t1 s1) as (t2 & s2 & c2 & E2 & Hs2 & Hl2 & Hok2 & He); try done.
    { intros i l Hi. destruct Hs1 as (_ & -> & ->). by apply Hb. }
    exists t2, s2, (c1 ++ c2). cbn [for_each]. rewrite (bind_ret _ _ _ _ _ E1). split; [done|].
    split; [by eapply submitted_trans|]. split; [rewrite length_app; simpl length; lia|]. split; [|done].
    intros k c Hc. apply lookup_app_Some in Hc as [Hc|[Hge Hc]]; [by apply Hok1|].
    destruct (Hok2 _ _ Hc) as (H1' & H2' & H3' & H4' & H5'). split_and!; try done. rewrite H5'. f_equal.
    replace (Z.of_nat (k - length c1)) with (Z.of_nat k + (-1) * batch p) by lia. apply Z_mod_plus_full.
Qed.

(** ** Properties *)

(** C25: a thread of bench-nvme with equal split, run for any number of
    rounds, returns, and submits exactly a batch of commands per round: each of
    the requested kind, on its own queue, of the requested size in whole blocks,
    and for blocks of its own part of the disk only, whatever the walk mode and
    [rand]; the k-th command of a round uses the k-th of the buffers that were
    carved off the pop memory one behind the other, which is large enough.  The
    bytes it counts are the completed commands times their size.  The parts of
    two threads do not overlap and end below the last block, so no two threads
    touch the same block.  A part has to be larger than a command. *)
Theorem threads_keep_their_blocks p lm i j m rnds s :
  bench_ok p -> split p = 0 -> 0 <= lba_end p < 2 ^ 62 -> 0 <= i < ncpus p -> i < j -> ncpus p < 2 ^ 31 ->
  bench_nblocks W p < lba_end p / ncpus p ->
  Forall (fun rnd => forall b, 0 <= rnd b < 2 ^ 31) rnds ->
  p_mems s !! lm = Some m -> mem_ok m -> m_mutex m = false -> p_oom s = [] ->
  batch p * pages_for (bench_bytes p) <= m_num_pages m - m_alloced_pages m ->
  exists lo hi t s' cmds,
    Bench.bench_range (split p) (lba_end p) (ncpus p) i = Ret (lo, hi) /\
    lo = lba_end p / ncpus p * i /\ hi <= lba_end p / ncpus p * j /\ hi <= lba_end p /\
    bench_start p lm i lo hi rnds s = Ret (Some t, s') /\
    un_log (p_os s') = un_log (p_os s) ++ cmds /\
    Z.of_nat (length cmds) = batch p * Z.of_nat (length rnds) /\
    (forall k c, cmds !! k = Some c ->
       io_write c = p_write p /\ io_qid c = i /\ io_nblocks c = bench_nblocks W p /\
       size p <= io_nblocks c * un_blocksize W < size p + un_blocksize W /\
       lo <= io_lba c /\ io_lba c + io_nblocks c <= hi /\
       io_buf c = bench_addr p m (Z.of_nat k `mod` batch p) /\
       io_buf c + io_nblocks c * un_blocksize W <= bench_addr p m (Z.of_nat k `mod` batch p + 1)) /\
    bt_bytes t = u64 (bt_count t * size p).
Proof.
  intros Hp Hsp Hle Hi Hij Hnc Hnb Hr Hm Hok Hmu Ho Hpg.
  pose proof (bench_bytes_range p Hp) as (Hn & Hby & _). destruct (un_block W) as [_ Hbs].
  pose proof (part_bounds (lba_end p) (ncpus p) i) as Hb1. pose proof (part_disjoint (lba_end p) (ncpus p) i j) as Hb2.
  assert (Bench.bench_range (split p) (lba_end p) (ncpus p) i = Ret (part (lba_end p) (ncpus p) i)) as Epart.
  { rewrite Hsp. apply bench_range_part; lia. }
  unfold part in *; cbn [fst snd] in *. set (q := lba_end p / ncpus p) in *.
  assert (bench_room p (q * i) (q * (i + 1))) as Hroom by (unfold bench_room; lia).
  destruct (bench_setup_eq p lm m s) as (bufs & s1 & E1 & Hlen & Eos & Hbufs); try done.
  destruct (bench_rounds_eq p m i (q * i) (q * (i + 1)) bufs rnds (BenchThread (q * i) 0 0) s1)
    as (t & s2 & cmds & E2 & (El & _) & Hcl & Hok2 & Hc & Hb); try done; [unfold in_range; simpl; lia|].
  exists (q * i), (q * (i + 1)), t, s2, cmds. split_and!; try done; [lia|lia| |by rewrite El, Eos|].
  - unfold bench_start. rewrite (bind_ret _ _ _ _ _ E1). by rewrite (bind_ret _ _ _ _ _ E2).
  - intros k c Hk. destruct (Hok2 k c Hk) as (Ew & Eq & En & [Hl1 Hl2] & Eb).
    rewrite Eb, En, Hbs. fold (bench_bytes p). split_and!; try done; try lia.
    destruct (proj1 (pages_for_spec (bench_bytes p) _) eq_refl). unfold bench_addr. lia.
Qed.
End lemmas.

(** The time between two readings of the clock, in microseconds. *)
Lemma usec_elapsed_spec a b :
  0 <= tv_usec a < 1000000 -> 0 <= tv_usec b < 1000000 -> 0 <= tv_sec a -> tv_sec b < 2 ^ 40 ->
  tv_sec a * 1000000 + tv_usec a <= tv_sec b * 1000000 + tv_usec b ->
  get_usec_elapsed a b = (tv_sec b * 1000000 + tv_usec b) - (tv_sec a * 1000000 + tv_usec a).
Proof.
  intros Ha Hb Hs1 Hs2 Hle. unfold get_usec_elapsed.
  destruct (Z.ltb_spec (tv_usec b) (tv_usec a)); simpl; rewrite u64_small; lia.
Qed.

(** ** Witnesses *)

(** Two reads of a page per round, on the second of two queues. *)
Definition bench_2 : BenchOpt.bench_param :=
  BenchOpt.Bench false 1 0 4096 2 2 1 (Some (lit "18:00.0")) None 16 0.
Definition bench_proc : proc gen_os :=
  Proc {[1%positive := mem4]} ∅ ∅ ∅ 2%positive [] 0 0 (GenOs (NmOs 0) ∅ []).

Lemma threads_keep_their_blocks_witness :
  exists t s', bench_start bench_2 1%positive 0 0 8 [fun _ => 0; fun _ => 0] bench_proc = Ret (Some t, s') /\
    length (un_log (p_os s')) = 4%nat.
Proof.
  destruct (threads_keep_their_blocks bench_2 1%positive 0 1 mem4 [fun _ => 0; fun _ => 0] bench_proc)
    as (lo & hi & t & s' & cmds & E & _ & _ & _ & Es & El & Hl & _);
    [constructor; simpl; lia|reflexivity|simpl; lia|simpl; lia|lia|simpl; lia|reflexivity
    |repeat constructor; done|reflexivity|apply mem_okb_ok; reflexivity|reflexivity|reflexivity
    |vm_compute; discriminate|].
  vm_compute in E. injection E as <- <-. exists t, s'. split; [exact Es|].
  rewrite El. simpl in Hl |- *. lia.
Defined.
