(* ===== verification/Generator.v ===== *)
(** * apps/generator.c: packets from NVMe to netmap

    The body of a generator thread: it reads batches of packets from NVMe
    straight into pop buffers and posts them on a netmap ring.  UNVMe is a
    separate library, the interface [Unvme].  What [rand] returns for the n-th
    command of a round is an argument.  Verbose output, the hexdump, the clock
    and the sleep between rounds are not modelled; [caught_signal] ends the loop
    between two rounds. *)

From S2P Require Import Prelude CStr LibpopH PopBuf Netmap PopNetmap Unvme TxRing Packet Options Lba Nmgen.

(** ** The thread *)

(** The counters of [struct gen_thread] and the thread's position on the disk. *)
Record gen_thread : Type := GenThread {
  t_lba : Z; t_npkts : Z; t_nbytes : Z; t_ncmds : Z; t_nbytes_nvme : Z; t_no_slot : Z
}.

Section generator.
Context {W : Type} `{Netmap W} `{Ram W} `{Unvme W}.
Import GeneratorOpt.

(** [NM_BATCH_TO_NBLOCKS(b, u)]. *)
Definition nm_batch_to_nblocks (b : Z) : Z :=
  if un_blocksize W <=? Z.shiftl b 11 then Z.shiftr (Z.shiftl b 11) (un_blockshift W) else 1.

(** One round of the loop that allocates the buffers: [bufs] and [pkts] have
    [MAX_NVBATCH_SIZE] rows, a row of [pkts] has [MAX_BATCH_SIZE] elements. *)
Definition gen_alloc (g : generator) (mem : loc) (n : Z) (bufs : list (loc * list Z))
    : M (proc W) (list (loc * list Z)) :=
  if MAX_NVBATCH_SIZE <=? n then throw OutOfBounds
  else
    opbuf ← pop_buf_alloc mem (2048 * batch g);
    _ ← put_ptr opbuf (2048 * batch g);
    buf ← require NullDeref opbuf;
    if MAX_BATCH_SIZE <? batch g then throw OutOfBounds
    else
      data ← pop_buf_data buf;
      mret (bufs ++ [(buf, (fun m => data +64 2048 * m) <$> seqZ 0 (batch g))]).

Definition gen_setup (g : generator) (mem : loc) : M (proc W) (list (loc * list Z)) :=
  for_each (seqZ 0 (nvbatch g + 1)) (gen_alloc g mem) [].

(** How many commands a round issues, and how many packets the last of them
    gives when it is not a whole batch (0: all of them are). *)
Definition gen_plan (g : generator) (space : Z) : Z * Z :=
  if bpkts g <=? space then (nvbatch g, 0)
  else (space / batch g + 1, space `mod` batch g).

(** [rest == 0 || vb + 1 < nvbatch]. *)
Definition gen_batch (g : generator) (plan : Z * Z) (vb : Z) : Z :=
  if (plan.2 =? 0) || (vb + 1 <? plan.1) then batch g else plan.2.

(** One read command: the descriptors so far, the next block and the bytes
    read.  An address outside the range is reported and used. *)
Definition gen_read (g : generator) (qid lo hi : Z) (rnd : Z -> Z) (bufs : list (loc * list Z)) (vb : Z)
    (x : list Z * Z * Z) : M (proc W) (list Z * Z * Z) :=
  let '(iod, lba, nbytes_nvme) := x in
  row ← require OutOfBounds (bufs !! Z.to_nat vb);
  let nblocks := nm_batch_to_nblocks (batch g) in
  data ← pop_buf_data row.1;
  d ← os_call (unvme_aread qid data lba nblocks);
  lba' ← lift (Generator.generator_next_lba (rnd vb) (walk g) lba lo hi nblocks);
  mret (iod ++ [d], lba', nbytes_nvme +64 (nblocks <<64 (un_blockshift W))).

(** One packet: the next index and the counters of the round. *)
Definition gen_packet (g : generator) (mem ring : loc) (row : list Z) (b : Z) (x : Z * Z * Z)
    : M (proc W) (Z * Z * Z) :=
  let '(head, npkts, nbytes) := x in
  p ← require OutOfBounds (row !! Z.to_nat b);
  _ ← (if negb (fake_packet g =? 0) then
         at_mem p 2048 (_ ← generator_build_pkt 1500 b; set_pktlen 2048 1500)
       else mret ());
  pa ← pop_virt_to_phys mem p;
  len ← gets (fun s => u16 (get_pktlen 2048 (ram_read p 2048 (p_os s))));
  head' ← tx_slot ring head pa len;
  mret (head', npkts +64 1, nbytes +64 len).

(** One command: the descriptor is polled, then its packets are posted.  With
    fake packets the descriptors were never set. *)
Definition gen_command (g : generator) (mem ring : loc) (bufs : list (loc * list Z)) (plan : Z * Z)
    (iod : list Z) (vb : Z) (x : Z * Z * Z * Z) : M (proc W) (Z * Z * Z * Z) :=
  let '(head, npkts, nbytes, ncmds) := x in
  d ← require UninitRead (iod !! Z.to_nat vb);
  ret ← os_call (unvme_apoll d);
  if negb (ret =? 0) then mret x
  else
    row ← require OutOfBounds (bufs !! Z.to_nat vb);
    y ← for_each (seqZ 0 (gen_batch g plan vb)) (gen_packet g mem ring row.2) (head, npkts, nbytes);
    let '(head', npkts', nbytes') := y in
    mret (head', npkts', nbytes', ncmds +64 1).

(** [sync_out:] to the end of the round; [inr] leaves the loop. *)
Definition gen_sync (g : generator) (fd : Z) (ring : loc) (space : Z) (t t' : gen_thread)
    : M (proc W) (gen_thread + gen_thread) :=
  _ ← (if space <? bpkts g then
         r ← load_ring ring; store_ring ring (with_indices r (r_head r) (r_tail r))
       else mret ());
  ret ← nioctxsync fd ring;
  if ret <? 0 then mret (inr t) else mret (inl t').

Definition gen_round (g : generator) (mem : loc) (fd qid lo hi : Z) (ring : loc)
    (bufs : list (loc * list Z)) (rnd : Z -> Z) (t : gen_thread) : M (proc W) (gen_thread + gen_thread) :=
  r ← load_ring ring;
  let space := nm_ring_space r in
  if space =? 0 then
    let t' := GenThread (t_lba t) (t_npkts t) (t_nbytes t) (t_ncmds t) (t_nbytes_nvme t) (t_no_slot t +64 1) in
    gen_sync g fd ring space t' t'
  else
    let plan := gen_plan g space in
    x ← (if negb (fake_packet g =? 0) then mret ([], t_lba t, 0)
         else for_each (seqZ 0 plan.1) (gen_read g qid lo hi rnd bufs) ([], t_lba t, 0));
    let '(iod, lba, nbytes_nvme) := x in
    y ← for_each (seqZ 0 plan.1) (gen_command g mem ring bufs plan iod) (r_head r, 0, 0, 0);
    let '(head, npkts, nbytes, ncmds) := y in
    _ ← advance ring head;
    gen_sync g fd ring space
      (GenThread lba (t_npkts t) (t_nbytes t) (t_ncmds t) (t_nbytes_nvme t) (t_no_slot t))
      (GenThread lba (t_npkts t +64 npkts) (t_nbytes t +64 nbytes) (t_ncmds t +64 ncmds)
         (t_nbytes_nvme t +64 nbytes_nvme) (t_no_slot t)).

(** The thread, stopped by the signal after some rounds ([rnds] gives the
    random numbers of each). *)
Fixpoint gen_rounds (g : generator) (mem : loc) (fd qid lo hi : Z) (ring : loc)
    (bufs : list (loc * list Z)) (rnds : list (Z -> Z)) (t : gen_thread) : M (proc W) gen_thread :=
  match rnds with
  | [] => mret t
  | rnd :: rnds' =>
      x ← gen_round g mem fd qid lo hi ring bufs rnd t;
      match x with
      | inl t' => gen_rounds g mem fd qid lo hi ring bufs rnds' t'
      | inr t' => mret t'
      end
  end.

Definition thread_body (g : generator) (mem : loc) (fd qid lo hi : Z) (ring : loc) (rnds : list (Z -> Z))
    : M (proc W) gen_thread :=
  bufs ← gen_setup g mem;
  gen_rounds g mem fd qid lo hi ring bufs rnds (GenThread lo 0 0 0 0 0).
End generator.
Arguments nm_batch_to_nblocks W {_} b.

(** ** The plan of a round *)

Import GeneratorOpt.

(** What [main] guarantees of the options. *)
Record gen_ok (g : generator) : Prop := GenOk {
  go_batch : 1 <= batch g <= 32;
  go_nvbatch : 1 <= nvbatch g <= 64;
  go_bpkts : bpkts g = batch g * nvbatch g
}.

Definition planned (g : generator) (plan : Z * Z) (vbs : list Z) : Z :=
  foldr (fun vb n => gen_batch g plan vb + n) 0 vbs.

Lemma planned_whole g plan n k :
  (forall vb, k <= vb < k + Z.of_nat n -> gen_batch g plan vb = batch g) ->
  planned g plan (seqZ k (Z.of_nat n)) = Z.of_nat n * batch g.
Proof.
  revert k. induction n as [|n IH]; intros k Hb; [done|].
  rewrite seqZ_cons by lia. cbn [planned foldr]. replace (Z.pred (Z.of_nat (S n))) with (Z.of_nat n) by lia.
  fold (planned g plan (seqZ (Z.succ k) (Z.of_nat n))). rewrite IH by (intros; apply Hb; lia).
  rewrite Hb by lia. lia.
Qed.

Lemma planned_app g plan l1 l2 : planned g plan (l1 ++ l2) = planned g plan l1 + planned g plan l2.
Proof. induction l1 as [|x l1 IH]; [done|]. simpl. rewrite IH. lia. Qed.

(** The number of packets a round plans. *)
Lemma planned_total g space :
  gen_ok g -> 0 < space ->
  let plan := gen_plan g space in
  1 <= plan.1 <= nvbatch g /\
  planned g plan (seqZ 0 plan.1) =
  if bpkts g <=? space then bpkts g
  else if space `mod` batch g =? 0 then space + batch g else space.
Proof.
  intros [Hb Hv Hp] Hs plan. unfold plan, gen_plan. destruct (Z.leb_spec (bpkts g) space) as [Hle|Hgt].
  - simpl. split; [lia|]. replace (nvbatch g) with (Z.of_nat (Z.to_nat (nvbatch g))) at 2 by lia.
    rewrite planned_whole; [lia|]. intros vb _. unfold gen_batch. done.
  - simpl. pose proof (Z.mod_pos_bound space (batch g) ltac:(lia)) as Hm.
    pose proof (Z.div_mod space (batch g) ltac:(lia)) as Hd.
    assert (0 <= space / batch g < nvbatch g) as Hq by (split; [apply Z.div_pos; lia|nia]).
    split; [lia|]. set (q := space / batch g) in *.
    replace (seqZ 0 (q + 1)) with (seqZ 0 (Z.of_nat (Z.to_nat q)) ++ [q])
      by (replace (q + 1) with (Z.of_nat (S (Z.to_nat q))) by lia; rewrite seqZ_S; do 2 f_equal; lia).
    rewrite planned_app, planned_whole.
    + rewrite Z2Nat.id by lia. simpl. unfold gen_batch; cbn [fst snd].
      destruct (Z.eqb_spec (space `mod` batch g) 0); simpl; [lia|].
      replace (_ <? _) with false by lia. lia.
    + intros vb Hvb. unfold gen_batch; cbn [fst snd]. destruct (Z.eqb_spec (space `mod` batch g) 0); [done|].
      simpl. by replace (_ <? _) with true by lia.
Qed.

(** ** A round *)

Section lemmas.
Context {W : Type} `{NetmapOk W} `{Ram W} `{Unvme W}.
Implicit Type s : proc W.

(** The length the descriptor of a slot says. *)
Definition pkt_len (w : W) (p : Z) : Z := u16 (get_pktlen 2048 (ram_read p 2048 w)).

Definition gen_items (m : pop_mem) (w : W) (row : list Z) : list (Z * Z) :=
  (fun p => (virt_to_phys_in m p, pkt_len w p)) <$> row.

Lemma gen_packets_run g lm m ring row k : forall i head np nb r s,
  fake_packet g = 0 -> p_mems s !! lm = Some m ->
  p_rings s !! ring = Some r -> ring_wf r -> 0 <= head < r_num_slots r -> (i + k <= length row)%nat ->
  let f := filled r head (gen_items m (p_os s) (take k (drop i row))) in
  exists nb', for_each (seqZ (Z.of_nat i) (Z.of_nat k)) (gen_packet g lm ring row) (head, u64 np, nb) s =
    Ret ((f.2, u64 (np + Z.of_nat k), nb'), put_ring ring f.1 s).
Proof.
  induction k as [|k IH]; intros i head np nb r s Hf Hm Hr Hwf Hh Hi f.
  - simpl. exists nb. rewrite !Z.add_0_r, put_ring_same by done. done.
  - rewrite seqZ_cons by lia. cbn [for_each].
    destruct (lookup_lt_is_Some_2 row i) as [p Hp]; [lia|].
    set (len := pkt_len (p_os s) p). set (pa := virt_to_phys_in m p).
    set (r1 := with_slots r (alter (tx_put pa len) (Z.to_nat head) (r_slot r))).
    assert (gen_packet g lm ring row (Z.of_nat i) (head, u64 np, nb) s =
      Ret ((nm_ring_next r head, u64 (np + 1), nb +64 len), put_ring ring r1 s)) as E.
    { unfold gen_packet. rewrite Nat2Z.id, Hp, Hf. unfold require. change (negb (0 =? 0)) with false. cbv iota.
      unfold mbind at 1, M_bind at 1. unfold mret at 1, M_ret at 1.
      unfold mbind at 1, M_bind at 1. unfold mret at 1, M_ret at 1. unfold pop_virt_to_phys.
      rewrite bind_assoc, (bind_ret _ _ _ _ _ (load_mem_Some _ _ _ Hm)).
      unfold mbind at 1, M_bind at 1. unfold mret at 1, M_ret at 1. unfold gets at 1.
      unfold mbind at 1, M_bind at 1. fold (pkt_len (p_os s) p). fold len pa.
      rewrite (bind_ret _ _ _ _ _ (tx_slot_eq _ _ _ _ _ _ Hr Hwf Hh)). unfold mret, M_ret.
      by rewrite u64_add_idemp. }
    destruct (IH (S i) (nm_ring_next r head) (np + 1) (nb +64 len) r1 (put_ring ring r1 s)) as [nb' E'];
      [done|done|apply lookup_insert_eq|by apply ring_wf_alter
      |rewrite next_index by done; exact (ring_index_range r head 1 Hwf)|lia|].
    exists nb'. rewrite (bind_ret _ _ _ _ _ E).
    replace (Z.succ (Z.of_nat i)) with (Z.of_nat (S i)) by lia.
    replace (Z.pred (Z.of_nat (S k))) with (Z.of_nat k) by lia. rewrite E'.
    unfold f. rewrite (drop_S _ _ _ Hp). cbn [take gen_items fmap list_fmap filled].
    rewrite put_ring_twice. fold len pa r1.
    by replace (np + 1 + Z.of_nat k) with (np + Z.of_nat (S k)) by lia.
Qed.

(** The rows of packets: as many as the commands of a round, each of a batch. *)
Definition rows_ok (g : generator) (bufs : list (loc * list Z)) s : Prop :=
  nvbatch g <= Z.of_nat (length bufs) /\
  (forall i row, bufs !! i = Some row -> Z.of_nat (length row.2) = batch g /\ is_Some (p_bufs s !! row.1)).

(** The address of a packet of one of the rows. *)
Definition row_addr (m : pop_mem) (bufs : list (loc * list Z)) (pa : Z) : Prop :=
  exists i row p, bufs !! i = Some row /\ p ∈ row.2 /\ pa = virt_to_phys_in m p.

(** What the loop over the commands keeps: the packets posted so far and the
    ones that may follow fit the space. *)
Definition posting (g : generator) (lm ring : loc) (m : pop_mem) bufs (plan : Z * Z) (total : Z) (r : netmap_ring)
    s0 (rest : list Z) (x : Z * Z * Z * Z) s : Prop :=
  exists its, p_rings s !! ring = Some (filled r (r_head r) its).1 /\ x.1.1.1 = (filled r (r_head r) its).2 /\
    x.1.1.2 = u64 (Z.of_nat (length its)) /\ Z.of_nat (length its) + planned g plan rest <= total /\
    Forall (fun it => row_addr m bufs it.1) its /\
    p_mems s = p_mems s0 /\ p_bufs s = p_bufs s0 /\ Forall (fun vb => 0 <= vb < plan.1) rest.

Lemma gen_batch_range g plan vb : gen_ok g -> 0 <= plan.2 <= batch g -> 0 <= gen_batch g plan vb <= batch g.
Proof. intros [Hb _ _] Hp. unfold gen_batch. destruct (_ || _); lia. Qed.

Lemma planned_nonneg g plan l : gen_ok g -> 0 <= plan.2 <= batch g -> 0 <= planned g plan l.
Proof.
  intros Hg Hp. induction l as [|x l IH]; [done|]. simpl. pose proof (gen_batch_range g plan x Hg Hp). lia.
Qed.

Lemma gen_command_step g lm ring m bufs plan total r s0 iod vb rest x s :
  gen_ok g -> fake_packet g = 0 -> ring_wf r -> total <= r_num_slots r -> 0 <= plan.2 <= batch g ->
  plan.1 <= nvbatch g -> plan.1 <= Z.of_nat (length iod) ->
  p_mems s0 !! lm = Some m -> rows_ok g bufs s0 ->
  posting g lm ring m bufs plan total r s0 (vb :: rest) x s ->
  exists x' s', gen_command g lm ring bufs plan iod vb x s = Ret (x', s') /\
    posting g lm ring m bufs plan total r s0 rest x' s'.
Proof.
  intros Hg Hf Hwf Htot Hp Hpv Hiod Hm [Hrows1 Hrows2] (its & Hr & Ehd & Enp & Hle & Hall & Em & Eb & Hvbs).
  destruct x as [[[head np] nb] nc]; cbn [fst snd] in *. subst head np.
  inversion_clear Hvbs as [|? ? Hvb Hvbs']. simpl in Hle.
  pose proof (gen_batch_range g plan vb Hg Hp) as Hgb. pose proof (planned_nonneg g plan rest Hg Hp) as Hpl.
  unfold gen_command. destruct (lookup_lt_is_Some_2 iod (Z.to_nat vb)) as [d Hd]; [lia|].
  rewrite Hd. unfold require. unfold mbind at 1, M_bind at 1. unfold mret at 1, M_ret at 1.
  unfold os_call. unfold mbind at 1, M_bind at 1.
  destruct (unvme_apoll d (p_os s)) as [ret w]. destruct (negb (ret =? 0)).
  - eexists _, _. split; [done|]. exists its. simpl. split_and!; try done; lia.
  - destruct (lookup_lt_is_Some_2 bufs (Z.to_nat vb)) as [row Hrow]; [lia|]. rewrite Hrow.
    destruct (Hrows2 _ _ Hrow) as [Hlen _]. unfold mbind at 1, M_bind at 1. unfold mret at 1, M_ret at 1.
    destruct (filled_spec its r (r_head r) Hwf (rw_head _ Hwf)) as (F2 & Fwf & [Fs1 Fs2] & _); [lia|].
    set (s1 := with_os w s). set (k := Z.to_nat (gen_batch g plan vb)).
    destruct (gen_packets_run g lm m ring row.2 k 0 (filled r (r_head r) its).2 (Z.of_nat (length its)) nb
      (filled r (r_head r) its).1 s1) as [nb' E]; try done; [by simpl; rewrite Em| |lia|].
    { rewrite F2, Fs1. by apply ring_index_range. }
    change (Z.of_nat 0) with 0 in E. replace (Z.of_nat k) with (gen_batch g plan vb) in E by lia.
    change (drop 0 row.2) with row.2 in E. cbv zeta in E. rewrite <- filled_app in E.
    rewrite (bind_ret _ _ _ _ _ E). eexists _, _. split; [done|].
    exists (its ++ gen_items m (p_os s1) (take k row.2)). cbn [fst snd].
    assert (length (gen_items m (p_os s1) (take k row.2)) = k) as Hk.
    { unfold gen_items. rewrite length_fmap, length_take. lia. }
    split_and!; try done.
    + apply lookup_insert_eq.
    + rewrite length_app, Hk. f_equal. lia.
    + rewrite length_app, Hk. lia.
    + apply Forall_app. split; [done|]. unfold gen_items. apply Forall_fmap, Forall_forall.
      intros p Hpin. exists (Z.to_nat vb), row, p. split_and!; try done.
      eapply subseteq_take, Hpin.
Qed.

(** The walk does not divide by zero. *)
Definition walk_ok (g : generator) (lo hi : Z) : Prop :=
  walk g = 0 \/ walk g = 1 /\ (hi -64 lo -64 nm_batch_to_nblocks W (batch g)) <> 0.

Lemma walk_ok_next g lo hi rnd lba :
  walk_ok g lo hi -> exists x, Generator.generator_next_lba rnd (walk g) lba lo hi (nm_batch_to_nblocks W (batch g)) = Ret x.
Proof.
  intros [-> |[-> Hne]]; unfold Generator.generator_next_lba; simpl; [by eexists|].
  unfold random_lba. rewrite (proj2 (Z.eqb_neq _ _) Hne). by eexists.
Qed.

(** The read commands: one descriptor each, and only the devices change. *)
Lemma gen_reads g qid lo hi rnd bufs n lba s :
  walk_ok g lo hi -> rows_ok g bufs s -> (Z.of_nat n <= nvbatch g) ->
  exists iod lba' nbn w, for_each (seqZ 0 (Z.of_nat n)) (gen_read g qid lo hi rnd bufs) ([], lba, 0) s
    = Ret ((iod, lba', nbn), with_os w s) /\ length iod = n.
Proof.
  intros Hw Hrows Hn.
  destruct (for_each_inv (fun rest (x : list Z * Z * Z) s' =>
      rest = seqZ (Z.of_nat (length x.1.1)) (Z.of_nat (n - length x.1.1)) /\ (length x.1.1 <= n)%nat /\
      exists w, s' = with_os w s) (gen_read g qid lo hi rnd bufs)
    (seqZ 0 (Z.of_nat n)) ([], lba, 0) s) as ([[iod lba'] nbn] & s' & E & Er & Hle & [w ->]).
  - simpl. split_and!; [by rewrite Nat.sub_0_r|lia|]. exists (p_os s). by destruct s.
  - intros vb rest [[iod lba0] nbn] s1 (Er & Hle & [w ->]). simpl in Er, Hle. set (k := length iod) in *.
    assert (k < n)%nat as Hk.
    { destruct (decide (k < n)%nat); [done|]. by replace (n - k)%nat with 0%nat in Er by lia. }
    rewrite seqZ_cons in Er by lia. injection Er as -> ->. destruct Hrows as [Hr1 Hr2].
    destruct (lookup_lt_is_Some_2 bufs k) as [row Hrow]; [lia|].
    destruct (Hr2 _ _ Hrow) as [_ [b Hb]].
    destruct (walk_ok_next g lo hi (rnd (Z.of_nat k)) lba0 Hw) as [x Hx].
    unfold gen_read. rewrite Nat2Z.id, Hrow. unfold require. unfold mbind at 1, M_bind at 1.
    unfold mret at 1, M_ret at 1. cbv zeta. unfold pop_buf_data.
    rewrite bind_assoc, (bind_ret _ _ _ _ _ (load_buf_Some row.1 b (with_os w s) Hb)).
    unfold mbind at 1, M_bind at 1. unfold mret at 1, M_ret at 1.
    unfold os_call at 1. unfold mbind at 1, M_bind at 1.
    destruct (unvme_aread _ _ _ _ (p_os (with_os w s))) as [d w']. unfold lift. rewrite Hx.
    eexists _, _. split; [done|]. cbn [fst snd]. rewrite length_app. change (length [d]) with 1%nat. fold k.
    split_and!; [f_equal; lia|lia|]. by exists w'.
  - exists iod, lba', nbn, w. split; [done|]. simpl in *.
    destruct (decide (length iod = n)); [done|]. rewrite seqZ_cons in Er by lia. done.
Qed.

Lemma advance_eq ring r h s :
  p_rings s !! ring = Some r -> advance ring h s = Ret ((), put_ring ring (with_indices r h h) s).
Proof.
  intros Hr. unfold advance. rewrite (bind_ret _ _ _ _ _ (load_ring_Some _ _ _ Hr)). done.
Qed.

(** From [sync_out] on. *)
Lemma gen_sync_eq g fd ring space t t' r s :
  p_rings s !! ring = Some r -> ring_wf r ->
  exists r1 ret r2 w2 s', r1 = (if space <? bpkts g then with_indices r (r_head r) (r_tail r) else r) /\
    sys_txsync fd r1 (p_os s) = ((ret, r2), w2) /\ p_rings s' !! ring = Some r2 /\ ring_wf r2 /\
    p_mems s' = p_mems s /\ p_bufs s' = p_bufs s /\
    gen_sync g fd ring space t t' s = Ret (if ret <? 0 then inr t else inl t', s').
Proof.
  intros Hr Hwf. set (r1 := if space <? bpkts g then _ else r).
  set (s1 := if space <? bpkts g then put_ring ring r1 s else s).
  assert (p_rings s1 !! ring = Some r1 /\ p_os s1 = p_os s /\ p_mems s1 = p_mems s /\ p_bufs s1 = p_bufs s)
    as (Hr1 & Ho1 & Hm1 & Hb1).
  { unfold s1, r1. destruct (space <? bpkts g); [|done]. split_and!; try done. apply lookup_insert_eq. }
  assert (ring_wf r1) as Hwf1.
  { unfold r1. destruct (space <? bpkts g); [|done]. by destruct Hwf. }
  destruct (sync_returns (sys_txsync fd) ring r1 s1 Hr1) as (ret & r2 & w2 & s2 & E1 & Es & Hr2 & Ho & _).
  pose proof (nm_txsync_spec fd r1 (p_os s1)) as Hsync. rewrite E1 in Hsync.
  destruct Hsync as (_ & Hwf2 & _). destruct Hwf1 as [Hn1 Hn2 _ _]. specialize (Hwf2 Hn1 Hn2).
  destruct Ho as (Hm2 & Hb2 & _).
  exists r1, ret, r2, w2, s2. rewrite Ho1 in E1. split_and!; try done; [by rewrite Hm2|by rewrite Hb2|].
  unfold gen_sync.
  assert ((if space <? bpkts g then r ← load_ring ring; store_ring ring (with_indices r (r_head r) (r_tail r))
    else mret ()) s = Ret ((), s1)) as Ei.
  { unfold s1, r1. destruct (space <? bpkts g); [|done].
    by rewrite (bind_ret _ _ _ _ _ (load_ring_Some _ _ _ Hr)). }
  rewrite (bind_ret _ _ _ _ _ Ei). unfold nioctxsync. rewrite (bind_ret _ _ _ _ _ Es).
  by destruct (ret <? 0) eqn:Er; [|rewrite Er].
Qed.
End lemmas.

(** ** Properties *)

(** The number of packets a generator round plans is the number of free
    slots, at most a round's worth, except when fewer slots are free than a
    round needs and their number is a multiple of the batch: then it plans a
    whole batch more than there are slots.  With the default batch of 1 that is
    the case whenever the ring is short of slots. *)
Theorem generator_plan g space :
  gen_ok g -> 0 < space ->
  let plan := gen_plan g space in
  planned g plan (seqZ 0 plan.1) =
    (if bpkts g <=? space then bpkts g
     else if space `mod` batch g =? 0 then space + batch g else space) /\
  1 <= plan.1 <= nvbatch g /\
  (batch g = 1 -> space < nvbatch g -> planned g plan (seqZ 0 plan.1) = space + 1).
Proof.
  intros Hg Hs plan. destruct (planned_total g space Hg Hs) as [Hp E]. fold plan in Hp, E.
  split; [done|]. split; [done|]. intros Hb Hlt. rewrite E. destruct Hg as [_ _ Hbp]. rewrite Hbp, Hb.
  replace (1 * nvbatch g <=? space) with false by lia. by rewrite Z.mod_1_r.
Qed.

Section props.
Context {W : Type} `{NetmapOk W} `{Ram W} `{Unvme W}.
Implicit Type s : proc W.

(** C23: a generator round on a ring whose free slots make a whole round, or
    are not a multiple of the batch, returns whatever the NVMe device answers to
    its polls.  It has posted, when it calls the sync, a number of packets that
    is at most the free slots: [head] has moved by that number, each posted slot
    points at a packet buffer of this thread, every other slot is unchanged, and
    the packet counter has grown by that number when the sync succeeds. *)
Theorem generator_round_fits g lm fd qid lo hi ring bufs rnd t m r s :
  gen_ok g -> fake_packet g = 0 -> walk_ok g lo hi -> rows_ok g bufs s ->
  p_mems s !! lm = Some m -> p_rings s !! ring = Some r -> ring_wf r ->
  let space := (r_tail r - r_head r) `mod` r_num_slots r in
  0 < space -> bpkts g <= space \/ space `mod` batch g <> 0 ->
  exists k r1 ret r2 w1 w2 s' t' t'', 0 <= k <= space /\
    r_head r1 = ring_index r (r_head r) k /\ r_tail r1 = r_tail r /\
    (forall i, 0 <= i < k -> exists x, r_slot r1 !! Z.to_nat (ring_index r (r_head r) i) = Some x /\
       row_addr m bufs (s_ptr x) /\ Z.land (s_flags x) NS_PHY_INDIRECT = NS_PHY_INDIRECT) /\
    (forall i, k <= i < r_num_slots r ->
       r_slot r1 !! Z.to_nat (ring_index r (r_head r) i) = r_slot r !! Z.to_nat (ring_index r (r_head r) i)) /\
    sys_txsync fd r1 w1 = ((ret, r2), w2) /\ p_rings s' !! ring = Some r2 /\ ring_wf r2 /\
    gen_round g lm fd qid lo hi ring bufs rnd t s = Ret (if ret <? 0 then inr t'' else inl t', s') /\
    t_npkts t' = u64 (t_npkts t + k) /\ t_npkts t'' = t_npkts t.
Proof.
  intros Hg Hf Hw Hrows Hm Hr Hwf space Hsp Hfit. pose proof Hwf as [Hn1 Hn2 Hh1 Ht1].
  assert (space < r_num_slots r) as Hsn by (apply Z.mod_pos_bound; lia).
  set (plan := gen_plan g space). destruct (planned_total g space Hg Hsp) as [Hp1 Htot].
  fold plan in Hp1, Htot.
  assert (planned g plan (seqZ 0 plan.1) <= space) as Hle.
  { rewrite Htot. destruct (Z.leb_spec (bpkts g) space); [done|].
    replace (space `mod` batch g =? 0) with false by lia. lia. }
  assert (0 <= plan.2 <= batch g) as Hp2.
  { unfold plan, gen_plan. destruct Hg as [Hb _ _]. destruct (_ <=? _); simpl; [lia|].
    pose proof (Z.mod_pos_bound space (batch g)). lia. }
  unfold gen_round. rewrite (bind_ret _ _ _ _ _ (load_ring_Some _ _ _ Hr)). cbv zeta.
  rewrite (nm_space_spec r Hwf). fold space plan. replace (space =? 0) with false by lia.
  rewrite Hf. change (negb (0 =? 0)) with false. cbv iota.
  destruct (gen_reads g qid lo hi rnd bufs (Z.to_nat plan.1) (t_lba t) s Hw Hrows) as (iod & lba & nbn & w & E1 & Hiod);
    [lia|]. rewrite Z2Nat.id in E1 by lia. rewrite (bind_ret _ _ _ _ _ E1). cbv beta iota.
  destruct (for_each_inv (posting g lm ring m bufs plan space r (with_os w s))
    (gen_command g lm ring bufs plan iod) (seqZ 0 plan.1) (r_head r, 0, 0, 0) (with_os w s))
    as ([[[head np] nb] nc] & s2 & E2 & its & Hr2 & Ehd & Enp & Hlen & Haddr & Em & Eb & _).
  { exists []. simpl. split_and!; try done. apply Forall_forall. intros vb Hvb%elem_of_seqZ. lia. }
  { intros vb rest x s1 Hpost. apply (gen_command_step g lm ring m bufs plan space r (with_os w s) iod vb rest x s1);
      try done; lia. }
  cbn [fst snd] in *. subst head np. simpl in Hlen. rewrite (bind_ret _ _ _ _ _ E2). cbv beta iota.
  rewrite (bind_ret _ _ _ _ _ (advance_eq ring _ _ s2 Hr2)).
  destruct (filled_spec its r (r_head r) Hwf Hh1) as (F2 & Fwf & [Fs1 Fs2] & _ & Ft & Fin & Fout); [lia|].
  set (f := filled r (r_head r) its) in *. set (r0 := with_indices f.1 f.2 f.2).
  assert (ring_wf r0) as Hwf0.
  { apply ring_wf_indices; [done|]. rewrite F2, Fs1. by apply ring_index_range. }
  edestruct (gen_sync_eq g fd ring space) with (r := r0) (s := put_ring ring r0 s2)
    as (r1 & ret & r2 & w2 & s' & E3 & E4 & Hr' & Hwf' & _ & _ & E5); [apply lookup_insert_eq|done|].
  assert (r_head r1 = f.2 /\ r_tail r1 = r_tail r /\ r_slot r1 = r_slot f.1) as (Eh & Et & Esl).
  { rewrite E3. destruct (space <? bpkts g); simpl; by rewrite Ft. }
  eexists (Z.of_nat (length its)), r1, ret, r2, _, w2, s', _, _.
  rewrite Eh, Et, Esl. split; [lia|]. split; [exact F2|]. split; [done|]. split.
  { intros i Hi. destruct (lookup_lt_is_Some_2 its (Z.to_nat i)) as [[pa len] Hit]; [lia|].
    destruct (Fin _ _ _ Hit) as (x & _ & Hx). rewrite Z2Nat.id in Hx by lia. exists (tx_put pa len x).
    split; [exact Hx|]. split; [|apply flag_set]. rewrite Forall_forall in Haddr.
    exact (Haddr _ (list_elem_of_lookup_2 _ _ _ Hit)). }
  split; [intros i Hi; apply Fout; lia|]. split; [exact E4|]. split; [exact Hr'|]. split; [exact Hwf'|].
  split; [exact E5|]. split; [|done]. cbn [t_npkts]. unfold u64. apply Zplus_mod_idemp_r.
Qed.

(** With -F generator polls descriptors it never set: the first round
    that finds a free slot uses an indeterminate value. *)
Theorem generator_fake_uninit g lm fd qid lo hi ring bufs rnd t r s :
  gen_ok g -> fake_packet g <> 0 -> p_rings s !! ring = Some r -> ring_wf r ->
  r_tail r <> r_head r -> gen_round g lm fd qid lo hi ring bufs rnd t s = Fault UninitRead.
Proof.
  intros Hg Hf Hr Hwf Hne. pose proof Hwf as [Hn1 Hn2 Hh1 Ht1].
  assert (0 < nm_ring_space r) as Hsp.
  { rewrite nm_space_spec by done. rewrite ring_distance by done. destruct (_ <=? _) eqn:E; lia. }
  destruct (planned_total g (nm_ring_space r) Hg Hsp) as [Hp1 _].
  unfold gen_round. rewrite (bind_ret _ _ _ _ _ (load_ring_Some _ _ _ Hr)). cbv zeta.
  replace (nm_ring_space r =? 0) with false by lia. replace (fake_packet g =? 0) with false by lia.
  simpl negb. cbv iota. unfold mbind at 1, M_bind at 1. unfold mret at 1, M_ret at 1.
  apply bind_fault. rewrite seqZ_cons by lia. done.
Qed.

(** Generator allocates one buffer more than a round uses: with the
    largest number of commands per round the options accept, 64, the setup
    writes behind the end of the arrays of the thread and never returns
    normally. *)
Theorem generator_setup_overflows g lm s :
  gen_ok g -> nvbatch g = MAX_NVBATCH_SIZE -> ~ exists bufs s', gen_setup g lm s = Ret (bufs, s').
Proof.
  intros Hg Hv (bufs & s' & E). revert E. unfold gen_setup. rewrite Hv.
  change (seqZ 0 (MAX_NVBATCH_SIZE + 1)) with (seqZ 0 64 ++ [64]). rewrite for_each_app.
  intros (x & s1 & _ & E)%bind_Ret_inv. done.
Qed.

(** What the allocating loop keeps. *)
Definition allocating (g : generator) (lm : loc) (m : pop_mem) s0 (rest : list Z) (bufs : list (loc * list Z)) s : Prop :=
  rest = seqZ (Z.of_nat (length bufs)) (nvbatch g + 1 - Z.of_nat (length bufs)) /\
  Z.of_nat (length bufs) <= nvbatch g + 1 /\
  p_mems s !! lm = Some (set_alloced m (m_alloced_pages m + Z.of_nat (length bufs) * pages_for (2048 * batch g))) /\
  p_oom s = [] /\ p_rings s = p_rings s0 /\
  (forall i row, bufs !! i = Some row -> Z.of_nat (length row.2) = batch g /\ is_Some (p_bufs s !! row.1) /\
     forall p, p ∈ row.2 -> m_mem m <= p /\ p + 2048 <= m_mem m + m_num_pages m * 4096).

Lemma gen_alloc_step g lm m s0 n rest bufs s :
  gen_ok g -> nvbatch g <= 63 -> mem_ok m -> m_mutex m = false ->
  (nvbatch g + 1) * pages_for (2048 * batch g) <= m_num_pages m - m_alloced_pages m ->
  allocating g lm m s0 (n :: rest) bufs s ->
  exists bufs' s', gen_alloc g lm n bufs s = Ret (bufs', s') /\ allocating g lm m s0 rest bufs' s'.
Proof.
  intros Hg Hv Hok Hmu Hpg (Er & Hle & Hm & Ho & Hr & Hrows). set (k := length bufs) in *.
  assert (Z.of_nat k < nvbatch g + 1) as Hk.
  { destruct (decide (Z.of_nat k < nvbatch g + 1)); [done|]. by rewrite seqZ_nil in Er by lia. }
  rewrite seqZ_cons in Er by lia. injection Er as -> ->. pose proof (go_batch _ Hg) as Hb.
  set (pg := pages_for (2048 * batch g)) in *. destruct Hok as [Hk1 Hk2 Hk3 Hk4].
  destruct (proj1 (pages_for_spec (2048 * batch g) pg) eq_refl) as [Hp1 Hp2].
  set (m1 := set_alloced m (m_alloced_pages m + Z.of_nat k * pg)) in *.
  assert (Z.of_nat k * pg + pg <= (nvbatch g + 1) * pg) as Hkpg by nia.
  assert (mem_ok m1) as Hok1 by (unfold m1; constructor; simpl; nia).
  destruct (rxring_alloc lm m1 (2048 * batch g) s) as (s2 & v & Ea & Ep & Hb2 & Hr2 & Ho2 & _);
    [done|done|done|lia|unfold m1; simpl; fold pg; lia|done|]. fold pg in Ea, Ep.
  set (b := full_buf lm m1 (2048 * batch g)) in *.
  assert (buf_data b = m_mem m + (m_alloced_pages m + Z.of_nat k * pg) * 4096) as Hbd.
  { unfold buf_data, b; simpl. fold pg. unwrap. lia. }
  set (row := (fun m0 => buf_data b +64 2048 * m0) <$> seqZ 0 (batch g)).
  exists (bufs ++ [(p_next s, row)]), s2. split.
  - unfold gen_alloc, MAX_NVBATCH_SIZE, MAX_BATCH_SIZE. replace (64 <=? Z.of_nat k) with false by lia.
    rewrite (bind_ret _ _ _ _ _ Ea). unfold put_ptr, require. rewrite bind_assoc.
    unfold mbind at 1, M_bind at 1. unfold mret at 1, M_ret at 1. rewrite (bind_ret _ _ _ _ _ Ep).
    unfold mbind at 1, M_bind at 1. unfold mret at 1, M_ret at 1. replace (32 <? batch g) with false by lia.
    unfold pop_buf_data. rewrite bind_assoc, (bind_ret _ _ _ _ _ (load_buf_Some _ _ _ Hb2)). done.
  - assert (p_mems s2 !! lm = Some (set_alloced m (m_alloced_pages m + Z.of_nat (S k) * pg)) /\
      forall l, is_Some (p_bufs s !! l) -> is_Some (p_bufs s2 !! l)) as [Hm2 Hbufs].
    { revert Ep. unfold pop_buf_put, buf_op. intros Ep.
      apply bind_Ret_inv in Ep as (b0 & s3 & [_ ->]%load_buf_inv & Ep). revert Ep.
      destruct (buf_put b0 (2048 * batch g)) as [b1 x]. unfold store_buf, modify, mbind, M_bind, mret, M_ret.
      intros [= _ <-]. simpl. rewrite lookup_insert_eq. split.
      - f_equal. unfold m1, set_alloced; simpl. f_equal. lia.
      - intros l Hl. destruct (decide (l = p_next s)) as [->|Hne]; [rewrite lookup_insert_eq; eauto|].
        rewrite !lookup_insert_ne by done. done. }
    unfold allocating. rewrite length_app. change (length [_]) with 1%nat. fold k pg.
    replace (k + 1)%nat with (S k) by lia. split_and!; try done; [f_equal; lia|lia|by rewrite Hr2|].
    intros i row' Hi. apply lookup_app_Some in Hi as [Hi|[Hge Hi]].
    + destruct (Hrows i row' Hi) as (H1' & H2' & H3'). split_and!; [done|by apply Hbufs|done].
    + apply list_lookup_singleton_Some in Hi as [_ <-]. simpl. split_and!.
      * unfold row. rewrite length_fmap, length_seqZ. lia.
      * rewrite Hb2. eauto.
      * intros p Hp. unfold row in Hp. apply list_elem_of_fmap in Hp as (j & -> & Hj%elem_of_seqZ).
        rewrite Hbd. rewrite u64_small by nia. nia.
Qed.

(** With at most 63 commands per round and a pop memory with room for one
    buffer more than that, the setup of a generator thread returns one row of
    packet addresses per buffer, of a batch each, all of them inside the mapped
    memory: what the rounds rely on. *)
Theorem generator_setup_ok g lm m s :
  gen_ok g -> nvbatch g <= 63 -> p_mems s !! lm = Some m -> mem_ok m -> m_mutex m = false -> p_oom s = [] ->
  (nvbatch g + 1) * pages_for (2048 * batch g) <= m_num_pages m - m_alloced_pages m ->
  exists bufs s', gen_setup g lm s = Ret (bufs, s') /\ Z.of_nat (length bufs) = nvbatch g + 1 /\
    rows_ok g bufs s' /\ p_rings s' = p_rings s /\
    forall i row p, bufs !! i = Some row -> p ∈ row.2 ->
      m_mem m <= p /\ p + 2048 <= m_mem m + m_num_pages m * 4096.
Proof.
  intros Hg Hv Hm Hok Hmu Ho Hpg.
  destruct (for_each_inv (allocating g lm m s) (gen_alloc g lm) (seqZ 0 (nvbatch g + 1)) [] s)
    as (bufs & s' & E & Er & Hle & _ & _ & Hr & Hrows).
  { unfold allocating. simpl. pose proof (go_nvbatch _ Hg). split_and!; try done; [f_equal; lia|lia|].
    rewrite Hm. f_equal. rewrite Z.add_0_r. by destruct m. }
  { intros n rest bufs s1 Ha. by eapply gen_alloc_step. }
  assert (Z.of_nat (length bufs) = nvbatch g + 1) as Hlen.
  { destruct (decide (Z.of_nat (length bufs) = nvbatch g + 1)); [done|]. rewrite seqZ_cons in Er by lia. done. }
  exists bufs, s'. split_and!; try done.
  - split; [lia|]. intros i row Hi. destruct (Hrows i row Hi) as (Hr1 & Hr2 & _). done.
  - intros i row p Hi Hp. destruct (Hrows i row Hi) as (_ & _ & Hr3). by apply Hr3.
Qed.
End props.

(** ** Witnesses *)

Definition gen_2x1 : generator :=
  Gen None (Some (lit "18:00.0")) (Some (lit "eth0")) 1 2 1 0 0 0x40000 0 0 0 0 0 2.

Lemma gen_2x1_ok : gen_ok gen_2x1.
Proof. constructor; simpl; lia. Defined.

(** The thread's buffers after the setup on [mem4]. *)
Definition gen_bufs : list (loc * list Z) * proc gen_os :=
  match gen_setup gen_2x1 1%positive gen_proc with Ret x => x | _ => ([], gen_proc) end.

Lemma generator_plan_witness : planned gen_2x1 (gen_plan gen_2x1 1) (seqZ 0 1) = 1.
Proof.
  destruct (generator_plan gen_2x1 1 gen_2x1_ok) as [E _]; [lia|]. exact E.
Defined.

Lemma generator_setup_ok_witness :
  exists bufs s', gen_setup gen_2x1 1%positive gen_proc = Ret (bufs, s') /\ Z.of_nat (length bufs) = 2.
Proof.
  destruct (generator_setup_ok gen_2x1 1%positive mem4 gen_proc) as (bufs & s' & E & Hl & _);
    [exact gen_2x1_ok|simpl; lia|reflexivity|apply mem_okb_ok; reflexivity|reflexivity|reflexivity
    |vm_compute; discriminate|].
  exists bufs, s'. split; [exact E|exact Hl].
Defined.

Lemma generator_round_fits_witness :
  exists x s', gen_round gen_2x1 1%positive 7 0 0 0x40000 9%positive gen_bufs.1 (fun _ => 0)
    (GenThread 0 0 0 0 0 0) gen_bufs.2 = Ret (x, s').
Proof.
  destruct (p_mems gen_bufs.2 !! 1%positive) as [m|] eqn:Em; [|vm_compute in Em; discriminate].
  destruct (generator_round_fits gen_2x1 1%positive 7 0 0 0x40000 9%positive gen_bufs.1 (fun _ => 0)
    (GenThread 0 0 0 0 0 0) m ring4 gen_bufs.2)
    as (k & r1 & ret & r2 & w1 & w2 & s' & t' & t'' & _ & _ & _ & _ & _ & _ & _ & _ & E & _);
    [exact gen_2x1_ok|reflexivity|left; reflexivity| |exact Em|reflexivity|exact ring4_wf
    |vm_compute; reflexivity|left; vm_compute; discriminate|].
  - split; [vm_compute; discriminate|]. intros i row Hi.
    destruct i as [|[|i]]; vm_compute in Hi; try discriminate; injection Hi as <-;
      (split; [reflexivity|eexists; reflexivity]).
  - eexists _, s'. exact E.
Defined.

Lemma generator_fake_uninit_witness :
  gen_round (Gen None None None 1 1 1 0 0 16 1 0 0 0 0 1) 1%positive 7 0 0 16 9%positive [] (fun _ => 0)
    (GenThread 0 0 0 0 0 0) gen_proc = Fault UninitRead.
Proof.
  apply (generator_fake_uninit (Gen None None None 1 1 1 0 0 16 1 0 0 0 0 1)) with (r := ring4);
    [constructor; simpl; lia|discriminate|reflexivity|exact ring4_wf|discriminate].
Defined.

Lemma generator_setup_overflows_witness :
  exists g, GeneratorOpt.generator_main_opts 8 [arg "u" "18:00.0"; arg "i" "eth0"; arg "B" "64"] = inr g /\
    ~ exists bufs s', gen_setup g 1%positive gen_proc = Ret (bufs, s').
Proof.
  exists (Gen None (Some (lit "18:00.0")) (Some (lit "eth0")) 1 1 64 0 0 0x40000 0 0 0 0 0 64).
  split; [reflexivity|]. 
  apply generator_setup_overflows; [constructor; [simpl; lia|simpl; lia|reflexivity]|reflexivity].
Defined.
