(* ===== verification/Nvgen.v ===== *)
(** * apps/nvgen.c: packets from NVMe to netmap through a ring

    A sending queue of nvgen has two threads, which share a [struct nvgen_ring]:
    the NVMe thread fills the ring's slots with blocks of the disk and moves
    [head]; the netmap thread posts them and moves [tail].  Each thread looks at
    the other's index once per round, when it computes how many slots it may
    use, and publishes its own index at the end of the round; no lock is taken.
    A round is therefore two steps of the step relation [nv_step]: the look,
    which keeps a copy of the ring, and the run on that copy; the steps of the
    two threads interleave in any order.  A thread sees [cancel] between two
    rounds; the NVMe thread then ends, and the netmap thread first waits until
    the device has taken what is pending on its ring.  What [rand] returns for
    the b-th command of a round is an argument.  Pinning the threads, the clock and the printed rates are not modelled. *)

From S2P Require Import Prelude CStr LibpopH PopBuf Netmap PopNetmap Unvme Lba NvRing Packet.
From S2P Require Import Options TxRing Nmgen Generator.

Section nvgen.
Context {W : Type} `{Netmap W} `{Ram W} `{Unvme W}.
Import NvgenOpt.

(** ** Setup *)

(** The fields of [struct nvgen_thread] that [nvgen_init_thread_body] sets. *)
Record nvgen_thread : Type := NvThread {
  th_lba_start : Z; th_lba_end : Z; th_ring : nvgen_ring; th_buf : Z
}.

Definition nvgen_init_thread_body (g : nvgen) (mem : loc) (cpu : Z) (th : nvgen_thread)
    : M (proc W) (Z * nvgen_thread) :=
  range ← lift (Nvgen.nvgen_range (lba_end g) (ncpus g) cpu);
  pbuf ← pop_buf_alloc mem (2048 * SLOT_NUM);
  match pbuf with
  | None => mret (-1, NvThread range.1 range.2 (th_ring th) (th_buf th))
  | Some l =>
      _ ← pop_buf_put l (2048 * SLOT_NUM);
      buf ← pop_buf_data l;
      mret (0, NvThread range.1 range.2 nvgen_ring_init buf)
  end.

(** [th->buf + (2048 * n)]: the packets of one thread, the slots of the other. *)
Definition slot_addr (buf n : Z) : Z := buf +64 2048 * n.
Definition slot_addrs (buf : Z) : list Z := slot_addr buf <$> seqZ 0 SLOT_NUM.

(** The loop that looks up the physical addresses. *)
Definition nvgen_pkts_phy (mem : loc) (buf : Z) : M (proc W) (list Z) :=
  for_each (seqZ 0 SLOT_NUM) (fun n pkts_phy =>
    pa ← pop_virt_to_phys mem (slot_addr buf n); mret (pkts_phy ++ [pa])) [].

(** What a round comes to: the thread ends, the round is given up, or the
    thread publishes new values. *)
Inductive round (A : Type) : Type :=
  | Stop
  | Skip
  | Publish (a : A).
Arguments Stop {A}.
Arguments Skip {A}.
Arguments Publish {A} a.

(** [space &= ~0x0001] on an [unsigned int]. *)
Definition make_even (space : Z) : Z := Z.land space (2 ^ 32 - 2).

(** ** The netmap thread *)

(** One packet: the two indices and the two counters of the round. *)
Definition nvgen_send_packet (ring : loc) (pkts pkts_phy : list Z) (nvr : nvgen_ring) (b : Z)
    (x : Z * Z * Z * Z) : M (proc W) (Z * Z * Z * Z) :=
  let '(head, tail, npkts, nbits) := x in
  pa ← require OutOfBounds (pkts_phy !! Z.to_nat tail);
  p ← require OutOfBounds (pkts !! Z.to_nat tail);
  len ← gets (fun s => u16 (get_pktlen 2048 (ram_read p 2048 (p_os s))));
  head' ← tx_slot ring head pa len;
  mret (head', ring_read_next nvr tail, npkts +64 1, nbits +64 Z.shiftl len 3).

(** One round on the ring as it looked: the new tail and the counters. *)
Definition nvgen_netmap_round (g : nvgen) (fd : Z) (ring : loc) (pkts pkts_phy : list Z)
    (nvr : nvgen_ring) : M (proc W) (round (Z * Z * Z)) :=
  let loaded := ring_read_avail nvr in
  if loaded <? 2 then mret Skip
  else
    ret ← nioctxsync fd ring;
    if ret <? 0 then mret Stop
    else
      r ← load_ring ring;
      if nm_ring_space r =? 0 then mret Skip
      else
        let space := make_even (nm_ring_space r) in
        let batch := if u32 (batch g) <? space then u32 (batch g) else space in
        let batch := if loaded <? batch then loaded else batch in
        x ← for_each (seqZ 0 batch) (nvgen_send_packet ring pkts pkts_phy nvr)
              (r_head r, nr_tail nvr, 0, 0);
        let '(head, tail, npkts, nbits) := x in
        _ ← advance ring head;
        mret (Publish (tail, npkts, nbits)).

(** ** The NVMe thread *)

(** One command: the next slot, the next block (an [unsigned int]) and the
    descriptors so far. *)
Definition nvgen_read_cmd (g : nvgen) (qid lo hi : Z) (slots : list Z) (rnd : Z -> Z)
    (nvr : nvgen_ring) (nblocks b : Z) (x : Z * Z * list Z) : M (proc W) (Z * Z * list Z) :=
  let '(head, lba, iod) := x in
  if MAX_NVBATCH_NUM <=? b then throw OutOfBounds
  else
    p ← require OutOfBounds (slots !! Z.to_nat head);
    d ← os_call (unvme_aread qid p lba nblocks);
    lba' ← lift (Nvgen.nvgen_next_lba (rnd b) (walk g) lba lo hi nblocks);
    mret (ring_write_next_batch nvr head (u32 (Z.shiftl nblocks 1)), u32 lba', iod ++ [d]).

Definition nvgen_poll_cmd (iod : list Z) (nblocks b nbytes : Z) : M (proc W) Z :=
  d ← require OutOfBounds (iod !! Z.to_nat b);
  ret ← os_call (unvme_apoll d);
  mret (if ret =? 0 then nbytes +64 u32 (nblocks * 4096) else nbytes).

(** One round on the ring as it looked: the new head, the next block and the
    byte counter. *)
Definition nvgen_unvme_round (g : nvgen) (qid lo hi : Z) (slots : list Z) (rnd : Z -> Z)
    (nvr : nvgen_ring) (lba nbytes : Z) : M (proc W) (round (Z * Z * Z)) :=
  let space := ring_write_avail nvr in
  if space <? 2 then mret Skip
  else
    let space := make_even space in
    let batch := if u32 (nvbatch g) <? Z.shiftr space 1 then u32 (nvbatch g) else Z.shiftr space 1 in
    if negb (walk g =? Nvgen.WALK_MODE_SEQ) && negb (walk g =? Nvgen.WALK_MODE_RANDOM) then mret Stop
    else
      let '(nblocks, batch) := if walk g =? Nvgen.WALK_MODE_SEQ then (batch, 1) else (1, batch) in
      x ← for_each (seqZ 0 batch) (nvgen_read_cmd g qid lo hi slots rnd nvr nblocks)
            (nr_head nvr, lba, []);
      let '(head, lba', iod) := x in
      nbytes' ← for_each (seqZ 0 batch) (nvgen_poll_cmd iod nblocks) nbytes;
      mret (Publish (head, lba', nbytes')).

(** ** The two threads together *)

(** Where a thread is: at the top of its loop, in a round with the copy of the
    ring it has taken, in the loop behind that waits for [nm_tx_pending], or
    ended. *)
Inductive place : Type :=
  | Top
  | InRound (seen : nvgen_ring)
  | Draining
  | Ended.

Record nvsys : Type := NvSys {
  y_proc : proc W;
  y_ring : nvgen_ring;       (* th->ring *)
  y_lba : Z;                 (* lba of the NVMe thread *)
  y_npkts : Z; y_nbits : Z; y_nbytes : Z;
  y_net : place;             (* the netmap thread *)
  y_dev : place              (* the NVMe thread *)
}.

Definition net_done (x : round (Z * Z * Z)) (p : proc W) (y : nvsys) : nvsys :=
  match x with
  | Stop => NvSys p (y_ring y) (y_lba y) (y_npkts y) (y_nbits y) (y_nbytes y) Ended (y_dev y)
  | Skip => NvSys p (y_ring y) (y_lba y) (y_npkts y) (y_nbits y) (y_nbytes y) Top (y_dev y)
  | Publish (tail, npkts, nbits) =>
      NvSys p (NvRing (nr_head (y_ring y)) tail (nr_mask (y_ring y))) (y_lba y)
        (y_npkts y +64 npkts) (y_nbits y +64 nbits) (y_nbytes y) Top (y_dev y)
  end.

Definition dev_done (x : round (Z * Z * Z)) (p : proc W) (y : nvsys) : nvsys :=
  match x with
  | Stop => NvSys p (y_ring y) (y_lba y) (y_npkts y) (y_nbits y) (y_nbytes y) (y_net y) Ended
  | Skip => NvSys p (y_ring y) (y_lba y) (y_npkts y) (y_nbits y) (y_nbytes y) (y_net y) Top
  | Publish (head, lba, nbytes) =>
      NvSys p (NvRing head (nr_tail (y_ring y)) (nr_mask (y_ring y))) lba
        (y_npkts y) (y_nbits y) nbytes (y_net y) Top
  end.

Definition set_net (n : place) (y : nvsys) : nvsys :=
  NvSys (y_proc y) (y_ring y) (y_lba y) (y_npkts y) (y_nbits y) (y_nbytes y) n (y_dev y).
Definition set_dev (d : place) (y : nvsys) : nvsys :=
  NvSys (y_proc y) (y_ring y) (y_lba y) (y_npkts y) (y_nbits y) (y_nbytes y) (y_net y) d.

Definition set_proc (p : proc W) (y : nvsys) : nvsys :=
  NvSys p (y_ring y) (y_lba y) (y_npkts y) (y_nbits y) (y_nbytes y) (y_net y) (y_dev y).

Inductive nv_event : Type :=
  | NetLook
  | NetRun
  | NetCancel                 (* sees th->cancel *)
  | NetDrain
  | DevLook
  | DevRun (rnd : Z -> Z)
  | DevCancel.

(** The threads of one queue: [pkts_phy] is the netmap thread's table.  The loop
    that waits for the pending packets is statement by statement that of
    nmgen.c. *)
Inductive nv_step (g : nvgen) (fd qid lo hi : Z) (ring : loc) (buf : Z) (pkts_phy : list Z)
    (y : nvsys) : nv_event -> nvsys -> Prop :=
  | net_look :
      y_net y = Top ->
      nv_step g fd qid lo hi ring buf pkts_phy y NetLook (set_net (InRound (y_ring y)) y)
  | net_run seen x p :
      y_net y = InRound seen ->
      nvgen_netmap_round g fd ring (slot_addrs buf) pkts_phy seen (y_proc y) = Ret (x, p) ->
      nv_step g fd qid lo hi ring buf pkts_phy y NetRun (net_done x p y)
  | net_cancel :
      y_net y = Top ->
      nv_step g fd qid lo hi ring buf pkts_phy y NetCancel (set_net Draining y)
  | net_drain x p :
      y_net y = Draining -> nmgen_drain fd ring () (y_proc y) = Ret (x, p) ->
      nv_step g fd qid lo hi ring buf pkts_phy y NetDrain
        (set_net (match x with inl _ => Draining | inr _ => Ended end) (set_proc p y))
  | dev_look :
      y_dev y = Top ->
      nv_step g fd qid lo hi ring buf pkts_phy y DevLook (set_dev (InRound (y_ring y)) y)
  | dev_run seen rnd x p :
      y_dev y = InRound seen -> (forall b, 0 <= rnd b < 2 ^ 31) ->
      nvgen_unvme_round g qid lo hi (slot_addrs buf) rnd seen (y_lba y) (y_nbytes y) (y_proc y) = Ret (x, p) ->
      nv_step g fd qid lo hi ring buf pkts_phy y (DevRun rnd) (dev_done x p y)
  | dev_cancel :
      y_dev y = Top ->
      nv_step g fd qid lo hi ring buf pkts_phy y DevCancel (set_dev Ended y).

(** ** The receiving thread *)

(** Statement by statement the receiver of nmgen.c. *)
Definition nvgen_receiver_body (mem : loc) (fd : Z) (ring : loc) (rounds : nat) : M (proc W) (Z * Z) :=
  _ ← pop_nm_rxring_init fd ring mem;
  x ← iter_nat (nmgen_recv_round fd ring) rounds (0, 0);
  match x with inl c | inr c => mret c end.
End nvgen.
Arguments Stop {A}.
Arguments Skip {A}.
Arguments Publish {A} a.

(** ** Indices *)

(** Both indices are in range and [head], which moves by whole blocks, is
    even. *)
Record idx_ok (r : nvgen_ring) : Prop := IdxOk {
  io_head : 0 <= nr_head r < 256;
  io_even : nr_head r `mod` 2 = 0;
  io_tail : 0 <= nr_tail r < 256;
  io_mask : nr_mask r = 255
}.

Lemma make_even_spec x : 0 <= x < 2 ^ 32 -> make_even x = 2 * (x / 2).
Proof.
  intros Hx. unfold make_even.
  assert (Z.land x (2 ^ 32 - 2) = Z.shiftl (Z.shiftr x 1) 1) as ->.
  { apply Z.bits_inj'. intros n Hn. rewrite Z.land_spec.
    assert (n = 0 \/ 1 <= n) as [->|H1] by lia; [by rewrite andb_false_r, Z.shiftl_spec_low|].
    rewrite Z.shiftl_spec, Z.shiftr_spec by lia. replace (n - 1 + 1) with n by lia.
    change (2 ^ 32 - 2) with (Z.shiftl (Z.ones 31) 1). rewrite Z.shiftl_spec, Z.testbit_ones by lia.
    destruct (decide (n < 32)) as [Hlt|Hge].
    - replace ((0 <=? n - 1) && (n - 1 <? 31)) with true by lia. by rewrite andb_true_r.
    - assert (Z.testbit x n = false) as ->; [|done].
      destruct (decide (x = 0)) as [->|Hx0]; [apply Z.testbit_0_l|].
      apply Z.bits_above_log2; [lia|]. assert (Z.log2 x < 32) by (apply Z.log2_lt_pow2; lia). lia. }
  rewrite Z.shiftl_mul_pow2, Z.shiftr_div_pow2 by lia. change (2 ^ 1) with 2. lia.
Qed.

(** The number of blocks that fit behind [head]. *)
Lemma write_blocks r :
  idx_ok r -> 2 <= ring_write_avail r ->
  0 <= Z.shiftr (make_even (ring_write_avail r)) 1 <= 128.
Proof.
  intros [Hh _ Ht _] Hge. rewrite write_avail_eq in * by done.
  assert (ring_write_avail r <= 256) as Hle.
  { rewrite write_avail_eq by done. destruct (_ =? _) eqn:E1; [lia|]. destruct (_ <? _) eqn:E2; lia. }
  rewrite write_avail_eq in Hle by done.
  rewrite make_even_spec by lia. rewrite Z.shiftr_div_pow2 by lia. change (2 ^ 1) with 2.
  rewrite Z.mul_comm, Z.div_mul by lia. split; [apply Z.div_pos; lia|]. apply Z.div_le_upper_bound; lia.
Qed.

Lemma slot_lookup buf h : 0 <= h < 256 -> slot_addrs buf !! Z.to_nat h = Some (slot_addr buf h).
Proof.
  intros Hh. unfold slot_addrs. rewrite list_lookup_fmap, lookup_seqZ_lt by (unfold SLOT_NUM; lia).
  simpl. f_equal. f_equal. lia.
Qed.

(** A sync of a netmap ring submits no NVMe command. *)
Class NvmeApart (W : Type) `{Netmap W} `{UnvmeOk W} : Prop :=
  txsync_log fd r w : un_log (sys_txsync fd r w).2 = un_log w.

Section lemmas.
Context {W : Type} `{NetmapOk W} `{RamOk W} `{UnvmeOk W}.
Implicit Type s : proc W.
Import NvgenOpt.

(** ** Commands of a round *)

(** A command of the NVMe thread. *)
Definition nv_cmd_ok (g : nvgen) (qid lo hi buf : Z) (c : io) : Prop :=
  io_write c = false /\ io_qid c = qid /\ 0 <= io_nblocks c <= 128 /\
  (exists h, 0 <= h < 256 /\ h `mod` 2 = 0 /\ io_buf c = slot_addr buf h) /\
  (walk g = 1 -> io_nblocks c = 1 /\ in_range lo hi 1 (io_lba c)).

(** The position on the disk. *)
Definition nv_lba_ok (g : nvgen) (lo hi lba : Z) : Prop :=
  0 <= lba < 2 ^ 32 /\ (walk g = 1 -> in_range lo hi 1 lba).

(** A configuration the NVMe thread works with: a thread that walks at random
    has at least two blocks, and block numbers fit an [unsigned int]. *)
Definition nv_walk_ok (g : nvgen) (lo hi : Z) : Prop :=
  0 <= lo /\ hi <= 2 ^ 32 /\ (walk g = 0 /\ lo < hi \/ walk g = 1 /\ lo + 1 < hi).

(** Only the outside world has changed, by these commands. *)
Definition dev_only (cmds : list io) s0 s : Prop :=
  exists w, s = with_os w s0 /\ un_log w = un_log (p_os s0) ++ cmds.

Lemma dev_only_refl s : dev_only [] s s.
Proof. exists (p_os s). split; [by destruct s|by rewrite app_nil_r]. Qed.

Lemma dev_only_trans c1 c2 s0 s1 s2 : dev_only c1 s0 s1 -> dev_only c2 s1 s2 -> dev_only (c1 ++ c2) s0 s2.
Proof.
  intros (w1 & -> & E1) (w2 & -> & E2). exists w2. split; [done|]. simpl in E2. by rewrite E2, E1, app_assoc.
Qed.

Definition reading (g : nvgen) (qid lo hi buf : Z) (nvr : nvgen_ring) (n k : Z) s0 (rest : list Z)
    (x : Z * Z * list Z) s : Prop :=
  let i := Z.of_nat (length x.2) in
  rest = seqZ i (k - i) /\ i <= k /\
  x.1.1 = (nr_head nvr + 2 * n * i) `mod` 256 /\ nv_lba_ok g lo hi x.1.2 /\
  exists cmds, dev_only cmds s0 s /\ Forall (nv_cmd_ok g qid lo hi buf) cmds.

Lemma nvgen_read_cmd_eq g qid lo hi buf rnd nvr n b head lba iod s :
  nv_walk_ok g lo hi -> nr_mask nvr = 255 -> (forall b, 0 <= rnd b < 2 ^ 31) ->
  0 <= n <= 128 -> (walk g = 1 -> n = 1) -> b < 128 -> 0 <= head < 256 ->
  exists lba' d s',
    nvgen_read_cmd g qid lo hi (slot_addrs buf) rnd nvr n b (head, lba, iod) s =
      Ret (((head + 2 * n) `mod` 256, lba', iod ++ [d]), s') /\
    dev_only [Io false qid (slot_addr buf head) lba n] s s' /\ nv_lba_ok g lo hi lba'.
Proof.
  intros (Hlo & Hhi & Hw) Hm Hrnd Hn Hn1 Hb Hhd.
  assert (exists lba', Nvgen.nvgen_next_lba (rnd b) (walk g) lba lo hi n = Ret lba' /\ nv_lba_ok g lo hi (u32 lba'))
    as (lba' & El & Hl').
  { destruct Hw as [[Ew Hw]|[Ew Hw]]; unfold Nvgen.nvgen_next_lba; rewrite Ew; simpl.
    - eexists. split; [done|]. split; [apply u32_range|]. rewrite Ew. discriminate.
    - destruct (random_in_range (rnd b) lo hi n) as (x & Ex & Hx); [done|lia|lia|rewrite Hn1 by done; lia|lia|].
      exists x. split; [done|]. rewrite Hn1 in Hx by done. unfold in_range in Hx.
      rewrite u32_small by lia. split; [lia|]. intros _. exact Hx. }
  pose proof (un_aread_log qid (slot_addr buf head) lba n (p_os s)) as Elog.
  destruct (unvme_aread qid (slot_addr buf head) lba n (p_os s)) as [d w] eqn:Ea. simpl in Elog.
  exists (u32 lba'), d, (with_os w s). split; [|split; [by exists w|done]].
  unfold nvgen_read_cmd, MAX_NVBATCH_NUM. replace (128 <=? b) with false by lia.
  rewrite slot_lookup by done. unfold require, os_call, mbind, M_bind, mret, M_ret.
  rewrite Ea. unfold lift. rewrite El. do 4 f_equal. rewrite Z.shiftl_mul_pow2, u32_small by lia.
  rewrite <- (Z.mod_small head 256) at 1 by done. rewrite next_batch_counts by done. f_equal. lia.
Qed.

Lemma nvgen_read_step g qid lo hi buf rnd nvr n k s0 b rest x s :
  nv_walk_ok g lo hi -> idx_ok nvr -> (forall b, 0 <= rnd b < 2 ^ 31) ->
  0 <= n <= 128 -> (walk g = 1 -> n = 1) -> k <= 128 ->
  reading g qid lo hi buf nvr n k s0 (b :: rest) x s ->
  exists x' s', nvgen_read_cmd g qid lo hi (slot_addrs buf) rnd nvr n b x s = Ret (x', s') /\
    reading g qid lo hi buf nvr n k s0 rest x' s'.
Proof.
  intros Hwk [Hh He Ht Hm] Hrnd Hn Hn1 Hk (Er & Hle & Eh & [Hl1 Hl2] & cmds & Hdev & Hok).
  destruct x as [[head lba] iod]; cbn [fst snd] in *. set (i := Z.of_nat (length iod)) in *.
  assert (i < k) as Hik by (destruct (decide (i < k)); [done|]; by rewrite seqZ_nil in Er by lia).
  rewrite seqZ_cons in Er by lia. injection Er as -> ->.
  assert (0 <= head < 256) as Hhd by (rewrite Eh; apply Z.mod_pos_bound; lia).
  assert (head `mod` 2 = 0) as Hev.
  { rewrite Eh. clear -He. Z.to_euclidean_division_equations; lia. }
  destruct (nvgen_read_cmd_eq g qid lo hi buf rnd nvr n i head lba iod s) as (lba' & d & s' & E & Hd & Hl');
    try done; [lia|].
  eexists _, s'. split; [exact E|]. unfold reading. cbn [fst snd]. rewrite length_app. simpl length.
  replace (Z.of_nat (length iod + 1)) with (i + 1) by (unfold i; lia).
  split; [f_equal; lia|]. split; [lia|]. split; [|split; [done|]].
  - rewrite Eh, Zplus_mod_idemp_l. f_equal. lia.
  - exists (cmds ++ [Io false qid (slot_addr buf head) lba n]). split; [by eapply dev_only_trans|].
    apply Forall_app. split; [done|]. apply Forall_singleton. unfold nv_cmd_ok; simpl.
    split_and!; [done|done|lia|lia|by exists head|]. intros Ew. split; [by apply Hn1|by apply Hl2].
Qed.

Lemma nvgen_poll_step iod n s0 b rest nbytes s :
  (Forall (fun b => 0 <= b < Z.of_nat (length iod)) (b :: rest) /\ dev_only [] s0 s) ->
  exists nbytes' s', nvgen_poll_cmd iod n b nbytes s = Ret (nbytes', s') /\
    Forall (fun b => 0 <= b < Z.of_nat (length iod)) rest /\ dev_only [] s0 s'.
Proof.
  intros [(Hb & Hrest)%Forall_cons Hdev]. destruct (lookup_lt_is_Some_2 iod (Z.to_nat b)) as [d Hd]; [lia|].
  unfold nvgen_poll_cmd. rewrite Hd. unfold require, os_call, mbind, M_bind, mret, M_ret.
  pose proof (un_apoll_log d (p_os s)) as El. destruct (unvme_apoll d (p_os s)) as [ret w].
  eexists _, _. split; [done|]. split; [done|]. apply (dev_only_trans [] [] s0 s); [done|].
  exists w. split; [done|]. by rewrite app_nil_r.
Qed.

(** How many blocks and commands a round takes. *)
Definition nv_plan (g : nvgen) (nvr : nvgen_ring) : Z * Z :=
  let space := Z.shiftr (make_even (ring_write_avail nvr)) 1 in
  let batch := if u32 (nvbatch g) <? space then u32 (nvbatch g) else space in
  if walk g =? 0 then (batch, 1) else (1, batch).

Lemma nv_plan_range g nvr :
  idx_ok nvr -> 2 <= ring_write_avail nvr ->
  0 <= (nv_plan g nvr).1 <= 128 /\ 0 <= (nv_plan g nvr).2 <= 128 /\ (walk g = 1 -> (nv_plan g nvr).1 = 1).
Proof.
  intros Hi Ha. pose proof (write_blocks _ Hi Ha). pose proof (u32_range (nvbatch g)). unfold nv_plan.
  destruct (Z.eqb_spec (walk g) 0) as [->|]; cbn [fst snd]; destruct (Z.ltb_spec (u32 (nvbatch g))
    (Z.shiftr (make_even (ring_write_avail nvr)) 1)); split_and!; lia || done.
Qed.

(** A round of the NVMe thread. *)
Lemma nvgen_unvme_round_eq g qid lo hi buf rnd nvr lba nbytes s :
  nv_walk_ok g lo hi -> idx_ok nvr -> (forall b, 0 <= rnd b < 2 ^ 31) -> nv_lba_ok g lo hi lba ->
  let plan := nv_plan g nvr in
  exists x s' cmds, nvgen_unvme_round g qid lo hi (slot_addrs buf) rnd nvr lba nbytes s = Ret (x, s') /\
    dev_only cmds s s' /\ Forall (nv_cmd_ok g qid lo hi buf) cmds /\
    if ring_write_avail nvr <? 2 then x = Skip
    else exists lba' nbytes', x = Publish ((nr_head nvr + 2 * plan.1 * plan.2) `mod` 256, lba', nbytes') /\
           nv_lba_ok g lo hi lba'.
Proof.
  intros Hw Hi Hrnd Hlba plan. unfold nvgen_unvme_round.
  destruct (Z.ltb_spec (ring_write_avail nvr) 2) as [Hlt|Hge].
  { exists Skip, s, []. split_and!; try done. apply dev_only_refl. }
  destruct (nv_plan_range g nvr Hi Hge) as (Hp1 & Hp2 & Hp3). fold plan in Hp1, Hp2, Hp3.
  replace (negb _ && negb _) with false
    by (destruct Hw as (_ & _ & [[-> _]|[-> _]]); done).
  change (if walk g =? Nvgen.WALK_MODE_SEQ then _ else _) with plan.
  destruct plan as [n k] eqn:Ep. cbn [fst snd] in *.
  destruct (for_each_inv (reading g qid lo hi buf nvr n k s) (nvgen_read_cmd g qid lo hi (slot_addrs buf) rnd nvr n)
    (seqZ 0 k) (nr_head nvr, lba, []) s) as ([[head lba'] iod] & s1 & E1 & Er & Hle & Eh & Hl' & cmds & Hdev & Hok).
  { unfold reading. cbn [fst snd length]. split; [f_equal; lia|]. split; [lia|]. split; [|split; [done|]].
    - rewrite Z.mul_0_r, Z.add_0_r. symmetry. apply Z.mod_small. apply Hi.
    - exists []. split; [apply dev_only_refl|done]. }
  { intros. eapply nvgen_read_step; eauto. lia. }
  cbn [fst snd] in *. rewrite (bind_ret _ _ _ _ _ E1).
  assert (Z.of_nat (length iod) = k) as Hlen.
  { destruct (decide (Z.of_nat (length iod) = k)); [done|]. by rewrite seqZ_cons in Er by lia. }
  destruct (for_each_inv (fun rest (_ : Z) s' => Forall (fun b => 0 <= b < Z.of_nat (length iod)) rest /\ dev_only [] s1 s')
    (nvgen_poll_cmd iod n) (seqZ 0 k) nbytes s1) as (nbytes' & s2 & E2 & _ & Hdev2).
  { split; [|apply dev_only_refl]. apply Forall_forall. intros b Hb%elem_of_seqZ. lia. }
  { intros. by apply nvgen_poll_step. }
  rewrite (bind_ret _ _ _ _ _ E2). eexists _, s2, cmds. split; [done|]. split_and!; [|done|].
  - rewrite <- (app_nil_r cmds). by eapply dev_only_trans.
  - exists lba', nbytes'. split; [|done]. by rewrite Eh, Hlen.
Qed.

(** ** Packets of a round *)

(** What [k] packets from slot [tail] on leave in netmap slots: the physical
    address of the ring's slot and the length in its descriptor. *)
Fixpoint nv_items (buf : Z) (pkts_phy : list Z) (w : W) (tail : Z) (k : nat) : list (Z * Z) :=
  match k with
  | O => []
  | S k' => (pkts_phy !!! Z.to_nat tail, pkt_len w (slot_addr buf tail))
            :: nv_items buf pkts_phy w ((tail + 1) `mod` 256) k'
  end.

Lemma nv_items_length buf pp w k : forall tail, length (nv_items buf pp w tail k) = k.
Proof. induction k as [|k IH]; intros tail; [done|]. simpl. by rewrite IH. Qed.

Lemma nv_items_lookup buf pp w k : forall tail i, 0 <= tail < 256 -> (i < k)%nat ->
  nv_items buf pp w tail k !! i =
  Some (pp !!! Z.to_nat ((tail + Z.of_nat i) `mod` 256),
        pkt_len w (slot_addr buf ((tail + Z.of_nat i) `mod` 256))).
Proof.
  induction k as [|k IH]; intros tail i Ht Hi; [lia|]. destruct i as [|i].
  - change (Z.of_nat 0) with 0. rewrite Z.add_0_r, Z.mod_small by done. done.
  - simpl. rewrite IH by (try apply Z.mod_pos_bound; lia). rewrite Zplus_mod_idemp_l.
    replace (tail + 1 + Z.of_nat i) with (tail + Z.of_nat (S i)) by lia. done.
Qed.

(** The bits the counter adds. *)
Definition item_bits (l : list (Z * Z)) : Z := foldr (fun x a => 8 * x.2 + a) 0 l.

Lemma nvgen_sends ring buf pp nvr bs : forall tail head np nb r s,
  nr_mask nvr = 255 -> 0 <= tail < 256 -> length pp = 256%nat ->
  p_rings s !! ring = Some r -> ring_wf r -> 0 <= head < r_num_slots r ->
  let items := nv_items buf pp (p_os s) tail (length bs) in
  let f := filled r head items in
  for_each bs (nvgen_send_packet ring (slot_addrs buf) pp nvr) (head, tail, u64 np, u64 nb) s =
  Ret ((f.2, (tail + Z.of_nat (length bs)) `mod` 256, u64 (np + Z.of_nat (length bs)),
        u64 (nb + item_bits items)), put_ring ring f.1 s).
Proof.
  induction bs as [|b bs IH]; intros tail head np nb r s Hm Ht Hl Hr Hwf Hh items f.
  - simpl. by rewrite !Z.add_0_r, Z.mod_small, put_ring_same by done.
  - set (pa := pp !!! Z.to_nat tail). set (len := pkt_len (p_os s) (slot_addr buf tail)).
    set (r1 := with_slots r (alter (tx_put pa len) (Z.to_nat head) (r_slot r))).
    assert (nvgen_send_packet ring (slot_addrs buf) pp nvr b (head, tail, u64 np, u64 nb) s =
      Ret ((nm_ring_next r head, (tail + 1) `mod` 256, u64 (np + 1), u64 (nb + 8 * len)), put_ring ring r1 s)) as E.
    { unfold nvgen_send_packet. rewrite (list_lookup_lookup_total_lt pp) by lia. rewrite slot_lookup by done.
      unfold require, gets. unfold mbind at 1 2 3, M_bind at 1 2 3. unfold mret at 1 2, M_ret at 1 2. simpl.
      fold (pkt_len (p_os s) (slot_addr buf tail)). fold len pa.
      rewrite (bind_ret _ _ _ _ _ (tx_slot_eq _ _ _ _ _ _ Hr Hwf Hh)). unfold mret, M_ret.
      rewrite !u64_add_idemp. unfold ring_read_next. rewrite Hm, land_mask, mod_mod_32.
      rewrite Z.shiftl_mul_pow2 by lia. change (2 ^ 3) with 8. by rewrite (Z.mul_comm len). }
    cbn [for_each]. rewrite (bind_ret _ _ _ _ _ E).
    rewrite (IH _ _ _ _ r1 (put_ring ring r1 s)); try done.
    + unfold f, items. cbn [length nv_items filled item_bits foldr snd]. fold len pa r1.
      rewrite put_ring_twice, Zplus_mod_idemp_l. simpl p_os.
      replace (tail + 1 + Z.of_nat (length bs)) with (tail + Z.of_nat (S (length bs))) by lia.
      replace (np + 1 + Z.of_nat (length bs)) with (np + Z.of_nat (S (length bs))) by lia.
      fold (item_bits (nv_items buf pp (p_os s) ((tail + 1) `mod` 256) (length bs))).
      by rewrite Z.add_assoc.
    + apply Z.mod_pos_bound. lia.
    + apply lookup_insert_eq.
    + by apply ring_wf_alter.
    + rewrite next_index by done. exact (ring_index_range r head 1 Hwf).
Qed.

(** How many packets a round posts. *)
Definition nv_count (g : nvgen) (nvr : nvgen_ring) (space : Z) : Z :=
  let n := if u32 (batch g) <? 2 * (space / 2) then u32 (batch g) else 2 * (space / 2) in
  if ring_read_avail nvr <? n then ring_read_avail nvr else n.

Lemma nv_count_range g nvr space :
  0 <= space -> 0 <= ring_read_avail nvr -> 0 <= nv_count g nvr space <= space.
Proof.
  intros Hs Hr. unfold nv_count. pose proof (u32_range (batch g)).
  assert (0 <= 2 * (space / 2) <= space) by (Z.to_euclidean_division_equations; lia).
  destruct (Z.ltb_spec (u32 (batch g)) (2 * (space / 2)));
    match goal with |- context [?a <? ?b] => destruct (Z.ltb_spec a b) end; lia.
Qed.

(** A round of the netmap thread. *)
Lemma nvgen_netmap_round_eq g fd ring buf pp nvr r0 s :
  idx_ok nvr -> length pp = 256%nat -> p_rings s !! ring = Some r0 -> ring_wf r0 ->
  if ring_read_avail nvr <? 2
  then nvgen_netmap_round g fd ring (slot_addrs buf) pp nvr s = Ret (Skip, s)
  else exists ret r1 w1 s1, sys_txsync fd r0 (p_os s) = ((ret, r1), w1) /\ ring_wf r1 /\ same_shape r0 r1 /\
    p_rings s1 !! ring = Some r1 /\ ring_only ring s s1 /\ p_os s1 = w1 /\
    let space := (r_tail r1 - r_head r1) `mod` r_num_slots r1 in
    let k := nv_count g nvr space in
    let items := nv_items buf pp w1 (nr_tail nvr) (Z.to_nat k) in
    let f := filled r1 (r_head r1) items in
    nvgen_netmap_round g fd ring (slot_addrs buf) pp nvr s =
    if ret <? 0 then Ret (Stop, s1)
    else if space =? 0 then Ret (Skip, s1)
    else Ret (Publish ((nr_tail nvr + k) `mod` 256, u64 k, u64 (item_bits items)),
              put_ring ring (with_indices f.1 f.2 f.2) s1).
Proof.
  intros Hi Hl Hr Hwf. unfold nvgen_netmap_round. destruct (ring_read_avail nvr <? 2); [done|].
  unfold nioctxsync.
  destruct (sync_returns (sys_txsync fd) ring r0 s Hr) as (ret & r1 & w1 & s1 & E1 & Es & Hr1 & Ho & Hw).
  pose proof (nm_txsync_spec fd r0 (p_os s)) as Hsync. rewrite E1 in Hsync.
  destruct Hsync as (Hsh & Hwf1 & _). destruct Hwf as [Hn1 Hn2 _ _]. specialize (Hwf1 Hn1 Hn2).
  exists ret, r1, w1, s1. split_and!; try done. cbv zeta. rewrite (bind_ret _ _ _ _ _ Es).
  destruct (ret <? 0) eqn:Eret; [done|]. rewrite Eret.
  rewrite (bind_ret _ _ _ _ _ (load_ring_Some _ _ _ Hr1)), (nm_space_spec r1 Hwf1).
  set (space := (r_tail r1 - r_head r1) `mod` r_num_slots r1).
  destruct (Z.eqb_spec space 0) as [E0|E0]; [done|]. pose proof Hwf1 as [_ Hnum Hh1 _].
  assert (0 <= space < r_num_slots r1) as Hsp by (apply Z.mod_pos_bound; lia).
  rewrite make_even_spec by lia. fold (nv_count g nvr space). set (k := nv_count g nvr space).
  assert (0 <= k) as Hk.
  { apply nv_count_range; [lia|]. rewrite read_avail_eq. apply u32_range. }
  pose proof (nvgen_sends ring buf pp nvr (seqZ 0 k) (nr_tail nvr) (r_head r1) 0 0 r1 s1) as Ef.
  cbv zeta in Ef. rewrite length_seqZ, Hw, Z2Nat.id, !Z.add_0_l in Ef by lia. change (u64 0) with 0 in Ef.
  rewrite (bind_ret _ _ _ _ _ (Ef (io_mask _ Hi) (io_tail _ Hi) Hl Hr1 Hwf1 Hh1)). cbv beta iota.
  erewrite bind_ret by (apply advance_eq, lookup_insert_eq). by rewrite put_ring_twice.
Qed.
End lemmas.

(** ** The invariant of the two threads *)

Section system.
Context {W : Type} `{NetmapOk W} `{RamOk W} `{UnvmeOk W} `{!NvmeApart W}.
Implicit Type s : proc W.
Implicit Type y : nvsys (W:=W).
Import NvgenOpt.

Record nv_inv (g : nvgen) (qid lo hi : Z) (ring : loc) (buf : Z) (log0 : list io) y : Prop := NvInv {
  ni_ring : idx_ok (y_ring y);
  ni_net seen : y_net y = InRound seen -> idx_ok seen;
  ni_dev seen : y_dev y = InRound seen -> idx_ok seen;
  ni_nm : exists r, p_rings (y_proc y) !! ring = Some r /\ ring_wf r;
  ni_lba : nv_lba_ok g lo hi (y_lba y);
  ni_log : exists cmds, un_log (p_os (y_proc y)) = log0 ++ cmds /\ Forall (nv_cmd_ok g qid lo hi buf) cmds
}.

Lemma plan_even h n k : h `mod` 2 = 0 -> ((h + 2 * n * k) `mod` 256) `mod` 2 = 0.
Proof. intros Hh. Z.to_euclidean_division_equations; lia. Qed.

(** A round of either thread returns, and its result keeps the invariant. *)
Lemma net_round_inv g fd qid lo hi ring buf pp log0 y seen :
  length pp = 256%nat -> nv_inv g qid lo hi ring buf log0 y -> y_net y = InRound seen ->
  exists x p, nvgen_netmap_round g fd ring (slot_addrs buf) pp seen (y_proc y) = Ret (x, p) /\
    nv_inv g qid lo hi ring buf log0 (net_done x p y).
Proof.
  intros Hl [Hri Hn Hd (r0 & Hr & Hwf) Hlba Hlog] Es. specialize (Hn _ Es) as Hi.
  pose proof (nvgen_netmap_round_eq g fd ring buf pp seen r0 (y_proc y) Hi Hl Hr Hwf) as E.
  destruct (ring_read_avail seen <? 2); [exists Skip, (y_proc y); split; [done|]; constructor; simpl; eauto; done|].
  destruct E as (ret & r1 & w1 & s1 & Esy & Hwf1 & _ & Hr1 & Ho & Hw & E). cbv zeta in E.
  assert (un_log (p_os s1) = un_log (p_os (y_proc y))) as Elog
    by (pose proof (txsync_log fd r0 (p_os (y_proc y))) as T; rewrite Esy in T; simpl in T; by rewrite Hw).
  destruct (ret <? 0) eqn:Eret; [|destruct (_ =? 0) eqn:E0]; eexists _, _; (split; [exact E|]).
  1, 2: constructor; simpl; eauto; try done; by rewrite Elog.
  set (space := (r_tail r1 - r_head r1) `mod` r_num_slots r1) in *. pose proof Hwf1 as [_ Hnum Hh1 _].
  assert (0 <= space < r_num_slots r1) as Hsp by (apply Z.mod_pos_bound; lia).
  assert (0 <= nv_count g seen space <= space) as Hk
    by (apply nv_count_range; [lia|]; rewrite read_avail_eq; apply u32_range).
  destruct Hri as [Hh He Ht Hm]. constructor; simpl; eauto; try done.
  - constructor; simpl; try done. apply Z.mod_pos_bound. lia.
  - rewrite lookup_insert_eq. eexists. split; [done|].
    edestruct (filled_spec (nv_items buf pp w1 (nr_tail seen) (Z.to_nat (nv_count g seen space))) r1 (r_head r1))
      as (F2 & Fwf & [Fs _] & _); [done|done|rewrite nv_items_length; lia|].
    apply ring_wf_indices; [done|]. rewrite F2, Fs. by apply ring_index_range.
  - by rewrite Elog.
Qed.

Lemma dev_round_inv g qid lo hi ring buf log0 y seen rnd :
  nv_walk_ok g lo hi -> (forall b, 0 <= rnd b < 2 ^ 31) ->
  nv_inv g qid lo hi ring buf log0 y -> y_dev y = InRound seen ->
  exists x p,
    nvgen_unvme_round g qid lo hi (slot_addrs buf) rnd seen (y_lba y) (y_nbytes y) (y_proc y) = Ret (x, p) /\
    nv_inv g qid lo hi ring buf log0 (dev_done x p y).
Proof.
  intros Hw Hrnd [Hri Hn Hd Hnm Hlba (cmds & El & Hok)] Es. specialize (Hd _ Es) as Hi.
  destruct (nvgen_unvme_round_eq g qid lo hi buf rnd seen (y_lba y) (y_nbytes y) (y_proc y))
    as (x & s' & cs & E & (w & -> & Ew) & Hcs & Hx); try done.
  exists x, (with_os w (y_proc y)). split; [done|].
  assert (exists cmds', un_log w = log0 ++ cmds' /\ Forall (nv_cmd_ok g qid lo hi buf) cmds') as Hlog.
  { exists (cmds ++ cs). split; [by rewrite Ew, El, app_assoc|by apply Forall_app]. }
  destruct (ring_write_avail seen <? 2).
  - subst x. constructor; simpl; eauto; done.
  - destruct Hx as (lba' & nb & -> & Hl'). destruct Hri as [Hh He Ht Hm].
    constructor; simpl; eauto; try done.
    constructor; simpl; try done; [apply Z.mod_pos_bound; lia|]. apply plan_even, Hi.
Qed.

Lemma drain_inv g fd qid lo hi ring buf log0 y :
  nv_inv g qid lo hi ring buf log0 y -> y_net y = Draining ->
  exists x p, nmgen_drain fd ring () (y_proc y) = Ret (x, p) /\
    nv_inv g qid lo hi ring buf log0
      (set_net (match x with inl _ => Draining | inr _ => Ended end) (set_proc p y)).
Proof.
  intros [Hri Hn Hd (r & Hr & Hwf) Hlba Hlog] Es. unfold nmgen_drain.
  rewrite (bind_ret _ _ _ _ _ (load_ring_Some _ _ _ Hr)). destruct (nm_tx_pending r).
  - unfold nioctxsync. destruct (sync_returns (sys_txsync fd) ring r (y_proc y) Hr)
      as (ret & r1 & w1 & s1 & E1 & Ey & Hr1 & _ & Hw1).
    pose proof (nm_txsync_spec fd r (p_os (y_proc y))) as Hsync. rewrite E1 in Hsync.
    destruct Hsync as (_ & Hwf1 & _). destruct Hwf as [Hn1 Hn2 _ _]. specialize (Hwf1 Hn1 Hn2).
    pose proof (txsync_log fd r (p_os (y_proc y))) as Ht. rewrite E1 in Ht. simpl in Ht.
    rewrite (bind_ret _ _ _ _ _ Ey). exists (inl ()), s1. split; [done|].
    constructor; simpl; eauto; try done. by rewrite Hw1, Ht.
  - exists (inr ()), (y_proc y). split; [done|]. constructor; simpl; eauto; done.
Qed.

Lemma nv_step_inv g fd qid lo hi ring buf pp log0 y e y' :
  nv_walk_ok g lo hi -> length pp = 256%nat -> nv_inv g qid lo hi ring buf log0 y ->
  nv_step g fd qid lo hi ring buf pp y e y' -> nv_inv g qid lo hi ring buf log0 y'.
Proof.
  intros Hw Hl Hy Hst. pose proof Hy as [Hri Hn Hd Hnm Hlba Hlog]. destruct Hst as [Et|seen x p Es E|Et|x p Es E|Et|seen rnd x p Es Hr E|Et].
  - constructor; simpl; eauto. by intros ? [= <-].
  - destruct (net_round_inv g fd qid lo hi ring buf pp log0 y seen) as (x' & p' & E' & Hy'); try done.
    rewrite E in E'. by injection E' as <- <-.
  - constructor; simpl; eauto; done.
  - destruct (drain_inv g fd qid lo hi ring buf log0 y Hy Es) as (x' & p' & E' & Hy').
    rewrite E in E'. by injection E' as <- <-.
  - constructor; simpl; eauto. by intros ? [= <-].
  - destruct (dev_round_inv g qid lo hi ring buf log0 y seen rnd) as (x' & p' & E' & Hy'); try done.
    rewrite E in E'. by injection E' as <- <-.
  - constructor; simpl; eauto; done.
Qed.

(** The two threads when they are started; [lba] is an [unsigned int]. *)
Definition nv_start (lo : Z) s : nvsys := NvSys s nvgen_ring_init (u32 lo) 0 0 0 Top Top.

Lemma nv_start_inv g qid lo hi ring buf r s :
  nv_walk_ok g lo hi -> p_rings s !! ring = Some r -> ring_wf r ->
  nv_inv g qid lo hi ring buf (un_log (p_os s)) (nv_start lo s).
Proof.
  intros (Hlo & Hhi & Hw) Hr Hwf. constructor; simpl; try done; [by exists r| |].
  - split; [apply u32_range|]. intros Ew. destruct Hw as [[? _]|[_ Hw]]; [lia|].
    rewrite u32_small by lia. unfold in_range. lia.
  - exists []. by rewrite app_nil_r.
Qed.

(** ** Properties *)


(** C27: a round of nvgen's netmap thread does nothing while fewer than two
    packets seem to wait; otherwise it syncs, stops when the sync fails, and
    posts k packets, no more than there is space and than a batch, from [head]
    on: they are the ring's slots from [tail] on, in order and around its end,
    each with its own address and the length in its descriptor; no other netmap
    slot changes and [tail] advances by k.  While the waiting packets lie in one
    piece only packets that were read from the disk are posted; once [head] has
    wrapped around, the number that waits is ignored. *)
Theorem nvgen_round_posts g fd ring buf pp nvr r0 s :
  idx_ok nvr -> length pp = 256%nat -> p_rings s !! ring = Some r0 -> ring_wf r0 ->
  let round := nvgen_netmap_round g fd ring (slot_addrs buf) pp nvr s in
  (ring_read_avail nvr < 2 -> round = Ret (Skip, s)) /\
  (2 <= ring_read_avail nvr ->
     exists ret r1 w1, sys_txsync fd r0 (p_os s) = ((ret, r1), w1) /\
     let space := (r_tail r1 - r_head r1) `mod` r_num_slots r1 in
     (ret < 0 -> exists s', round = Ret (Stop, s')) /\
     (0 <= ret -> space = 0 -> exists s', round = Ret (Skip, s')) /\
     (0 <= ret -> 0 < space -> exists k nbits s' r2,
        round = Ret (Publish ((nr_tail nvr + k) `mod` 256, k, nbits), s') /\
        0 <= k <= space /\ k <= u32 (batch g) /\
        (unwrapped nvr -> nr_tail nvr + k <= nr_head nvr) /\
        (~ unwrapped nvr -> k = Z.min (2 * (space / 2)) (u32 (batch g))) /\
        p_rings s' !! ring = Some r2 /\ r_head r2 = ring_index r1 (r_head r1) k /\ r_tail r2 = r_tail r1 /\
        (forall i, 0 <= i < k -> exists x,
           r_slot r2 !! Z.to_nat (ring_index r1 (r_head r1) i) = Some x /\
           s_ptr x = pp !!! Z.to_nat ((nr_tail nvr + i) `mod` 256) /\
           s_len x = pkt_len w1 (slot_addr buf ((nr_tail nvr + i) `mod` 256)) /\
           Z.land (s_flags x) NS_PHY_INDIRECT = NS_PHY_INDIRECT) /\
        (forall i, k <= i < r_num_slots r1 ->
           r_slot r2 !! Z.to_nat (ring_index r1 (r_head r1) i)
           = r_slot r1 !! Z.to_nat (ring_index r1 (r_head r1) i)))).
Proof.
  intros Hi Hl Hr Hwf. pose proof (nvgen_netmap_round_eq g fd ring buf pp nvr r0 s Hi Hl Hr Hwf) as E. cbv zeta.
  destruct (Z.ltb_spec (ring_read_avail nvr) 2) as [Hlt|Hge]; (split; [intros; lia || done|]); [lia|].
  intros _. destruct E as (ret & r1 & w1 & s1 & Esy & Hwf1 & _ & Hr1 & Ho & Hw & E). cbv zeta in E.
  exists ret, r1, w1. split; [done|]. set (space := (r_tail r1 - r_head r1) `mod` r_num_slots r1) in *.
  pose proof Hwf1 as [_ Hnum Hh1 _].
  assert (0 <= space < r_num_slots r1) as Hsp by (apply Z.mod_pos_bound; lia). rewrite E.
  split_and!; [intros Hn; rewrite (proj2 (Z.ltb_lt ret 0)) by lia; eauto
    |intros Hn E0; rewrite (proj2 (Z.ltb_ge ret 0)), E0 by lia; eauto|].
  intros Hn Hsp0. rewrite (proj2 (Z.ltb_ge ret 0)), (proj2 (Z.eqb_neq space 0)) by lia.
  set (k := nv_count g nvr space) in *.
  assert (0 <= k <= space) as Hk by (apply nv_count_range; lia).
  edestruct (filled_spec (nv_items buf pp w1 (nr_tail nvr) (Z.to_nat k)) r1 (r_head r1))
    as (F2 & Fwf & [Fs _] & _ & Ft & Fin & Fout); [done|done|rewrite nv_items_length; lia|].
  rewrite nv_items_length, Z2Nat.id in * by lia.
  assert (2 * (space / 2) <= space) as Hev by (Z.to_euclidean_division_equations; lia).
  destruct Hi as [Hh He Ht Hm]. pose proof (u32_range (batch g)).
  assert (k <= u32 (batch g) /\ k <= ring_read_avail nvr /\
    (space < ring_read_avail nvr -> k = Z.min (2 * (space / 2)) (u32 (batch g)))) as (Hk1 & Hk2 & Hk3).
  { unfold k, nv_count. destruct (Z.ltb_spec (u32 (batch g)) (2 * (space / 2)));
      match goal with |- context [?a <? ?b] => destruct (Z.ltb_spec a b) end; lia. }
  eexists k, _, _, _. rewrite (u64_small k) by lia. split; [done|]. split; [done|]. split; [done|].
  rewrite read_avail_eq in Hk2, Hk3. unfold unwrapped. split; [intros Hu; rewrite u32_small in Hk2; lia|].
  split; [intros Hu; apply Hk3; clear -Hu Hh Ht Hsp Hnum; wrap_lia|].
  split; [apply lookup_insert_eq|]. split; [exact F2|]. split; [exact Ft|]. split; [|exact Fout].
  intros i Hi'. destruct (Fin (Z.to_nat i) (pp !!! Z.to_nat ((nr_tail nvr + i) `mod` 256))
    (pkt_len w1 (slot_addr buf ((nr_tail nvr + i) `mod` 256)))) as (x & _ & Hx).
  { rewrite nv_items_lookup by lia. by rewrite Z2Nat.id by lia. }
  rewrite Z2Nat.id in Hx by lia. eexists. split; [exact Hx|]. split; [done|]. split; [|apply flag_set].
  simpl. unfold pkt_len. apply u16_small, u16_range.
Qed.

(** C38: with 128 or more blocks per round, which -B accepts up to 128, nvgen
    never sends a packet: a round on the empty ring reads into all 256 slots,
    [head] comes back to 0 and the ring still looks empty.  However the steps of
    the two threads interleave, the packet counter stays 0. *)
Theorem nvgen_full_round_starves g fd qid lo hi ring buf pp s es y :
  nv_walk_ok g lo hi -> 128 <= nvbatch g < 2 ^ 31 ->
  steps (nv_step g fd qid lo hi ring buf pp) (nv_start lo s) es y ->
  y_npkts y = 0 /\ y_nbits y = 0 /\ ring_empty (y_ring y) = true.
Proof.
  intros Hw Hnb Hst.
  assert (y_ring y = nvgen_ring_init /\ y_npkts y = 0 /\ y_nbits y = 0 /\
    (forall seen, y_net y = InRound seen -> seen = nvgen_ring_init) /\
    (forall seen, y_dev y = InRound seen -> seen = nvgen_ring_init) /\ nv_lba_ok g lo hi (y_lba y))
    as (E1 & E2 & E3 & _); [|by rewrite E1].
  revert Hst. apply (steps_invariant _ (fun y => y_ring y = nvgen_ring_init /\ y_npkts y = 0 /\ y_nbits y = 0 /\
    (forall seen, y_net y = InRound seen -> seen = nvgen_ring_init) /\
    (forall seen, y_dev y = InRound seen -> seen = nvgen_ring_init) /\ nv_lba_ok g lo hi (y_lba y))).
  - intros y1 e y2 (E1 & E2 & E3 & Hn & Hd & Hlba) Hs.
    destruct Hs as [Et|seen x p Es E|Et|x p Es E|Et|seen rnd x p Es Hr E|Et].
    + simpl. split_and!; try done; [by rewrite E1; intros ? [= <-]|apply Hlba..].
    + rewrite (Hn _ Es) in E. injection E as <- <-. split_and!; simpl; try done; apply Hlba.
    + simpl. split_and!; try done; apply Hlba.
    + simpl. split_and!; try done; [by destruct x|apply Hlba..].
    + simpl. split_and!; try done; [by rewrite E1; intros ? [= <-]|apply Hlba..].
    + rewrite (Hd _ Es) in E. clear seen Es.
      destruct (nvgen_unvme_round_eq g qid lo hi buf rnd nvgen_ring_init (y_lba y1) (y_nbytes y1) (y_proc y1))
        as (x' & s' & cs & E' & _ & _ & Hx); [done|by constructor|done|done|].
      rewrite E in E'. injection E' as <- <-. change (ring_write_avail nvgen_ring_init <? 2) with false in Hx.
      destruct Hx as (lba' & nb & -> & Hl').
      assert ((nr_head nvgen_ring_init + 2 * (nv_plan g nvgen_ring_init).1 * (nv_plan g nvgen_ring_init).2) `mod` 256 = 0)
        as -> .
      { unfold nv_plan. change (Z.shiftr (make_even (ring_write_avail nvgen_ring_init)) 1) with 128.
        rewrite (u32_small (nvbatch g)) by lia. replace (nvbatch g <? 128) with false by lia.
        by destruct (walk g =? 0). }
      simpl. rewrite E1. split_and!; try done; apply Hl'.
    + simpl. split_and!; try done; apply Hlba.
  - destruct (nv_start_inv g qid lo hi ring buf (NmRing 1 0 0 0 0 [NmSlot 0 0 0])
      (put_ring ring (NmRing 1 0 0 0 0 [NmSlot 0 0 0]) s)) as [_ _ _ _ Hlba _];
      [done|apply lookup_insert_eq|by constructor|]. simpl in *. split_and!; try done; apply Hlba.
Qed.

(** In sequential mode nvgen reads all blocks of a round with one
    command, from the slot at [head] on.  The command ends inside the buffer
    exactly when the slots it fills do not wrap around the ring; with 128 blocks
    per round it runs over the end of the buffer, into memory of another thread,
    whenever data lies in one piece and three slots have been sent. *)
Theorem nvgen_seq_overruns g qid lo hi buf rnd nvr lba nbytes s :
  nv_walk_ok g lo hi -> walk g = 0 -> idx_ok nvr -> (forall b, 0 <= rnd b < 2 ^ 31) ->
  2 <= ring_write_avail nvr -> 0 <= buf -> buf + 2048 * 512 < 2 ^ 64 ->
  exists c x s', nvgen_unvme_round g qid lo hi (slot_addrs buf) rnd nvr lba nbytes s = Ret (x, s') /\
    un_log (p_os s') = un_log (p_os s) ++ [c] /\
    io_lba c = lba /\ io_nblocks c = Z.min (u32 (nvbatch g)) (ring_write_avail nvr / 2) /\
    io_buf c = buf + 2048 * nr_head nvr /\
    (io_buf c + 4096 * io_nblocks c <= buf + 2048 * 256 <-> nr_head nvr + 2 * io_nblocks c <= 256) /\
    (128 <= nvbatch g < 2 ^ 31 -> nr_tail nvr < nr_head nvr -> 3 <= nr_tail nvr ->
       buf + 2048 * 256 < io_buf c + 4096 * io_nblocks c).
Proof.
  intros Hw Ew Hi Hrnd Ha Hb1 Hb2. pose proof Hi as [Hh He Ht Hm].
  assert (ring_write_avail nvr <= 256) as Hle.
  { rewrite write_avail_eq by done. destruct (_ =? _) eqn:X1; [lia|]. destruct (_ <? _) eqn:X2; lia. }
  set (n := Z.min (u32 (nvbatch g)) (ring_write_avail nvr / 2)).
  assert (nv_plan g nvr = (n, 1)) as Ep.
  { unfold nv_plan. rewrite Ew, make_even_spec, Z.shiftr_div_pow2 by lia. change (2 ^ 1) with 2.
    rewrite (Z.mul_comm 2), Z.div_mul by lia. simpl. f_equal. unfold n.
    destruct (Z.ltb_spec (u32 (nvbatch g)) (ring_write_avail nvr / 2)); lia. }
  destruct (nv_plan_range g nvr Hi Ha) as (Hn & _). rewrite Ep in Hn. cbn [fst] in Hn.
  destruct (nvgen_read_cmd_eq g qid lo hi buf rnd nvr n 0 (nr_head nvr) lba [] s)
    as (lba' & d & s1 & E1 & (w1 & -> & El) & _); try done; [rewrite Ew; discriminate|].
  destruct (nvgen_poll_step [d] n (with_os w1 s) 0 [] nbytes (with_os w1 s)) as (nb' & s2 & E2 & _ & (w2 & -> & El2)).
  { split; [by repeat constructor|apply dev_only_refl]. }
  exists (Io false qid (slot_addr buf (nr_head nvr)) lba n). eexists _, _. split; [|split_and!; try done].
  - unfold nvgen_unvme_round. replace (_ <? 2) with false by lia.
    replace (negb _ && negb _) with false by (by rewrite Ew).
    change (if walk g =? Nvgen.WALK_MODE_SEQ then _ else _) with (nv_plan g nvr). rewrite Ep.
    change (seqZ 0 1) with [0]. cbn [for_each]. rewrite bind_assoc.
    rewrite (bind_ret _ _ _ _ _ E1). unfold mbind at 1, M_bind at 1. unfold mret at 1, M_ret at 1.
    rewrite bind_assoc. rewrite app_nil_l, (bind_ret _ _ _ _ _ E2). done.
  - simpl in *. by rewrite El2, app_nil_r.
  - simpl. unfold slot_addr. rewrite u64_small; lia.
  - simpl. unfold slot_addr. rewrite u64_small by lia. lia.
  - intros Hnb Hu Ht3. simpl. unfold slot_addr. rewrite u64_small by lia.
    assert (n = ring_write_avail nvr / 2) as En.
    { unfold n. rewrite u32_small by lia. apply Z.min_r. apply Z.div_le_upper_bound; lia. }
    rewrite write_avail_eq in En by done. replace (nr_tail nvr =? nr_head nvr) with false in En by lia.
    replace (nr_tail nvr <? nr_head nvr) with true in En by lia.
    Z.to_euclidean_division_equations; lia.
Qed.

(** The table of physical addresses. *)
Lemma nvgen_pkts_phy_eq lm m buf s :
  p_mems s !! lm = Some m ->
  nvgen_pkts_phy lm buf s = Ret ((fun n => virt_to_phys_in m (slot_addr buf n)) <$> seqZ 0 SLOT_NUM, s).
Proof.
  intros Hm. unfold nvgen_pkts_phy.
  assert (forall l acc, for_each l (fun n pkts_phy =>
    pa ← pop_virt_to_phys lm (slot_addr buf n); mret (pkts_phy ++ [pa])) acc s =
    Ret (acc ++ ((fun n => virt_to_phys_in m (slot_addr buf n)) <$> l), s)) as E; [|apply E].
  induction l as [|n l IH]; intros acc; [simpl; by rewrite app_nil_r|].
  assert (pop_virt_to_phys lm (slot_addr buf n) s = Ret (virt_to_phys_in m (slot_addr buf n), s)) as Ev.
  { unfold pop_virt_to_phys. by rewrite (bind_ret _ _ _ _ _ (load_mem_Some _ _ _ Hm)). }
  cbn [for_each]. rewrite bind_assoc, (bind_ret _ _ _ _ _ Ev).
  etransitivity; [apply IH|]. by rewrite <- app_assoc.
Qed.

(** Starting a queue of nvgen: with 128 pages left in the pop memory the
    queue gets a buffer of 256 slots inside the mapping, an empty ring, its own
    part of the blocks, and the table of the slots' physical addresses, which
    are as far apart as the slots; otherwise the call returns -1 with [errno]
    set and nothing is allocated. *)
Theorem nvgen_queue_starts g lm cpu th0 m s :
  0 <= cpu < ncpus g -> ncpus g < 2 ^ 31 -> 0 <= lba_end g < 2 ^ 62 ->
  p_mems s !! lm = Some m -> mem_ok m -> m_mutex m = false -> m_size m = m_num_pages m * 4096 -> p_oom s = [] ->
  let q := lba_end g / ncpus g in
  if 128 <=? m_num_pages m - m_alloced_pages m then
    exists th s' pp, nvgen_init_thread_body g lm cpu th0 s = Ret ((0, th), s') /\
      th_lba_start th = q * cpu /\ th_lba_end th = q * (cpu + 1) /\ q * (cpu + 1) <= lba_end g /\
      th_ring th = nvgen_ring_init /\ m_mem m <= th_buf th /\
      th_buf th + 2048 * 256 <= m_mem m + m_num_pages m * 4096 /\ p_rings s' = p_rings s /\
      nvgen_pkts_phy lm (th_buf th) s' = Ret (pp, s') /\ length pp = 256%nat /\
      forall n, 0 <= n < 256 ->
        pp !! Z.to_nat n = Some (m_paddr m + (th_buf th - m_mem m) + 2048 * n)
  else exists th, nvgen_init_thread_body g lm cpu th0 s = Ret ((-1, th), with_errno ENOBUFS s).
Proof.
  intros Hc Hn Hl Hm Hok Hmu Hsz Ho q. unfold nvgen_init_thread_body.
  rewrite nvgen_range_part by lia. unfold lift. unfold mbind at 1, M_bind at 1.
  pose proof (part_bounds (lba_end g) (ncpus g) cpu) as Hpb. unfold part in *; cbn [fst snd] in *. fold q in Hpb |- *.
  change (2048 * SLOT_NUM) with 524288. pose proof Hok as [Hk1 Hk2 Hk3 Hk4].
  destruct (Z.leb_spec 128 (m_num_pages m - m_alloced_pages m)) as [Hroom|Hroom].
  - destruct (alloc_put lm m 524288 s) as [Ea [v Ev]]; [done..|lia|exact Hroom|done|].
    set (s2 := full_state lm m 524288 s) in *. set (b := full_buf lm m 524288) in *.
    assert (buf_data b = m_mem m + m_alloced_pages m * 4096) as Eb by (unfold buf_data, b; simpl; unwrap; lia).
    exists (NvThread (q * cpu) (q * (cpu + 1)) nvgen_ring_init (buf_data b)), s2.
    rewrite (bind_ret _ _ _ _ _ Ea), (bind_ret _ _ _ _ _ Ev).
    set (m' := set_alloced m (m_alloced_pages m + pages_for 524288)).
    exists ((fun n => virt_to_phys_in m' (slot_addr (buf_data b) n)) <$> seqZ 0 SLOT_NUM).
    split; [|cbn [th_lba_start th_lba_end th_ring th_buf]; rewrite Eb; split_and!; try done; try lia].
    + unfold pop_buf_data. rewrite bind_assoc. erewrite bind_ret by (apply load_buf_Some, lookup_insert_eq). done.
    + rewrite <- Eb. apply nvgen_pkts_phy_eq. apply lookup_insert_eq.
    + intros n Hn'. rewrite list_lookup_fmap, lookup_seqZ_lt by (unfold SLOT_NUM; lia). simpl. f_equal.
      replace (0 + Z.of_nat (Z.to_nat n)) with n by lia. unfold slot_addr, virt_to_phys_in; simpl. unwrap.
      rewrite orb_false_intro by lia. unwrap. lia.
  - assert (pop_buf_alloc lm 524288 s = Ret (None, with_errno ENOBUFS s)) as Ea.
    { rewrite (pop_buf_alloc_eq lm 524288 s m) by (done || lia).
      change (pages_for 524288) with 128. by replace (_ <? 128) with true by lia. }
    eexists. etransitivity; [exact (bind_ret _ _ _ _ _ Ea)|]. reflexivity.
Qed.
End system.

(** ** Witnesses *)

#[export] Instance gen_apart : NvmeApart gen_os.
Proof. intros fd r w. done. Qed.

(** A pop memory of 128 pages. *)
Definition mem128 : pop_mem :=
  PopMem (-1) (lit "hugepage") (Reg 0 0 0 0 0) 0x7f0000000000 0x100000000 524288 128 0 false.
Definition nv_proc : proc gen_os :=
  Proc {[1%positive := mem128]} ∅ ∅ {[9%positive := ring4]} 2%positive [] 0 0 (GenOs (NmOs 3) ∅ []).

(** A random and a sequential configuration. *)
Definition nv_random : NvgenOpt.nvgen :=
  NvgenOpt.Nvgen None 0 1 (Some (lit "eth0")) 4 (Some (lit "18:00.0")) 8 1 0 0xF0000 0.
Definition nv_seq128 : NvgenOpt.nvgen :=
  NvgenOpt.Nvgen None 0 1 (Some (lit "eth0")) 4 (Some (lit "18:00.0")) 128 0 0 0xF0000 0.

Lemma nv_random_ok : nv_walk_ok nv_random 0 0xF0000.
Proof. split; [lia|split; [lia|right; simpl; lia]]. Defined.
Lemma nv_seq128_ok : nv_walk_ok nv_seq128 0 0xF0000.
Proof. split; [lia|split; [lia|left; simpl; lia]]. Defined.

Lemma nvgen_queue_starts_witness :
  exists th s', nvgen_init_thread_body nv_random 1%positive 0 (NvThread 0 0 nvgen_ring_init 0) nv_proc = Ret ((0, th), s')
    /\ th_buf th = 0x7f0000000000.
Proof.
  pose proof (nvgen_queue_starts nv_random 1%positive 0 (NvThread 0 0 nvgen_ring_init 0) mem128 nv_proc) as E.
  destruct E as (th & s' & pp & E & _); [simpl; lia|simpl; lia|simpl; lia|reflexivity|apply mem_okb_ok; reflexivity
    |reflexivity|reflexivity|reflexivity|].
  exists th, s'. split; [exact E|]. vm_compute in E. by injection E as <- _.
Defined.


Lemma nvgen_round_posts_witness :
  exists x s', nvgen_netmap_round nv_random 7 9%positive (slot_addrs 0x7f0000000000) (replicate 256 0)
    (NvRing 4 0 255) nv_proc = Ret (Publish x, s').
Proof.
  destruct (nvgen_round_posts nv_random 7 9%positive 0x7f0000000000 (replicate 256 0) (NvRing 4 0 255) ring4 nv_proc)
    as [_ Hp]; [constructor; simpl; done || lia|reflexivity|reflexivity|exact ring4_wf|].
  destruct Hp as (ret & r1 & w1 & E & _ & _ & Hp); [vm_compute; discriminate|].
  vm_compute in E. injection E as <- <- <-.
  destruct Hp as (k & nbits & s' & r2 & Hp & _); [lia|reflexivity|]. eexists _, s'. exact Hp.
Defined.

Lemma nvgen_full_round_starves_witness :
  exists y, steps (nv_step nv_seq128 7 0 0 0xF0000 9%positive 0x7f0000000000 (replicate 256 0)) (nv_start 0 nv_proc)
    (([] ++ [DevLook]) ++ [DevRun (fun _ => 0)]) y /\ y_nbytes y = 524288 /\ y_npkts y = 0.
Proof.
  destruct (nvgen_unvme_round nv_seq128 0 0 0xF0000 (slot_addrs 0x7f0000000000) (fun _ => 0) nvgen_ring_init 0 0 nv_proc)
    as [[x p]| |] eqn:E; [|vm_compute in E; discriminate E..].
  assert (steps (nv_step nv_seq128 7 0 0 0xF0000 9%positive 0x7f0000000000 (replicate 256 0)) (nv_start 0 nv_proc)
    (([] ++ [DevLook]) ++ [DevRun (fun _ => 0)])
    (dev_done x p (set_dev (InRound nvgen_ring_init) (nv_start 0 nv_proc)))) as Hst.
  { eapply steps_snoc; [eapply steps_snoc; [apply steps_nil|]|].
    - by apply (dev_look _ _ _ _ _ _ _ _ (nv_start 0 nv_proc)).
    - apply (dev_run _ _ _ _ _ _ _ _ _ nvgen_ring_init); [reflexivity|lia|exact E]. }
  eexists. split; [exact Hst|]. split.
  - vm_compute in E. by injection E as <- <-.
  - eapply (nvgen_full_round_starves nv_seq128); [exact nv_seq128_ok|simpl; lia|exact Hst].
Defined.

Lemma nvgen_seq_overruns_witness :
  exists c, 0x7f0000000000 + 2048 * 256 < io_buf c + 4096 * io_nblocks c.
Proof.
  destruct (nvgen_seq_overruns nv_seq128 0 0 0xF0000 0x7f0000000000 (fun _ => 0) (NvRing 200 100 255) 0 0 nv_proc)
    as (c & x & s' & _ & _ & _ & _ & _ & _ & Hc);
    [exact nv_seq128_ok|reflexivity|constructor; simpl; done || lia|lia|vm_compute; discriminate|lia|lia|].
  exists c. apply Hc; simpl; lia.
Defined.
