(* ===== verification/Store.v ===== *)
(** * apps/store.c: packets on a disk

    [main] of apps/store.c after its options (Options.v): it builds [batch]
    packets (Packet.v) in a pop buffer and writes the buffer to the disk, from
    [lba_start] on, until [lba_end].  What the disk holds is part of the outside
    world: [Disk] states that a write that succeeds leaves the bytes of memory
    on the blocks.  The progress output is not modelled. *)

From S2P Require Import Prelude CStr LibpopH PopBuf PopMem Netmap Unvme Packet Options TxRing PopMemProps.

Import StoreOpt.

(** ** The program *)

Section store.
Context {W : Type} `{Posix W} `{Ram W} `{Unvme W}.
Implicit Type c : store.

(** The body of [for (b = 0; b < batch; b++)]. *)
Definition store_pkt c (pbuf : loc) (lba b : Z) (u : ()) : M (proc W) () :=
  data ← pop_buf_data pbuf;
  build_at pbuf (data + 2048 * b) (store_build_pkt (pktlen c) (u32 (lba +64 b))).

(** The body of [for (lba = lba_start; lba < lba_end; lba += nblocks)]. *)
Definition store_round c (pbuf : loc) (nblocks lba : Z) : M (proc W) (Z + Z) :=
  if lba <? lba_end c then
    _ ← for_each (seqZ 0 (batch c)) (store_pkt c pbuf lba) ();
    data ← pop_buf_data pbuf;
    ret ← os_call (unvme_write 0 data lba nblocks);
    if negb (ret =? 0) then mret (inr (-1)) else mret (inl (lba +64 u64 nblocks))
  else mret (inr 0).

(** From [int buflen = 2048 * batch] on.  Neither [mem] nor [pbuf] is checked. *)
Definition store_body c (mem : option loc) : M (proc W) Z :=
  buflen ← c_int (2048 * batch c);
  let nblocks := Z.shiftr buflen (un_blockshift W) in
  let bytes := u64 (Z.shiftl nblocks (un_blockshift W)) in
  lm ← require NullDeref mem;
  pbuf ← pop_buf_alloc lm bytes;
  l ← require NullDeref pbuf;
  _ ← pop_buf_put l bytes;
  while_ (store_round c l nblocks) (lba_start c).

Definition store_main c : M (proc W) Z :=
  ok ← os_call (unvme_open (nvme c));
  if negb ok then mret (-1)
  else
    mem ← pop_mem_init None 0;
    _ ← os_call (unvme_register_pop_mem mem);
    store_body c mem.
End store.

(** ** What a disk is *)

(** The contents of a block; blocks of [n] bytes from [a] on. *)
Class Disk (W : Type) `{Unvme W} `{Ram W} : Type := {
  disk_block : W -> Z -> bytes;
  disk_write q buf lba n w x :
    let '(ret, w') := unvme_write q buf lba n w in
    ret = 0 ->
    disk_block w' x = if (lba <=? x) && (x <? lba + n)
                      then ram_read (buf + (x - lba) * un_blocksize W) (Z.to_nat (un_blocksize W)) w
                      else disk_block w x;
  disk_write_ram q buf lba n w a k : ram_read a k (unvme_write q buf lba n w).2 = ram_read a k w;
  disk_ram a l w x : disk_block (ram_write a l w) x = disk_block w x
}.

(** [n] blocks of the disk from [lba] on. *)
Definition disk_read {W : Type} `{Disk W} (w : W) (lba n : Z) : bytes :=
  mjoin (disk_block w <$> seqZ lba n).

(** A slot of 2048 bytes that holds a packet of [len] bytes with this id: the
    headers, zeros up to the length, and the length in the descriptor. *)
Definition stored (len id : Z) (slot : bytes) : Prop :=
  length slot = 2048%nat /\ get_pktlen 2048 slot = len /\
  take (Z.to_nat len) slot =
    headers (replicate 6 0xff) (replicate 6 0)
      (ip_header 0 (len - 14) 16 ip_10_0_0_2 ip_10_0_0_1)
      (be16 id) (be16 60000) (be16 (len - 14 - 20)) ++ replicate (Z.to_nat len - 42) 0.

Lemma store_build_stored len id b :
  64 <= len <= 1500 -> (2048 <= length b)%nat ->
  exists b', store_build_pkt len id b = Ret ((), b') /\ length b' = length b /\ stored len id (take 2048 b').
Proof.
  intros Hl Hb. pose proof (store_build_eq (Z.to_nat len) id b) as E. rewrite Z2Nat.id in E by lia.
  rewrite E by lia. eexists. split; [done|]. unfold stored.
  set (hdr := headers _ _ _ _ _ _). assert (length hdr = 42%nat) as Hh by done. clearbody hdr.
  assert (length (le32 len) = 4%nat) as H4 by done.
  set (pkt := hdr ++ replicate (Z.to_nat len - 42) 0).
  assert (length pkt = Z.to_nat len) as Hp by (unfold pkt; rewrite length_app, length_replicate, Hh; lia).
  set (slot := pkt ++ take (2044 - Z.to_nat len) (drop (Z.to_nat len) b) ++ le32 len).
  assert (length slot = 2048%nat) as Hs
    by (unfold slot; rewrite !length_app, length_take, length_drop, Hp, H4; lia).
  assert (hdr ++ replicate (Z.to_nat len - 42) 0 ++ take (2044 - Z.to_nat len) (drop (Z.to_nat len) b)
    ++ le32 len ++ drop 2048 b = slot ++ drop 2048 b) as ->
    by (unfold slot, pkt; by rewrite <- !app_assoc).
  rewrite (take_app_length' slot) by done. split; [rewrite length_app, length_drop, Hs; lia|]. split_and!.
  - done.
  - unfold get_pktlen, get_pkt_desc, slot. change (Z.to_nat (2048 - 4)) with 2044%nat.
    rewrite app_assoc, drop_app_length' by (rewrite length_app, length_take, length_drop, Hp; lia).
    change (take 4 (le32 len)) with (le32 len). apply le_val_le32. lia.
  - unfold slot. by rewrite take_app_length'.
Qed.

(** ** Memory and blocks *)

Section memory.
Context {W : Type} `{RamOk W}.

Lemma ram_read_slice a k off n (w : W) :
  (off + n <= k)%nat -> take n (drop off (ram_read a k w)) = ram_read (a + Z.of_nat off) n w.
Proof.
  intros Hk. replace k with (off + (n + (k - off - n)))%nat by lia. rewrite ram_read_app.
  rewrite drop_app_length' by (by rewrite ram_read_length). rewrite ram_read_app.
  by rewrite take_app_length' by (by rewrite ram_read_length).
Qed.

Lemma ram_read_blocks a lba bs n (w : W) :
  0 <= bs ->
  mjoin ((fun x => ram_read (a + (x - lba) * bs) (Z.to_nat bs) w) <$> seqZ lba (Z.of_nat n))
  = ram_read a (n * Z.to_nat bs) w.
Proof.
  intros Hbs. induction n as [|n IH].
  - simpl. pose proof (ram_read_length a 0 w) as Hl. by destruct (ram_read a 0 w).
  - rewrite seqZ_S, fmap_app, join_app, IH. simpl. rewrite app_nil_r.
    replace (Z.to_nat bs + n * Z.to_nat bs)%nat with (n * Z.to_nat bs + Z.to_nat bs)%nat by lia.
    rewrite ram_read_app. do 2 f_equal. lia.
Qed.
End memory.

Section store_lemmas.
Context {W : Type} `{Posix W} `{RamOk W} `{UnvmeOk W} `{!Disk W}.
Variables (c : store) (l : loc) (pb : pop_buf) (data : Z).
Hypothesis Hlen : 64 <= pktlen c <= 1500.
Hypothesis Hdata : buf_data pb = data.
Implicit Type s : proc W.

(** What the inner loop has done after [n] packets. *)
Definition filled_slots (lba : Z) (n : nat) (w w' : W) : Prop :=
  (forall b, (b < n)%nat ->
     stored (pktlen c) (u32 (lba +64 Z.of_nat b)) (ram_read (data + 2048 * Z.of_nat b) 2048 w')) /\
  (forall x, disk_block w' x = disk_block w x).

(** One packet: it is built when its slot is in the buffer, and only then. *)
Lemma store_pkt_eq lba b s :
  p_bufs s !! l = Some pb ->
  let a := data + 2048 * b in
  let room := Z.to_nat (b_vaddr pb + b_size pb - a) in
  (a + 2048 <= b_vaddr pb + b_size pb ->
     exists b', store_pkt c l lba b () s = Ret ((), with_os (ram_write a b' (p_os s)) s) /\
       length b' = room /\ stored (pktlen c) (u32 (lba +64 b)) (take 2048 b')) /\
  (b_vaddr pb + b_size pb < a + 2048 -> store_pkt c l lba b () s = Fault OutOfBounds).
Proof.
  intros Hb a room.
  assert (store_pkt c l lba b () s = at_mem a room (store_build_pkt (pktlen c) (u32 (lba +64 b))) s) as E.
  { unfold store_pkt, pop_buf_data. rewrite bind_assoc, (bind_ret _ _ _ _ _ (load_buf_Some l pb s Hb)).
    unfold mbind at 1, M_bind at 1. unfold mret, M_ret. rewrite Hdata. fold a.
    unfold build_at. by rewrite (bind_ret _ _ _ _ _ (load_buf_Some l pb s Hb)). }
  rewrite E. unfold at_mem. split; intros Hr.
  - destruct (store_build_stored (pktlen c) (u32 (lba +64 b)) (ram_read a room (p_os s)) Hlen)
      as (b' & Eb & Hl' & Hst); [rewrite ram_read_length; unfold room; lia|].
    exists b'. rewrite Eb. rewrite ram_read_length in Hl'. done.
  - pose proof (store_build_short (Z.to_nat (pktlen c)) (u32 (lba +64 b)) (ram_read a room (p_os s))) as Es.
    rewrite Z2Nat.id in Es by lia. rewrite Es; [done|lia|rewrite ram_read_length; unfold room; lia].
Qed.

Lemma store_fill lba n s :
  p_bufs s !! l = Some pb -> data + 2048 * Z.of_nat n <= b_vaddr pb + b_size pb ->
  exists w', for_each (seqZ 0 (Z.of_nat n)) (store_pkt c l lba) () s = Ret ((), with_os w' s) /\
    filled_slots lba n (p_os s) w'.
Proof.
  intros Hb. induction n as [|n IH]; intros Hroom.
  - exists (p_os s). split; [by destruct s|]. split; [lia|done].
  - destruct IH as (w1 & E1 & Hst & Hdk); [lia|].
    rewrite seqZ_S, for_each_app, (bind_ret _ _ _ _ _ E1), Z.add_0_l. cbn [for_each].
    destruct (store_pkt_eq lba (Z.of_nat n) (with_os w1 s) Hb) as [Hok _].
    destruct Hok as (b' & E2 & Hl' & Hb'); [lia|]. set (a := data + 2048 * Z.of_nat n) in *.
    rewrite (bind_ret _ _ _ _ _ E2). simpl p_os. eexists. split; [done|]. split.
    + intros b Hbn. destruct (decide (b = n)) as [->|Hne].
      * fold a. by rewrite (ram_read_take a 2048 (length b')), ram_read_same by (rewrite Hl'; lia).
      * rewrite ram_read_other by (unfold a; rewrite Hl'; lia). apply Hst. lia.
    + intros x. by rewrite disk_ram.
Qed.

(** The first slot behind the buffer ends the program. *)
Lemma store_overrun lba n k s :
  p_bufs s !! l = Some pb -> data + 2048 * Z.of_nat n = b_vaddr pb + b_size pb -> 0 < k ->
  for_each (seqZ 0 (Z.of_nat n + k)) (store_pkt c l lba) () s = Fault OutOfBounds.
Proof.
  intros Hb Hroom Hk. destruct (store_fill lba n s Hb) as (w1 & E1 & _); [lia|].
  rewrite seqZ_app, for_each_app, (bind_ret _ _ _ _ _ E1), Z.add_0_l, seqZ_cons by lia. cbn [for_each].
  apply bind_fault. destruct (store_pkt_eq lba (Z.of_nat n) (with_os w1 s) Hb) as [_ Hf]. apply Hf. lia.
Qed.

(** ** The outer loop *)

Variable nb : Z.
Hypothesis Hnb : 0 < nb.
Hypothesis Hbatch : 0 <= batch c.
Hypothesis Hfit : lba_end c + nb <= 2 ^ 64.
Hypothesis Hstart : 0 <= lba_start c.
Hypothesis Hexact : 2048 * batch c = nb * un_blocksize W.
Hypothesis Hroom : data + 2048 * batch c <= b_vaddr pb + b_size pb.

(** The slots of round [i] are on the disk. *)
Definition on_disk (i : nat) (w : W) : Prop :=
  forall b, 0 <= b < batch c ->
    let lba := lba_start c + Z.of_nat i * nb in
    stored (pktlen c) (u32 (lba +64 b))
      (take 2048 (drop (Z.to_nat (2048 * b)) (disk_read w lba nb))).

(** Commands it takes to reach [lba_end]. *)
Definition rounds : nat := Z.to_nat ((lba_end c - lba_start c + nb - 1) / nb).

(** After [n] rounds. *)
Definition rounds_done (n : nat) (w0 w : W) : Prop :=
  (forall i, (i < n)%nat -> on_disk i w) /\
  (forall x, x < lba_start c \/ lba_start c + Z.of_nat n * nb <= x -> disk_block w x = disk_block w0 x).

Lemma disk_read_same w w' lba n :
  (forall x, lba <= x < lba + n -> disk_block w' x = disk_block w x) ->
  disk_read w' lba n = disk_read w lba n.
Proof.
  intros Hx. unfold disk_read. f_equal. apply list_fmap_ext. intros i x Hi.
  apply lookup_seqZ in Hi as [-> Hi]. apply Hx. lia.
Qed.

(** The driver refused the command at [lba]. *)
Definition refused (lba : Z) : Prop := exists w, (unvme_write 0 data lba nb w).1 <> 0.

(** One round that goes on. *)
Lemma store_round_ok n w0 s :
  p_bufs s !! l = Some pb -> rounds_done n w0 (p_os s) ->
  let lba := lba_start c + Z.of_nat n * nb in
  lba < lba_end c ->
  exists r w', store_round c l nb lba s = Ret (r, with_os w' s) /\
    ((r = inr (-1) /\ refused lba) \/ (r = inl (lba_start c + Z.of_nat (S n) * nb) /\ rounds_done (S n) w0 w')).
Proof.
  intros Hb [Hdone Hout] lba Hlt. unfold store_round. replace (lba <? lba_end c) with true by lia.
  destruct (store_fill lba (Z.to_nat (batch c)) s Hb) as (w1 & E1 & Hst & Hdk); [lia|].
  rewrite Z2Nat.id in E1 by lia. rewrite (bind_ret _ _ _ _ _ E1).
  assert (pop_buf_data l (with_os w1 s) = Ret (data, with_os w1 s)) as E2.
  { unfold pop_buf_data. rewrite (bind_ret _ _ _ _ _ (load_buf_Some l pb (with_os w1 s) Hb)). by rewrite Hdata. }
  rewrite (bind_ret _ _ _ _ _ E2). unfold os_call at 1. unfold mbind, M_bind. simpl p_os.
  pose proof (disk_write 0 data lba nb w1) as Hw. pose proof (disk_write_ram 0 data lba nb w1) as Hr.
  destruct (unvme_write 0 data lba nb w1) as [ret w2] eqn:Ew. simpl in Hr.
  destruct (Z.eqb_spec ret 0) as [->|Hne]; simpl.
  2: { eexists _, w2. split; [done|]. left. split; [done|]. exists w1. by rewrite Ew. }
  assert (lba_start c + Z.of_nat (S n) * nb = lba + nb) as Enext by (unfold lba; lia).
  eexists _, w2. split; [done|]. right. rewrite Enext, (u64_small nb), u64_small by lia. split; [done|].
  assert (forall x, disk_block w2 x = if (lba <=? x) && (x <? lba + nb)
    then ram_read (data + (x - lba) * un_blocksize W) (Z.to_nat (un_blocksize W)) w1
    else disk_block (p_os s) x) as Hw'.
  { intros x. rewrite (Hw x eq_refl). by rewrite Hdk. }
  split.
  - intros i Hi. destruct (decide (i = n)) as [->|Hni].
    + intros b Hbb lba'. assert (disk_read w2 lba nb = ram_read data (Z.to_nat nb * Z.to_nat (un_blocksize W)) w1) as Er.
      { pose proof (un_block W) as [Hsh Hbs]. rewrite <- (ram_read_blocks data lba (un_blocksize W)) by lia.
        rewrite Z2Nat.id by lia. unfold disk_read. f_equal. apply list_fmap_ext. intros j x Hj.
        apply lookup_seqZ in Hj as [-> Hj]. rewrite Hw'. by replace (_ && _) with true by lia. }
      pose proof (un_block W) as [Hsh Hbs]. unfold lba'. fold lba. rewrite Er.
      rewrite ram_read_slice by nia. specialize (Hst (Z.to_nat b) ltac:(lia)).
      rewrite Z2Nat.id in Hst by lia. rewrite Z2Nat.id by lia. exact Hst.
    + intros b Hbb lba'. rewrite (disk_read_same (p_os s)); [apply (Hdone i); [lia|done]|].
      unfold lba'. intros x Hx. rewrite Hw'. assert (i < n)%nat by lia.
      replace (_ && _) with false; [done|]. symmetry. apply andb_false_iff. left. unfold lba. nia.
  - intros x Hx. rewrite Hw'. replace (_ && _) with false; [apply Hout; unfold lba in *; lia|].
    symmetry. apply andb_false_iff. unfold lba in *. lia.
Qed.

(** How the loop ends: 0 with all rounds done, or -1 with a command of the
    range that the driver refused. *)
Definition loop_result (w0 : W) (r : Z) (w' : W) : Prop :=
  (r = 0 /\ rounds_done rounds w0 w') \/
  (r = -1 /\ exists lba, lba_start c <= lba < lba_end c /\ refused lba).

(** [rounds] commands reach [lba_end], and one less does not. *)
Lemma rounds_reach :
  lba_end c <= lba_start c + Z.of_nat rounds * nb /\
  forall n, (n < rounds)%nat -> lba_start c + Z.of_nat n * nb < lba_end c.
Proof.
  unfold rounds. pose proof (Z.mod_pos_bound (lba_end c - lba_start c + nb - 1) nb Hnb).
  pose proof (Z.div_mod (lba_end c - lba_start c + nb - 1) nb ltac:(lia)). split; [nia|]. intros n Hn. nia.
Qed.

Lemma store_iter j : forall n w0 s,
  (n + j = rounds)%nat -> p_bufs s !! l = Some pb -> rounds_done n w0 (p_os s) ->
  exists r w', iter_nat (store_round c l nb) (S j) (lba_start c + Z.of_nat n * nb) s = Ret (inr r, with_os w' s) /\
    loop_result w0 r w'.
Proof.
  destruct rounds_reach as [Hreach Hbefore].
  induction j as [|j IH]; intros n w0 s Hn Hb Hd.
  - exists 0, (p_os s). replace (with_os (p_os s) s) with s by (by destruct s).
    split; [|left; split; [done|by replace rounds with n by lia]].
    apply iter_nat_inr. unfold store_round. replace n with rounds by lia.
    by replace (_ <? _) with false by lia.
  - specialize (Hbefore n ltac:(lia)).
    destruct (store_round_ok n w0 s Hb Hd Hbefore) as (r & w1 & E & [[-> Href]|[-> Hd1]]).
    + exists (-1), w1. split; [by apply iter_nat_inr|]. right. split; [done|]. eexists. split; [|exact Href]. nia.
    + destruct (IH (S n) w0 (with_os w1 s)) as (r & w2 & E2 & Hr); [lia|done|done|].
      exists r, w2. split; [|done]. by rewrite (iter_nat_inl _ _ _ _ _ _ E).
Qed.

Lemma store_loop s :
  lba_end c < 2 ^ 63 -> p_bufs s !! l = Some pb ->
  exists r w', while_ (store_round c l nb) (lba_start c) s = Ret (r, with_os w' s) /\ loop_result (p_os s) r w'.
Proof.
  intros Hend Hb. destruct (store_iter rounds 0 (p_os s) s) as (r & w' & E & Hr);
    [done|done|split; [intros i Hi; lia|done]|].
  exists r, w'. split; [|done]. rewrite Z.add_0_r in E. eapply while_exit; [exact E|].
  apply loop_fuel_le. unfold rounds.
  pose proof (Z.mul_div_le (lba_end c - lba_start c + nb - 1) nb ltac:(lia)). nia.
Qed.
End store_lemmas.

(** A power of two below a page divides a slot, one from a page on is a whole
    number of pages. *)
Lemma block_sizes k : 0 <= k -> (2 ^ k | 2048) \/ (4096 | 2 ^ k).
Proof.
  intros Hk. destruct (decide (k <= 11)).
  - left. exists (2 ^ (11 - k)). rewrite <- Z.pow_add_r by lia. by replace (11 - k + k) with 11 by lia.
  - right. exists (2 ^ (k - 12)). change 4096 with (2 ^ 12). rewrite <- Z.pow_add_r by lia. f_equal. lia.
Qed.

(** ** Properties *)

Section props.
Context {W : Type} `{Posix W} `{RamOk W} `{UnvmeOk W} `{!Disk W}.
Implicit Type s : proc W.

(** The allocation in front of the loop: a buffer of whole pages for the blocks
    of a command, whose data starts at its base. *)
Lemma store_body_alloc c lm m s :
  p_mems s !! lm = Some m -> mem_ok m -> m_mutex m = false -> p_oom s = [] ->
  0 <= batch c -> 2048 * batch c < 2 ^ 31 ->
  let nb := 2048 * batch c / un_blocksize W in
  pages_for (nb * un_blocksize W) <= m_num_pages m - m_alloced_pages m ->
  exists s2 pb, store_body c (Some lm) s = while_ (store_round c (p_next s) nb) (lba_start c) s2 /\
    p_os s2 = p_os s /\ p_bufs s2 !! p_next s = Some pb /\
    buf_data pb = b_vaddr pb /\ b_size pb = pages_for (nb * un_blocksize W) * 4096.
Proof.
  intros Hm Hok Hmu Ho Hb Hov nb Hroom. pose proof (un_block W) as [Hsh Hbs].
  assert (0 < un_blocksize W) as Hbpos by (rewrite Hbs; apply Z.pow_pos_nonneg; lia).
  assert (nb * un_blocksize W <= 2048 * batch c) as Hle
    by (unfold nb; rewrite Z.mul_comm; apply Z.mul_div_le; lia).
  assert (0 <= nb) as Hnb by (apply Z.div_pos; lia).
  assert (0 <= nb * un_blocksize W <= 2 ^ 64 - 4096) as Hrange by nia.
  unfold store_body. rewrite (bind_ret _ _ _ _ _ (c_int_ok (2048 * batch c) s ltac:(lia))). cbv zeta.
  rewrite Z.shiftr_div_pow2, <- Hbs by lia. fold nb. rewrite Z.shiftl_mul_pow2, <- Hbs by lia.
  rewrite (u64_small (nb * _)) by lia.
  rewrite (bind_ret (require NullDeref (Some lm)) _ s lm s eq_refl).
  pose proof (pop_buf_alloc_eq lm (nb * un_blocksize W) s m Hm Hok Hmu Hrange) as Ea.
  replace (_ <? _) with false in Ea by lia. rewrite Ho in Ea. rewrite (bind_ret _ _ _ _ _ Ea).
  set (s1 := alloced_state _ _ _ _ _). rewrite (bind_ret (require NullDeref (Some (p_next s))) _ s1 _ s1 eq_refl).
  set (pb := next_buf lm m (pages_for (nb * un_blocksize W))).
  assert (p_bufs s1 !! p_next s = Some pb) as Hpb by apply lookup_insert_eq.
  assert (buf_data pb = b_vaddr pb) as Ed.
  { destruct Hok as [? ? ? _]. unfold buf_data, pb. simpl. rewrite Z.add_0_r. apply u64_small. nia. }
  destruct (buf_put_window pb (nb * un_blocksize W)) as (off & len & Ew).
  assert (buf_data (buf_put pb (nb * un_blocksize W)).1 = buf_data pb) as Edata.
  { unfold buf_put. by destruct (_ <? _). }
  destruct (buf_put pb (nb * un_blocksize W)) as [pb' r'] eqn:Ep. simpl in Edata, Ew.
  set (s2 := with_bufs (<[p_next s:=pb']> (p_bufs s1)) s1).
  assert (pop_buf_put (p_next s) (nb * un_blocksize W) s1 = Ret (r', s2)) as E2.
  { unfold pop_buf_put, buf_op. rewrite (bind_ret _ _ _ _ _ (load_buf_Some _ _ _ Hpb)). by rewrite Ep. }
  rewrite (bind_ret _ _ _ _ _ E2). exists s2, pb'. split_and!; [done|done|apply lookup_insert_eq| |].
  - rewrite Edata, Ed, Ew. done.
  - by rewrite Ew.
Qed.

(** C29: store puts packets on the disk.  With a pop memory that has room for
    the blocks of a batch, a packet length, a batch and a range that its options
    accept and that do not overflow:

    - when the batch fills whole blocks, the program terminates.  It returns 0
      with every batch of the range on the disk: the blocks from
      [lba_start + i * nblocks] on hold, slot after slot of 2048 bytes and all
      [batch] of them, the packet with id [lba + b], its headers, its zeros and
      its length in the descriptor; the blocks that change are those of the
      commands, which start before [lba_end] but may end up to [nblocks - 1]
      blocks behind it.  Or it returns -1, and the driver has refused a command
      that starts in the range;
    - when it does not (an odd batch on blocks of 4 KiB, or a batch of less than
      a block), the buffer is too short for the packets of a batch, and the
      builder writes behind its end. *)
Theorem store_writes_packets c lm m s :
  p_mems s !! lm = Some m -> mem_ok m -> m_mutex m = false -> p_oom s = [] ->
  64 <= pktlen c <= 1500 -> 0 < batch c -> 2048 * batch c < 2 ^ 31 ->
  0 <= lba_start c < lba_end c -> lba_end c < 2 ^ 63 ->
  let nb := 2048 * batch c / un_blocksize W in
  let stop := lba_start c + Z.of_nat (rounds c nb) * nb in
  pages_for (nb * un_blocksize W) <= m_num_pages m - m_alloced_pages m ->
  ((2048 * batch c) `mod` un_blocksize W = 0 ->
    exists r s', store_body c (Some lm) s = Ret (r, s') /\
      ((r = 0 /\ lba_end c <= stop < lba_end c + nb /\
        (forall i, (i < rounds c nb)%nat -> on_disk c nb i (p_os s')) /\
        (forall x, x < lba_start c \/ stop <= x -> disk_block (p_os s') x = disk_block (p_os s) x)) \/
       (r = -1 /\ exists lba data w, lba_start c <= lba < lba_end c /\ (unvme_write 0 data lba nb w).1 <> 0))) /\
  ((2048 * batch c) `mod` un_blocksize W <> 0 -> store_body c (Some lm) s = Fault OutOfBounds).
Proof.
  intros Hm Hok Hmu Ho Hlen Hb Hov Hst Hend nb stop Hroom. pose proof (un_block W) as [Hsh Hbs].
  destruct (store_body_alloc c lm m s Hm Hok Hmu Ho ltac:(lia) Hov Hroom) as (s2 & pb & -> & Eos & Hpb & Ed & Esz).
  fold nb in Esz |- *.
  assert (0 < un_blocksize W) as Hbpos by (rewrite Hbs; apply Z.pow_pos_nonneg; lia).
  assert (un_blocksize W <> 0) as Hbnz by (intros E0; by rewrite E0 in Hbpos).
  pose proof (Z.div_mod (2048 * batch c) (un_blocksize W) Hbnz) as Edm. fold nb in Edm.
  pose proof (Z.mod_pos_bound (2048 * batch c) (un_blocksize W) Hbpos) as Hmod.
  destruct (proj1 (pages_for_spec (nb * un_blocksize W) _) eq_refl) as [Hp1 Hp2].
  assert (0 <= nb) as Hnb0 by (apply Z.div_pos; lia). unfold stop. clear stop. clearbody nb.
  split; intros Hex.
  - assert (0 < nb) as Hnb by nia. assert (nb <= nb * un_blocksize W) as Hnb31 by (apply Z.le_mul_diag_r; lia).
    assert (2048 * batch c = nb * un_blocksize W) as Hexact by lia.
    destruct (store_loop c (p_next s) pb (buf_data pb) Hlen eq_refl nb Hnb ltac:(lia) ltac:(lia) (proj1 Hst)
      Hexact ltac:(lia) s2 Hend Hpb) as (r & w' & E & Hr).
    destruct (rounds_reach c nb Hnb) as [Hreach Hbefore].
    exists r, (with_os w' s2). split; [exact E|]. rewrite <- Eos.
    destruct Hr as [[-> [Hin Hout]]|[-> (lba & Hlba & w & Hw)]]; [left|right; split; [done|]; by exists lba, (buf_data pb), w].
    specialize (Hbefore (rounds c nb - 1)%nat).
    split_and!; try done. destruct (decide (rounds c nb = 0%nat)); nia.
  - destruct (block_sizes (un_blockshift W)) as [Hd|Hd]; [lia|..]; rewrite <- Hbs in Hd.
    { destruct Hex. apply Z.mod_divide; [lia|]. by apply Z.divide_mul_l. }
    destruct Hd as [q Eq]. assert (pages_for (nb * un_blocksize W) = nb * q) as Epg by nia.
    assert (0 <= q) as Hq by nia. assert (0 <= nb * q) as Hnq by (by apply Z.mul_nonneg_nonneg).
    apply while_fault. unfold store_round. replace (_ <? _) with true by lia.
    replace (batch c) with (Z.of_nat (Z.to_nat (2 * (nb * q))) + (batch c - 2 * (nb * q))) by lia.
    apply bind_fault. eapply (store_overrun c (p_next s) pb (buf_data pb) Hlen eq_refl); [done|lia|nia].
Qed.

(** A batch of 0 never ends: [nblocks] is 0 and the address does not advance; as
    long as the disk accepts commands of 0 blocks no number of rounds leaves the
    loop. *)
Theorem store_empty_batch_never_ends c l pb s :
  p_bufs s !! l = Some pb -> batch c = 0 -> 0 <= lba_start c < lba_end c -> lba_start c < 2 ^ 64 ->
  (forall q buf lba n w, (unvme_write q buf lba n w).1 = 0) ->
  (forall n, exists w', iter_nat (store_round c l 0) n (lba_start c) s = Ret (inl (lba_start c), with_os w' s)) /\
  while_ (store_round c l 0) (lba_start c) s = Diverge.
Proof.
  intros Hb Hz Hlt Hst Hok.
  assert (forall n, exists w', iter_nat (store_round c l 0) n (lba_start c) s
    = Ret (inl (lba_start c), with_os w' s)) as Hspin.
  { intros n. revert s Hb. induction n as [|n IH]; intros s Hb; [exists (p_os s); by destruct s|].
    assert (exists w1, store_round c l 0 (lba_start c) s = Ret (inl (lba_start c), with_os w1 s)) as [w1 E1].
    { unfold store_round. replace (_ <? _) with true by lia. rewrite Hz. change (seqZ 0 0) with (@nil Z).
      rewrite (bind_ret (for_each [] (store_pkt c l (lba_start c)) ()) _ s () s eq_refl). unfold pop_buf_data. rewrite bind_assoc.
      rewrite (bind_ret _ _ _ _ _ (load_buf_Some l pb s Hb)). unfold os_call, mbind, M_bind, mret, M_ret. simpl.
      pose proof (Hok 0 (buf_data pb) (lba_start c) 0 (p_os s)) as Hr. destruct (unvme_write _ _ _ _ _) as [ret w2].
      simpl in Hr. subst ret. simpl. rewrite Z.add_0_r, u64_small by lia. by exists w2. }
    destruct (IH (with_os w1 s) Hb) as [w2 E2]. exists w2. by rewrite (iter_nat_inl _ _ _ _ _ _ E1). }
  split; [done|]. apply while_spin. intros n. destruct (Hspin n) as [w' E]. eauto.
Qed.

(** How [main] of store ends before its loop: a namespace that cannot be
    opened gives -1 and nothing else is called; a failure of [pop_mem_init] is
    not noticed and the null pointer is dereferenced; and a batch of [2 ^ 20] or
    more packets, which its options accept, overflows an [int]. *)
Theorem store_main_errors c s :
  ((unvme_open (nvme c) (p_os s)).1 = false ->
     store_main c s = Ret (-1, with_os (unvme_open (nvme c) (p_os s)).2 s)) /\
  (forall s1, (unvme_open (nvme c) (p_os s)).1 = true ->
     pop_mem_init None 0 (with_os (unvme_open (nvme c) (p_os s)).2 s) = Ret (None, s1) ->
     0 <= batch c < 2 ^ 20 -> store_main c s = Fault NullDeref) /\
  (forall m s1, (unvme_open (nvme c) (p_os s)).1 = true ->
     pop_mem_init None 0 (with_os (unvme_open (nvme c) (p_os s)).2 s) = Ret (m, s1) ->
     2 ^ 20 <= batch c -> store_main c s = Fault SignedOverflow).
Proof.
  unfold store_main. rewrite (bind_ret _ _ _ _ _ (os_call_eq (unvme_open (nvme c)) s)).
  split_and!; [by intros ->| |]; [intros s1 Hok E Hb|intros m s1 Hok E Hb]; rewrite Hok; cbn [negb];
    rewrite (bind_ret _ _ _ _ _ E), (bind_ret _ _ _ _ _ (os_call_eq _ s1)); unfold store_body.
  - by rewrite (bind_ret _ _ _ _ _ (c_int_ok (2048 * batch c) _ ltac:(lia))).
  - apply bind_fault. apply c_int_overflow. lia.
Qed.
End props.

(** ** An implementation *)

(** The memory of [gen_os], the files of [exos] and a disk with blocks of 4
    KiB whose commands all succeed. *)
Record sto_os : Type := StoOs { st_gen : gen_os; st_disk : Z -> bytes; st_files : exos }.

#[export] Instance sto_posix : Posix sto_os :=
  let lift A (f : exos -> A * exos) (w : sto_os) := let '(a, x) := f (st_files w) in (a, StoOs (st_gen w) (st_disk w) x) in {|
  sys_open path := lift _ (sys_open path);
  sys_close fd := lift _ (sys_close fd);
  sys_read fd n := lift _ (sys_read fd n);
  sys_lseek fd off := lift _ (sys_lseek fd off);
  sys_ioctl fd cmd r := lift _ (sys_ioctl fd cmd r);
  sys_mmap len flags fd off := lift _ (sys_mmap len flags fd off);
  sys_pagesize := 4096
|}.

#[export] Instance sto_ram : Ram sto_os := {
  ram_read a n w := ram_read a n (st_gen w);
  ram_write a b w := StoOs (ram_write a b (st_gen w)) (st_disk w) (st_files w)
}.

#[export] Instance sto_ram_ok : RamOk sto_os.
Proof.
  constructor; intros.
  - apply (ram_read_length (W:=gen_os)).
  - by apply (ram_read_take (W:=gen_os)).
  - apply (ram_read_app (W:=gen_os)).
  - apply (ram_read_same (W:=gen_os)).
  - by apply (ram_read_other (W:=gen_os)).
Qed.

Definition sto_log (c : io) (d : Z -> bytes) (w : sto_os) : sto_os :=
  StoOs (go_submit c (st_gen w)) d (st_files w).

#[export] Instance sto_unvme : Unvme sto_os := {
  un_blocksize := 4096;
  un_blockshift := 12;
  unvme_aread q buf lba n w := (lba, sto_log (Io false q buf lba n) (st_disk w) w);
  unvme_awrite q buf lba n w := (lba, sto_log (Io true q buf lba n) (st_disk w) w);
  unvme_apoll _ w := (0, w);
  unvme_write q buf lba n w :=
    (0, sto_log (Io true q buf lba n)
          (fun x => if (lba <=? x) && (x <? lba + n)
                    then ram_read (buf + (x - lba) * 4096) 4096 w else st_disk w x) w);
  unvme_open name w := (bool_decide (name <> None), w);
  unvme_register_pop_mem _ w := (0, w);
  unvme_close w := (0, w)
}.

#[export] Program Instance sto_unvme_ok : UnvmeOk sto_os := { un_log w := go_log (st_gen w) }.
Solve Obligations with (simpl; done || lia).

#[export] Program Instance sto_disk : Disk sto_os := { disk_block := st_disk }.
Solve Obligations with done.

(** A process with the pop memory of four pages, and four packets a command. *)
Definition sto0 : sto_os := StoOs (GenOs (NmOs 0) ∅ []) (fun _ => []) exos0.
Definition sto_proc : proc sto_os := Proc {[1%positive := mem4]} ∅ ∅ ∅ 2%positive [] 0 0 sto0.
Definition store4 : store := Store (Some (lit "03:00.0")) 64 4 16 20.

(** Four packets a command, over four blocks; and three, on blocks of two. *)
Lemma store_writes_packets_witness :
  (exists s', store_body store4 (Some 1%positive) sto_proc = Ret (0, s') /\
    stored 64 17 (take 2048 (drop 2048 (disk_read (p_os s') 16 2))) /\ st_disk (p_os s') 20 = []) /\
  store_body (Store (Some (lit "03:00.0")) 64 3 16 20) (Some 1%positive) sto_proc = Fault OutOfBounds.
Proof.
  split.
  - destruct (store_writes_packets store4 1%positive mem4 sto_proc) as [Hd _];
      [reflexivity|apply mem_okb_ok; reflexivity|reflexivity|reflexivity|simpl; lia..|vm_compute; discriminate|].
    destruct (Hd eq_refl) as (r & s' & E & [(-> & _ & Hin & Hout)|(_ & lba & data & w & _ & Hw)]);
      [|by destruct Hw].
    exists s'. split; [exact E|]. split.
    + refine (Hin 0%nat _ 1 _); [vm_compute; lia|simpl; lia].
    + apply (Hout 20). right. vm_compute. discriminate.
  - destruct (store_writes_packets (Store (Some (lit "03:00.0")) 64 3 16 20) 1%positive mem4 sto_proc) as [_ Hf];
      [reflexivity|apply mem_okb_ok; reflexivity|reflexivity|reflexivity|simpl; lia..|vm_compute; discriminate|].
    apply Hf. vm_compute. discriminate.
Defined.

Lemma store_empty_batch_never_ends_witness :
  while_ (store_round (Store None 64 0 0 8) 2%positive 0) 0
    (with_bufs {[2%positive := next_buf 1%positive mem4 0]} sto_proc) = Diverge.
Proof.
  destruct (store_empty_batch_never_ends (Store None 64 0 0 8) 2%positive (next_buf 1%positive mem4 0)
    (with_bufs {[2%positive := next_buf 1%positive mem4 0]} sto_proc)) as [_ H];
    [reflexivity|reflexivity|simpl; lia..|reflexivity|exact H].
Defined.

Lemma store_main_errors_witness :
  store_main (Store None 64 4 16 20) sto_proc = Ret (-1, sto_proc) /\
  store_main (Store (Some []) 64 4 16 20) (with_alloc 2%positive [true] sto_proc) = Fault NullDeref.
Proof.
  split.
  - destruct (store_main_errors (Store None 64 4 16 20) sto_proc) as [H _]. apply H. reflexivity.
  - destruct (store_main_errors (Store (Some []) 64 4 16 20) (with_alloc 2%positive [true] sto_proc)) as (_ & H & _).
    eapply H; [reflexivity|reflexivity|simpl; lia].
Defined.
