(* ===== verification/PutPacket.v ===== *)
(** * apps/put_packet.c: packets in peer-to-peer memory

    [phy_addr], the program's own address translation, and [main] after its
    options (Options.v); the packet builder and the copy loop are in Packet.v.
    [err] ends the process: its exit status is a value on the left. *)

From S2P Require Import Prelude CStr LibpopH PopBuf PopMem Netmap Unvme Packet Options TxRing PopMemProps Store.

Import PutPacketOpt.

(** ** The program *)

Section put_packet.
Context {W : Type} `{Posix W} `{Ram W}.
Implicit Type c : put_packet.

Definition phy_addr (virt : Z) : M (proc W) (Z + Z) :=
  fd ← libc_open PAGEMAP;
  if fd <? 0 then mret (inl 1)
  else
    let pagesize := sys_pagesize (W:=W) in
    if pagesize =? 0 then throw DivByZero
    else
      ret ← libc_lseek fd (i64 (virt / pagesize *64 8));
      if ret <? 0 then mret (inl 1)
      else
        r ← libc_read fd (replicate 8 (Some (chr 0)));
        let '(rc, bytes) := r in
        let entry := entry_val bytes in
        if (rc <? 1) || (entry =? 0) then mret (inl 1)
        else
          _ ← libc_close fd;
          mret (inr (Z.land entry 0x7fffffffffffff *64 pagesize +64 virt `mod` pagesize)).

(** The body of the loop; once the process has ended nothing more happens. *)
Definition put_one c (pbuf : loc) (n : Z) (x : option Z) : M (proc W) (option Z) :=
  match x with
  | Some status => mret (Some status)
  | None =>
      data ← pop_buf_data pbuf;
      off ← c_int (n * 2048);
      pa ← phy_addr (data + off);
      match pa with
      | inl status => mret (Some status)
      | inr _ => _ ← at_mem (data + off) 2048 (put_packet_build_pkt (pktlen c) n); mret None
      end
  end.

(** The exit status of the process.  [pbuf] is not checked. *)
Definition put_packet_main c : M (proc W) Z :=
  bytes ← c_int (2048 * pktnum c);
  pmem ← pop_mem_init (pci c) (u64 bytes);
  match pmem with
  | None => mret (-1)
  | Some lm =>
      pbuf ← pop_buf_alloc lm (u64 bytes);
      l ← require NullDeref pbuf;
      _ ← pop_buf_put l (u64 bytes);
      x ← for_each (seqZ 0 (pktnum c)) (put_one c l) None;
      mret (default 0 x)
  end.
End put_packet.

(** ** The two address translations *)

Section phy_addr.
Context {W : Type} `{Posix W}.
Implicit Type s : proc W.

(** C32: put_packet and the library translate addresses alike: wherever
    [phy_addr] returns an address, [virt_to_phys] of lib/libpop.c returns the
    same address, leaves the same state and has made the same system calls; and
    where [phy_addr] ends the process, [virt_to_phys] returns 0.  So the address
    that the program prints for a packet is the one the library works with. *)
Theorem phy_addr_agrees virt s :
  sys_pagesize (W:=W) <> 0 ->
  exists r s', phy_addr virt s = Ret (r, s') /\
  match r with
  | inr pa => virt_to_phys virt s = Ret (pa, s')
  | inl status => status = 1 /\ exists s'', virt_to_phys virt s = Ret (0, s'')
  end.
Proof.
  intros Hp. unfold phy_addr, virt_to_phys. destruct (quiet_open PAGEMAP s) as (fd & s1 & E1 & _).
  rewrite !(bind_ret _ _ _ _ _ E1). destruct (fd <? 0); [eexists _, _; split; [done|]; split; [done|by exists s1]|].
  cbv zeta. destruct (Z.eqb_spec (sys_pagesize (W:=W)) 0) as [|_]; [done|].
  destruct (quiet_lseek fd (i64 (virt / sys_pagesize (W:=W) *64 8)) s1) as (ret & s2 & E2 & _).
  rewrite !(bind_ret _ _ _ _ _ E2).
  assert (forall s0, exists s'', (_ ← libc_close fd; mret 0) s0 = Ret (0, s'')) as Hc.
  { intros s0. destruct (quiet_close fd s0) as (x & s3 & E3 & _). rewrite (bind_ret _ _ _ _ _ E3). eauto. }
  destruct (ret <? 0); [eexists _, _; split; [done|]; split; [done|apply Hc]|].
  destruct (quiet_read fd (replicate 8 (Some (chr 0))) s2) as ([rc bytes] & s3 & E3 & _).
  rewrite !(bind_ret _ _ _ _ _ E3).
  destruct (_ || _); [eexists _, _; split; [done|]; split; [done|apply Hc]|].
  destruct (quiet_close fd s3) as (x & s4 & E4 & _). rewrite !(bind_ret _ _ _ _ _ E4).
  eexists _, _. split; done.
Qed.
End phy_addr.

Lemma phy_addr_agrees_witness :
  exists s', phy_addr 0x7f0000001234 (proc0 exos0) = Ret (inr 0x1234234, s') /\
    virt_to_phys 0x7f0000001234 (proc0 exos0) = Ret (0x1234234, s').
Proof.
  destruct (phy_addr_agrees 0x7f0000001234 (proc0 exos0)) as ([r|r] & s' & E & H); [discriminate|..].
  - exfalso. vm_compute in E. discriminate E.
  - exists s'. assert (r = 0x1234234) as -> by (vm_compute in E; congruence). split; [exact E|exact H].
Defined.

(** ** Placing packets *)

(** System calls do not touch the memory of the process: the buffer that
    [read] fills is a variable of the function that calls it. *)
Class PosixRam (W : Type) `{Posix W} `{Ram W} : Prop := {
  ram_open a n path w : ram_read a n (sys_open path w).2 = ram_read a n w;
  ram_close a n fd w : ram_read a n (sys_close fd w).2 = ram_read a n w;
  ram_lseek a n fd off w : ram_read a n (sys_lseek fd off w).2 = ram_read a n w;
  ram_sysread a n fd k w : ram_read a n (sys_read fd k w).2 = ram_read a n w
}.

(** The first 42 bytes of packet [n]. *)
Definition put_headers (len n : Z) : bytes :=
  headers (replicate 6 0xff) [1; 2; 3; 4; 5; 6]
    (ip_header 0 (len - 14) 16 ip_10_0_0_2 ip_10_0_0_1) (be16 n) (be16 60000) (be16 (len - 14 - 20)).

Section placing.
Context {W : Type} `{Posix W} `{RamOk W} `{!PosixRam W}.
Hypothesis Hpage : sys_pagesize (W:=W) <> 0.
Implicit Type s : proc W.

(** Calls that leave the memory alone. *)
Definition same_ram s s' : Prop := os_only s s' /\ forall a n, ram_read a n (p_os s') = ram_read a n (p_os s).

Lemma same_ram_trans s1 s2 s3 : same_ram s1 s2 -> same_ram s2 s3 -> same_ram s1 s3.
Proof. intros [O1 R1] [O2 R2]. split; [by transitivity s2|]. intros a n. by rewrite R2. Qed.

Lemma libc_ret_ram {A : Type} (c : W -> (Z * A) * W) s :
  (forall a n w, ram_read a n (c w).2 = ram_read a n w) ->
  exists r s', libc_ret c s = Ret (r, s') /\ same_ram s s'.
Proof.
  intros Hr. unfold libc_ret. pose proof (fun a n => Hr a n (p_os s)) as Hs.
  destruct (c (p_os s)) as [[r a] w]. simpl in Hs. destruct (r <? 0); eexists _, _; (split; [done|]);
    (split; [|done]); [by exists (- r), w|exists (p_errno s), w; by destruct s].
Qed.

Lemma plain_ram (c : W -> Z * W) s :
  (forall a n w, ram_read a n (c w).2 = ram_read a n w) ->
  exists r s', (r ← libc_ret (plain c); mret r.1) s = Ret (r, s') /\ same_ram s s'.
Proof.
  intros Hr. destruct (libc_ret_ram (plain c) s) as (r & s' & E & Hs).
  { intros a n w. unfold plain. rewrite <- (Hr a n w). by destruct (c w). }
  exists r.1, s'. by rewrite (bind_ret _ _ _ _ _ E).
Qed.

Lemma phy_addr_ram virt s :
  exists r s', phy_addr virt s = Ret (r, s') /\ same_ram s s' /\ (forall x, r = inl x -> x = 1).
Proof.
  unfold phy_addr. destruct (plain_ram (sys_open PAGEMAP) s) as (fd & s1 & E1 & R1); [intros; apply ram_open|].
  rewrite (bind_ret _ _ _ _ _ E1). destruct (fd <? 0); [eexists _, s1; split; [done|]; split; [done|by intros x [= <-]]|].
  cbv zeta. destruct (Z.eqb_spec (sys_pagesize (W:=W)) 0); [done|].
  destruct (plain_ram (sys_lseek fd (i64 (virt / sys_pagesize (W:=W) *64 8))) s1) as (ret & s2 & E2 & R2); [intros; apply ram_lseek|].
  rewrite (bind_ret _ _ _ _ _ E2). pose proof (same_ram_trans _ _ _ R1 R2) as R12.
  destruct (ret <? 0); [eexists _, s2; split; [done|]; split; [done|by intros x [= <-]]|].
  destruct (libc_ret_ram (sys_read fd 8) s2) as ([rc data] & s3 & E3 & R3); [intros; apply ram_sysread|].
  pose proof (same_ram_trans _ _ _ R12 R3) as R13. unfold libc_read at 1. rewrite bind_assoc.
  rewrite (bind_ret _ _ _ _ _ E3). unfold mbind at 1, M_bind at 1, mret at 1, M_ret at 1. cbv zeta.
  destruct (_ || _); [eexists _, s3; split; [done|]; split; [done|by intros x [= <-]]|].
  destruct (plain_ram (sys_close fd) s3) as (z & s4 & E4 & R4); [intros; apply ram_close|].
  rewrite (bind_ret _ _ _ _ _ E4). eexists _, s4. split; [done|]. split; [by eapply same_ram_trans|done].
Qed.

(** The loop: [n] packets placed from [w0] on, or the process has ended. *)
Definition placing (c : put_packet) (l : loc) (pb : pop_buf) (w0 : W) (rest : list Z) (x : option Z) s : Prop :=
  exists n, 0 <= n <= pktnum c /\ rest = seqZ n (pktnum c - n) /\ p_bufs s !! l = Some pb /\
    (x = None \/ x = Some 1) /\
    (x = None ->
      (forall i, 0 <= i < n -> ram_read (buf_data pb + 2048 * i) 42 (p_os s) = put_headers (pktlen c) i) /\
      (forall a k, a + Z.of_nat k <= buf_data pb \/ buf_data pb + 2048 * n <= a ->
         ram_read a k (p_os s) = ram_read a k w0)).

Lemma put_one_step c l pb w0 i rest x s :
  2048 * pktnum c < 2 ^ 31 -> placing c l pb w0 (i :: rest) x s ->
  exists x' s', put_one c l i x s = Ret (x', s') /\ placing c l pb w0 rest x' s'.
Proof.
  intros Hov (n & Hn & Er & Hb & Hx & Hok). destruct (decide (n = pktnum c)) as [->|Hne].
  { by rewrite Z.sub_diag in Er. }
  rewrite seqZ_cons in Er by lia. injection Er as -> ->.
  replace (Z.pred (pktnum c - n)) with (pktnum c - Z.succ n) by lia.
  unfold put_one. destruct x as [st|].
  { exists (Some st), s. split; [done|]. exists (Z.succ n). split; [lia|]. by split_and!. }
  unfold pop_buf_data. rewrite bind_assoc, (bind_ret _ _ _ _ _ (load_buf_Some l pb s Hb)).
  unfold mbind at 1, M_bind at 1, mret at 1, M_ret at 1.
  rewrite (bind_ret _ _ _ _ _ (c_int_ok (n * 2048) s ltac:(lia))). set (a := buf_data pb + n * 2048).
  destruct (phy_addr_ram a s) as (pa & s1 & E1 & [O1 R1] & Hpa). rewrite (bind_ret _ _ _ _ _ E1).
  assert (p_bufs s1 = p_bufs s) as Eb by apply (os_only_fields _ _ O1).
  destruct pa as [st|pa].
  { specialize (Hpa st eq_refl). subst st. exists (Some 1), s1. split; [done|]. exists (Z.succ n).
    rewrite Eb. split; [lia|]. split; [done|]. split; [done|]. split; [by right|done]. }
  assert (length (ram_read a 2048 (p_os s1)) = 2048%nat) as Hlen by apply ram_read_length.
  pose proof (put_packet_build_eq (pktlen c) n (ram_read a 2048 (p_os s1)) ltac:(lia)) as Ep.
  fold (put_headers (pktlen c) n) in Ep. set (b' := put_headers (pktlen c) n ++ _) in Ep.
  assert (length b' = 2048%nat) as Hb' by (unfold b'; rewrite length_app, length_drop, Hlen; reflexivity).
  eexists None, (with_os (ram_write a b' (p_os s1)) s1). split.
  { unfold mbind, M_bind, at_mem. by rewrite Ep. }
  exists (Z.succ n). simpl. rewrite Eb. split; [lia|]. split; [done|]. split; [done|]. split; [by left|].
  intros _. destruct (Hok eq_refl) as [Hin Hout]. split.
  - intros j Hj. destruct (decide (j = n)) as [->|Hjn].
    + replace (buf_data pb + 2048 * n) with a by (unfold a; lia).
      rewrite (ram_read_take a 42 2048) by lia. pose proof (ram_read_same a b' (p_os s1)) as Hs.
      rewrite Hb' in Hs. rewrite Hs. by apply take_app_length'.
    + rewrite ram_read_other by (unfold a; rewrite ?Hb'; simpl; lia). rewrite R1. apply Hin. lia.
  - intros x k Hxk. rewrite ram_read_other by (unfold a; rewrite ?Hb'; lia). rewrite R1. apply Hout. lia.
Qed.

(** Put_packet places its packets: once [pop_mem_init] has returned a
    pop memory with room for them, the process ends, with status 0 or 1, and
    with status 0 only when packet [n] stands at [2048 * n] behind the start of
    the buffer for every [n] below [pktnum], all inside the pages of the buffer;
    no other memory has changed. *)
Theorem put_packet_places c lm m s s1 :
  1 <= pktnum c -> 2048 * pktnum c < 2 ^ 31 ->
  pop_mem_init (pci c) (2048 * pktnum c) s = Ret (Some lm, s1) ->
  p_mems s1 !! lm = Some m -> mem_ok m -> m_mutex m = false -> p_oom s1 = [] ->
  pages_for (2048 * pktnum c) <= m_num_pages m - m_alloced_pages m ->
  let data := m_mem m + m_alloced_pages m * 4096 in
  exists st s', put_packet_main c s = Ret (st, s') /\ (st = 0 \/ st = 1) /\
    data + 2048 * pktnum c <= m_mem m + m_num_pages m * 4096 /\
    (st = 0 ->
      (forall n, 0 <= n < pktnum c -> ram_read (data + 2048 * n) 42 (p_os s') = put_headers (pktlen c) n) /\
      (forall a k, a + Z.of_nat k <= data \/ data + 2048 * pktnum c <= a ->
         ram_read a k (p_os s') = ram_read a k (p_os s1))).
Proof.
  intros Hn Hov Einit Hm Hok Hmu Ho Hroom data.
  destruct (proj1 (pages_for_spec (2048 * pktnum c) _) eq_refl) as [Hp1 Hp2].
  unfold put_packet_main. rewrite (bind_ret _ _ _ _ _ (c_int_ok (2048 * pktnum c) s ltac:(lia))).
  rewrite u64_small by lia. rewrite (bind_ret _ _ _ _ _ Einit).
  pose proof (pop_buf_alloc_eq lm (2048 * pktnum c) s1 m Hm Hok Hmu ltac:(lia)) as Ea.
  replace (_ <? _) with false in Ea by lia. rewrite Ho in Ea. rewrite (bind_ret _ _ _ _ _ Ea).
  set (s2 := alloced_state _ _ _ _ _). rewrite (bind_ret (require NullDeref (Some (p_next s1))) _ s2 _ s2 eq_refl).
  set (pb := next_buf lm m (pages_for (2048 * pktnum c))).
  assert (p_bufs s2 !! p_next s1 = Some pb) as Hpb by apply lookup_insert_eq.
  destruct (buf_put pb (2048 * pktnum c)) as [pb' r'] eqn:Ep.
  assert (buf_data pb' = data) as Edata.
  { revert Ep. destruct Hok. unfold buf_put. destruct (_ <? _); intros [= <- _];
      unfold buf_data, pb, data; simpl; rewrite u64_small; lia. }
  set (s3 := with_bufs (<[p_next s1:=pb']> (p_bufs s2)) s2).
  assert (pop_buf_put (p_next s1) (2048 * pktnum c) s2 = Ret (r', s3)) as E2.
  { unfold pop_buf_put, buf_op. rewrite (bind_ret _ _ _ _ _ (load_buf_Some _ _ _ Hpb)). by rewrite Ep. }
  rewrite (bind_ret _ _ _ _ _ E2).
  destruct (for_each_inv (placing c (p_next s1) pb' (p_os s1)) (put_one c (p_next s1))
    (seqZ 0 (pktnum c)) None s3) as (x & s' & E3 & n & Hn' & Er & _ & Hx & Hok').
  { exists 0. rewrite Z.sub_0_r. split; [lia|]. split; [done|]. split; [apply lookup_insert_eq|].
    split; [by left|]. intros _. split; [intros i Hi; lia|done]. }
  { intros i rest x0 s0 Hp. by apply put_one_step. }
  rewrite (bind_ret _ _ _ _ _ E3). exists (default 0 x), s'. split; [done|].
  split; [destruct Hx as [->| ->]; auto|]. split; [unfold data; destruct Hok; lia|]. intros Hst.
  destruct Hx as [->| ->]; [|done]. assert (n = pktnum c) as ->.
  { destruct (decide (n = pktnum c)); [done|]. by rewrite seqZ_cons in Er by lia. }
  rewrite <- Edata. by apply Hok'.
Qed.
End placing.

#[export] Instance sto_posix_ram : PosixRam sto_os.
Proof. by constructor. Qed.

(** A process of the machine of Store.v, and what [pop_mem_init] makes of it. *)
Definition put_proc : proc sto_os := Proc ∅ ∅ ∅ ∅ 1%positive [] 0 0 sto0.
Definition put3 : put_packet := PutPacket 64 3 (Some (lit "17:00.0")).
Definition put_inited : option loc * proc sto_os :=
  match pop_mem_init (pci put3) (2048 * pktnum put3) put_proc with Ret x => x | _ => (None, put_proc) end.

Lemma sto_page : sys_pagesize (W:=sto_os) <> 0.
Proof. by change (4096 <> 0). Qed.

Lemma put_inited_eq :
  pop_mem_init (pci put3) (2048 * pktnum put3) put_proc = Ret (Some 1%positive, put_inited.2).
Proof.
  assert (put_inited.1 = Some 1%positive) as H1 by (vm_compute; reflexivity).
  assert (match pop_mem_init (pci put3) (2048 * pktnum put3) put_proc with Ret _ => true | _ => false end = true)
    as H2 by (vm_compute; reflexivity).
  revert H1 H2. unfold put_inited. destruct (pop_mem_init _ _ put_proc) as [[o s]| |]; simpl; [|done..].
  by intros ->.
Qed.

Lemma put_packet_places_witness :
  exists st s', put_packet_main put3 put_proc = Ret (st, s') /\
    (st = 0 -> ram_read 0x7f0000002000 42 (p_os s') = put_headers 64 2).
Proof.
  destruct (p_mems put_inited.2 !! 1%positive) as [m|] eqn:Em; [|exfalso; vm_compute in Em; discriminate Em].
  assert (m_mem m = 0x7f0000001000 /\ m_alloced_pages m = 0 /\ m_num_pages m = 16 /\ mem_ok m /\ m_mutex m = false)
    as (E1 & E2 & E3 & Hok & Hmu).
  { vm_compute in Em. injection Em as <-. split_and!; [reflexivity..|apply mem_okb_ok; reflexivity|reflexivity]. }
  destruct (put_packet_places sto_page put3 1%positive m put_proc put_inited.2)
    as (st & s' & E & _ & _ & H);
    [simpl; lia|simpl; lia|exact put_inited_eq|exact Em|exact Hok|exact Hmu|vm_compute; reflexivity| |].
  - rewrite E2, E3. vm_compute. discriminate.
  - exists st, s'. split; [exact E|]. intros Hst. rewrite E1, E2 in H. apply (proj1 (H Hst) 2). simpl. lia.
Defined.
