(* ===== verification/Mb.v ===== *)
(** * apps/mb.c: a memory benchmark

    [clflush_opt] and [main] of apps/mb.c after its options (Options.v): the
    timed copies, the sort of the samples, and the smallest and largest of all
    and of 99 % of them.  The type of the samples is C's [double]: [Double] is
    what the sort and the comparisons use of it.  The time stamp counter belongs
    to the outside world ([Tsc]).  Means, deviations and output are not
    modelled. *)

From Stdlib Require Import Sorting.Sorted.
From S2P Require Import Prelude CStr LibpopH PopBuf PopMem Netmap Unvme Packet Options TxRing PopMemProps Store PutPacket.

Import MbOpt.

Class Double (D : Type) : Type := {
  d_gt : D -> D -> bool;                 (* [a > b] *)
  d_quot : Z -> Z -> D;                  (* [(double)a / (double)b] *)
  d_scale99 : Z -> Z                     (* [(int)(n * 0.99)] *)
}.

(** The order of numbers that are not NaN. *)
Class DoubleOk (D : Type) `{Double D} : Prop := {
  d_gt_irrefl x : d_gt x x = false;
  d_gt_asym x y : d_gt x y = true -> d_gt y x = false;
  d_le_trans x y z : d_gt x y = false -> d_gt y z = false -> d_gt x z = false;
  d_scale99_range n : 0 <= n -> 0 <= d_scale99 n <= n
}.

Class Tsc (W : Type) : Type := { rdtsc : W -> Z * W }.

(** ** Arrays *)

Section arrays.
Context {A : Type}.

Definition arr_get (i : Z) : M (list A) A :=
  o ← gets (fun e => if i <? 0 then None else e !! Z.to_nat i); require OutOfBounds o.
Definition arr_set (i : Z) (x : A) : M (list A) () :=
  _ ← arr_get i; modify (fun e => <[Z.to_nat i:=x]> e).
End arrays.

(** ** The sort *)

Section sort.
Context {D : Type} `{Double D}.

(** The body: [if (elapsed[i - 1] > elapsed[i])] swap them. *)
Definition sort_step (i : Z) (u : ()) : M (list D) () :=
  a ← arr_get (i - 1);
  b ← arr_get i;
  if d_gt a b then
    tmp ← arr_get i;
    x ← arr_get (i - 1);
    _ ← arr_set i x;
    arr_set (i - 1) tmp
  else mret ().

(** [for (i = nloop - 1; i > n; i--)]. *)
Definition sort_pass (nloop n : Z) (u : ()) : M (list D) () :=
  for_each (reverse (seqZ (n + 1) (nloop - 1 - n))) sort_step ().

Definition mb_sort (nloop : Z) : M (list D) () := for_each (seqZ 0 nloop) (sort_pass nloop) ().

(** ** The smallest and the largest sample *)

(** The two comparisons of the loop over all samples, on [min] and [max]. *)
Definition all_step (p : D * D) (e : D) : D * D :=
  (if d_gt p.1 e then e else p.1, if d_gt e p.2 then e else p.2).

(** Those of the loop over 99 % of them, on [min9] and [max9]: they compare
    with [min] and [max]. *)
Definition pct_step (mn mx : D) (p : D * D) (e : D) : D * D :=
  (if d_gt mn e then e else p.1, if d_gt e mx then e else p.2).

Definition minmax_loop (step : D * D -> D -> D * D) (n : Z) (x : D) : M (list D) (D * D) :=
  for_each (seqZ 0 n) (fun i p => e ← arr_get i; mret (step p e)) (x, x).

Record stats : Type := Stats { st_min : D; st_max : D; st_min9 : D; st_max9 : D }.

(** From the sort to the output. *)
Definition mb_stats (nloop : Z) : M (list D) stats :=
  _ ← mb_sort nloop;
  x ← arr_get 0;
  r ← minmax_loop all_step nloop x;
  y ← arr_get 0;
  r9 ← minmax_loop (pct_step r.1 r.2) (d_scale99 nloop) y;
  mret (Stats r.1 r.2 r9.1 r9.2).
End sort.

(** ** The copies *)

(** The addresses [clflush_opt] flushes. *)
Definition clflush_opt (addr nline : Z) : list Z := (fun li => addr + li * 64) <$> seqZ 0 nline.

Definition mb_nline (size : Z) : Z :=
  if negb (Z.rem size 64 =? 0) then Z.quot size 64 + 1 else Z.quot size 64.

Section copies.
Context {W : Type} `{Ram W}.

(** [memcpy(dst, src, n)] between the array [src] and memory. *)
Definition memcpy_to (dst : Z) (src : bytes) (n : Z) : M (proc W) () :=
  if (0 <=? n) && (n <=? Z.of_nat (length src))
  then modify (fun s => with_os (ram_write dst (take (Z.to_nat n) src) (p_os s)) s)
  else throw OutOfBounds.
Definition memcpy_from (dst : bytes) (src n : Z) : M (proc W) bytes :=
  if (0 <=? n) && (n <=? Z.of_nat (length dst))
  then b ← gets (fun s => ram_read src (Z.to_nat n) (p_os s)); mret (b ++ drop (Z.to_nat n) dst)
  else throw OutOfBounds.

(** The body of [for (i = 0; i < nwrite; i++)]: the array and the lines that
    were flushed.  [target] does not depend on [i]. *)
Definition mb_copy (c : mb) (addr i : Z) (x : bytes * list Z) : M (proc W) (bytes * list Z) :=
  let '(src, flushed) := x in
  off ← c_int (nwrite c * size c);
  let target := addr + off in
  let lines := match mem c with None => clflush_opt target (mb_nline (size c)) | Some _ => [] end in
  if negb (dir c =? 0) then
    _ ← memcpy_to target src (size c);
    mret (src, flushed ++ lines)
  else
    src' ← memcpy_from src target (size c);
    mret (src', flushed ++ lines).
End copies.

(** ** The program *)

Section main.
Context {W D : Type} `{Posix W} `{Ram W} `{Tsc W} `{Double D}.
Implicit Type c : mb.

(** [calloc(n, _)]: an [int] count that is negative asks for more than there is. *)
Definition calloc (n : Z) : M (proc W) (option loc) :=
  if n <? 0 then _ ← set_errno ENOMEM; mret None else malloc.

(** The body of [for (n = 0; n < nloop; n++)]: the array [src], the lines that
    were flushed, and the samples. *)
Definition mb_sample c (addr : Z) (elapsed : option loc) (n : Z) (x : (bytes * list Z) * list D)
    : M (proc W) ((bytes * list Z) * list D) :=
  start ← os_call rdtsc;
  y ← for_each (seqZ 0 (nwrite c)) (mb_copy c addr) x.1;
  fin ← os_call rdtsc;
  _ ← require NullDeref elapsed;
  mret (y, x.2 ++ [d_quot (fin -64 start) (nloop c)]).

Definition run_on {St A : Type} (e : list D) (f : M (list D) A) : M St A :=
  lift (match f e with Ret (a, _) => Ret a | Diverge => Diverge | Fault f => Fault f end).

(** From the two allocations to the output. *)
Definition mb_bench c (addr : Z) : M (proc W) stats :=
  osrc ← calloc (nwrite c);
  _ ← (if nwrite c =? 0 then mret tt else _ ← require NullDeref osrc; mret tt);
  let src := replicate (Z.to_nat (nwrite c)) 1 in
  elapsed ← calloc (nloop c);
  x ← for_each (seqZ 0 (nloop c)) (mb_sample c addr elapsed) ((src, []), []);
  _ ← require NullDeref elapsed;
  run_on x.2 (mb_stats (nloop c)).

(** The exit status, and the statistics if they are printed. *)
Definition mb_main c : M (proc W) (Z * option stats) :=
  pmem ← pop_mem_init (mem c) 0;
  match pmem with
  | None => mret (-1, None)
  | Some lm =>
      bytes ← c_int (size c * nwrite c);
      pbuf ← pop_buf_alloc lm (u64 bytes);
      match pbuf with
      | None => _ ← pop_mem_exit lm; mret (-1, None)
      | Some l =>
          _ ← pop_buf_put l (u64 bytes);
          addr ← pop_buf_data l;
          st ← mb_bench c addr;
          _ ← pop_mem_exit lm;
          mret (0, Some st)
      end
  end.
End main.

(** ** The sort is a bubble sort *)

Section sort_proofs.
Context {D : Type} `{DoubleOk D}.
Implicit Type l : list D.

Definition d_le (x y : D) : Prop := d_gt x y = false.

#[export] Instance d_le_preorder : PreOrder d_le.
Proof. split; [intros x; apply d_gt_irrefl|intros x y z; apply d_le_trans]. Qed.

(** One pass from the right: the smallest element comes to the front. *)
Fixpoint bubble l : list D :=
  match l with
  | [] => []
  | x :: l' => match bubble l' with
               | [] => [x]
               | y :: l'' => if d_gt x y then y :: x :: l'' else x :: y :: l''
               end
  end.

Lemma bubble_perm l : bubble l ≡ₚ l.
Proof.
  induction l as [|x l IH]; [done|]. simpl. destruct (bubble l) as [|y l'].
  - by rewrite <- IH.
  - destruct (d_gt x y); rewrite <- IH; [apply perm_swap|done].
Qed.

Lemma bubble_head l y l' : bubble l = y :: l' -> Forall (d_le y) l'.
Proof.
  revert y l'. induction l as [|x l IH]; intros y l'; [done|]. simpl.
  destruct (bubble l) as [|z l1] eqn:E; [intros [= <- <-]; constructor|].
  specialize (IH z l1 eq_refl). destruct (d_gt x z) eqn:Hg; intros [= <- <-]; constructor; try done.
  - by apply d_gt_asym.
  - eapply Forall_impl; [exact IH|]. intros w Hw. by transitivity z.
Qed.

Lemma arr_get_mid pre x l : arr_get (Z.of_nat (length pre)) (pre ++ x :: l) = Ret (x, pre ++ x :: l).
Proof.
  unfold arr_get, gets, mbind, M_bind. rewrite (proj2 (Z.ltb_ge _ 0)) by lia.
  by rewrite Nat2Z.id, list_lookup_middle.
Qed.

Lemma arr_set_mid pre x y l : arr_set (Z.of_nat (length pre)) y (pre ++ x :: l) = Ret ((), pre ++ y :: l).
Proof.
  unfold arr_set. rewrite (bind_ret _ _ _ _ _ (arr_get_mid pre x l)). unfold modify.
  rewrite Nat2Z.id. do 2 f_equal. rewrite <- (Nat.add_0_r (length pre)). by rewrite insert_app_r.
Qed.

(** One step of the pass, at the place between [pre ++ [x]] and [y :: l]. *)
Lemma sort_step_mid pre x y l :
  sort_step (Z.of_nat (length pre) + 1) () (pre ++ x :: y :: l)
  = Ret ((), pre ++ if d_gt x y then y :: x :: l else x :: y :: l).
Proof.
  unfold sort_step. replace (Z.of_nat (length pre) + 1 - 1) with (Z.of_nat (length pre)) by lia.
  replace (Z.of_nat (length pre) + 1) with (Z.of_nat (length (pre ++ [x]))) by (rewrite length_app; simpl; lia).
  assert (forall z l0, pre ++ z :: l0 = (pre ++ [z]) ++ l0) as Ea by (intros; by rewrite <- app_assoc).
  rewrite (bind_ret _ _ _ _ _ (arr_get_mid pre x (y :: l))).
  pose proof (arr_get_mid (pre ++ [x]) y l) as G. rewrite <- Ea in G. rewrite (bind_ret _ _ _ _ _ G).
  destruct (d_gt x y); [|done]. rewrite (bind_ret _ _ _ _ _ G).
  rewrite (bind_ret _ _ _ _ _ (arr_get_mid pre x (y :: l))).
  pose proof (arr_set_mid (pre ++ [x]) y x l) as S. rewrite <- Ea in S.
  replace (length (pre ++ [x])) with (length (pre ++ [y])) in * by (rewrite !length_app; done).
  rewrite (bind_ret _ _ _ _ _ S), <- Ea. apply arr_set_mid.
Qed.

Lemma sort_pass_bubble nloop pre l :
  nloop = Z.of_nat (length pre + length l) ->
  sort_pass nloop (Z.of_nat (length pre)) () (pre ++ l) = Ret ((), pre ++ bubble l).
Proof.
  revert pre. induction l as [|x l IH]; intros pre Hn; unfold sort_pass.
  - rewrite seqZ_nil by (cbn [length] in Hn; lia). done.
  - destruct l as [|y l]; [rewrite seqZ_nil by (cbn [length] in Hn; lia); done|].
    rewrite seqZ_cons by (cbn [length] in Hn; lia). rewrite reverse_cons, for_each_app.
    specialize (IH (pre ++ [x])). unfold sort_pass in IH. rewrite length_app in IH.
    replace (Z.of_nat (length pre + length [x]) + 1) with (Z.succ (Z.of_nat (length pre) + 1)) in IH by (simpl; lia).
    replace (nloop - 1 - Z.of_nat (length pre + length [x])) with (Z.pred (nloop - 1 - Z.of_nat (length pre))) in IH
      by (simpl; lia).
    rewrite <- !app_assoc in IH. change ([x] ++ y :: l) with (x :: y :: l) in IH.
    rewrite (bind_ret _ _ _ _ _ (IH ltac:(cbn [length] in *; lia))). cbn [for_each]. change ([x] ++ bubble (y :: l)) with (x :: bubble (y :: l)).
    change (bubble (x :: y :: l)) with (match bubble (y :: l) with [] => [x] | y :: l'' =>
      if d_gt x y then y :: x :: l'' else x :: y :: l'' end).
    destruct (bubble (y :: l)) as [|z l1] eqn:E.
    { apply (f_equal length) in E. rewrite bubble_perm in E. done. }
    rewrite (bind_ret _ _ _ _ _ (sort_step_mid pre x z l1)). done.
Qed.

Lemma mb_sort_from nloop l : forall pre,
  nloop = Z.of_nat (length pre + length l) ->
  exists l', for_each (seqZ (Z.of_nat (length pre)) (Z.of_nat (length l))) (sort_pass nloop) () (pre ++ l)
      = Ret ((), pre ++ l') /\ l' ≡ₚ l /\ StronglySorted d_le l'.
Proof.
  remember (length l) as k eqn:Hk. revert l Hk. induction k as [|k IH]; intros l Hk pre Hn.
  - destruct l; [|done]. exists []. split_and!; [done|done|constructor].
  - rewrite seqZ_cons by lia. cbn [for_each].
    rewrite (bind_ret _ _ _ _ _ (sort_pass_bubble nloop pre l ltac:(lia))).
    pose proof (bubble_perm l) as Hp. destruct (bubble l) as [|y l1] eqn:E.
    { apply (f_equal length) in E. rewrite bubble_perm in E. simpl in E. lia. }
    assert (k = length l1) as Hk1 by (apply Permutation_length in Hp; simpl in Hp; lia).
    destruct (IH l1 Hk1 (pre ++ [y])) as (l2 & E2 & Hp2 & Hs2); [rewrite length_app; simpl; lia|].
    rewrite length_app, <- !app_assoc in E2.
    replace (Z.of_nat (length pre + length [y])) with (Z.succ (Z.of_nat (length pre))) in E2 by (simpl; lia).
    replace (Z.pred (Z.of_nat (S k))) with (Z.of_nat k) by lia.
    exists (y :: l2). split; [exact E2|]. split; [by rewrite Hp2|]. constructor; [done|].
    rewrite Hp2. exact (bubble_head l y l1 E).
Qed.

(** A loop that reads the samples in order. *)
Lemma minmax_loop_foldl step n x (e : list D) :
  (n <= length e)%nat ->
  minmax_loop step (Z.of_nat n) x e = Ret (foldl step (x, x) (take n e), e).
Proof.
  intros Hn. unfold minmax_loop. induction n as [|n IH]; [done|].
  rewrite seqZ_S, for_each_app, (bind_ret _ _ _ _ _ (IH ltac:(lia))). cbn [for_each].
  destruct (lookup_lt_is_Some_2 e n ltac:(lia)) as [y Hy].
  assert (arr_get (0 + Z.of_nat n) e = Ret (y, e)) as Eg.
  { unfold arr_get, gets, mbind, M_bind. rewrite (proj2 (Z.ltb_ge _ 0)) by lia.
    rewrite Z.add_0_l, Nat2Z.id. by rewrite Hy. }
  rewrite bind_assoc, (bind_ret _ _ _ _ _ Eg). by rewrite (take_S_r _ _ _ Hy), foldl_app.
Qed.

(** The smallest stays the smallest, the largest is found. *)
Lemma all_step_foldl l : forall mn mx,
  Forall (d_le mn) l -> (foldl all_step (mn, mx) l).1 = mn /\
  let mx' := (foldl all_step (mn, mx) l).2 in
  (mx' = mx \/ mx' ∈ l) /\ d_le mx mx' /\ Forall (fun x => d_le x mx') l.
Proof.
  induction l as [|x l IH]; intros mn mx Hmn.
  { simpl. split; [done|]. split; [by left|]. split; [apply d_gt_irrefl|constructor]. }
  inversion_clear Hmn as [|? ? Hx Hl]. cbn [foldl].
  set (mx1 := if d_gt x mx then x else mx).
  assert (all_step (mn, mx) x = (mn, mx1)) as -> by (unfold all_step; simpl; by rewrite Hx).
  destruct (IH mn mx1 Hl) as (E1 & Hin & Hle & Hall). simpl in *.
  assert (d_le mx mx1 /\ d_le x mx1) as [H1 H2].
  { unfold mx1, d_le. destruct (d_gt x mx) eqn:Hg; split; try done; [by apply d_gt_asym|apply d_gt_irrefl|apply d_gt_irrefl]. }
  split_and!; [done| |by transitivity mx1|].
  - destruct Hin as [->|Hin]; [|right; by constructor]. unfold mx1. destruct (d_gt x mx); [right; constructor|by left].
  - constructor; [by transitivity mx1|done].
Qed.

(** No sample is below the smallest or above the largest. *)
Lemma pct_step_foldl l mn mx : forall p,
  Forall (d_le mn) l -> Forall (fun x => d_le x mx) l -> foldl (pct_step mn mx) p l = p.
Proof.
  induction l as [|x l IH]; intros p Hmn Hmx; [done|].
  inversion_clear Hmn as [|? ? Hx Hl]. inversion_clear Hmx as [|? ? Hx' Hl']. simpl.
  unfold pct_step at 2. unfold d_le in Hx, Hx'. rewrite Hx, Hx'. destruct p. by apply IH.
Qed.
End sort_proofs.

(** ** Properties *)

(** Samples that are whole numbers, for the witnesses. *)
#[export] Instance z_double : Double Z := {
  d_gt a b := b <? a; d_quot a b := a / b; d_scale99 n := n * 99 / 100
}.

#[export] Instance z_double_ok : DoubleOk Z.
Proof.
  constructor; unfold d_gt, d_scale99, z_double; intros; [lia..|]. Z.to_euclidean_division_equations. lia.
Qed.

(** C34: The two nested loops of mb sort: on any array of [nloop] samples
    they stay inside the array, and leave it a permutation of itself in
    ascending order. *)
Theorem mb_sort_sorts {D : Type} `{DoubleOk D} (e : list D) :
  exists e', mb_sort (Z.of_nat (length e)) e = Ret ((), e') /\ e' ≡ₚ e /\ StronglySorted d_le e'.
Proof. exact (mb_sort_from (Z.of_nat (length e)) e [] eq_refl). Qed.

(** What mb prints: with at least one sample, [min] and [max] are the
    smallest and the largest sample; but the loop over 99 % of the samples
    compares with these instead of with its own variables, so it never takes
    its branches, and both numbers printed for the 99 % are the smallest sample
    of all.  With no sample, [elapsed\[0\]] is read outside of the array. *)
Theorem mb_stats_min_max {D : Type} `{DoubleOk D} (e : list D) :
  (e <> [] -> exists st e', mb_stats (Z.of_nat (length e)) e = Ret (st, e') /\ e' ≡ₚ e /\
     st_min st ∈ e /\ Forall (d_le (st_min st)) e /\
     st_max st ∈ e /\ Forall (fun x => d_le x (st_max st)) e /\
     st_min9 st = st_min st /\ st_max9 st = st_min st) /\
  mb_stats 0 ([] : list D) = Fault OutOfBounds.
Proof.
  split; [|done]. intros He.
  destruct (mb_sort_from (Z.of_nat (length e)) e [] eq_refl) as (e' & Es & Hp & Hs). simpl in Es.
  destruct e' as [|y l]; [apply Permutation_nil in Hp; done|].
  assert (Forall (d_le y) (y :: l)) as Hy.
  { inversion_clear Hs. constructor; [apply d_gt_irrefl|done]. }
  pose proof (Permutation_length Hp) as Hlen. pose proof (d_scale99_range (Z.of_nat (length e)) ltac:(lia)) as H99.
  destruct (all_step_foldl (y :: l) y y Hy) as (Emn & Hmx & _ & Hall).
  set (r := foldl all_step (y, y) (y :: l)) in *. simpl in Hmx.
  assert (arr_get 0 (y :: l) = Ret (y, y :: l)) as Eg by done.
  assert (mb_stats (Z.of_nat (length e)) e = Ret (Stats r.1 r.2 y y, y :: l)) as E.
  { unfold mb_stats. rewrite (bind_ret _ _ _ _ _ Es : (mb_sort _ ≫= _) e = _), (bind_ret _ _ _ _ _ Eg).
    rewrite (bind_ret _ _ _ _ _ (minmax_loop_foldl all_step (length e) y (y :: l) ltac:(lia))).
    rewrite (take_ge (y :: l)) by lia. fold r. rewrite (bind_ret _ _ _ _ _ Eg).
    rewrite <- (Z2Nat.id (d_scale99 (Z.of_nat (length e)))) by lia.
    assert (Z.to_nat (d_scale99 (Z.of_nat (length e))) <= length (y :: l))%nat as Hn9 by lia.
    rewrite (bind_ret _ _ _ _ _ (minmax_loop_foldl (pct_step r.1 r.2) _ y (y :: l) Hn9)).
    rewrite pct_step_foldl; [done|rewrite Emn; by apply Forall_take|by apply Forall_take]. }
  exists (Stats r.1 r.2 y y), (y :: l). simpl. rewrite Emn.
  split; [by rewrite <- Emn at 1|]. split; [done|]. split; [rewrite <- Hp; constructor|].
  split; [by rewrite <- Hp|]. split; [rewrite <- Hp; destruct Hmx as [->|]; [constructor|done]|].
  split; [by rewrite <- Hp|]. done.
Qed.

Lemma mb_stats_min_max_witness :
  exists st e', mb_stats 4 [7; 3; 9; 5] = Ret (st, e') /\ st_max st = 9 /\ st_max9 st = 3.
Proof.
  destruct (mb_stats_min_max [7; 3; 9; 5]) as [H _]. destruct H as (st & e' & E & _ & _ & _ & _ & _ & _ & _); [done|].
  exists st, e'. split; [exact E|]. change (Z.of_nat (length [7; 3; 9; 5])) with 4 in E.
  vm_compute in E. injection E as <- <-. split; reflexivity.
Defined.

(** What the timed loop of mb copies: every copy of a sample goes to the
    same place, the [size] bytes behind the [nwrite * size] bytes the program
    allocated; the allocated bytes themselves are neither read nor written.
    If [nwrite] is less than [size], the copy reads past the end of [src], which
    has [nwrite] bytes. *)
Theorem mb_copies_behind_buffer {W : Type} `{RamOk W} c addr src flushed (s : proc W) :
  1 <= nwrite c -> 0 <= size c -> nwrite c * size c < 2 ^ 31 -> dir c = 1 ->
  length src = Z.to_nat (nwrite c) ->
  let target := addr + nwrite c * size c in
  (size c <= nwrite c ->
     exists fl w, for_each (seqZ 0 (nwrite c)) (mb_copy c addr) (src, flushed) s = Ret ((src, fl), with_os w s) /\
       ram_read target (Z.to_nat (size c)) w = take (Z.to_nat (size c)) src /\
       forall a k, a + Z.of_nat k <= target \/ target + size c <= a -> ram_read a k w = ram_read a k (p_os s)) /\
  (nwrite c < size c ->
     for_each (seqZ 0 (nwrite c)) (mb_copy c addr) (src, flushed) s = Fault OutOfBounds).
Proof.
  intros Hn Hs Hov Hd Hl target.
  assert (forall i fl s0, mb_copy c addr i (src, fl) s0 =
    if size c <=? nwrite c
    then Ret ((src, fl ++ match mem c with None => clflush_opt target (mb_nline (size c)) | Some _ => [] end),
              with_os (ram_write target (take (Z.to_nat (size c)) src) (p_os s0)) s0)
    else Fault OutOfBounds) as Estep.
  { intros i fl s0. unfold mb_copy. rewrite (bind_ret _ _ _ _ _ (c_int_ok (nwrite c * size c) s0 ltac:(nia))).
    rewrite Hd. simpl negb. cbv iota. unfold memcpy_to. rewrite Hl, Z2Nat.id by lia.
    replace (0 <=? size c) with true by lia. simpl. by destruct (size c <=? nwrite c). }
  split; intros Hsz.
  - set (tk := take (Z.to_nat (size c)) src) in *.
    assert (length tk = Z.to_nat (size c)) as Htk by (unfold tk; rewrite length_take; lia).
    destruct (for_each_inv (fun (rest : list Z) (x : bytes * list Z) (s1 : proc W) => x.1 = src /\ exists w,
      s1 = with_os w s /\ (rest = [] -> ram_read target (Z.to_nat (size c)) w = tk) /\
      forall a k, a + Z.of_nat k <= target \/ target + size c <= a -> ram_read a k w = ram_read a k (p_os s))
      (mb_copy c addr) (seqZ 0 (nwrite c)) (src, flushed) s) as ([src' fl] & s' & E & Esrc & w & -> & Hr & Ho).
    + split; [done|]. exists (p_os s). split; [by destruct s|]. split; [|done].
      intros Hnil. by rewrite seqZ_cons in Hnil by lia.
    + intros i rest [src0 fl0] s1 [Es0 (w & -> & _ & Ho)]. simpl in Es0. subst src0. rewrite Estep.
      replace (size c <=? nwrite c) with true by lia. eexists _, _. split; [done|]. split; [done|].
      exists (ram_write target tk w). split; [done|]. split.
      * intros _. rewrite <- Htk. apply ram_read_same.
      * intros a k Ha. rewrite ram_read_other by (rewrite Htk; lia). by apply Ho.
    + simpl in Esrc. subst src'. exists fl, w. split_and!; [exact E|by apply Hr|exact Ho].
  - rewrite seqZ_cons by lia. cbn [for_each]. apply bind_fault. rewrite Estep.
    by replace (size c <=? nwrite c) with false by lia.
Qed.

Lemma mb_sort_sorts_witness :
  exists e', mb_sort 4 [7; 3; 9; 5] = Ret ((), e') /\ StronglySorted d_le e'.
Proof.
  destruct (mb_sort_sorts [7; 3; 9; 5]) as (e' & E & _ & Hs). exists e'. split; [exact E|exact Hs].
Defined.

Lemma mb_copies_behind_buffer_witness :
  exists fl w, for_each (seqZ 0 3) (mb_copy (Mb 3 1 2 None 1) 4096) ([1; 1; 1], []) sto_proc
    = Ret (([1; 1; 1], fl), with_os w sto_proc) /\ ram_read 4102 2 w = [1; 1].
Proof.
  destruct (mb_copies_behind_buffer (Mb 3 1 2 None 1) 4096 [1; 1; 1] [] sto_proc) as [H _];
    [simpl; lia|simpl; lia|simpl; lia|reflexivity|reflexivity|].
  destruct H as (fl & w & E & Hr & _); [simpl; lia|]. exists fl, w. split; [exact E|exact Hr].
Defined.

(** The flushed addresses cover the block when it starts on a cache line: each
    byte lies in a line that is flushed. *)
Lemma clflush_covers addr size b :
  addr `mod` 64 = 0 -> 0 <= b < size ->
  exists x, x ∈ clflush_opt addr (mb_nline size) /\ x / 64 = (addr + b) / 64.
Proof.
  intros Ha Hb. exists (addr + b / 64 * 64). split.
  - unfold clflush_opt. apply list_elem_of_fmap. exists (b / 64). split; [done|].
    apply elem_of_seqZ. unfold mb_nline. rewrite Z.rem_mod_nonneg, Z.quot_div_nonneg by lia.
    destruct (Z.eqb_spec (size `mod` 64) 0); simpl; Z.to_euclidean_division_equations; lia.
  - Z.to_euclidean_division_equations. lia.
Qed.

(** It does not when it starts inside one and ends a line later: the last bytes
    are in a line that is not flushed. *)
Example clflush_misses :
  Forall (fun x => x / 64 <> (32 + 63) / 64) (clflush_opt 32 (mb_nline 64)).
Proof. repeat constructor; vm_compute; discriminate. Qed.
