(* ===== verification/Threads.v ===== *)
(** * Threads and ports of the programs under apps/

    What the [main] functions of nmgen, nvgen, generator and bench-nvme use to
    set up their work: POSIX threads, the SIGINT handler, and the two interfaces
    of netmap that open ports.  All of it is outside the sources: [Pthreads] and
    [Ports] are the operations, [PthreadsOk] and [PortsOk] what is relied on.
    The array of thread structures ([ths], [gen_th], [th]) is part of the state,
    so that a thread number that was never written, or an index behind the
    array, is seen.  The loops that open ports, create and join threads, and
    their specifications, are here; Mains.v composes them. *)

From S2P Require Import Prelude CStr LibpopH Unvme.

(** ** The state of [main] *)

(** Functions that run as threads. *)
Inductive thread_fn : Type :=
  | F_nmgen_sender | F_nmgen_receiver
  | F_nvgen_sender_netmap | F_nvgen_sender_unvme | F_nvgen_receiver
  | F_generator_body | F_bench_start
  | F_count.                                    (* [count_thread], [report_interval] *)

(** One element of the array of threads: [t_tid] is [None] while it is
    indeterminate, [t_nmd] is the pointer to a descriptor of type [P], and [X]
    are the other fields that [main] sets. *)
Record thr (P X : Type) : Type := Thr {
  t_tid : option Z; t_cpu : Z; t_nmd : option P; t_own : X
}.
Arguments Thr {P X}.
Arguments t_tid {P X}.
Arguments t_cpu {P X}.
Arguments t_nmd {P X}.
Arguments t_own {P X}.

Record mst (W P X : Type) : Type := Mst {
  ms_proc : proc W; ms_ths : list (thr P X); ms_caught : bool
}.
Arguments Mst {W P X}.
Arguments ms_proc {W P X}.
Arguments ms_ths {W P X}.
Arguments ms_caught {W P X}.

(** [struct nmport_d] of libnetmap and [struct nm_desc] of netmap_user.h, as far
    as the programs look into them. *)
Record nmport_d : Type := NmportD { nd_id : Z; reg_nr_mode : Z; reg_nr_ringid : Z }.
Record nm_desc : Type := NmDesc { nm_fd : Z; req_nr_name : cstr; req_nr_flags : Z; req_nr_ringid : Z }.

(** ** Operations *)

(** [pthread_create] gives the number of the new thread, or [None] when it
    fails and leaves the variable indeterminate.  [pthread_join] waits: the
    process it returns is the one that the other threads have left, and the flag
    says whether the signal handler has run meanwhile.  It is [Diverge] when the
    thread never ends, and a fault when a thread runs into one. *)
Class Pthreads (W : Type) : Type := {
  signal_SIGINT : W -> bool * W;                        (* whether the handler was installed *)
  pthread_create : thread_fn -> Z -> W -> option Z * W;
  pthread_join : bool -> Z -> proc W -> outcome (bool * proc W)
}.

Class Ports (W : Type) : Type := {
  NR_REG_MASK : Z; NR_REG_ONE_NIC : Z;
  NM_OPEN_NO_MMAP : Z; NM_OPEN_IFNAME : Z; NM_OPEN_ARG1 : Z; NM_OPEN_ARG2 : Z; NM_OPEN_ARG3 : Z;
  NM_OPEN_RING_CFG : Z;
  nmport_prepare : option cstr -> W -> option nmport_d * W;
  nmport_clone : nmport_d -> W -> option nmport_d * W;
  nmport_open_desc : nmport_d -> W -> (Z * nmport_d) * W;   (* result, and what it left in the descriptor *)
  nm_parse : option cstr -> nm_desc -> W -> (Z * nm_desc) * W;
  nm_open : option cstr -> Z -> nm_desc -> W -> option nm_desc * W;
  nm_close : option nm_desc -> W -> Z * W
}.
Arguments NR_REG_MASK W {_}.
Arguments NR_REG_ONE_NIC W {_}.
Arguments NM_OPEN_NO_MMAP W {_}.
Arguments NM_OPEN_IFNAME W {_}.
Arguments NM_OPEN_ARG1 W {_}.
Arguments NM_OPEN_ARG2 W {_}.
Arguments NM_OPEN_ARG3 W {_}.
Arguments NM_OPEN_RING_CFG W {_}.

(** [unjoined] are the threads that were created and not yet joined, [started]
    is the history of their creation.  A new number is not one of a thread that
    has not been joined, and it is not 0.  To join any other number is undefined.
    When [pthread_join] returns, that thread is gone; nothing is assumed of
    whether it returns.  The thread functions create no threads and open no
    ports, so that a join leaves the histories as they are. *)
Class PthreadsOk (W : Type) `{Pthreads W} : Type := {
  unjoined : W -> gset Z;
  started : W -> list (thread_fn * Z);
  signal_ok w : let w' := (signal_SIGINT w).2 in unjoined w' = unjoined w /\ started w' = started w;
  create_ok f a w :
    match pthread_create f a w with
    | (Some t, w') => t <> 0 /\ (t ∉ unjoined w) /\ unjoined w' = ({[t]} ∪ unjoined w) /\
                      started w' = started w ++ [(f, a)]
    | (None, w') => unjoined w' = unjoined w /\ started w' = started w
    end;
  join_ok caught t s b s' :
    t ∈ unjoined (p_os s) -> pthread_join caught t s = Ret (b, s') ->
    unjoined (p_os s') = (unjoined (p_os s) ∖ {[t]}) /\ started (p_os s') = started (p_os s);
  join_unknown caught t s : t ∉ unjoined (p_os s) -> pthread_join caught t s = Fault DanglingPtr
}.

(** What is done to the ports: a registration through libnetmap, as mode and
    ring; [nm_open], as flags and ring, with the descriptor it returned; and
    [nm_close]. *)
Inductive port_event : Type :=
  | Registered (mode ring : Z)
  | Opened (flags ring : Z) (d : option nm_desc)
  | Closed (d : option nm_desc).

(** [requests] is the history of the ports.  Ports and threads do not touch each
    other. *)
Class PortsOk (W : Type) `{Ports W} `{PthreadsOk W} : Type := {
  requests : W -> list port_event;
  one_nic_mask : Z.land (NR_REG_ONE_NIC W) (NR_REG_MASK W) = NR_REG_ONE_NIC W;
  prepare_ok port w : let w' := (nmport_prepare port w).2 in
    unjoined w' = unjoined w /\ started w' = started w /\ requests w' = requests w;
  clone_ok d w : let '(o, w') := nmport_clone d w in
    (forall d', o = Some d' -> reg_nr_mode d' = reg_nr_mode d) /\
    unjoined w' = unjoined w /\ started w' = started w /\ requests w' = requests w;
  open_desc_ok d w : let '((r, d'), w') := nmport_open_desc d w in
    reg_nr_mode d' = reg_nr_mode d /\ unjoined w' = unjoined w /\ started w' = started w /\
    requests w' = requests w ++ [Registered (reg_nr_mode d) (reg_nr_ringid d)];
  parse_ok port d w : let w' := (nm_parse port d w).2 in
    unjoined w' = unjoined w /\ started w' = started w /\ requests w' = requests w;
  open_ok port fl d w : let '(o, w') := nm_open port fl d w in
    unjoined w' = unjoined w /\ started w' = started w /\
    requests w' = requests w ++ [Opened (req_nr_flags d) (req_nr_ringid d) o];
  close_ok d w : let w' := (nm_close d w).2 in
    unjoined w' = unjoined w /\ started w' = started w /\ requests w' = requests w ++ [Closed d];
  create_requests f a w : requests (pthread_create f a w).2 = requests w;
  signal_requests w : requests (signal_SIGINT w).2 = requests w;
  join_requests caught t s b s' : pthread_join caught t s = Ret (b, s') -> requests (p_os s') = requests (p_os s)
}.

(** ** Pieces of the programs *)

(** A loop whose body may return from the function. *)
Fixpoint for_until {St I R : Type} (l : list I) (body : I -> M St (option R)) : M St (option R) :=
  match l with
  | [] => mret None
  | i :: l' => r ← body i; match r with Some x => mret (Some x) | None => for_until l' body end
  end.

Lemma for_until_app {St I R : Type} (l1 l2 : list I) (body : I -> M St (option R)) s :
  for_until (l1 ++ l2) body s =
  (r ← for_until l1 body; match r with Some x => mret (Some x) | None => for_until l2 body end) s.
Proof.
  revert s. induction l1 as [|i l1 IH]; intros s; [done|]. simpl. unfold mbind, M_bind in *.
  destruct (body i s) as [[[x|] s']| |]; [done|apply IH|done..].
Qed.

Section pieces.
Context {W P X : Type}.
Implicit Type s : mst W P X.

Definition with_proc (p : proc W) s : mst W P X := Mst p (ms_ths s) (ms_caught s).
Definition with_ths l s : mst W P X := Mst (ms_proc s) l (ms_caught s).

(** A call that works on the process. *)
Definition in_proc {A : Type} (c : M (proc W) A) : M (mst W P X) A := fun s =>
  match c (ms_proc s) with
  | Ret (a, p) => Ret (a, with_proc p s)
  | Diverge => Diverge
  | Fault f => Fault f
  end.

(** [ths[n]], read and written. *)
Definition get_th (n : Z) : M (mst W P X) (thr P X) := fun s =>
  require OutOfBounds (if n <? 0 then None else ms_ths s !! Z.to_nat n) s.

Definition put_th (n : Z) (t : thr P X) : M (mst W P X) () :=
  _ ← get_th n; modify (fun s => with_ths (<[Z.to_nat n := t]> (ms_ths s)) s).

Definition set_tid (t : thr P X) (o : option Z) : thr P X := Thr o (t_cpu t) (t_nmd t) (t_own t).
Definition set_nmd (t : thr P X) (d : option P) : thr P X := Thr (t_tid t) (t_cpu t) d (t_own t).
Definition set_own (t : thr P X) (x : X) : thr P X := Thr (t_tid t) (t_cpu t) (t_nmd t) x.

(** [caught_signal = 1]. *)
Definition catch_signal : M (mst W P X) () := modify (fun s => Mst (ms_proc s) (ms_ths s) true).

(** [if (timeout) { sleep(timeout); caught_signal = 1; }]. *)
Definition stop_after (timeout : Z) : M (mst W P X) () :=
  if timeout =? 0 then mret () else catch_signal.

Context `{Pthreads W}.

(** [pthread_create(&ths[n].tid, NULL, f, &ths[n])]; the result is not looked at. *)
Definition create_th (f : thread_fn) (n : Z) : M (mst W P X) () :=
  t ← get_th n;
  tid ← in_proc (os_call (pthread_create f n));
  put_th n (set_tid t tid).

(** [pthread_join(tid, NULL)]. *)
Definition join (tid : option Z) : M (mst W P X) () := fun s =>
  match tid with
  | None => Fault UninitRead
  | Some t =>
      match pthread_join (ms_caught s) t (ms_proc s) with
      | Ret (sig, p) => Ret ((), Mst p (ms_ths s) (ms_caught s || sig))
      | Diverge => Diverge
      | Fault f => Fault f
      end
  end.

Definition join_th (n : Z) : M (mst W P X) () := t ← get_th n; join (t_tid t).

(** The loops over all threads. *)
Definition create_all (f : thread_fn) (ncpus : Z) : M (mst W P X) () :=
  for_each (seqZ 0 ncpus) (fun n _ => create_th f n) ().
Definition join_all (ncpus : Z) : M (mst W P X) () :=
  for_each (seqZ 0 ncpus) (fun n _ => join_th n) ().
End pieces.

(** ** Outcomes, and why a program may not return *)

(** [Diverge] or a fault. *)
Definition no_return {A : Type} (o : option fault) : outcome A :=
  match o with None => Diverge | Some f => Fault f end.

(** What [c] returns satisfies [Q], and [E] says why it may not return. *)
Definition wp {St A : Type} (E : option fault -> Prop) (c : M St A) (s : St) (Q : A -> St -> Prop) : Prop :=
  match c s with
  | Ret (a, s') => Q a s'
  | Diverge => E None
  | Fault f => E (Some f)
  end.

(** It always returns. *)
Definition never (o : option fault) : Prop := False.

Section wp.
Context {St : Type}.
Implicit Type s : St.

Lemma wp_Ret {A : Type} b (c : M St A) s a s' (Q : A -> St -> Prop) : c s = Ret (a, s') -> Q a s' -> wp b c s Q.
Proof. unfold wp. by intros ->. Qed.

Lemma wp_bind {A B : Type} b (c : M St A) (k : A -> M St B) s Q :
  wp b c s (fun a s' => wp b (k a) s' Q) -> wp b (c ≫= k) s Q.
Proof. unfold wp, mbind, M_bind. by destruct (c s) as [[a s']| |]. Qed.

Lemma wp_bind_inv {A B : Type} b (c : M St A) (k : A -> M St B) s Q :
  wp b (c ≫= k) s Q -> wp b c s (fun a s' => wp b (k a) s' Q).
Proof. unfold wp, mbind, M_bind. by destruct (c s) as [[a s']| |]. Qed.

Lemma wp_mono {A : Type} b (c : M St A) s (Q Q' : A -> St -> Prop) :
  (forall a s', Q a s' -> Q' a s') -> wp b c s Q -> wp b c s Q'.
Proof. unfold wp. destruct (c s) as [[a s']| |]; auto. Qed.

Lemma wp_returns {A : Type} (c : M St A) s Q : wp never c s Q -> exists a s', c s = Ret (a, s') /\ Q a s'.
Proof. unfold wp. destruct (c s) as [[a s']| |]; [eauto|done|done]. Qed.

(** Then the code behind it does not run either. *)
Lemma wp_cases {A B : Type} E (c : M St A) (k : A -> M St B) s Q :
  wp E c s Q ->
  (exists a s', c s = Ret (a, s') /\ Q a s') \/ (exists o, (c ≫= k) s = no_return o /\ E o).
Proof.
  unfold wp, mbind, M_bind. destruct (c s) as [[a s']| |f]; [left; eauto|right..];
    [by exists None|by exists (Some f)].
Qed.

Lemma wp_for_each {I A : Type} b (R : list I -> A -> St -> Prop) (body : I -> A -> M St A) l a s :
  R l a s ->
  (forall i l' a s, R (i :: l') a s -> wp b (body i a) s (R l')) ->
  wp b (for_each l body a) s (R []).
Proof.
  intros H0 Hs. revert a s H0. induction l as [|i l IH]; intros a s H0; [by apply (wp_Ret _ _ _ a s)|].
  simpl. apply wp_bind. eapply wp_mono; [|by apply Hs]. auto.
Qed.

Lemma wp_for_until {I X : Type} b (R : list I -> St -> Prop) (E : X -> St -> Prop) (body : I -> M St (option X)) l s :
  R l s ->
  (forall i l' s, R (i :: l') s -> wp b (body i) s (fun r s' => match r with Some e => E e s' | None => R l' s' end)) ->
  wp b (for_until l body) s (fun r s' => match r with Some e => E e s' | None => R [] s' end).
Proof.
  intros H0 Hs. revert s H0. induction l as [|i l IH]; intros s H0; [by apply (wp_Ret _ _ _ None s)|].
  simpl. apply wp_bind. eapply wp_mono; [|by apply Hs]. intros [e|] s' H; [|by apply IH].
  by apply (wp_Ret _ _ _ (Some e) s').
Qed.
End wp.

(** ** What the pieces do *)

Section creating.
Context {W P X : Type} `{PortsOk W}.
Implicit Type s : mst W P X.

Definition unj s : gset Z := unjoined (p_os (ms_proc s)).
Definition st s : list (thread_fn * Z) := started (p_os (ms_proc s)).
Definition reqs s : list port_event := requests (p_os (ms_proc s)).

Lemma in_proc_os_call {A : Type} (f : W -> A * W) s :
  in_proc (os_call f) s =
  Ret ((f (p_os (ms_proc s))).1, with_proc (with_os (f (p_os (ms_proc s))).2 (ms_proc s)) s).
Proof. unfold in_proc. by rewrite os_call_eq. Qed.

Lemma get_th_eq n t s :
  0 <= n -> ms_ths s !! Z.to_nat n = Some t -> get_th n s = Ret (t, s).
Proof. intros Hn Ht. unfold get_th. replace (n <? 0) with false by lia. by rewrite Ht. Qed.

Lemma put_th_eq n t0 t s :
  0 <= n -> ms_ths s !! Z.to_nat n = Some t0 ->
  put_th n t s = Ret ((), with_ths (<[Z.to_nat n := t]> (ms_ths s)) s).
Proof. intros Hn Ht. unfold put_th. by rewrite (bind_ret _ _ _ _ _ (get_th_eq n t0 s Hn Ht)). Qed.

Lemma get_th_out n s : Z.of_nat (length (ms_ths s)) <= n -> get_th n s = Fault OutOfBounds.
Proof.
  intros Hn. unfold get_th. replace (n <? 0) with false by lia.
  by rewrite lookup_ge_None_2 by lia.
Qed.

(** After some threads were created: [T] are the numbers in the array, [L]
    those of threads whose number was overwritten. *)
Record spawned (T L : list Z) (log : list (thread_fn * Z)) s0 s : Prop := Spawned {
  sp_len : length (ms_ths s) = length (ms_ths s0);
  sp_nmd : t_nmd <$> ms_ths s = t_nmd <$> ms_ths s0;
  sp_tid i t : T !! i = Some t -> exists th, ms_ths s !! i = Some th /\ t_tid th = Some t;
  sp_nodup : NoDup (T ++ L);
  sp_fresh t : t ∈ T ++ L -> t ∉ unj s0;
  sp_unj : unj s = list_to_set (T ++ L) ∪ unj s0;
  sp_st : st s = st s0 ++ log;
  sp_reqs : reqs s = reqs s0;
  sp_caught : ms_caught s = ms_caught s0
}.

Lemma spawned_nil s : spawned [] [] [] s s.
Proof. split; [done|done|done|constructor|set_solver..|by rewrite app_nil_r|done|done]. Qed.

(** A step that keeps the outside world and the numbers of the threads. *)
Lemma spawned_same T L log s0 s s' :
  p_os (ms_proc s') = p_os (ms_proc s) -> ms_caught s' = ms_caught s ->
  (forall i, t_tid <$> ms_ths s' !! i = t_tid <$> ms_ths s !! i) -> t_nmd <$> ms_ths s' = t_nmd <$> ms_ths s ->
  spawned T L log s0 s -> spawned T L log s0 s'.
Proof.
  intros Ho Hc' Htid Hnmd [Hl Hd Ht Hn Hf Hu Hs Hr Hc].
  assert (length (ms_ths s') = length (ms_ths s)) as Hlen
    by (apply (f_equal length) in Hnmd; by rewrite !length_fmap in Hnmd).
  split; [congruence|congruence| |done|done|unfold unj in *; congruence|unfold st in *; congruence
         |unfold reqs in *; congruence|congruence].
  intros i t Hi. destruct (Ht i t Hi) as (th & Eth & Eid). specialize (Htid i). rewrite Eth in Htid. simpl in Htid.
  destruct (ms_ths s' !! i) as [th'|]; [|done]. exists th'. split; [done|]. simpl in Htid. congruence.
Qed.

(** A write that keeps the port of the thread. *)
Lemma insert_nmd (l : list (thr P X)) i th th' :
  l !! i = Some th -> t_nmd th' = t_nmd th -> t_nmd <$> <[i := th']> l = t_nmd <$> l.
Proof. intros Hi E. rewrite list_fmap_insert, E. apply list_insert_id. by rewrite list_lookup_fmap, Hi. Qed.

(** No thread fails to be created, so that every [tid] is set. *)
Definition creates : Prop := forall f a (w : W), (pthread_create f a w).1 <> None.
Hypothesis Hcreates : creates.

(** A thread whose number goes into a variable. *)
Lemma create_var f a s :
  exists t w, in_proc (os_call (pthread_create f a)) s = Ret (Some t, with_proc (with_os w (ms_proc s)) s) /\
    (t ∉ unj s) /\ unjoined w = ({[t]} ∪ unj s) /\ started w = st s ++ [(f, a)] /\ requests w = reqs s.
Proof.
  rewrite in_proc_os_call. pose proof (Hcreates f a (p_os (ms_proc s))) as Hc.
  pose proof (create_ok f a (p_os (ms_proc s))) as Hok. pose proof (create_requests f a (p_os (ms_proc s))) as Hr.
  destruct (pthread_create f a (p_os (ms_proc s))) as [[t|] w]; [|done].
  destruct Hok as (_ & Hf & Hu & Hs). by exists t, w.
Qed.

(** A thread whose number goes into the array. *)
Lemma create_th_eq f n th s :
  0 <= n -> ms_ths s !! Z.to_nat n = Some th ->
  exists (t : Z) (w : W), create_th f n s =
      Ret ((), Mst (with_os w (ms_proc s)) (<[Z.to_nat n := set_tid th (Some t)]> (ms_ths s)) (ms_caught s)) /\
    (t ∉ unj s) /\ unjoined w = ({[t]} ∪ unj s) /\ started w = st s ++ [(f, n)] /\ requests w = reqs s.
Proof.
  intros Hn Ht. destruct (create_var f n s) as (t & w & E & Hw). exists t, w. split; [|done].
  unfold create_th. rewrite (bind_ret _ _ _ _ _ (get_th_eq n th s Hn Ht)), (bind_ret _ _ _ _ _ E).
  by rewrite (put_th_eq n th).
Qed.

(** The next thread: its number goes to the element behind those of [T]. *)
Lemma spawned_create T L log s0 s f :
  spawned T L log s0 s -> (length T < length (ms_ths s0))%nat ->
  exists t w th, ms_ths s !! length T = Some th /\
    let s' := Mst (with_os w (ms_proc s)) (<[length T := set_tid th (Some t)]> (ms_ths s)) (ms_caught s) in
    create_th f (Z.of_nat (length T)) s = Ret ((), s') /\
    spawned (T ++ [t]) L (log ++ [(f, Z.of_nat (length T))]) s0 s'.
Proof.
  intros [Hl Hd Ht Hn Hf Hu Hs Hr Hc] Hlt.
  destruct (lookup_lt_is_Some_2 (ms_ths s) (length T)) as [th Eth]; [lia|].
  destruct (create_th_eq f (Z.of_nat (length T)) th s) as (t & w & E & Hfr & Eu & Es & Er); [lia|by rewrite Nat2Z.id|].
  rewrite Nat2Z.id in E. exists t, w, th. split; [done|]. intros s'. split; [exact E|].
  assert (t ∉ T ++ L) as Hnew by (intros Hin; apply Hfr; rewrite Hu; set_solver).
  assert (T ++ [t] ++ L ≡ₚ t :: T ++ L) as Hp by (symmetry; apply Permutation_middle).
  split; try done.
  - simpl. by rewrite length_insert.
  - simpl. by rewrite (insert_nmd _ _ th).
  - intros i u Hi. destruct (decide (i = length T)) as [->|Hne].
    + rewrite lookup_app_r, Nat.sub_diag in Hi by lia. injection Hi as <-.
      eexists. split; [apply list_lookup_insert_eq; lia|done].
    + apply lookup_app_Some in Hi as [Hi|[Hge Hi]].
      * simpl. rewrite list_lookup_insert_ne by done. by apply Ht.
      * apply list_lookup_singleton_Some in Hi as [? _]. lia.
  - rewrite <- app_assoc, Hp. by constructor.
  - intros u. rewrite <- app_assoc, Hp, elem_of_cons. intros [->|Hin]; [|by apply Hf].
    rewrite Hu in Hfr. set_solver.
  - change (unj s') with (unjoined w). rewrite Eu, Hu, <- app_assoc. set_solver.
  - change (st s') with (started w). by rewrite Es, Hs, app_assoc.
  - change (reqs s') with (requests w). by rewrite Er.
Qed.

(** The number of another thread is written over the last one, which is lost. *)
Lemma spawned_overwrite T u L log s0 s f :
  spawned (T ++ [u]) L log s0 s ->
  exists t w th, ms_ths s !! length T = Some th /\
    let s' := Mst (with_os w (ms_proc s)) (<[length T := set_tid th (Some t)]> (ms_ths s)) (ms_caught s) in
    create_th f (Z.of_nat (length T)) s = Ret ((), s') /\
    spawned (T ++ [t]) (u :: L) (log ++ [(f, Z.of_nat (length T))]) s0 s'.
Proof.
  intros [Hl Hd Ht Hn Hf Hu Hs Hr Hc].
  destruct (Ht (length T) u) as (th & Eth & _); [by rewrite lookup_app_r, Nat.sub_diag by lia|].
  destruct (create_th_eq f (Z.of_nat (length T)) th s) as (t & w & E & Hfr & Eu & Es & Er); [lia|by rewrite Nat2Z.id|].
  rewrite Nat2Z.id in E. exists t, w, th. split; [done|]. intros s'. split; [exact E|].
  assert (t ∉ (T ++ [u]) ++ L) as Hnew by (intros Hin; apply Hfr; rewrite Hu; set_solver).
  assert ((T ++ [t]) ++ u :: L ≡ₚ t :: (T ++ [u]) ++ L) as Hp
    by (rewrite <- !app_assoc; symmetry; apply Permutation_middle).
  split; try done.
  - simpl. by rewrite length_insert.
  - simpl. by rewrite (insert_nmd _ _ th).
  - intros i v Hi. destruct (decide (i = length T)) as [->|Hne].
    + rewrite lookup_app_r, Nat.sub_diag in Hi by lia. injection Hi as <-.
      eexists. split; [apply list_lookup_insert_eq; by eapply lookup_lt_Some|done].
    + apply lookup_app_Some in Hi as [Hi|[Hge Hi]].
      * simpl. rewrite list_lookup_insert_ne by done. apply Ht. by apply lookup_app_l_Some.
      * apply list_lookup_singleton_Some in Hi as [? _]. lia.
  - rewrite Hp. by constructor.
  - intros v. rewrite Hp, elem_of_cons. intros [->|Hin]; [|by apply Hf]. rewrite Hu in Hfr. set_solver.
  - change (unj s') with (unjoined w). rewrite Eu, Hu. apply set_eq. intros x.
    rewrite !elem_of_union, !elem_of_list_to_set, Hp, elem_of_cons, elem_of_singleton. tauto.
  - change (st s') with (started w). by rewrite Es, Hs, app_assoc.
  - change (reqs s') with (requests w). by rewrite Er.
Qed.

(** A thread whose number goes to a variable of its own. *)
Lemma spawned_var T L log s0 s f a :
  spawned T L log s0 s ->
  exists t w, let s' := with_proc (with_os w (ms_proc s)) s in
    in_proc (os_call (pthread_create f a)) s = Ret (Some t, s') /\
    (t ∉ T ++ L) /\ spawned T (t :: L) (log ++ [(f, a)]) s0 s'.
Proof.
  intros [Hl Hd Ht Hn Hf Hu Hs Hr Hc].
  destruct (create_var f a s) as (t & w & E & Hfr & Eu & Es & Er). exists t, w. intros s'. split; [done|].
  assert (t ∉ T ++ L) as Hnew by (intros Hin; apply Hfr; rewrite Hu; set_solver).
  split; [done|]. split; try done.
  - rewrite <- Permutation_middle. by constructor.
  - intros u. rewrite <- Permutation_middle, elem_of_cons. intros [->|Hin]; [|by apply Hf].
    rewrite Hu in Hfr. set_solver.
  - change (unj s') with (unjoined w). rewrite Eu, Hu. set_solver.
  - change (st s') with (started w). by rewrite Es, Hs, app_assoc.
  - change (reqs s') with (requests w). by rewrite Er.
Qed.

End creating.
Arguments creates W {_}.

(** ** Joining *)

Section joining.
Context {W P X : Type} `{PortsOk W}.
Implicit Type s : mst W P X.

(** Why a program may not return: it waits in [pthread_join] for a thread [t]
    that was created and not yet joined, and that call does not return.  By then
    the threads of [log] have been created, and [caught_signal] is set if [b]
    says so. *)
Definition join_stuck (b : bool) (log : list (thread_fn * Z)) (o : option fault) : Prop :=
  exists (caught : bool) (t : Z) (p : proc W),
    t ∈ unjoined (p_os p) /\ started (p_os p) = log /\ (b = true -> caught = true) /\
    pthread_join caught t p = no_return o.

(** Only the threads of [D] have been joined, and [C] happened to the ports. *)
Record joined (D : gset Z) (C : list port_event) s0 s : Prop := Joined {
  jn_ths : ms_ths s = ms_ths s0;
  jn_unj : unj s = unj s0 ∖ D;
  jn_st : st s = st s0;
  jn_reqs : reqs s = reqs s0 ++ C;
  jn_caught : ms_caught s0 = true -> ms_caught s = true
}.

Lemma joined_refl s : joined ∅ [] s s.
Proof. split; [done|set_solver|done|by rewrite app_nil_r|done]. Qed.

Lemma joined_trans D1 D2 C1 C2 s0 s1 s2 :
  joined D1 C1 s0 s1 -> joined D2 C2 s1 s2 -> joined (D1 ∪ D2) (C1 ++ C2) s0 s2.
Proof.
  intros [A1 B1 S1 R1 E1] [A2 B2 S2 R2 E2].
  split; [congruence|rewrite B2, B1; set_solver|congruence|by rewrite R2, R1, app_assoc|auto].
Qed.

Lemma join_wp b t s :
  t ∈ unj s -> (b = true -> ms_caught s = true) ->
  wp (join_stuck b (st s)) (join (Some t)) s (fun _ s' => joined {[t]} [] s s').
Proof.
  intros Hin Hb. unfold wp, join.
  destruct (pthread_join (ms_caught s) t (ms_proc s)) as [[sig p]| |f] eqn:E;
    [|by exists (ms_caught s), t, (ms_proc s)..].
  destruct (join_ok _ _ _ _ _ Hin E) as [Hu Hs]. pose proof (join_requests _ _ _ _ _ E) as Hr.
  split; [done|done|done|by rewrite app_nil_r|]. simpl. by intros ->.
Qed.

Lemma join_th_wp b n th t s :
  0 <= n -> ms_ths s !! Z.to_nat n = Some th -> t_tid th = Some t -> t ∈ unj s ->
  (b = true -> ms_caught s = true) ->
  wp (join_stuck b (st s)) (join_th n) s (fun _ s' => joined {[t]} [] s s').
Proof.
  intros Hn Hth Ht Hin Hb. unfold join_th. apply wp_bind.
  apply (wp_Ret _ _ _ th s); [by apply get_th_eq|]. rewrite Ht. by apply join_wp.
Qed.

(** A loop joins all threads whose numbers the array holds; [ev] is what it does
    to the port of each. *)
Definition joins (ev : option P -> list port_event) (c : Z -> M (mst W P X) ()) : Prop := forall b T s,
  (forall i t, T !! i = Some t -> exists th, ms_ths s !! i = Some th /\ t_tid th = Some t) ->
  NoDup T -> (forall t, t ∈ T -> t ∈ unj s) -> (b = true -> ms_caught s = true) ->
  wp (join_stuck b (st s)) (c (Z.of_nat (length T))) s (fun _ s' =>
    joined (list_to_set T) (mjoin (ev <$> take (length T) (t_nmd <$> ms_ths s))) s s').

(** It does if every round joins one, and does nothing else to the threads. *)
Lemma joins_each ev (body : Z -> M (mst W P X) ()) :
  (forall b n th t s, 0 <= n -> ms_ths s !! Z.to_nat n = Some th -> t_tid th = Some t -> t ∈ unj s ->
     (b = true -> ms_caught s = true) ->
     wp (join_stuck b (st s)) (body n) s (fun _ s' => joined {[t]} (ev (t_nmd th)) s s')) ->
  joins ev (fun k => for_each (seqZ 0 k) (fun n _ => body n) ()).
Proof.
  intros Hbody b T s Htid Hnd Hin Hb. set (nmds := t_nmd <$> ms_ths s).
  eapply wp_mono; [|apply (wp_for_each _ (fun rest _ s' => exists k, (k <= length T)%nat /\
    rest = seqZ (Z.of_nat k) (Z.of_nat (length T - k)) /\
    joined (list_to_set (take k T)) (mjoin (ev <$> take k nmds)) s s'))].
  - intros [] s' (k & Hk & Hrest & Hj). destruct (decide (k = length T)) as [->|Hne]; [by rewrite firstn_all in Hj|].
    exfalso. apply (f_equal length) in Hrest. rewrite length_seqZ in Hrest. simpl in Hrest. lia.
  - exists 0%nat. split; [lia|]. split; [by rewrite Nat.sub_0_r|apply joined_refl].
  - intros n rest [] s1 (k & Hk & Hrest & Hj).
    destruct (decide (k = length T)) as [->|Hne]; [by rewrite Nat.sub_diag in Hrest|].
    rewrite seqZ_cons in Hrest by lia. injection Hrest as -> ->.
    destruct (lookup_lt_is_Some_2 T k) as [t Et]; [lia|]. destruct (Htid k t Et) as (th & Eth & Eid).
    assert (nmds !! k = Some (t_nmd th)) as En by (unfold nmds; by rewrite list_lookup_fmap, Eth).
    pose proof Hj as [A B S _ C]. rewrite <- S.
    eapply wp_mono; [|apply (Hbody b _ th t s1); [lia|by rewrite Nat2Z.id, A|done| |auto]].
    + intros [] s2 Hj2. exists (Datatypes.S k). split; [lia|]. split; [f_equal; lia|].
      rewrite (take_S_r _ _ _ Et), (take_S_r _ _ _ En), list_to_set_app_L, list_to_set_singleton_L, fmap_app, join_app.
      simpl. rewrite app_nil_r. by eapply joined_trans.
    + rewrite B. assert (t ∉ take k T); [|apply elem_of_difference; split; [by apply Hin, list_elem_of_lookup_2 with k|set_solver]].
      intros (j & (Hjt & Hlt)%lookup_take_Some)%list_elem_of_lookup.
      pose proof (NoDup_lookup T j k t Hnd Hjt Et). lia.
Qed.

Lemma join_all_joins : joins (fun _ => []) join_all.
Proof. apply (joins_each _ join_th). intros. by eapply join_th_wp. Qed.

(** Joining alone leaves the ports. *)
Lemma no_events {A : Type} (l : list A) : mjoin ((fun _ => [] : list port_event) <$> l) = [].
Proof. by induction l. Qed.

End joining.

(** ** The two halves of the programs *)

Section halves.
Context {W P X : Type} `{PortsOk W}.
Implicit Type s : mst W P X.

(** The loop that creates the threads: every round puts one number into the
    array and loses [c] others. *)
Lemma spawn_loop (J : mst W P X -> Prop) c (lg : Z -> list (thread_fn * Z)) (body : Z -> M (mst W P X) ()) k s0 :
  (forall T L log s, spawned T L log s0 s -> J s -> (length T < k)%nat ->
     wp never (body (Z.of_nat (length T))) s (fun _ s' => exists t l, length l = c /\
       spawned (T ++ [t]) (l ++ L) (log ++ lg (Z.of_nat (length T))) s0 s' /\ J s')) ->
  J s0 ->
  exists T L s', for_each (seqZ 0 (Z.of_nat k)) (fun n _ => body n) () s0 = Ret ((), s') /\
    length T = k /\ length L = (c * k)%nat /\ spawned T L (mjoin (lg <$> seqZ 0 (Z.of_nat k))) s0 s' /\ J s'.
Proof.
  intros Hb HJ0. induction k as [|k IH].
  - exists [], [], s0. split; [done|]. split; [done|]. split; [simpl; lia|]. split; [apply spawned_nil|done].
  - destruct IH as (T & L & s1 & E & HT & HL & Hsp & HJ); [intros; apply Hb; [done..|lia]|].
    rewrite seqZ_S, for_each_app, (bind_ret _ _ _ _ _ E), fmap_app, join_app, Z.add_0_l.
    destruct (wp_returns _ _ _ (Hb T L _ s1 Hsp HJ ltac:(lia))) as ([] & s2 & E2 & t & l & Hl & Hsp2 & HJ2).
    exists (T ++ [t]), (l ++ L), s2. rewrite HT in E2, Hsp2. simpl. rewrite (bind_ret _ _ _ _ _ E2), app_nil_r.
    split; [done|]. rewrite !length_app. simpl. split; [lia|]. split; [lia|done].
Qed.

(** The end: [v] is the number of the counting thread, which is in a variable. *)
Lemma join_both b ev c v T L log s0 s :
  joins ev c -> spawned T (v :: L) log s0 s -> (b = true -> ms_caught s = true) ->
  let C := mjoin (ev <$> take (length T) (t_nmd <$> ms_ths s0)) in
  wp (join_stuck b (st s)) (_ ← join (Some v); c (Z.of_nat (length T))) s (fun _ s' =>
    joined (list_to_set (v :: T)) C s s' /\ unj s' = list_to_set L ∪ unj s0) /\
  wp (join_stuck b (st s)) (_ ← c (Z.of_nat (length T)); join (Some v)) s (fun _ s' =>
    joined (list_to_set (v :: T)) C s s' /\ unj s' = list_to_set L ∪ unj s0).
Proof.
  intros Hjoins [Hl Hd Ht Hn Hf Hu Hs Hr Hc] Hb C.
  apply NoDup_app in Hn as (HT & Hdis & HvL). apply NoDup_cons in HvL as [Hv HL].
  assert (forall t, t ∈ T -> t ∈ unj s) as Hin by (intros t Hx; rewrite Hu; set_solver).
  assert (v ∈ unj s) as Hvin by (rewrite Hu; set_solver).
  assert (v ∉ T) as HvT by (intros Hx; apply (Hdis v Hx); set_solver).
  assert (forall s', joined (list_to_set (v :: T)) C s s' -> unj s' = list_to_set L ∪ unj s0) as Hend.
  { intros s' [_ B _ _ _]. rewrite B, Hu. apply set_eq. intros x.
    pose proof (Hf x). pose proof (Hdis x). rewrite elem_of_app in *. rewrite elem_of_cons in *.
    set_unfold. destruct (decide (x = v)); naive_solver. }
  split.
  - apply wp_bind. eapply wp_mono; [|by apply (join_wp b v s)]. intros [] s1 Hj. pose proof Hj as [A B S _ K].
    rewrite <- S. eapply wp_mono; [|apply (Hjoins b T s1); [by rewrite A|done| |auto]].
    + intros [] s2 Hj2. rewrite A, Hd in Hj2.
      assert (joined (list_to_set (v :: T)) C s s2) as Hx by (by eapply (joined_trans _ _ [])). auto.
    + intros t Hx. rewrite B. set_solver.
  - apply wp_bind. eapply wp_mono; [|by apply (Hjoins b T s)]. intros [] s1 Hj. pose proof Hj as [A B S _ K].
    rewrite <- S. eapply wp_mono; [|apply (join_wp b v s1); [|auto]].
    + intros [] s2 Hj2. rewrite Hd in Hj. assert (joined (list_to_set (v :: T)) C s s2) as Hx; [|auto].
      replace (list_to_set (v :: T) : gset Z) with (list_to_set T ∪ {[v]} : gset Z) by set_solver.
      rewrite <- (app_nil_r C). by eapply joined_trans.
    + rewrite B. set_solver.
Qed.

(** [stop_after] changes nothing but the flag. *)
Lemma stop_after_eq timeout s :
  exists c, stop_after timeout s = Ret ((), Mst (ms_proc s) (ms_ths s) c) /\
    (negb (timeout =? 0) = true -> c = true) /\ (ms_caught s = true -> c = true).
Proof.
  unfold stop_after. destruct (timeout =? 0); simpl; [|by exists true].
  exists (ms_caught s). by destruct s.
Qed.

Hypothesis Hcreates : creates W.

(** The counting thread is created and the program waits. *)
Lemma count_created {R : Type} timeout (k : option Z -> M (mst W P X) R) T L log s0 s :
  spawned T L log s0 s ->
  exists v s0' s', (ctid ← in_proc (os_call (pthread_create F_count 0)); _ ← stop_after timeout; k ctid) s = k (Some v) s' /\
    spawned T (v :: L) (log ++ [(F_count, 0)]) s0' s' /\ unj s0' = unj s0 /\ st s0' = st s0 /\ reqs s0' = reqs s0 /\
    ms_ths s0' = ms_ths s0 /\
    (negb (timeout =? 0) = true -> ms_caught s' = true).
Proof.
  intros Hsp. destruct (spawned_var Hcreates T L log s0 s F_count 0 Hsp) as (v & w & E & Hv & Hsp1).
  set (s1 := with_proc _ s) in *. destruct (stop_after_eq timeout s1) as (sig & E2 & Hc & Hc').
  exists v, (Mst (ms_proc s0) (ms_ths s0) sig), (Mst (ms_proc s1) (ms_ths s1) sig).
  rewrite (bind_ret _ _ _ _ _ E), (bind_ret _ _ _ _ _ E2). split; [done|]. split; [|done]. by destruct Hsp1; split.
Qed.

(** Then all threads that it knows are joined: those of [L] are not. *)
Lemma count_and_join timeout ev (c : Z -> M (mst W P X) ()) T L log s0 s {R : Type} (r : R) :
  joins ev c -> spawned T L log s0 s ->
  wp (join_stuck (negb (timeout =? 0)) (st s0 ++ log ++ [(F_count, 0)]))
    (ctid ← in_proc (os_call (pthread_create F_count 0));
     _ ← stop_after timeout; _ ← join ctid; _ ← c (Z.of_nat (length T)); mret r) s
    (fun r' s' => r' = r /\ unj s' = list_to_set L ∪ unj s0 /\ st s' = st s0 ++ log ++ [(F_count, 0)] /\
       reqs s' = reqs s0 ++ mjoin (ev <$> take (length T) (t_nmd <$> ms_ths s0))).
Proof.
  intros Hjoins Hsp.
  destruct (count_created timeout (fun ctid => _ ← join ctid; _ ← c (Z.of_nat (length T)); mret r) T L log s0 s Hsp)
    as (v & s0' & s2 & E & Hsp2 & Hu0 & Hs0 & Hr0 & Ha0 & Hc).
  unfold wp. rewrite E. destruct (join_both (negb (timeout =? 0)) ev c v T L _ _ s2 Hjoins Hsp2 Hc) as [Hj _].
  pose proof (sp_st _ _ _ _ _ Hsp2) as Hst2. rewrite Hs0 in Hst2. rewrite Hst2, Ha0 in Hj.
  apply wp_bind_inv in Hj. apply wp_bind. eapply wp_mono; [|exact Hj]. intros [] s3 Hj3.
  apply wp_bind. eapply wp_mono; [|exact Hj3]. intros [] s4 [[A B C D _] Hu].
  apply (wp_Ret _ _ _ r s4); [done|]. split; [done|]. split; [congruence|]. rewrite C, D.
  by rewrite Hst2, (sp_reqs _ _ _ _ _ Hsp2), Hr0.
Qed.
End halves.
