(* ===== verification/Count.v ===== *)
(** * The counting threads of the applications

    [count_thread] of apps/nmgen.c, apps/nvgen.c and apps/generator.c and
    [report_interval] of apps/bench-nvme.c: they read the counters of the working
    threads, sleep, read them again and print what was counted in between, until
    [caught_signal] is set; those of nmgen and nvgen then tell the working threads
    to stop.

    The counters, the flag and the clock change while a counting thread runs.  A
    state holds what is in memory now and, for each of the next accesses, what
    the other threads do to it before; every access of the thread to shared
    memory, a call of [gettimeofday] and the sleep are such accesses.  The local
    arrays hold indeterminate values at first.  The arithmetic of [double] is
    the class [Flt]; what is printed is kept as a list of reports, in the units
    of the counters, before the quotients that [printf] formats. *)

From S2P Require Import Prelude CStr LibpopH PopMem Netmap Unvme Options BenchNvme Generator.

(** ** [double] *)

Class Flt (D : Type) : Type := {
  d_of : Z -> D;                  (* an integer as a [double] *)
  d_add : D -> D -> D;
  d_sub : D -> D -> D;
  d_div : D -> D -> D
}.

(** Integers up to [2 ^ 53] are represented exactly. *)
Class FltOk (D : Type) `{Flt D} : Prop := {
  d_add_exact a b : 0 <= a -> 0 <= b -> a + b <= 2 ^ 53 -> d_add (d_of a) (d_of b) = d_of (a + b);
  d_sub_exact a b : 0 <= b <= a -> a <= 2 ^ 53 -> d_sub (d_of a) (d_of b) = d_of (a - b)
}.

(** ** Shared memory *)

(** The structures of the working threads, [caught_signal] and the clock. *)
Record shared (T : Type) : Type := Shared { sh_ths : list T; sh_caught : bool; sh_time : timeval }.
Arguments Shared {T}.
Arguments sh_ths {T}.
Arguments sh_caught {T}.
Arguments sh_time {T}.

(** The memory, what the others do before each of the next accesses, and the
    reports printed. *)
Record cst (T R : Type) : Type := Cst {
  c_now : shared T;
  c_env : list (shared T -> shared T);
  c_out : list R
}.
Arguments Cst {T R}.
Arguments c_now {T R}.
Arguments c_env {T R}.
Arguments c_out {T R}.

Section shared.
Context {T R : Type}.

Definition tick : M (cst T R) () := modify (fun s =>
  match c_env s with [] => s | f :: fs => Cst (f (c_now s)) fs (c_out s) end).

Definition load {A : Type} (f : shared T -> A) : M (cst T R) A := _ ← tick; gets (fun s => f (c_now s)).

(** [ths[n].f]. *)
Definition read_field (f : T -> Z) (n : Z) : M (cst T R) Z :=
  o ← load (fun m => if n <? 0 then None else sh_ths m !! Z.to_nat n);
  t ← require OutOfBounds o;
  mret (f t).

Definition write_th (g : T -> T) (n : Z) : M (cst T R) () :=
  o ← load (fun m => if n <? 0 then None else sh_ths m !! Z.to_nat n);
  t ← require OutOfBounds o;
  modify (fun s => Cst (Shared (<[Z.to_nat n:=g t]> (sh_ths (c_now s))) (sh_caught (c_now s)) (sh_time (c_now s)))
    (c_env s) (c_out s)).

Definition report (r : R) : M (cst T R) () := modify (fun s => Cst (c_now s) (c_env s) (c_out s ++ [r])).

(** [sig_handler], which runs between two steps of a thread. *)
Definition sig_handler (sig : Z) (m : shared T) : shared T :=
  if sig =? 2 then Shared (sh_ths m) true (sh_time m) else m.

(** ** Local arrays *)

(** [unsigned long x[...]], whose elements are indeterminate until they are set. *)
Definition arr : Type := list (option Z).
Definition uninit (n : Z) : arr := replicate (Z.to_nat n) None.

Definition arr_put (a : arr) (n v : Z) : M (cst T R) arr :=
  if (0 <=? n) && (n <? Z.of_nat (length a)) then mret (<[Z.to_nat n:=Some v]> a) else throw OutOfBounds.
Definition arr_at (a : arr) (n : Z) : M (cst T R) Z :=
  o ← require OutOfBounds (if n <? 0 then None else a !! Z.to_nat n);
  require UninitRead o.

(** ** Gathering *)

(** [x[n] = ths[n].x] for one counter after the other. *)
Fixpoint gather_at (n : Z) (fs : list (T -> Z)) (arrs : list arr) : M (cst T R) (list arr) :=
  match fs, arrs with
  | f :: fs', a :: arrs' =>
      v ← read_field f n;
      a' ← arr_put a n v;
      rest ← gather_at n fs' arrs';
      mret (a' :: rest)
  | _, _ => mret []
  end.

Definition gather (ncpus : Z) (fs : list (T -> Z)) (arrs : list arr) : M (cst T R) (list arr) :=
  for_each (seqZ 0 ncpus) (fun n arrs => gather_at n fs arrs) arrs.
End shared.

(** ** nmgen and nvgen *)

(** A report is the totals of the counters and the time they took. *)
Section nmgen.
Context {T D : Type} `{Flt D}.

(** [total += after[n] - before[n]] for one counter after the other; the
    difference is an [unsigned long], the total a [double]. *)
Fixpoint total_at (n : Z) (tot : list D) (befores afters : list arr) : M (cst T (list D * D)) (list D) :=
  match tot, befores, afters with
  | t :: tot', b :: befores', a :: afters' =>
      x ← arr_at a n;
      y ← arr_at b n;
      rest ← total_at n tot' befores' afters';
      mret (d_add t (d_of (x -64 y)) :: rest)
  | _, _, _ => mret []
  end.

Definition totals (ncpus : Z) (befores afters : list arr) : M (cst T (list D * D)) (list D) :=
  for_each (seqZ 0 ncpus) (fun n tot => total_at n tot befores afters) ((fun _ => d_of 0) <$> befores).

Definition usecs (t : timeval) : Z := tv_sec t * 1000000 + tv_usec t.

(** What is between the two checks of [caught_signal]. *)
Definition interval (ncpus : Z) (fs : list (T -> Z)) (befores afters : list arr)
    : M (cst T (list D * D)) (list arr * list arr * (list D * D)) :=
  befores ← gather ncpus fs befores;
  b ← load sh_time;
  _ ← tick;                                    (* usleep(gen->interval) *)
  a ← load sh_time;
  afters ← gather ncpus fs afters;
  tot ← totals ncpus befores afters;
  mret (befores, afters, (tot, d_div (d_sub (d_of (usecs a)) (d_of (usecs b))) (d_of 1000000))).

(** A round of [while (!caught_signal)]. *)
Definition count_round (ncpus : Z) (fs : list (T -> Z)) (x : list arr * list arr) : M (cst T (list D * D)) ((list arr * list arr) + ()) :=
  c ← load sh_caught;
  if c : bool then mret (inr ())
  else
    y ← interval ncpus fs x.1 x.2;
    c ← load sh_caught;
    if c : bool then mret (inr ())
    else _ ← report y.2; mret (inl y.1).

(** [ths[n].cancel = 1]. *)
Definition cancel_all (ncpus : Z) (cancel : T -> T) : M (cst T (list D * D)) () :=
  for_each (seqZ 0 ncpus) (fun n _ => write_th cancel n) ().

(** [gen] is [ths[0].gen->ncpus], if [ths[0].gen] was ever set. *)
Definition count_thread (max : Z) (gen : option Z) (fs : list (T -> Z)) (cancel : T -> T) : M (cst T (list D * D)) () :=
  ncpus ← require UninitRead gen;
  let arrs := (fun _ => uninit max) <$> fs in
  _ ← while_ (count_round ncpus fs) (arrs, arrs);
  cancel_all ncpus cancel.
End nmgen.

(** [main] sets [ths[n].gen] for each thread of the run before it creates this
    one; the array is not cleared. *)
Definition ths0_gen (ncpus : Z) : option Z := if 0 <? ncpus then Some ncpus else None.

(** The counters of a thread of nmgen and its flag. *)
Record nmgen_cnt : Type := NmCnt { nm_cancel : Z; nm_npkts : Z; nm_nbits : Z }.
Definition nmgen_cancel (t : nmgen_cnt) : nmgen_cnt := NmCnt 1 (nm_npkts t) (nm_nbits t).

Definition nmgen_count_thread {D : Type} `{Flt D} (g : NmgenOpt.nmgen) : M (cst nmgen_cnt (list D * D)) () :=
  count_thread NmgenOpt.MAX_CPU_NUM (ths0_gen (NmgenOpt.ncpus g)) [nm_npkts; nm_nbits] nmgen_cancel.

Record nvgen_cnt : Type := NvCnt { nv_cancel : Z; nv_npkts : Z; nv_nbits : Z; nv_nbytes : Z }.
Definition nvgen_cancel (t : nvgen_cnt) : nvgen_cnt := NvCnt 1 (nv_npkts t) (nv_nbits t) (nv_nbytes t).

Definition nvgen_count_thread {D : Type} `{Flt D} (g : NvgenOpt.nvgen) : M (cst nvgen_cnt (list D * D)) () :=
  count_thread NvgenOpt.MAX_CPU_NUM (ths0_gen (NvgenOpt.ncpus g)) [nv_npkts; nv_nbits; nv_nbytes] nvgen_cancel.

(** ** generator *)

Section generator.
Context {T : Type}.

(** [total += (after[n] - before[n]) * w] for one counter after the other, all
    of them [unsigned long]. *)
Fixpoint gen_total_at (n : Z) (tot ws : list Z) (befores afters : list arr) : M (cst T (Z * list Z)) (list Z) :=
  match tot, ws, befores, afters with
  | t :: tot', w :: ws', b :: befores', a :: afters' =>
      x ← arr_at a n;
      y ← arr_at b n;
      rest ← gen_total_at n tot' ws' befores' afters';
      mret ((t +64 (x -64 y) *64 w) :: rest)
  | _, _, _, _ => mret []
  end.

Definition gen_totals (ncpus : Z) (ws : list Z) (befores afters : list arr) : M (cst T (Z * list Z)) (list Z) :=
  for_each (seqZ 0 ncpus) (fun n tot => gen_total_at n tot ws befores afters) ((fun _ => 0) <$> befores).

(** A round of [while (1)]; a report is the time and the totals. *)
Definition gen_count_round (ncpus : Z) (fs : list (T -> Z)) (ws : list Z) (x : list arr * list arr)
    : M (cst T (Z * list Z)) ((list arr * list arr) + ()) :=
  c ← load sh_caught;
  if c : bool then mret (inr ())
  else
    befores ← gather ncpus fs x.1;
    _ ← tick;                                  (* sleep(1) *)
    ts ← load (fun m => tv_sec (sh_time m));
    afters ← gather ncpus fs x.2;
    tot ← gen_totals ncpus ws befores afters;
    _ ← report (ts, tot);
    mret (inl (befores, afters)).
End generator.

Record gen_cnt : Type := GenCnt { gc_npkts : Z; gc_nbytes : Z; gc_ncmds : Z; gc_nbytes_nvme : Z; gc_no_slot : Z }.
Definition gen_fields : list (gen_cnt -> Z) := [gc_npkts; gc_nbytes; gc_nbytes_nvme; gc_ncmds; gc_no_slot].
(** Bytes are reported as bits. *)
Definition gen_weights : list Z := [1; 8; 1; 1; 1].

Definition generator_count_thread (g : GeneratorOpt.generator) : M (cst gen_cnt (Z * list Z)) () :=
  let arrs := (fun _ => uninit GeneratorOpt.MAX_CPUS) <$> gen_fields in
  while_ (gen_count_round (GeneratorOpt.ncpus g) gen_fields gen_weights) (arrs, arrs).

(** ** bench-nvme *)

Record bench_cnt : Type := BenchCnt { bc_count : Z; bc_bytes : Z }.

(** A report: commands, bytes and microseconds. *)
Definition bench_sums (ncpus : Z) : M (cst bench_cnt (Z * Z * Z)) (Z * Z) :=
  for_each (seqZ 0 ncpus) (fun n x =>
    c ← read_field bc_count n;
    b ← read_field bc_bytes n;
    mret (x.1 +64 c, x.2 +64 b)) (0, 0).

Definition print_interval_result (ncpus : Z) : M (cst bench_cnt (Z * Z * Z)) () :=
  start ← load sh_time;
  x ← bench_sums ncpus;
  _ ← tick;                                    (* usleep(p.interval) *)
  stop ← load sh_time;
  y ← bench_sums ncpus;
  report (y.1 -64 x.1, y.2 -64 x.2, get_usec_elapsed start stop).

Definition report_interval (ncpus : Z) : M (cst bench_cnt (Z * Z * Z)) () :=
  while_ (fun _ : () =>
    c ← load sh_caught;
    if c : bool then mret (inr ()) else _ ← print_interval_result ncpus; mret (inl ())) ().

(** ** What the other threads do *)

Section env.
Context {T R : Type}.
Implicit Type m : shared T.
Implicit Type s : cst T R.

(** Every change along the way is a [Q]. *)
Fixpoint path (Q : shared T -> shared T -> Prop) m (env : list (shared T -> shared T)) : Prop :=
  match env with [] => True | g :: gs => Q m (g m) /\ path Q (g m) gs end.

(** [s'] is [s] after some of the accesses, none of which printed or wrote. *)
Definition later s s' : Prop :=
  c_out s' = c_out s /\ exists pre, c_env s = pre ++ c_env s' /\ c_now s' = foldl (fun m g => g m) (c_now s) pre.

#[global] Instance later_preorder : PreOrder later.
Proof.
  split.
  - intros s. split; [done|]. by exists [].
  - intros s1 s2 s3 [O1 (p1 & E1 & N1)] [O2 (p2 & E2 & N2)]. split; [congruence|].
    exists (p1 ++ p2). split; [by rewrite E1, E2, app_assoc|]. by rewrite foldl_app, <- N1.
Qed.

Lemma later_tick s : exists s', tick s = Ret ((), s') /\ later s s' /\ (c_env s = [] -> s' = s) /\
  (c_env s <> [] -> (length (c_env s') < length (c_env s))%nat).
Proof.
  unfold tick, modify. destruct s as [m [|g gs] o]; eexists; (split; [done|]); simpl.
  - split; [done|]. split; [done|]. by intros ?.
  - split; [split; [done|by exists [g]]|]. split; [done|]. intros _. simpl. lia.
Qed.

Lemma load_spec {A : Type} (f : shared T -> A) s :
  exists s', load f s = Ret (f (c_now s'), s') /\ later s s' /\ (c_env s = [] -> s' = s) /\
  (c_env s <> [] -> (length (c_env s') < length (c_env s))%nat).
Proof.
  destruct (later_tick s) as (s' & E & Hl). exists s'. split; [|done]. unfold load.
  by rewrite (bind_ret _ _ _ _ _ E).
Qed.

Lemma later_length s s' : later s s' -> (length (c_env s') <= length (c_env s))%nat.
Proof. intros [_ (p & E & _)]. rewrite E, length_app. lia. Qed.

Lemma path_later Q s s' :
  Reflexive Q -> Transitive Q -> later s s' -> path Q (c_now s) (c_env s) ->
  Q (c_now s) (c_now s') /\ path Q (c_now s') (c_env s').
Proof.
  intros HR HT [_ (p & E & N)]. rewrite E, N. clear E N. generalize (c_now s). induction p as [|g p IH]; intros m; simpl.
  - done.
  - intros [Hq Hp]. destruct (IH _ Hp) as [Hq' Hp']. split; [by transitivity (g m)|done].
Qed.

(** The value of a counter of thread [n]. *)
Definition field_at (f : T -> Z) m (n : Z) : Z := from_option f 0 (sh_ths m !! Z.to_nat n).

(** Only the counters and the flag change: the counters grow, the flag stays
    set, and no thread goes away. *)
Definition counting (fs : list (T -> Z)) m m' : Prop :=
  length (sh_ths m') = length (sh_ths m) /\ (forall f n, f ∈ fs -> field_at f m n <= field_at f m' n) /\
  usecs (sh_time m) <= usecs (sh_time m').

#[global] Instance counting_preorder fs : PreOrder (counting fs).
Proof.
  split; [intros m; by split_and!|]. intros m1 m2 m3 (L1 & F1 & U1) (L2 & F2 & U2). split_and!; [congruence| |lia].
  intros f n Hf. transitivity (field_at f m2 n); auto.
Qed.

Lemma read_field_spec f n s :
  (forall s', later s s' -> length (sh_ths (c_now s')) = length (sh_ths (c_now s))) ->
  0 <= n < Z.of_nat (length (sh_ths (c_now s))) ->
  exists s', read_field f n s = Ret (field_at f (c_now s') n, s') /\ later s s'.
Proof.
  intros Hlen Hn. unfold read_field.
  destruct (load_spec (fun m => if n <? 0 then None else sh_ths m !! Z.to_nat n) s) as (s' & E & Hl & _).
  exists s'. split; [|done]. rewrite (bind_ret _ _ _ _ _ E). rewrite (proj2 (Z.ltb_ge n 0)) by lia.
  destruct (lookup_lt_is_Some_2 (sh_ths (c_now s')) (Z.to_nat n)) as [t Et]; [rewrite Hlen by done; lia|].
  unfold field_at. by rewrite Et.
Qed.

(** ** What is gathered *)

Definition val (a : arr) (n : Z) : Z := match a !! Z.to_nat n with Some (Some v) => v | _ => 0 end.
Definition filled (a : arr) (n : Z) : Prop := is_Some (a !! Z.to_nat n ≫= id).

(** The array holds, for each of the first [k] threads, a value the counter [f]
    of [fs] had between [s] and [s']. *)
Definition gathered (fs : list (T -> Z)) (max k : Z) s s' (f : T -> Z) (a : arr) : Prop :=
  f ∈ fs /\ length a = Z.to_nat max /\
  forall n, 0 <= n < k -> filled a n /\ field_at f (c_now s) n <= val a n <= field_at f (c_now s') n.

(** What is so at every point from [s] on. *)
Lemma counting_later fs s s' :
  path (counting fs) (c_now s) (c_env s) -> later s s' ->
  path (counting fs) (c_now s') (c_env s') /\ length (sh_ths (c_now s')) = length (sh_ths (c_now s)) /\
  (forall f n, f ∈ fs -> field_at f (c_now s) n <= field_at f (c_now s') n) /\
  usecs (sh_time (c_now s)) <= usecs (sh_time (c_now s')).
Proof. intros Hp Hl. by destruct (path_later (counting fs) s s' _ _ Hl Hp) as [(? & ? & ?) ?]. Qed.

Lemma gathered_later fs max k s0 s s' f a :
  path (counting fs) (c_now s) (c_env s) -> later s s' ->
  gathered fs max k s0 s f a -> gathered fs max k s0 s' f a.
Proof.
  intros Hp Hl (Hf & Hlen & Hg). destruct (counting_later fs s s' Hp Hl) as (_ & _ & Hc & _).
  split_and!; [done..|]. intros n Hn. destruct (Hg n Hn) as [Hs Hv]. specialize (Hc f n Hf). split; [done|lia].
Qed.

Lemma gathered_put fs max k s0 s f (a : arr) :
  0 <= k < max -> (forall f n, f ∈ fs -> field_at f (c_now s0) n <= field_at f (c_now s) n) ->
  gathered fs max k s0 s f a -> gathered fs max (k + 1) s0 s f (<[Z.to_nat k:=Some (field_at f (c_now s) k)]> a).
Proof.
  intros Hk Hle (Hf & Hlen & Hg). unfold arr in *. split_and!; [done|by rewrite length_insert|].
  intros n Hn. unfold filled, val, arr in *. destruct (decide (n = k)) as [->|Hne].
  - rewrite list_lookup_insert_eq by lia. simpl. split; [eauto|]. specialize (Hle f k Hf). lia.
  - rewrite list_lookup_insert_ne by lia. apply Hg. lia.
Qed.

(** ** The gathering loops *)

(** [P k s f a] is kept of the array [a] of the counter [f] when the first [k]
    threads were read: it does not depend on what the others do afterwards, and
    reading the next thread gives it for one more. *)
Section gather_inv.
Context (P : Z -> cst T R -> (T -> Z) -> arr -> Prop) (max : Z) (s0 : cst T R).
Hypothesis Hsame : forall s, later s0 s -> length (sh_ths (c_now s)) = length (sh_ths (c_now s0)).
Hypothesis P_length : forall k s f a, P k s f a -> length a = Z.to_nat max.
Hypothesis P_later : forall k s s' f a, later s0 s -> later s s' -> P k s f a -> P k s' f a.
Hypothesis P_put : forall k s f a, later s0 s -> 0 <= k < max -> P k s f a ->
  P (k + 1) s f (<[Z.to_nat k:=Some (field_at f (c_now s) k)]> a).

Lemma gather_at_inv k s fs arrs :
  later s0 s -> 0 <= k < max -> k < Z.of_nat (length (sh_ths (c_now s0))) -> Forall2 (P k s) fs arrs ->
  exists arrs' s', gather_at k fs arrs s = Ret (arrs', s') /\ later s s' /\ Forall2 (P (k + 1) s') fs arrs'.
Proof.
  intros Hl Hk Hth Hg. revert arrs s Hl Hg. induction fs as [|f fs IH]; intros arrs s Hl Hg.
  { exists [], s. split_and!; [by destruct arrs|done|constructor]. }
  apply Forall2_cons_inv_l in Hg as (a & arrs' & Ha & Hg & ->).
  destruct (read_field_spec f k s) as (s1 & E1 & L1); [|rewrite Hsame by done; lia|].
  { intros s1 H1. rewrite (Hsame s), (Hsame s1); [done|by transitivity s|done]. }
  assert (later s0 s1) as L01 by by transitivity s.
  assert (P k s1 f a) as Ha1 by by apply (P_later k s).
  assert (arr_put a k (field_at f (c_now s1) k) s1 = Ret (<[Z.to_nat k:=Some (field_at f (c_now s1) k)]> a, s1)) as E2.
  { unfold arr_put. assert (Z.of_nat (length a) = max) as -> by (rewrite (P_length k s f a Ha); lia).
    rewrite (proj2 (Z.leb_le 0 k)), (proj2 (Z.ltb_lt k max)) by lia. done. }
  destruct (IH arrs' s1 L01) as (rest & s2 & E3 & L2 & Hr).
  { eapply Forall2_impl; [exact Hg|]. intros f' b'. by apply P_later. }
  eexists (_ :: rest), s2. simpl. rewrite (bind_ret _ _ _ _ _ E1), (bind_ret _ _ _ _ _ E2), (bind_ret _ _ _ _ _ E3).
  split; [done|]. split; [by transitivity s1|]. constructor; [|done]. apply (P_later _ s1); [done..|]. by apply P_put.
Qed.

Lemma gather_inv ncpus fs arrs :
  0 <= ncpus <= max -> ncpus <= Z.of_nat (length (sh_ths (c_now s0))) -> Forall2 (P 0 s0) fs arrs ->
  exists arrs' s', gather ncpus fs arrs s0 = Ret (arrs', s') /\ later s0 s' /\ Forall2 (P ncpus s') fs arrs'.
Proof.
  intros Hn Hth Hg.
  destruct (for_each_inv (fun rest arrs s' => exists k, 0 <= k <= ncpus /\ rest = seqZ k (ncpus - k) /\ later s0 s' /\
    Forall2 (P k s') fs arrs) (fun n arrs => gather_at n fs arrs) (seqZ 0 ncpus) arrs s0) as (arrs' & s' & E & k & Hk).
  - exists 0. split_and!; [lia|lia|f_equal; lia|done|done].
  - intros i l' a s1 (k & Hk & El & Hl & Hga). destruct (decide (k = ncpus)) as [->|Hne].
    { by rewrite Z.sub_diag in El. }
    rewrite seqZ_cons in El by lia. injection El as -> ->.
    destruct (gather_at_inv k s1 fs a Hl) as (a' & s2 & E & L2 & Hg'); [lia|lia|done|].
    exists a', s2. split; [done|]. exists (k + 1). split_and!; [lia|lia|f_equal; lia|by transitivity s1|done].
  - destruct Hk as (Hk & El & Hl & Hga). assert (k = ncpus) as ->.
    { destruct (decide (k = ncpus)); [done|]. rewrite seqZ_cons in El by lia. done. }
    by exists arrs', s'.
Qed.
End gather_inv.

Lemma gather_spec fs max ncpus s arrs :
  path (counting fs) (c_now s) (c_env s) ->
  0 <= ncpus <= max -> ncpus <= Z.of_nat (length (sh_ths (c_now s))) ->
  length arrs = length fs -> Forall (fun a => length a = Z.to_nat max) arrs ->
  exists arrs' s', gather ncpus fs arrs s = Ret (arrs', s') /\ later s s' /\ Forall2 (gathered fs max ncpus s s') fs arrs'.
Proof.
  intros Hp Hn Hth Hlen Hall. apply (gather_inv (fun k s' => gathered fs max k s s') max s); try done.
  - intros s1 Hl. by apply (counting_later fs).
  - by intros k s1 f a (_ & ? & _).
  - intros k s1 s2 f a H1 H2. apply gathered_later; [|done]. by apply (counting_later fs s).
  - intros k s1 f a Hl Hk. apply gathered_put; [done|]. by apply (counting_later fs s).
  - apply Forall2_same_length_lookup. split; [done|]. intros i f a Ef Ea. rewrite Forall_lookup in Hall.
    split_and!; [by eapply list_elem_of_lookup_2|by eapply Hall|]. intros n Hn'. lia.
Qed.

(** Whatever the others write, the arrays are set. *)
Lemma gather_fills fs max ncpus s arrs :
  (forall s', later s s' -> length (sh_ths (c_now s')) = length (sh_ths (c_now s))) ->
  0 <= ncpus <= max -> ncpus <= Z.of_nat (length (sh_ths (c_now s))) ->
  length arrs = length fs -> Forall (fun a => length a = Z.to_nat max) arrs ->
  exists arrs' s', gather ncpus fs arrs s = Ret (arrs', s') /\ later s s' /\ length arrs' = length fs /\
    Forall (fun a => length a = Z.to_nat max /\ forall n, 0 <= n < ncpus -> filled a n) arrs'.
Proof.
  intros Hs Hn Hth Hlen Hall.
  destruct (gather_inv (fun k _ _ a => length a = Z.to_nat max /\ forall n, 0 <= n < k -> filled a n) max s Hs)
    with (ncpus := ncpus) (fs := fs) (arrs := arrs) as (arrs' & s' & E & Hl & Hg); try done.
  - by intros k _ _ a [].
  - intros k s1 f a _ Hk [Hla Hf]. unfold arr in *. split; [by rewrite length_insert|]. intros n Hn'. unfold filled, arr in *.
    destruct (decide (n = k)) as [->|Hne]; [rewrite list_lookup_insert_eq by lia; by eexists|].
    rewrite list_lookup_insert_ne by lia. apply Hf. lia.
  - apply Forall2_same_length_lookup. split; [done|]. intros i f a Ef Ea. rewrite Forall_lookup in Hall.
    split; [by eapply Hall|]. intros n Hn'. lia.
  - exists arrs', s'. split_and!; [done..|by rewrite (Forall2_length _ _ _ Hg)|].
    apply Forall_forall. intros a [i Hi]%list_elem_of_lookup. by destruct (Forall2_lookup_r _ _ _ _ _ Hg Hi) as (f & _ & ?).
Qed.
End env.

(** ** What is totalled *)

Definition zsum (l : list Z) : Z := foldr Z.add 0 l.

Lemma zsum_app l1 l2 : zsum (l1 ++ l2) = zsum l1 + zsum l2.
Proof. unfold zsum. induction l1 as [|x l1 IH]; [done|]. cbn [foldr app]. lia. Qed.

(** The sum of [g n] over the threads. *)
Definition over (k : Z) (g : Z -> Z) : Z := zsum (g <$> seqZ 0 k).

Lemma over_0 g : over 0 g = 0.
Proof. done. Qed.

Lemma over_S k g : 0 <= k -> over (k + 1) g = over k g + g k.
Proof.
  intros Hk. unfold over. rewrite seqZ_app, Z.add_0_l by lia. rewrite (seqZ_cons k 1), (seqZ_nil (Z.succ k)) by lia.
  rewrite fmap_app, zsum_app. unfold zsum at 2. cbn [fmap list_fmap foldr]. lia.
Qed.

Lemma over_le k g h : (forall n, 0 <= n < k -> g n <= h n) -> over k g <= over k h.
Proof.
  intros Hle. destruct (decide (k <= 0)) as [Hk|Hk]; [unfold over; by rewrite !seqZ_nil|].
  assert (forall i, 0 <= i -> i <= k -> over i g <= over i h) as Hi; [|apply Hi; lia].
  intros i Hi. pattern i. apply natlike_ind; [done| |done]. clear i Hi. intros i Hi IH Hik.
  replace (Z.succ i) with (i + 1) by lia. rewrite !over_S by done. specialize (Hle i). lia.
Qed.

Lemma over_nonneg k g : (forall n, 0 <= n < k -> 0 <= g n) -> 0 <= over k g.
Proof.
  intros Hg. transitivity (over k (fun _ => 0)); [|by apply over_le].
  unfold over, zsum. induction (seqZ 0 k) as [|n l IH]; [done|]. rewrite fmap_cons. cbn [foldr]. lia.
Qed.

Lemma over_mono k k' g : 0 <= k <= k' -> (forall n, 0 <= n < k' -> 0 <= g n) -> over k g <= over k' g.
Proof.
  intros Hk Hg. assert (forall d : nat, k + Z.of_nat d <= k' -> over k g <= over (k + Z.of_nat d) g) as Hd.
  { induction d as [|d IH]; intros Hd; [by rewrite Z.add_0_r|].
    replace (k + Z.of_nat (S d)) with (k + Z.of_nat d + 1) by lia. rewrite over_S by lia.
    specialize (Hg (k + Z.of_nat d)). lia. }
  specialize (Hd (Z.to_nat (k' - k))). replace (k + Z.of_nat (Z.to_nat (k' - k))) with k' in Hd by lia. apply Hd. lia.
Qed.

Lemma over_sub k g h : over k (fun n => g n - h n) = over k g - over k h.
Proof.
  unfold over, zsum. induction (seqZ 0 k) as [|n l IH]; [done|]. rewrite !fmap_cons. cbn [foldr]. lia.
Qed.

(** The growth of a counter over all threads. *)
Definition growth {T : Type} (k : Z) (f : T -> Z) (m m' : shared T) : Z :=
  over k (fun n => field_at f m' n - field_at f m n).

(** What the first [k] threads counted between the two gatherings. *)
Definition part (k : Z) (x : arr * arr) : Z := over k (fun n => val x.2 n - val x.1 n).

Section total.
Context {T D : Type} `{FltOk D}.
Implicit Type s : cst T (list D * D).

Lemma arr_at_spec {R : Type} (a : arr) n (s : cst T R) : 0 <= n -> filled a n -> arr_at a n s = Ret (val a n, s).
Proof.
  intros Hn [v Hv]. unfold arr_at. rewrite (proj2 (Z.ltb_ge n 0)) by lia. unfold val.
  destruct (a !! Z.to_nat n) as [[w|]|]; [|done..]. simpl. done.
Qed.

(** The values of thread [n] are there and the total stays exact. *)
Definition exact_at (n : Z) (x : arr * arr) : Prop :=
  filled x.1 n /\ filled x.2 n /\ 0 <= val x.2 n - val x.1 n < 2 ^ 64 /\
  0 <= part n x /\ part (n + 1) x <= 2 ^ 53.

Lemma total_at_spec n bs us s :
  0 <= n -> Forall (exact_at n) (zip bs us) ->
  total_at n ((fun x => d_of (part n x)) <$> zip bs us) bs us s =
    Ret ((fun x => d_of (part (n + 1) x)) <$> zip bs us, s).
Proof.
  intros Hn. revert us. induction bs as [|b bs IH]; intros [|u us] Hx; [done..|].
  apply Forall_cons in Hx as [(F1 & F2 & Hd & Hp & Hs) Hx]. cbn [zip zip_with fmap list_fmap total_at].
  rewrite (bind_ret _ _ _ _ _ (arr_at_spec u n s Hn F2)), (bind_ret _ _ _ _ _ (arr_at_spec b n s Hn F1)).
  rewrite (bind_ret _ _ _ _ _ (IH us Hx)). simpl in Hd. rewrite u64_small by lia.
  assert (part (n + 1) (b, u) = part n (b, u) + (val u n - val b n)) as E by (unfold part; by rewrite over_S).
  rewrite d_add_exact; [by rewrite <- E|lia|lia|]. by rewrite <- E.
Qed.

Lemma totals_spec ncpus bs us s :
  length us = length bs -> 0 <= ncpus -> (forall n, 0 <= n < ncpus -> Forall (exact_at n) (zip bs us)) ->
  totals ncpus bs us s = Ret ((fun x => d_of (part ncpus x)) <$> zip bs us, s).
Proof.
  intros Hlen Hn Hx. unfold totals.
  destruct (for_each_inv (fun rest tot s' => exists k, 0 <= k <= ncpus /\ rest = seqZ k (ncpus - k) /\ s' = s /\
    tot = (fun x => d_of (part k x)) <$> zip bs us) (fun n tot => total_at n tot bs us) (seqZ 0 ncpus)
    ((fun _ => d_of 0) <$> bs) s) as (tot & s' & E & k & Hk & El & -> & ->).
  - exists 0. split_and!; [lia|lia|f_equal; lia|done|]. apply list_eq. intros i. rewrite !list_lookup_fmap, lookup_zip_with.
    destruct (bs !! i) as [b|] eqn:Eb; [|done]. simpl.
    destruct (lookup_lt_is_Some_2 us i) as [u Eu]; [rewrite Hlen; by eapply lookup_lt_Some|]. by rewrite Eu.
  - intros i l' tot s1 (k & Hk & El & -> & ->). destruct (decide (k = ncpus)) as [->|Hne].
    { by rewrite Z.sub_diag in El. }
    rewrite seqZ_cons in El by lia. injection El as -> ->.
    eexists _, _. split; [apply total_at_spec; [lia|apply Hx; lia]|]. exists (k + 1). split_and!; [lia|lia|f_equal; lia|done..].
  - assert (k = ncpus) as -> by (destruct (decide (k = ncpus)); [done|]; rewrite seqZ_cons in El by lia; done). done.
Qed.

Lemma zip_gathered {R : Type} fs max k (s s1 s2 s3 : cst T R) gs bs us :
  Forall2 (gathered fs max k s s1) gs bs -> Forall2 (gathered fs max k s2 s3) gs us ->
  Forall2 (fun f x => gathered fs max k s s1 f x.1 /\ gathered fs max k s2 s3 f x.2) gs (zip bs us).
Proof.
  intros Hb. revert us. induction Hb as [|f b gs bs Hb _ IH]; intros us Hu; [constructor|].
  apply Forall2_cons_inv_l in Hu as (u & us' & Hu & Hus & ->). constructor; [done|by apply IH].
Qed.

(** What is totalled is at least what was counted while the thread slept and at
    most what was counted from the first access to the last. *)
Lemma part_between {R : Type} fs max k (s s1 s2 s3 : cst T R) f x :
  path (counting fs) (c_now s) (c_env s) -> later s s1 -> later s1 s2 -> later s2 s3 ->
  gathered fs max k s s1 f x.1 -> gathered fs max k s2 s3 f x.2 ->
  growth k f (c_now s1) (c_now s2) <= part k x <= growth k f (c_now s) (c_now s3) /\
  forall n, 0 <= n < k -> filled x.1 n /\ filled x.2 n /\ field_at f (c_now s) n <= val x.1 n <= val x.2 n /\
    val x.2 n <= field_at f (c_now s3) n.
Proof.
  intros Hp L1 L2 L3 (Hf & _ & Hb) (_ & _ & Hu).
  destruct (counting_later fs s s1 Hp L1) as (Hp1 & _). destruct (counting_later fs s1 s2 Hp1 L2) as (Hp2 & _ & Hc2 & _).
  split; [split; apply over_le; intros n Hn; specialize (Hb n Hn); specialize (Hu n Hn); lia|].
  intros n Hn. specialize (Hb n Hn). specialize (Hu n Hn). specialize (Hc2 f n Hf). split_and!; try apply Hb; try apply Hu. lia.
Qed.

(** Nothing wraps around, and a [double] is exact. *)
Definition in_range (k : Z) (fs : list (T -> Z)) s : Prop :=
  0 <= usecs (sh_time (c_now s)) /\ (forall f n, f ∈ fs -> 0 <= field_at f (c_now s) n) /\
  forall s', later s s' -> usecs (sh_time (c_now s')) <= 2 ^ 53 /\
    forall f, f ∈ fs -> (forall n, field_at f (c_now s') n < 2 ^ 64) /\ growth k f (c_now s) (c_now s') <= 2 ^ 53.

Lemma part_exact fs max k s s1 s2 s3 f x n :
  path (counting fs) (c_now s) (c_env s) -> later s s1 -> later s1 s2 -> later s2 s3 -> in_range k fs s ->
  gathered fs max k s s1 f x.1 -> gathered fs max k s2 s3 f x.2 -> 0 <= n < k -> exact_at n x.
Proof.
  intros Hp L1 L2 L3 (_ & Hz & Hr) Hb Hu Hn.
  destruct (part_between fs max k s s1 s2 s3 f x Hp L1 L2 L3 Hb Hu) as [Hk Hx].
  assert (f ∈ fs) as Hf by apply Hb.
  destruct (Hr s3) as [_ Hs3]; [etrans; [exact L1|etrans; done]|]. destruct (Hs3 f Hf) as [Hmax Hg].
  destruct (Hx n Hn) as (F1 & F2 & Hv1 & Hv2). specialize (Hz f n Hf). specialize (Hmax n).
  assert (forall i, 0 <= i < k -> 0 <= val x.2 i - val x.1 i) as Hpos by (intros i Hi; specialize (Hx i Hi); lia).
  split_and!; [done|done|lia|lia|apply over_nonneg; intros i Hi; apply Hpos; lia|].
  transitivity (part k x); [|lia]. apply over_mono; [lia|done].
Qed.

(** C16: the report of the counting threads of nmgen and nvgen.  While other
    threads count, and as long as no counter wraps around and the totals fit a
    [double], each total is at least what was counted during the sleep and at
    most what was counted between the first and the last access of the round;
    the arrays are used within their bounds and after they were set, and the time
    is the difference of the two clocks. *)
Theorem interval_counts ncpus max fs befores afters s :
  path (counting fs) (c_now s) (c_env s) -> in_range ncpus fs s ->
  0 <= ncpus <= max -> ncpus <= Z.of_nat (length (sh_ths (c_now s))) ->
  length befores = length fs -> Forall (fun a => length a = Z.to_nat max) befores ->
  length afters = length fs -> Forall (fun a => length a = Z.to_nat max) afters ->
  exists bs us ks el s1 s2 s3,
    gather ncpus fs befores s = Ret (bs, s1) /\ later s s1 /\ later s1 s2 /\
    gather ncpus fs afters s2 = Ret (us, s3) /\ later s2 s3 /\
    interval ncpus fs befores afters s = Ret ((bs, us, (d_of <$> ks, d_div (d_of el) (d_of 1000000))), s3) /\
    Forall2 (fun f k => growth ncpus f (c_now s1) (c_now s2) <= k <= growth ncpus f (c_now s) (c_now s3)) fs ks /\
    0 <= el <= usecs (sh_time (c_now s2)) - usecs (sh_time (c_now s1)).
Proof.
  intros Hp Hr Hn Hth Lb Sb La Sa.
  destruct (gather_spec fs max ncpus s befores Hp) as (bs & s1 & E1 & L1 & Gb); [done..|].
  destruct (load_spec sh_time s1) as (sb & Eb & Lb1 & _). destruct (later_tick sb) as (sc & Ec & Lc & _).
  destruct (load_spec sh_time sc) as (s2 & E2 & L2 & _).
  assert (later s1 s2) as L12 by (etrans; [exact Lb1|etrans; done]).
  assert (later s s2) as L02 by (etrans; done).
  destruct (counting_later fs s s2 Hp L02) as (Hp2 & Hl2 & _).
  destruct (gather_spec fs max ncpus s2 afters Hp2) as (us & s3 & E3 & L3 & Gu); [done|lia|done..|].
  pose proof (zip_gathered fs max ncpus s s1 s2 s3 fs bs us Gb Gu) as Gz.
  destruct (counting_later fs s s1 Hp L1) as (Hp1 & _ & _ & U1). destruct (counting_later fs s1 sb Hp1 Lb1) as (Hpb & _ & _ & Ub).
  destruct (counting_later fs sb s2 Hpb) as (_ & _ & _ & U2); [etrans; done|].
  assert (totals ncpus bs us s3 = Ret ((fun x => d_of (part ncpus x)) <$> zip bs us, s3)) as Et.
  { apply totals_spec; [by rewrite <- (Forall2_length _ _ _ Gb), <- (Forall2_length _ _ _ Gu)|lia|].
    intros n Hn'. apply Forall_forall. intros x [i Hi]%list_elem_of_lookup.
    destruct (Forall2_lookup_r _ _ _ _ _ Gz Hi) as (f & _ & Hb & Hu). by apply (part_exact fs max ncpus s s1 s2 s3 f). }
  exists bs, us, (part ncpus <$> zip bs us), (usecs (sh_time (c_now s2)) - usecs (sh_time (c_now sb))), s1, s2, s3.
  split_and!; [done..| |apply Forall2_fmap_r; eapply Forall2_impl; [exact Gz|]; intros f x [Hb Hu]; by apply (part_between fs max)|lia|lia].
  unfold interval. rewrite (bind_ret _ _ _ _ _ E1), (bind_ret _ _ _ _ _ Eb), (bind_ret _ _ _ _ _ Ec), (bind_ret _ _ _ _ _ E2), (bind_ret _ _ _ _ _ E3).
  rewrite (bind_ret _ _ _ _ _ Et). destruct Hr as (Hu0 & _ & Hr). destruct (Hr s2 L02) as [Hu2 _].
  rewrite d_sub_exact by lia. by rewrite <- list_fmap_compose.
Qed.
End total.

(** ** The end of the counting threads *)

Section stops.
Context {T : Type}.

(** The other threads neither take a thread away nor the signal back, and leave
    the flag that stops them alone. *)
Record tame (flag : T -> Z) (g : shared T -> shared T) : Prop := Tame {
  tame_length m : length (sh_ths (g m)) = length (sh_ths m);
  tame_caught m : sh_caught m = true -> sh_caught (g m) = true;
  tame_flag m (n : nat) : flag <$> (sh_ths (g m) !! n) = flag <$> (sh_ths m !! n)
}.

(** What is in memory when all others are done. *)
Definition final {R : Type} (s : cst T R) : shared T := foldl (fun m g => g m) (c_now s) (c_env s).

(** From [s] to [s'] the others ran, and reports were printed. *)
Record went {R : Type} (flag : T -> Z) (s s' : cst T R) : Prop := Went {
  we_final : final s' = final s;
  we_tame : Forall (tame flag) (c_env s');
  we_length : length (sh_ths (c_now s')) = length (sh_ths (c_now s));
  we_caught : sh_caught (c_now s) = true -> sh_caught (c_now s') = true;
  we_flag n : flag <$> (sh_ths (c_now s') !! n) = flag <$> (sh_ths (c_now s) !! n);
  we_env : (length (c_env s') <= length (c_env s))%nat
}.

Lemma went_later {R : Type} flag (s s' : cst T R) : Forall (tame flag) (c_env s) -> later s s' -> went flag s s'.
Proof.
  intros Ht [_ (pre & E & N)]. unfold final in *. destruct s' as [m' env' o']. simpl in *. subst m'.
  rewrite E in Ht. apply Forall_app in Ht as [Hp Ht'].
  assert (length (sh_ths (foldl (fun m g => g m) (c_now s) pre)) = length (sh_ths (c_now s)) /\
    (sh_caught (c_now s) = true -> sh_caught (foldl (fun m g => g m) (c_now s) pre) = true) /\
    forall n, flag <$> (sh_ths (foldl (fun m g => g m) (c_now s) pre) !! n) = flag <$> (sh_ths (c_now s) !! n)) as (H1 & H2 & H3).
  { clear E Ht'. generalize (c_now s). induction Hp as [|g gs Hg _ IH]; intros m; simpl; [done|].
    destruct (IH (g m)) as (I1 & I2 & I3). split_and!.
    - by rewrite I1, (tame_length _ _ Hg).
    - intros Hc. by apply I2, (tame_caught _ _ Hg).
    - intros n. by rewrite I3, (tame_flag _ _ Hg). }
  constructor; simpl; try done.
  - unfold final. simpl. by rewrite E, foldl_app.
  - rewrite E, length_app. lia.
Qed.

Lemma went_trans {R : Type} flag (s1 s2 s3 : cst T R) : went flag s1 s2 -> went flag s2 s3 -> went flag s1 s3.
Proof.
  intros [A1 A2 A3 A4 A5 A6] [B1 B2 B3 B4 B5 B6]. constructor; [congruence|done|congruence|auto| |lia].
  intros n. by rewrite B5.
Qed.

Lemma went_report {R : Type} flag (s : cst T R) r :
  Forall (tame flag) (c_env s) -> went flag s (Cst (c_now s) (c_env s) (c_out s ++ [r])).
Proof. intros Ht. by constructor. Qed.

Lemma load_went {R A : Type} flag (f : shared T -> A) (s : cst T R) :
  Forall (tame flag) (c_env s) ->
  exists s', load f s = Ret (f (c_now s'), s') /\ went flag s s' /\
    ((length (c_env s') < length (c_env s))%nat \/ s' = s /\ c_env s = []).
Proof.
  intros Ht. destruct (load_spec f s) as (s' & E & Hl & He & Hne). exists s'. split; [done|].
  split; [by apply went_later|]. destruct (c_env s) eqn:Ee; [right; auto|left; apply Hne; done].
Qed.

(** The arrays of a round. *)
Definition shaped (max : Z) (fs : list (T -> Z)) (arrs : list arr) : Prop :=
  length arrs = length fs /\ Forall (fun a => length a = Z.to_nat max) arrs.

Lemma gather_went {R : Type} flag fs max ncpus (s : cst T R) arrs :
  Forall (tame flag) (c_env s) -> 0 <= ncpus <= max -> ncpus <= Z.of_nat (length (sh_ths (c_now s))) ->
  shaped max fs arrs ->
  exists arrs' s', gather ncpus fs arrs s = Ret (arrs', s') /\ went flag s s' /\ shaped max fs arrs' /\
    Forall (fun a => forall n, 0 <= n < ncpus -> filled a n) arrs'.
Proof.
  intros Ht Hn Hth [Hlen Hall].
  destruct (gather_fills fs max ncpus s arrs) as (arrs' & s' & E & Hl & Hlen' & Hf); [|done..|].
  { intros s' Hl. by apply (we_length flag), went_later. }
  exists arrs', s'. split_and!; [done|by apply went_later|split; [done|]|]; (eapply Forall_impl; [exact Hf|]); by intros a [].
Qed.
End stops.

(** A loop that polls the signal ends when the signal comes: each round that
    goes on lets the others run. *)
Lemma polling_ends {T R A : Type} (flag : T -> Z) (body : A -> M (cst T R) (A + ())) (I : A -> Prop) (n : nat) x s :
  (forall x s, I x -> Forall (tame flag) (c_env s) -> (n <= length (sh_ths (c_now s)))%nat ->
     exists y s', body x s = Ret (y, s') /\ went flag s s' /\
     match y with
     | inr _ => sh_caught (c_now s') = true
     | inl x' => I x' /\ ((length (c_env s') < length (c_env s))%nat \/ c_env s = [] /\ sh_caught (c_now s) = false)
     end) ->
  I x -> Forall (tame flag) (c_env s) -> (n <= length (sh_ths (c_now s)))%nat ->
  sh_caught (final s) = true -> Z.of_nat (length (c_env s)) < 2 ^ 64 ->
  exists s', while_ body x s = Ret ((), s') /\ went flag s s' /\ sh_caught (c_now s') = true.
Proof.
  intros Hbody Hx Ht Hn Hc Hlen.
  assert (exists s', iter_nat body (S (length (c_env s))) x s = Ret (inr (), s') /\ went flag s s' /\ sh_caught (c_now s') = true)
    as (s' & E & Hw).
  { clear Hlen. revert x s Hx Ht Hn Hc. assert (forall k x s, (length (c_env s) <= k)%nat -> I x ->
      Forall (tame flag) (c_env s) -> (n <= length (sh_ths (c_now s)))%nat -> sh_caught (final s) = true ->
      exists s', iter_nat body (S k) x s = Ret (inr (), s') /\ went flag s s' /\ sh_caught (c_now s') = true) as Hk; [|eauto].
    induction k as [|k IH]; intros x s Hk Hx Ht Hn Hc;
      destruct (Hbody x s Hx Ht Hn) as ([x'|[]] & s1 & E & W & Hy).
    - destruct Hy as (_ & [Hl|[He Hf]]); [lia|]. unfold final in Hc. rewrite He in Hc. simpl in Hc. congruence.
    - exists s1. split_and!; [by apply iter_nat_inr|done|done].
    - destruct Hy as (Hx' & Hl). destruct (IH x' s1) as (s2 & E2 & W2 & C2).
      + destruct Hl as [Hl|[He Hf]]; [lia|]. unfold final in Hc. rewrite He in Hc. simpl in Hc. congruence.
      + done.
      + apply W.
      + by rewrite (we_length _ _ _ W).
      + by rewrite (we_final _ _ _ W).
      + exists s2. rewrite (iter_nat_inl _ _ _ _ _ _ E). split_and!; [done|by eapply went_trans|done].
    - exists s1. split_and!; [by apply iter_nat_inr|done|done]. }
  exists s'. split; [|done]. eapply while_exit; [exact E|]. apply loop_fuel_le. lia.
Qed.

Section stops_nmgen.
Context {T D : Type} `{Flt D} (flag : T -> Z).
Implicit Type s : cst T (list D * D).

Lemma total_at_total n tot bs us s :
  0 <= n -> length tot = length bs -> length us = length bs ->
  Forall (fun a => filled a n) bs -> Forall (fun a => filled a n) us ->
  exists tot', total_at n tot bs us s = Ret (tot', s) /\ length tot' = length bs.
Proof.
  intros Hn. revert bs us. induction tot as [|t tot IH]; intros [|b bs] [|u us] L1 L2 Fb Fu; try done; [by exists []|].
  apply Forall_cons in Fb as [Hb Fb]. apply Forall_cons in Fu as [Hu Fu].
  destruct (IH bs us) as (tot' & E & L); [simpl in *; lia..|done|done|]. eexists. simpl.
  rewrite (bind_ret _ _ _ _ _ (arr_at_spec u n s Hn Hu)), (bind_ret _ _ _ _ _ (arr_at_spec b n s Hn Hb)), (bind_ret _ _ _ _ _ E).
  split; [done|]. simpl. lia.
Qed.

Lemma totals_total ncpus bs us s :
  length us = length bs -> Forall (fun a => forall n, 0 <= n < ncpus -> filled a n) bs ->
  Forall (fun a => forall n, 0 <= n < ncpus -> filled a n) us ->
  exists tot, totals ncpus bs us s = Ret (tot, s).
Proof.
  intros Hlen Fb Fu. unfold totals.
  destruct (for_each_inv (fun rest tot s' => (forall n, n ∈ rest -> 0 <= n < ncpus) /\ s' = s /\ length tot = length bs)
    (fun n tot => total_at n tot bs us) (seqZ 0 ncpus) ((fun _ => d_of 0) <$> bs) s) as (tot & s' & E & _ & -> & _).
  - split_and!; [|done|by rewrite length_fmap]. intros n Hn%elem_of_seqZ. lia.
  - intros n l' tot s' (Hin & -> & L). assert (0 <= n < ncpus) as Hn by (apply Hin; constructor).
    destruct (total_at_total n tot bs us s) as (tot' & E & L'); [lia|done..| | |].
    1, 2: eapply Forall_impl; [done|]; simpl; auto.
    exists tot', s. split_and!; [done| |done|done]. intros n' Hn'. apply Hin. by constructor.
  - by exists tot.
Qed.

(** A round ends the loop once the signal is seen; otherwise time has passed. *)
Lemma count_round_went max ncpus fs x s :
  Forall (tame flag) (c_env s) -> 0 <= ncpus <= max -> ncpus <= Z.of_nat (length (sh_ths (c_now s))) ->
  shaped max fs x.1 -> shaped max fs x.2 ->
  exists y s', count_round ncpus fs x s = Ret (y, s') /\ went flag s s' /\
    match y with
    | inr _ => sh_caught (c_now s') = true
    | inl x' => shaped max fs x'.1 /\ shaped max fs x'.2 /\
        ((length (c_env s') < length (c_env s))%nat \/ c_env s = [] /\ sh_caught (c_now s) = false)
    end.
Proof.
  intros Ht Hn Hth S1 S2. unfold count_round.
  destruct (load_went flag sh_caught s Ht) as (s1 & E1 & W1 & N1). rewrite (bind_ret _ _ _ _ _ E1).
  destruct (sh_caught (c_now s1)) eqn:C1; [by exists (inr ()), s1|].
  assert (exists bs us r s2, interval ncpus fs x.1 x.2 s1 = Ret ((bs, us, r), s2) /\ went flag s1 s2 /\
    shaped max fs bs /\ shaped max fs us) as (bs & us & r & s2 & E2 & W2 & Sb & Su).
  { destruct (gather_went flag fs max ncpus s1 x.1) as (bs & sa & Ea & Wa & Sb & Fb);
      [apply W1|done|by rewrite (we_length _ _ _ W1)|done|].
    destruct (load_went flag sh_time sa) as (sb & Eb & Wb & _); [apply Wa|].
    destruct (later_tick sb) as (sc & Ec & Lc & _). apply (went_later flag) in Lc as Wc; [|apply Wb].
    destruct (load_went flag sh_time sc) as (sd & Ed & Wd & _); [apply Wc|].
    assert (went flag s1 sd) as W1d by (do 3 (eapply went_trans; [eassumption|]); done).
    destruct (gather_went flag fs max ncpus sd x.2) as (us & se & Ee & We & Su & Fu);
      [apply W1d|done|by rewrite (we_length _ _ _ W1d), (we_length _ _ _ W1)|done|].
    destruct (totals_total ncpus bs us se) as (tot & Et); [destruct Sb, Su; congruence|done|done|].
    eexists bs, us, _, se. split_and!; [|by eapply went_trans|done|done]. unfold interval.
    by rewrite (bind_ret _ _ _ _ _ Ea), (bind_ret _ _ _ _ _ Eb), (bind_ret _ _ _ _ _ Ec), (bind_ret _ _ _ _ _ Ed),
      (bind_ret _ _ _ _ _ Ee), (bind_ret _ _ _ _ _ Et). }
  rewrite (bind_ret _ _ _ _ _ E2). destruct (load_went flag sh_caught s2) as (s3 & E3 & W3 & _); [apply W2|].
  assert (went flag s s3) as W by (do 2 (eapply went_trans; [eassumption|]); done).
  rewrite (bind_ret _ _ _ _ _ E3). destruct (sh_caught (c_now s3)) eqn:C3; [by exists (inr ()), s3|].
  eexists (inl (bs, us)), _. split; [done|]. split; [eapply went_trans; [exact W|apply went_report, W]|].
  split_and!; [done..|]. simpl. pose proof (we_env _ _ _ W2). pose proof (we_env _ _ _ W3).
  destruct N1 as [N1|[-> N1]]; [left; lia|by right].
Qed.

Lemma write_went cancel n s :
  Forall (tame flag) (c_env s) -> (forall t, flag (cancel t) = 1) -> 0 <= n < Z.of_nat (length (sh_ths (c_now s))) ->
  exists s', write_th cancel n s = Ret ((), s') /\ Forall (tame flag) (c_env s') /\
    length (sh_ths (c_now s')) = length (sh_ths (c_now s)) /\ (sh_caught (c_now s) = true -> sh_caught (c_now s') = true) /\
    (forall i, flag <$> (sh_ths (c_now s') !! i) = if decide (i = Z.to_nat n) then Some 1 else flag <$> (sh_ths (c_now s) !! i)).
Proof.
  intros Ht Hcan Hn. unfold write_th.
  destruct (load_went flag (fun m => if n <? 0 then None else sh_ths m !! Z.to_nat n) s Ht) as (s1 & E & W & _).
  rewrite (bind_ret _ _ _ _ _ E). rewrite (proj2 (Z.ltb_ge n 0)) by lia.
  destruct (lookup_lt_is_Some_2 (sh_ths (c_now s1)) (Z.to_nat n)) as [t Et]; [rewrite (we_length _ _ _ W); lia|].
  rewrite Et. eexists. split; [done|]. simpl. split_and!; [apply W|rewrite length_insert; apply W|apply W|].
  intros i. destruct (decide (i = Z.to_nat n)) as [->|Hne].
  - rewrite list_lookup_insert_eq by (rewrite (we_length _ _ _ W); lia). simpl. by rewrite Hcan.
  - rewrite list_lookup_insert_ne by done. apply W.
Qed.

Lemma cancel_all_went cancel ncpus s :
  Forall (tame flag) (c_env s) -> (forall t, flag (cancel t) = 1) -> ncpus <= Z.of_nat (length (sh_ths (c_now s))) ->
  exists s', cancel_all ncpus cancel s = Ret ((), s') /\ (sh_caught (c_now s) = true -> sh_caught (c_now s') = true) /\
    length (sh_ths (c_now s')) = length (sh_ths (c_now s)) /\
    forall n, 0 <= n < ncpus -> flag <$> (sh_ths (c_now s') !! Z.to_nat n) = Some 1.
Proof.
  intros Ht Hcan Hn. unfold cancel_all.
  destruct (for_each_inv (fun rest (_ : ()) s' => Forall (tame flag) (c_env s') /\
    (sh_caught (c_now s) = true -> sh_caught (c_now s') = true) /\
    length (sh_ths (c_now s')) = length (sh_ths (c_now s)) /\ (forall n, n ∈ rest -> 0 <= n < ncpus) /\
    forall n, 0 <= n < ncpus -> n ∈ rest \/ flag <$> (sh_ths (c_now s') !! Z.to_nat n) = Some 1)
    (fun n _ => write_th cancel n) (seqZ 0 ncpus) () s) as ([] & s' & E & _ & Hc & Hl & _ & Hf).
  - split_and!; [done..| |]; intros n Hn'; [apply elem_of_seqZ in Hn'; lia|left; apply elem_of_seqZ; lia].
  - intros n rest [] s1 (Ht1 & Hc1 & Hl1 & Hin & Hf1). assert (0 <= n < ncpus) as Hn' by (apply Hin; constructor).
    destruct (write_went cancel n s1 Ht1 Hcan) as (s2 & E & Ht2 & Hl2 & Hc2 & Hf2); [lia|].
    exists (), s2. split; [done|]. split_and!; [done|auto|congruence|intros n' Hn2; apply Hin; by constructor|].
    intros n' Hn2. rewrite Hf2. case_decide as Ed; [by right|]. destruct (Hf1 n' Hn2) as [Hin'|Hf']; [|by right].
    apply elem_of_cons in Hin' as [->|Hin']; [done|by left].
  - exists s'. split_and!; [done..|]. intros n Hn'. destruct (Hf n Hn') as [Hin|]; [by apply elem_of_nil in Hin|done].
Qed.

Lemma count_thread_ends max ncpus fs cancel s :
  Forall (tame flag) (c_env s) -> sh_caught (final s) = true -> Z.of_nat (length (c_env s)) < 2 ^ 64 ->
  0 <= ncpus <= max -> ncpus <= Z.of_nat (length (sh_ths (c_now s))) -> (forall t, flag (cancel t) = 1) ->
  exists s', count_thread max (Some ncpus) fs cancel s = Ret ((), s') /\ sh_caught (c_now s') = true /\
    forall n, 0 <= n < ncpus -> flag <$> (sh_ths (c_now s') !! Z.to_nat n) = Some 1.
Proof.
  intros Ht Hc Hlen Hn Hth Hcan. unfold count_thread. rewrite (bind_ret _ _ s ncpus s eq_refl). set (arrs := _ <$> fs).
  assert (shaped max fs arrs) as Hs.
  { split; [apply length_fmap|]. apply Forall_fmap, Forall_forall. intros f _. apply length_replicate. }
  destruct (polling_ends flag (count_round ncpus fs) (fun x => shaped max fs x.1 /\ shaped max fs x.2) (Z.to_nat ncpus) (arrs, arrs) s)
    as (s1 & E1 & W1 & C1); [|done|done|lia|done|done|].
  - intros x s1 [S1 S2] Ht1 Hn1. destruct (count_round_went max ncpus fs x s1 Ht1 Hn) as (y & s2 & E & W & Hy); [lia|done|done|].
    exists y, s2. split_and!; [done..|]. destruct y; [|done]. by destruct Hy as (? & ? & ?).
  - destruct (cancel_all_went cancel ncpus s1) as (s2 & E2 & C2 & _ & F2); [apply W1|done|by rewrite (we_length _ _ _ W1)|].
    exists s2. rewrite (bind_ret _ _ _ _ _ E1). auto.
Qed.
End stops_nmgen.

(** ** generator and bench-nvme *)

Section reports.
Context {T : Type}.
Implicit Type s : cst T (Z * list Z).

(** Totals in [unsigned long] are right modulo [2 ^ 64]. *)
Definition weighted (k : Z) (w : Z) (x : arr * arr) : Z := u64 (w * part k x).

Lemma gen_total_at_spec n ws bs us s :
  0 <= n -> Forall (fun a => filled a n) bs -> Forall (fun a => filled a n) us ->
  gen_total_at n (zip_with (weighted n) ws (zip bs us)) ws bs us s = Ret (zip_with (weighted (n + 1)) ws (zip bs us), s).
Proof.
  intros Hn. revert bs us. induction ws as [|w ws IH]; intros [|b bs] [|u us] Fb Fu; try done.
  apply Forall_cons in Fb as [Hb Fb]. apply Forall_cons in Fu as [Hu Fu]. cbn [zip zip_with gen_total_at].
  rewrite (bind_ret _ _ _ _ _ (arr_at_spec u n s Hn Hu)), (bind_ret _ _ _ _ _ (arr_at_spec b n s Hn Hb)).
  rewrite (bind_ret _ _ _ _ _ (IH bs us Fb Fu)). unfold mret, M_ret. do 3 f_equal. unfold weighted, part, u64.
  rewrite over_S by done. simpl. rewrite Z.mul_add_distr_l. rewrite Z.mul_mod_idemp_l by lia.
  rewrite <- Z.add_mod by lia. f_equal. lia.
Qed.

Lemma gen_totals_spec ncpus ws bs us s :
  0 <= ncpus -> length us = length bs -> length ws = length bs ->
  Forall (fun a => forall n, 0 <= n < ncpus -> filled a n) bs ->
  Forall (fun a => forall n, 0 <= n < ncpus -> filled a n) us ->
  gen_totals ncpus ws bs us s = Ret (zip_with (weighted ncpus) ws (zip bs us), s).
Proof.
  intros Hn L1 L2 Fb Fu. unfold gen_totals.
  destruct (for_each_inv (fun rest tot s' => exists k, 0 <= k <= ncpus /\ rest = seqZ k (ncpus - k) /\ s' = s /\
    tot = zip_with (weighted k) ws (zip bs us)) (fun n tot => gen_total_at n tot ws bs us) (seqZ 0 ncpus)
    ((fun _ => 0) <$> bs) s) as (tot & s' & E & k & Hk & El & -> & ->).
  - exists 0. split_and!; [lia|lia|f_equal; lia|done|]. clear Fb Fu. revert bs us L1 L2.
    induction ws as [|w ws IH]; intros [|b bs] [|u us] L1 L2; try done. simpl in *. f_equal.
    + unfold weighted. by rewrite Z.mul_0_r.
    + apply IH; lia.
  - intros i l' tot s1 (k & Hk & El & -> & ->). destruct (decide (k = ncpus)) as [->|Hne]; [by rewrite Z.sub_diag in El|].
    rewrite seqZ_cons in El by lia. injection El as -> ->.
    eexists _, _. split.
    + apply gen_total_at_spec; [lia|eapply Forall_impl; [exact Fb|]|eapply Forall_impl; [exact Fu|]]; intros a Ha; apply Ha; lia.
    + exists (k + 1). split_and!; [lia|lia|f_equal; lia|done..].
  - assert (k = ncpus) as -> by (destruct (decide (k = ncpus)); [done|]; rewrite seqZ_cons in El by lia; done). done.
Qed.

Lemma gathered_filled {R : Type} fs max k (s s' : cst T R) gs arrs :
  Forall2 (gathered fs max k s s') gs arrs -> Forall (fun a => forall n, 0 <= n < k -> filled a n) arrs.
Proof. induction 1 as [|f a gs arrs (_ & _ & Hg) _ IH]; constructor; [|done]. intros n Hn. by apply Hg. Qed.

(** The report of the counting thread of generator.  Each total is, modulo
    [2 ^ 64] and with bytes as bits, a number of events that is at least what the
    threads counted during the sleep and at most what they counted between the
    first and the last access of the round. *)
Theorem generator_round_counts ncpus max fs ws x s s0 :
  load sh_caught s = Ret (false, s0) -> path (counting fs) (c_now s0) (c_env s0) ->
  0 <= ncpus <= max -> ncpus <= Z.of_nat (length (sh_ths (c_now s0))) ->
  shaped max fs x.1 -> shaped max fs x.2 -> length ws = length fs ->
  exists bs us ks ts s1 s2 s3,
    gather ncpus fs x.1 s0 = Ret (bs, s1) /\ later s0 s1 /\ later s1 s2 /\
    gather ncpus fs x.2 s2 = Ret (us, s3) /\ later s2 s3 /\
    gen_count_round ncpus fs ws x s =
      Ret (inl (bs, us), Cst (c_now s3) (c_env s3) (c_out s3 ++ [(ts, zip_with (fun w k => u64 (w * k)) ws ks)])) /\
    Forall2 (fun f k => growth ncpus f (c_now s1) (c_now s2) <= k <= growth ncpus f (c_now s0) (c_now s3)) fs ks.
Proof.
  intros Ec Hp Hn Hth [L1 S1] [L2 S2] Hw.
  destruct (gather_spec fs max ncpus s0 x.1 Hp) as (bs & s1 & E1 & Ls1 & Gb); [done..|].
  destruct (later_tick s1) as (sb & Eb & Lb & _). destruct (load_spec (fun m => tv_sec (sh_time m)) sb) as (s2 & E2 & Lc & _).
  assert (later s1 s2) as Ls2 by (etrans; done). assert (later s0 s2) as L02 by (etrans; done).
  destruct (counting_later fs s0 s2 Hp L02) as (Hp2 & Hl2 & _).
  destruct (gather_spec fs max ncpus s2 x.2 Hp2) as (us & s3 & E3 & Ls3 & Gu); [done|lia|done..|].
  exists bs, us, (part ncpus <$> zip bs us), (tv_sec (sh_time (c_now s2))), s1, s2, s3. split_and!; [done..| |].
  - unfold gen_count_round. rewrite (bind_ret _ _ _ _ _ Ec), (bind_ret _ _ _ _ _ E1), (bind_ret _ _ _ _ _ Eb),
      (bind_ret _ _ _ _ _ E2), (bind_ret _ _ _ _ _ E3).
    rewrite (bind_ret _ _ _ _ _ (gen_totals_spec ncpus ws bs us s3 ltac:(lia)
      ltac:(by rewrite <- (Forall2_length _ _ _ Gb), <- (Forall2_length _ _ _ Gu))
      ltac:(by rewrite <- (Forall2_length _ _ _ Gb)) (gathered_filled _ _ _ _ _ _ _ Gb) (gathered_filled _ _ _ _ _ _ _ Gu))).
    by rewrite zip_with_fmap_r.
  - apply Forall2_fmap_r. eapply Forall2_impl; [exact (zip_gathered fs max ncpus s0 s1 s2 s3 fs bs us Gb Gu)|].
    intros f y [Hb Hu]. by apply (part_between fs max).
Qed.

Lemma gen_round_went flag max ncpus fs ws x s :
  Forall (tame flag) (c_env s) -> 0 <= ncpus <= max -> ncpus <= Z.of_nat (length (sh_ths (c_now s))) ->
  shaped max fs x.1 -> shaped max fs x.2 -> length ws = length fs ->
  exists y s', gen_count_round ncpus fs ws x s = Ret (y, s') /\ went flag s s' /\
    match y with
    | inr _ => sh_caught (c_now s') = true
    | inl x' => (shaped max fs x'.1 /\ shaped max fs x'.2) /\
        ((length (c_env s') < length (c_env s))%nat \/ c_env s = [] /\ sh_caught (c_now s) = false)
    end.
Proof.
  intros Ht Hn Hth S1 S2 Hw. unfold gen_count_round.
  destruct (load_went flag sh_caught s Ht) as (s1 & E1 & W1 & N1). rewrite (bind_ret _ _ _ _ _ E1).
  destruct (sh_caught (c_now s1)) eqn:C1; [by exists (inr ()), s1|].
  destruct (gather_went flag fs max ncpus s1 x.1) as (bs & sa & Ea & Wa & Sb & Fb);
    [apply W1|done|by rewrite (we_length _ _ _ W1)|done|].
  destruct (later_tick sa) as (sc & Ec & Lc & _). apply (went_later flag) in Lc as Wc; [|apply Wa].
  destruct (load_went flag (fun m => tv_sec (sh_time m)) sc) as (sd & Ed & Wd & _); [apply Wc|].
  assert (went flag s1 sd) as W1d by (do 2 (eapply went_trans; [eassumption|]); done).
  destruct (gather_went flag fs max ncpus sd x.2) as (us & se & Ee & We & Su & Fu);
    [apply W1d|done|by rewrite (we_length _ _ _ W1d), (we_length _ _ _ W1)|done|].
  pose proof (gen_totals_spec ncpus ws bs us se ltac:(lia) ltac:(destruct Sb, Su; congruence) ltac:(destruct Sb; congruence) Fb Fu) as Et.
  assert (went flag s se) as W by (do 2 (eapply went_trans; [eassumption|]); done).
  eexists (inl (bs, us)), _. split.
  { by rewrite (bind_ret _ _ _ _ _ Ea), (bind_ret _ _ _ _ _ Ec), (bind_ret _ _ _ _ _ Ed), (bind_ret _ _ _ _ _ Ee), (bind_ret _ _ _ _ _ Et). }
  split; [eapply went_trans; [exact W|apply went_report, W]|]. split; [done|].
  simpl. pose proof (we_env _ _ _ W1d). pose proof (we_env _ _ _ We). destruct N1 as [N1|[-> N1]]; [left; lia|by right].
Qed.
End reports.

Section bench.
Implicit Type s : cst bench_cnt (Z * Z * Z).

(** The sums of bench-nvme never fault, whatever the others write. *)
Lemma bench_sums_went flag ncpus s :
  Forall (tame flag) (c_env s) -> ncpus <= Z.of_nat (length (sh_ths (c_now s))) ->
  exists x s', bench_sums ncpus s = Ret (x, s') /\ went flag s s'.
Proof.
  intros Ht Hn. unfold bench_sums.
  destruct (for_each_inv (fun rest (_ : Z * Z) s' => later s s' /\ forall n, n ∈ rest -> 0 <= n < ncpus)
    (fun n x => c ← read_field bc_count n; b ← read_field bc_bytes n; mret (x.1 +64 c, x.2 +64 b))
    (seqZ 0 ncpus) (0, 0) s) as (x & s' & E & Hl & _).
  - split; [done|]. intros n Hn'%elem_of_seqZ. lia.
  - intros n rest x s1 [Hl Hin]. assert (0 <= n < ncpus) as Hn' by (apply Hin; constructor).
    assert (forall s2, later s s2 -> length (sh_ths (c_now s2)) = length (sh_ths (c_now s))) as Hsame
      by (intros s2 H2; by apply (we_length flag), went_later).
    destruct (read_field_spec bc_count n s1) as (s2 & E2 & L2);
      [intros s2 H2; rewrite (Hsame s1), (Hsame s2); [done|by etrans|done]|rewrite Hsame by done; lia|].
    assert (later s s2) as L02 by by etrans.
    destruct (read_field_spec bc_bytes n s2) as (s3 & E3 & L3);
      [intros s3 H3; rewrite (Hsame s2), (Hsame s3); [done|by etrans|done]|rewrite Hsame by done; lia|].
    eexists _, s3. split; [by rewrite (bind_ret _ _ _ _ _ E2), (bind_ret _ _ _ _ _ E3)|].
    split; [by etrans|]. intros n' H'. apply Hin. by constructor.
  - exists x, s'. split; [done|by apply went_later].
Qed.

Definition bench_fields : list (bench_cnt -> Z) := [bc_count; bc_bytes].

Lemma bench_sums_spec ncpus s :
  path (counting bench_fields) (c_now s) (c_env s) -> 0 <= ncpus <= Z.of_nat (length (sh_ths (c_now s))) ->
  exists c b s', bench_sums ncpus s = Ret ((u64 c, u64 b), s') /\ later s s' /\
    over ncpus (field_at bc_count (c_now s)) <= c <= over ncpus (field_at bc_count (c_now s')) /\
    over ncpus (field_at bc_bytes (c_now s)) <= b <= over ncpus (field_at bc_bytes (c_now s')).
Proof.
  intros Hp Hn. unfold bench_sums.
  destruct (for_each_inv (fun rest x s' => exists k c b, 0 <= k <= ncpus /\ rest = seqZ k (ncpus - k) /\ later s s' /\
      x = (u64 c, u64 b) /\
      over k (field_at bc_count (c_now s)) <= c <= over k (field_at bc_count (c_now s')) /\
      over k (field_at bc_bytes (c_now s)) <= b <= over k (field_at bc_bytes (c_now s')))
    (fun n x => c ← read_field bc_count n; b ← read_field bc_bytes n; mret (x.1 +64 c, x.2 +64 b))
    (seqZ 0 ncpus) (0, 0) s) as (x & s' & E & k & c & b & Hk & El & Hl & -> & Hc & Hb).
  - exists 0, 0, 0. rewrite !over_0. split_and!; [lia|lia|f_equal; lia|done|done|lia..].
  - intros n rest x s1 (k & c & b & Hk & El & Hl & -> & Hc & Hb).
    destruct (decide (k = ncpus)) as [->|Hne]; [by rewrite Z.sub_diag in El|].
    rewrite seqZ_cons in El by lia. injection El as -> ->.
    destruct (counting_later _ s s1 Hp Hl) as (Hp1 & Hl1 & G1 & _).
    destruct (read_field_spec bc_count k s1) as (s2 & E2 & L2); [intros; by apply (counting_later bench_fields)|lia|].
    destruct (counting_later _ s1 s2 Hp1 L2) as (Hp2 & Hl2 & G2 & _).
    destruct (read_field_spec bc_bytes k s2) as (s3 & E3 & L3); [intros; by apply (counting_later bench_fields)|lia|].
    destruct (counting_later _ s2 s3 Hp2 L3) as (_ & _ & G3 & _).
    assert (forall f, f ∈ bench_fields -> over k (field_at f (c_now s1)) <= over k (field_at f (c_now s3)) /\
      field_at f (c_now s) k <= field_at f (c_now s2) k <= field_at f (c_now s3) k) as Hov.
    { intros f Hf. split; [apply over_le; intros n _; etrans; [apply (G2 f n Hf)|apply (G3 f n Hf)]|].
      specialize (G1 f k Hf). specialize (G2 f k Hf). specialize (G3 f k Hf). lia. }
    destruct (Hov bc_count) as [Hc1 Hc2]; [constructor|]. destruct (Hov bc_bytes) as [Hb1 Hb2]; [by repeat constructor|].
    eexists _, s3. split; [by rewrite (bind_ret _ _ _ _ _ E2), (bind_ret _ _ _ _ _ E3)|].
    exists (k + 1), (c + field_at bc_count (c_now s2) k), (b + field_at bc_bytes (c_now s3) k).
    rewrite !over_S by lia. split_and!; [lia|lia|f_equal; lia|by etrans; [|etrans]| |lia..].
    simpl. unfold u64. by rewrite !Z.add_mod_idemp_l by lia.
  - assert (k = ncpus) as -> by (destruct (decide (k = ncpus)); [done|]; rewrite seqZ_cons in El by lia; done).
    by exists c, b, s'.
Qed.

(** The interim report of bench-nvme, which adds the counters up before it
    subtracts them in [unsigned long]: although the sums may wrap around, each
    number is, modulo [2 ^ 64], at least what the threads counted during the sleep
    and at most what they counted between the first and the last access. *)
Theorem bench_interval_counts ncpus s :
  path (counting bench_fields) (c_now s) (c_env s) -> 0 <= ncpus <= Z.of_nat (length (sh_ths (c_now s))) ->
  exists c b el s1 s2 s3,
    later s s1 /\ later s1 s2 /\ later s2 s3 /\
    print_interval_result ncpus s = Ret ((), Cst (c_now s3) (c_env s3) (c_out s3 ++ [(u64 c, u64 b, el)])) /\
    growth ncpus bc_count (c_now s1) (c_now s2) <= c <= growth ncpus bc_count (c_now s) (c_now s3) /\
    growth ncpus bc_bytes (c_now s1) (c_now s2) <= b <= growth ncpus bc_bytes (c_now s) (c_now s3).
Proof.
  intros Hp Hn. destruct (load_spec sh_time s) as (sa & Ea & La & _). destruct (counting_later _ s sa Hp La) as (Hpa & Hla & Ga & _).
  destruct (bench_sums_spec ncpus sa Hpa) as (c1 & b1 & s1 & E1 & L1 & Hc1 & Hb1); [lia|].
  destruct (counting_later _ sa s1 Hpa L1) as (Hp1 & Hl1 & G1 & _).
  destruct (later_tick s1) as (sb & Eb & Lb & _). destruct (load_spec sh_time sb) as (s2 & E2 & Lc & _).
  assert (later s1 s2) as L2 by by etrans. destruct (counting_later _ s1 s2 Hp1 L2) as (Hp2 & Hl2 & G2 & _).
  destruct (bench_sums_spec ncpus s2 Hp2) as (c2 & b2 & s3 & E3 & L3 & Hc2 & Hb2); [lia|].
  assert (forall f, f ∈ bench_fields -> over ncpus (field_at f (c_now s)) <= over ncpus (field_at f (c_now sa))) as Hov
    by (intros f Hf; apply over_le; intros n _; by apply Ga).
  pose proof (Hov bc_count ltac:(constructor)). pose proof (Hov bc_bytes ltac:(by repeat constructor)).
  exists (c2 - c1), (b2 - b1), (get_usec_elapsed (sh_time (c_now sa)) (sh_time (c_now s2))), s1, s2, s3.
  unfold growth. rewrite !over_sub. split_and!; [by etrans|done|done| |lia..].
  unfold print_interval_result. rewrite (bind_ret _ _ _ _ _ Ea), (bind_ret _ _ _ _ _ E1), (bind_ret _ _ _ _ _ Eb),
    (bind_ret _ _ _ _ _ E2), (bind_ret _ _ _ _ _ E3). simpl. unfold u64. by rewrite <- !Zminus_mod.
Qed.

Lemma bench_round_went flag ncpus s :
  Forall (tame flag) (c_env s) -> ncpus <= Z.of_nat (length (sh_ths (c_now s))) ->
  exists s', print_interval_result ncpus s = Ret ((), s') /\ went flag s s'.
Proof.
  intros Ht Hn. destruct (load_went flag sh_time s Ht) as (sa & Ea & Wa & _).
  destruct (bench_sums_went flag ncpus sa) as (x & s1 & E1 & W1); [apply Wa|by rewrite (we_length _ _ _ Wa)|].
  destruct (later_tick s1) as (sb & Eb & Lb & _). apply (went_later flag) in Lb as Wb; [|apply W1].
  destruct (load_went flag sh_time sb) as (s2 & E2 & W2 & _); [apply Wb|].
  assert (went flag s s2) as W by (do 3 (eapply went_trans; [eassumption|]); done).
  destruct (bench_sums_went flag ncpus s2) as (y & s3 & E3 & W3); [apply W|by rewrite (we_length _ _ _ W)|].
  eexists. unfold print_interval_result. split.
  { by rewrite (bind_ret _ _ _ _ _ Ea), (bind_ret _ _ _ _ _ E1), (bind_ret _ _ _ _ _ Eb), (bind_ret _ _ _ _ _ E2), (bind_ret _ _ _ _ _ E3). }
  assert (went flag s s3) as W' by by eapply went_trans. eapply went_trans; [exact W'|apply went_report, W'].
Qed.
End bench.

(** ** All of them *)

(** The array of [max] threads, of which the others take none away, and a signal
    that comes within the next accesses. *)
Record signalled {T R : Type} (flag : T -> Z) (max : Z) (s : cst T R) : Prop := Signalled {
  sg_tame : Forall (tame flag) (c_env s);
  sg_caught : sh_caught (final s) = true;
  sg_bound : Z.of_nat (length (c_env s)) < 2 ^ 64;
  sg_length : length (sh_ths (c_now s)) = Z.to_nat max
}.

Lemma generator_count_ends g s :
  signalled (fun _ => 0) GeneratorOpt.MAX_CPUS s -> 0 <= GeneratorOpt.ncpus g <= GeneratorOpt.MAX_CPUS ->
  exists s', generator_count_thread g s = Ret ((), s') /\ sh_caught (c_now s') = true.
Proof.
  intros [Ht Hc Hb Hl] Hn. unfold generator_count_thread. set (arrs := _ <$> gen_fields).
  assert (shaped GeneratorOpt.MAX_CPUS gen_fields arrs) as Hs.
  { split; [done|]. apply Forall_fmap, Forall_forall. intros f _. apply length_replicate. }
  destruct (polling_ends (fun _ => 0) (gen_count_round (GeneratorOpt.ncpus g) gen_fields gen_weights)
    (fun x => shaped GeneratorOpt.MAX_CPUS gen_fields x.1 /\ shaped GeneratorOpt.MAX_CPUS gen_fields x.2)
    (Z.to_nat (GeneratorOpt.ncpus g)) (arrs, arrs) s) as (s1 & E1 & _ & C1); [|done|done|rewrite Hl; lia|done|done|eauto].
  intros x s1 [S1 S2] Ht1 Hn1.
  apply (gen_round_went (fun _ => 0) GeneratorOpt.MAX_CPUS); [done|done|lia|done|done|done].
Qed.

Lemma report_interval_ends (max ncpus : Z) s :
  signalled (fun _ => 0) max s -> ncpus <= max -> 0 <= max ->
  exists s', report_interval ncpus s = Ret ((), s') /\ sh_caught (c_now s') = true.
Proof.
  intros [Ht Hc Hb Hl] Hn Hmax. unfold report_interval.
  destruct (polling_ends (fun _ => 0) (fun _ : () => c ← load sh_caught;
    if c : bool then mret (inr ()) else _ ← print_interval_result ncpus; mret (inl ()))
    (fun _ => True) (Z.to_nat ncpus) () s) as (s1 & E1 & _ & C1); [|done|done|rewrite Hl; lia|done|done|eauto].
  intros _ s1 _ Ht1 Hn1. destruct (load_went (fun _ => 0) sh_caught s1 Ht1) as (s2 & E2 & W2 & N2).
  rewrite (bind_ret _ _ _ _ _ E2). destruct (sh_caught (c_now s2)) eqn:C2; [by exists (inr ()), s2|].
  destruct (bench_round_went (fun _ => 0) ncpus s2) as (s3 & E3 & W3); [apply W2|rewrite (we_length _ _ _ W2); lia|].
  exists (inl ()), s3. rewrite (bind_ret _ _ _ _ _ E3). split; [done|]. split; [by eapply went_trans|]. split; [done|].
  pose proof (we_env _ _ _ W3). destruct N2 as [N2|[-> N2]]; [left; lia|by right].
Qed.

(** C15: the counting threads end.  Whatever the other threads write to the
    counters in between, once the signal comes the counting thread of each of the
    four programs returns, without leaving its arrays or reading an element that
    was not set (for nmgen and nvgen, in a run of at least one thread); those of
    nmgen and nvgen have then set [cancel] in every thread of the run, which is
    what the working threads wait for. *)
Theorem count_threads_stop {D : Type} `{Flt D} :
  (forall g (s : cst nmgen_cnt (list D * D)),
     signalled nm_cancel NmgenOpt.MAX_CPU_NUM s -> 1 <= NmgenOpt.ncpus g <= NmgenOpt.MAX_CPU_NUM ->
     exists s', nmgen_count_thread g s = Ret ((), s') /\ sh_caught (c_now s') = true /\
       forall n, 0 <= n < NmgenOpt.ncpus g -> nm_cancel <$> (sh_ths (c_now s') !! Z.to_nat n) = Some 1) /\
  (forall g (s : cst nvgen_cnt (list D * D)),
     signalled nv_cancel NvgenOpt.MAX_CPU_NUM s -> 1 <= NvgenOpt.ncpus g <= NvgenOpt.MAX_CPU_NUM ->
     exists s', nvgen_count_thread g s = Ret ((), s') /\ sh_caught (c_now s') = true /\
       forall n, 0 <= n < NvgenOpt.ncpus g -> nv_cancel <$> (sh_ths (c_now s') !! Z.to_nat n) = Some 1) /\
  (forall g s, signalled (fun _ => 0) GeneratorOpt.MAX_CPUS s -> 0 <= GeneratorOpt.ncpus g <= GeneratorOpt.MAX_CPUS ->
     exists s', generator_count_thread g s = Ret ((), s') /\ sh_caught (c_now s') = true) /\
  (forall p s, signalled (fun _ => 0) 32 s -> BenchOpt.ncpus p <= 32 ->
     exists s', report_interval (BenchOpt.ncpus p) s = Ret ((), s') /\ sh_caught (c_now s') = true).
Proof.
  split_and!.
  - intros g s [Ht Hc Hb Hl] Hn. unfold nmgen_count_thread, nvgen_count_thread, ths0_gen.
    rewrite (proj2 (Z.ltb_lt _ _)) by lia. apply count_thread_ends; try done; [lia|rewrite Hl; lia].
  - intros g s [Ht Hc Hb Hl] Hn. unfold nmgen_count_thread, nvgen_count_thread, ths0_gen.
    rewrite (proj2 (Z.ltb_lt _ _)) by lia. apply count_thread_ends; try done; [lia|rewrite Hl; lia].
  - apply generator_count_ends.
  - intros p s Hs Hn. by apply (report_interval_ends 32).
Qed.

(** With no processors, which -n 0 asks for and a failing [sched_getaffinity]
    leads to in the receiving mode, the counting thread follows a pointer that was
    never set. *)
Lemma count_thread_without_cpus {D : Type} `{Flt D} :
  (forall g (s : cst nmgen_cnt (list D * D)), NmgenOpt.ncpus g <= 0 -> nmgen_count_thread g s = Fault UninitRead) /\
  (forall g (s : cst nvgen_cnt (list D * D)), NvgenOpt.ncpus g <= 0 -> nvgen_count_thread g s = Fault UninitRead).
Proof.
  split; intros g s Hn; unfold nmgen_count_thread, nvgen_count_thread, ths0_gen;
    by rewrite (proj2 (Z.ltb_ge _ _)) by lia.
Qed.

Lemma nmgen_rx_without_affinity {D : Type} `{Flt D} ret count os g (s : cst nmgen_cnt (list D * D)) :
  ret <> 0 -> NmgenOpt.nmgen_main_opts (count_online_cpus ret count) os = inr g -> NmgenOpt.mode g = NmgenOpt.MODE_RX ->
  nmgen_count_thread g s = Fault UninitRead.
Proof.
  intros Hr E Hm. apply count_thread_without_cpus. revert E. unfold NmgenOpt.nmgen_main_opts, count_online_cpus.
  rewrite (proj2 (Z.eqb_neq ret 0) Hr). destruct (run_opts _ _ os) as [e|g1]; [done|].
  destruct g1 as [[po|] pc mo pl nc ba ti di si dm sm]; simpl; [|done].
  destruct (Z.eqb_spec mo NmgenOpt.MODE_RX) as [->|Hne]; intros [= <-]; simpl in *; [lia|done].
Qed.

Lemma nmgen_accepts_no_cpus :
  exists g, NmgenOpt.nmgen_main_opts 4 [("p"%char, lit "netmap:eth0"); ("n"%char, lit "0")] = inr g /\ NmgenOpt.ncpus g = 0.
Proof. eexists. split; vm_compute; reflexivity. Qed.

(** ** Witnesses *)

(** Exact arithmetic has what the theorems use of [double]. *)
#[export] Instance z_flt : Flt Z := { d_of z := z; d_add := Z.add; d_sub := Z.sub; d_div := Z.div }.
#[export] Instance z_flt_ok : FltOk Z.
Proof. by constructor. Qed.

(** Two threads of nmgen; each access of the counting thread comes after one more
    packet of each, a microsecond later, and the sixth after the signal. *)
Definition nm_work (m : shared nmgen_cnt) : shared nmgen_cnt :=
  Shared ((fun t => NmCnt (nm_cancel t) (nm_npkts t + 1) (nm_nbits t + 480)) <$> sh_ths m) (sh_caught m)
    (Timeval (tv_sec (sh_time m)) (tv_usec (sh_time m) + 1)).
Definition nm_now : shared nmgen_cnt := Shared (replicate 32 (NmCnt 0 0 0)) false (Timeval 1 0).
Definition nm_state : cst nmgen_cnt (list Z * Z) := Cst nm_now (replicate 12 nm_work) [].

Lemma nm_work_counting m : counting [nm_npkts; nm_nbits] m (nm_work m).
Proof.
  split_and!; [simpl; by rewrite length_fmap| |unfold usecs; simpl; lia].
  intros f n Hf. unfold field_at. simpl. rewrite list_lookup_fmap. destruct (sh_ths m !! Z.to_nat n) as [t|]; [|done].
  simpl. repeat (apply elem_of_cons in Hf as [->|Hf]; [simpl; lia|]). by apply elem_of_nil in Hf.
Qed.

Lemma path_replicate {T : Type} (Q : shared T -> shared T -> Prop) g n m : (forall m, Q m (g m)) -> path Q m (replicate n g).
Proof. intros Hq. revert m. induction n as [|n IH]; intros m; [done|]. split; [done|apply IH]. Qed.

Lemma nm_after k : (k <= 12)%nat -> foldl (fun m g => g m) nm_now (replicate k nm_work) =
  Shared (replicate 32 (NmCnt 0 (Z.of_nat k) (480 * Z.of_nat k))) false (Timeval 1 (Z.of_nat k)).
Proof. intros Hk. do 13 (destruct k as [|k]; [vm_compute; reflexivity|]). lia. Qed.

Lemma nm_later s : later nm_state s -> exists k, (k <= 12)%nat /\
  c_now s = Shared (replicate 32 (NmCnt 0 (Z.of_nat k) (480 * Z.of_nat k))) false (Timeval 1 (Z.of_nat k)).
Proof.
  intros [_ (pre & E & N)]. cbn [nm_state c_env c_now] in E, N.
  assert (pre = replicate (length pre) nm_work /\ (length pre <= 12)%nat) as [Ep Hl].
  { pose proof (f_equal length E) as El. rewrite length_replicate, length_app in El. split; [|lia].
    pose proof (f_equal (take (length pre)) E) as Et. rewrite take_app_length, take_replicate in Et.
    rewrite Nat.min_l in Et by lia. done. }
  exists (length pre). split; [done|]. rewrite N, Ep at 1. by apply nm_after.
Qed.

Lemma nm_in_range : in_range 2 [nm_npkts; nm_nbits] nm_state.
Proof.
  split_and!; [done| |].
  - intros f n Hf. unfold field_at. cbn [nm_state c_now nm_now sh_ths].
    destruct (replicate 32 _ !! Z.to_nat n) as [t|] eqn:Et; [|done]. apply lookup_replicate in Et as [-> _].
    repeat (apply elem_of_cons in Hf as [->|Hf]; [simpl; lia|]). by apply elem_of_nil in Hf.
  - intros s (k & Hk & ->)%nm_later. split; [unfold usecs; simpl; lia|]. intros f Hf. split.
    + intros n. unfold field_at. cbn [sh_ths]. destruct (replicate 32 _ !! Z.to_nat n) as [t|] eqn:Et; [|simpl; lia].
      apply lookup_replicate in Et as [-> _].
      repeat (apply elem_of_cons in Hf as [->|Hf]; [simpl; lia|]). by apply elem_of_nil in Hf.
    + unfold growth, over, field_at, zsum. cbn.
      repeat (apply elem_of_cons in Hf as [->|Hf]; [simpl; lia|]). by apply elem_of_nil in Hf.
Qed.

Lemma interval_counts_witness :
  exists bs us pps bps el s', interval 2 [nm_npkts; nm_nbits] [uninit 32; uninit 32] [uninit 32; uninit 32] nm_state =
    Ret ((bs, us, ([pps; bps], el)), s').
Proof.
  destruct (interval_counts 2 32 [nm_npkts; nm_nbits] [uninit 32; uninit 32] [uninit 32; uninit 32] nm_state)
    as (bs & us & ks & el & s1 & s2 & s3 & _ & _ & _ & _ & _ & E & Hk & _); try done.
  - apply path_replicate, nm_work_counting.
  - apply nm_in_range.
  - by repeat constructor.
  - by repeat constructor.
  - apply Forall2_length in Hk. destruct ks as [|k1 [|k2 [|]]]; try done. eexists bs, us, _, _, _, s3. exact E.
Defined.

Definition nm_sig : cst nmgen_cnt (list Z * Z) := Cst nm_now (replicate 12 nm_work ++ [sig_handler 2]) [].

Lemma tame_work : tame nm_cancel nm_work.
Proof.
  constructor; [intros m; apply length_fmap|done|]. intros m n. simpl. rewrite list_lookup_fmap.
  by destruct (sh_ths m !! n).
Qed.

Lemma tame_signal {T : Type} (flag : T -> Z) sig : tame flag (sig_handler sig).
Proof. unfold sig_handler. by constructor; destruct (sig =? 2). Qed.

Lemma signalled_nm_sig : signalled nm_cancel NmgenOpt.MAX_CPU_NUM nm_sig.
Proof.
  constructor; [|vm_compute; reflexivity|simpl; lia|reflexivity]. apply Forall_app. split.
  - apply Forall_forall. intros g [-> _]%elem_of_replicate. apply tame_work.
  - constructor; [apply tame_signal|constructor].
Qed.

Lemma count_threads_stop_witness :
  exists s', nmgen_count_thread (D:=Z) NmgenOpt.nmgen_init nm_sig = Ret ((), s') /\
    nm_cancel <$> (sh_ths (c_now s') !! 0%nat) = Some 1.
Proof.
  destruct (count_threads_stop (D:=Z)) as [Hs _].
  destruct (Hs NmgenOpt.nmgen_init nm_sig signalled_nm_sig) as (s' & E & _ & Hf); [done|].
  exists s'. split; [exact E|]. apply (Hf 0). done.
Defined.

(** Threads of generator and bench-nvme. *)
Definition later_by_1 (t : timeval) : timeval := Timeval (tv_sec t) (tv_usec t + 1).
Definition gen_work (m : shared gen_cnt) : shared gen_cnt :=
  Shared ((fun t => GenCnt (gc_npkts t + 1) (gc_nbytes t + 60) (gc_ncmds t) (gc_nbytes_nvme t) (gc_no_slot t)) <$> sh_ths m)
    (sh_caught m) (later_by_1 (sh_time m)).
Definition gen_now : shared gen_cnt := Shared (replicate 32 (GenCnt 0 0 0 0 0)) false (Timeval 1 0).

Definition bench_work (m : shared bench_cnt) : shared bench_cnt :=
  Shared ((fun t => BenchCnt (bc_count t + 1) (bc_bytes t + 4096)) <$> sh_ths m) (sh_caught m) (later_by_1 (sh_time m)).
Definition bench_now : shared bench_cnt := Shared (replicate 32 (BenchCnt 0 0)) false (Timeval 1 0).

Lemma gen_work_counting m : counting gen_fields m (gen_work m).
Proof.
  split_and!; [simpl; by rewrite length_fmap| |unfold usecs; simpl; lia].
  intros f n Hf. unfold field_at. simpl. rewrite list_lookup_fmap. destruct (sh_ths m !! Z.to_nat n) as [t|]; [|done].
  simpl. repeat (apply elem_of_cons in Hf as [->|Hf]; [simpl; lia|]). by apply elem_of_nil in Hf.
Qed.

Lemma bench_work_counting m : counting bench_fields m (bench_work m).
Proof.
  split_and!; [simpl; by rewrite length_fmap| |unfold usecs; simpl; lia].
  intros f n Hf. unfold field_at. simpl. rewrite list_lookup_fmap. destruct (sh_ths m !! Z.to_nat n) as [t|]; [|done].
  simpl. repeat (apply elem_of_cons in Hf as [->|Hf]; [simpl; lia|]). by apply elem_of_nil in Hf.
Qed.

(** The generator's round before and after the signal was looked at. *)
Definition gen_state : cst gen_cnt (Z * list Z) := Cst gen_now (gen_work :: replicate 29 gen_work) [].
Definition gen_checked : cst gen_cnt (Z * list Z) := Cst (gen_work gen_now) (replicate 29 gen_work) [].
Definition gen_arrays : list arr := replicate 5 (uninit 32).

Lemma generator_round_counts_witness :
  exists x s', gen_count_round 2 gen_fields gen_weights (gen_arrays, gen_arrays) gen_state = Ret (inl x, s') /\
    length (c_out s') = 1%nat.
Proof.
  assert (shaped 32 gen_fields gen_arrays) as Hs by (split; [reflexivity|by repeat constructor]).
  assert (load sh_caught gen_state = Ret (false, gen_checked)) as El by reflexivity.
  assert (path (counting gen_fields) (c_now gen_checked) (c_env gen_checked)) as Hp
    by (apply path_replicate, gen_work_counting).
  destruct (generator_round_counts 2 32 gen_fields gen_weights (gen_arrays, gen_arrays) gen_state gen_checked El Hp)
    as (bs & us & ks & ts & s1 & s2 & s3 & _ & [O1 _] & [O2 _] & _ & [O3 _] & E & _);
    [lia|vm_compute; discriminate|exact Hs|exact Hs|reflexivity|].
  eexists (bs, us), _. split; [exact E|]. cbn [c_out]. rewrite O3, O2, O1. reflexivity.
Defined.

Definition bench_state : cst bench_cnt (Z * Z * Z) := Cst bench_now (replicate 12 bench_work) [].

Lemma bench_interval_counts_witness :
  exists r m env, print_interval_result 2 bench_state = Ret ((), Cst m env [r]).
Proof.
  assert (path (counting bench_fields) (c_now bench_state) (c_env bench_state)) as Hp
    by (apply path_replicate, bench_work_counting).
  destruct (bench_interval_counts 2 bench_state Hp) as (c & b & el & s1 & s2 & s3 & [O1 _] & [O2 _] & [O3 _] & E & _);
    [vm_compute; split; discriminate|].
  exists (u64 c, u64 b, el), (c_now s3), (c_env s3). rewrite E, O3, O2, O1. reflexivity.
Defined.
