(* ===== verification/Mains.v ===== *)
(** * The [main] functions of nmgen, nvgen, generator and bench-nvme

    What these programs do after their options (Options.v) and around the bodies
    of their threads (Nmgen.v, Nvgen.v, Generator.v, BenchNvme.v): they set up a
    pop memory, open a netmap port for every thread, create the threads, wait
    for a timeout or a signal, join the threads and give the memory back.  The
    programs are built with LIBNETMAP (apps/Makefile), so nmgen and nvgen open
    their ports through libnetmap; generator uses [nm_open].  Printing, the seed
    of [rand], and the pauses between two steps are not modelled. *)

From S2P Require Import Prelude CStr LibpopH PopBuf PopMem Netmap Unvme Lba NvRing Packet Options TxRing.
From S2P Require Import PopNetmap Nmgen BenchNvme Generator Nvgen PopMemProps Store Threads.

(** ** Ports of libnetmap *)

Section libnetmap.
Context {W X : Type} `{Ports W}.

(** [if (nmport_open_desc(th->nmd) < 0) return -1]. *)
Definition open_desc (n : Z) (d : nmport_d) : M (mst W nmport_d X) (option Z) :=
  r ← in_proc (os_call (nmport_open_desc d));
  t ← get_th n;
  _ ← put_th n (set_nmd t (Some r.2));
  mret (if r.1 <? 0 then Some (-1) else None).

(** The body of the loop that initialises thread [n]; [own0] are the other
    fields, cleared.  What [nmport_clone] returns is not looked at. *)
Definition open_port (port : option cstr) (own0 : X) (n : Z) : M (mst W nmport_d X) (option Z) :=
  _ ← put_th n (Thr (Some 0) n None own0);
  if n =? 0 then
    d ← in_proc (os_call (nmport_prepare port));
    match d with
    | None => mret (Some (-1))
    | Some d => open_desc n (NmportD (nd_id d) (NR_REG_ONE_NIC W) (reg_nr_ringid d))
    end
  else
    t0 ← get_th 0;
    base ← require NullDeref (t_nmd t0);
    o ← in_proc (os_call (nmport_clone base));
    d ← require NullDeref o;
    open_desc n (NmportD (nd_id d) (reg_nr_mode d) n).
End libnetmap.

Section mains.
Context {W : Type} `{Posix W} `{Unvme W} `{Pthreads W} `{Ports W}.

(** ** nmgen *)

(** The [switch (gen.mode)] of the loop that spawns the threads. *)
Definition nmgen_spawn (g : NmgenOpt.nmgen) : Z -> M (mst W nmport_d ()) () :=
  if NmgenOpt.mode g =? NmgenOpt.MODE_TX then create_th F_nmgen_sender
  else if NmgenOpt.mode g =? NmgenOpt.MODE_RX then create_th F_nmgen_receiver
  else fun _ => mret ().

(** From [signal] to the last [pthread_join]: [Some e] is [return e]. *)
Definition nmgen_threads (g : NmgenOpt.nmgen) : M (mst W nmport_d ()) (option Z) :=
  ok ← in_proc (os_call signal_SIGINT);
  if negb ok then mret (Some (-1))
  else
    r ← for_until (seqZ 0 (NmgenOpt.ncpus g)) (open_port (NmgenOpt.port g) ());
    match r with
    | Some e => mret (Some e)
    | None =>
        _ ← for_each (seqZ 0 (NmgenOpt.ncpus g)) (fun n _ => nmgen_spawn g n) ();
        ctid ← in_proc (os_call (pthread_create F_count 0));
        _ ← stop_after (NmgenOpt.timeout g);
        _ ← join ctid;
        _ ← join_all (NmgenOpt.ncpus g);
        mret None
    end.

Definition nmgen_main (g : NmgenOpt.nmgen) : M (mst W nmport_d ()) Z :=
  mem ← in_proc (pop_mem_init (NmgenOpt.pci g) 0);
  match mem with
  | None => mret (-1)
  | Some lm =>
      r ← nmgen_threads g;
      match r with
      | Some e => mret e
      | None => _ ← in_proc (pop_mem_exit lm); mret 0
      end
  end.

(** ** nvgen *)

Definition nvgen_thread0 : nvgen_thread := NvThread 0 0 (NvRing 0 0 0) 0.

(** The result of [nvgen_init_thread_body] is not looked at, and both threads
    of the transmitting mode are kept in the same variable. *)
Definition nvgen_spawn (g : NvgenOpt.nvgen) (lm : loc) (n : Z) : M (mst W nmport_d nvgen_thread) () :=
  if NvgenOpt.mode g =? 0 then
    t ← get_th n;
    r ← in_proc (nvgen_init_thread_body g lm (t_cpu t) (t_own t));
    _ ← put_th n (set_own t r.2);
    _ ← create_th F_nvgen_sender_netmap n;
    create_th F_nvgen_sender_unvme n
  else if NvgenOpt.mode g =? 1 then create_th F_nvgen_receiver n
  else mret ().

Definition nvgen_open_ports (g : NvgenOpt.nvgen) : M (mst W nmport_d nvgen_thread) (option Z) :=
  for_until (seqZ 0 (NvgenOpt.ncpus g)) (open_port (NvgenOpt.port g) nvgen_thread0).

Definition nvgen_threads (g : NvgenOpt.nvgen) (lm : loc) : M (mst W nmport_d nvgen_thread) (option Z) :=
  ok ← in_proc (os_call signal_SIGINT);
  if negb ok then mret (Some (-1))
  else
    r ← nvgen_open_ports g;
    match r with
    | Some e => mret (Some e)
    | None =>
        _ ← for_each (seqZ 0 (NvgenOpt.ncpus g)) (fun n _ => nvgen_spawn g lm n) ();
        ctid ← in_proc (os_call (pthread_create F_count 0));
        _ ← stop_after (NvgenOpt.timeout g);
        _ ← join ctid;
        _ ← join_all (NvgenOpt.ncpus g);
        mret None
    end.

Definition nvgen_main (g : NvgenOpt.nvgen) : M (mst W nmport_d nvgen_thread) Z :=
  mem ← in_proc (pop_mem_init (NvgenOpt.pci g) 0);
  match mem with
  | None => mret (-1)
  | Some lm =>
      _ ← in_proc (os_call (unvme_open (NvgenOpt.nvme g)));
      _ ← in_proc (os_call (unvme_register_pop_mem (Some lm)));
      r ← nvgen_threads g lm;
      match r with
      | Some e => mret e
      | None => _ ← in_proc (pop_mem_exit lm); mret 0
      end
  end.

(** ** generator *)

(** [nr_flags & ~NR_REG_MASK | NR_REG_ONE_NIC] and [nr_ringid = n] in a copy. *)
Definition one_nic (d : nm_desc) (n : Z) : nm_desc :=
  NmDesc (nm_fd d) (req_nr_name d)
    (Z.lor (Z.land (req_nr_flags d) (Z.lnot (NR_REG_MASK W))) (NR_REG_ONE_NIC W)) n.

(** The flags of the first port. *)
Definition open_flags : Z :=
  Z.lor (NM_OPEN_IFNAME W) (Z.lor (NM_OPEN_ARG1 W) (Z.lor (NM_OPEN_ARG2 W)
    (Z.lor (NM_OPEN_ARG3 W) (NM_OPEN_RING_CFG W)))).

(** The port of thread [n]: [inl ret] when its name is not accepted. *)
Definition gen_nm_open (g : GeneratorOpt.generator) (n : Z) : M (mst W nm_desc (Z * Z)) (Z + option nm_desc) :=
  if n =? 0 then
    r ← in_proc (os_call (nm_parse (GeneratorOpt.port g) (NmDesc 0 [] 0 0)));
    if negb (r.1 =? 0) then mret (inl r.1)
    else o ← in_proc (os_call (nm_open (GeneratorOpt.port g) open_flags (one_nic r.2 0))); mret (inr o)
  else
    t0 ← get_th 0;
    d0 ← require NullDeref (t_nmd t0);
    o ← in_proc (os_call (nm_open (GeneratorOpt.port g) (NM_OPEN_NO_MMAP W) (one_nic d0 n)));
    mret (inr o).

(** The body of the loop that initialises thread [n]: [Some (ret, n)] is [goto
    close] with these values. *)
Definition gen_open_port (g : GeneratorOpt.generator) (n : Z) : M (mst W nm_desc (Z * Z)) (option (Z * Z)) :=
  range ← lift (Lba.Generator.generator_range (GeneratorOpt.lba_start g) (GeneratorOpt.lba_end g)
                  (GeneratorOpt.ncpus g) n);
  _ ← put_th n (Thr (Some 0) n None range);
  r ← gen_nm_open g n;
  match r with
  | inl ret => _ ← catch_signal; mret (Some (ret, n))
  | inr None => _ ← catch_signal; mret (Some (-1, n))
  | inr (Some d) => t ← get_th n; _ ← put_th n (set_nmd t (Some d)); mret None
  end.

(** The loop at the label [close]. *)
Definition gen_close (n : Z) : M (mst W nm_desc (Z * Z)) () :=
  for_each (seqZ 0 n) (fun i _ =>
    _ ← join_th i;
    t ← get_th i;
    _ ← in_proc (os_call (nm_close (t_nmd t)));
    mret ()) ().

(** From the initialisation of the threads to the end of the loop at [close]. *)
Definition generator_run (g : GeneratorOpt.generator) : M (mst W nm_desc (Z * Z)) Z :=
  r ← for_until (seqZ 0 (GeneratorOpt.ncpus g)) (gen_open_port g);
  match r with
  | Some (ret, n) => _ ← gen_close n; mret ret
  | None =>
      _ ← create_all F_generator_body (GeneratorOpt.ncpus g);
      tid_cnt ← in_proc (os_call (pthread_create F_count 0));
      _ ← stop_after (GeneratorOpt.timeout g);
      _ ← join tid_cnt;
      _ ← gen_close (GeneratorOpt.ncpus g);
      mret 0
  end.

(** A handler that cannot be set up counts as a signal. *)
Definition generator_threads (g : GeneratorOpt.generator) : M (mst W nm_desc (Z * Z)) Z :=
  ok ← in_proc (os_call signal_SIGINT);
  _ ← (if negb ok then catch_signal else mret ());
  generator_run g.

(** [print_gen_info] looks into [gen.unvme], which may be NULL. *)
Definition generator_main (g : GeneratorOpt.generator) : M (mst W nm_desc (Z * Z)) Z :=
  mem ← in_proc (pop_mem_init (GeneratorOpt.pci g) 0);
  match mem with
  | None => mret (-1)
  | Some lm =>
      unvme ← in_proc (os_call (unvme_open (GeneratorOpt.nvme g)));
      _ ← in_proc (os_call (unvme_register_pop_mem (Some lm)));
      if negb unvme then throw NullDeref
      else
        ret ← generator_threads g;
        _ ← in_proc (os_call unvme_close);
        _ ← in_proc (pop_mem_exit lm);
        mret ret
  end.

(** ** bench-nvme *)

Definition bench_spawn (p : BenchOpt.bench_param) (n : Z) : M (mst W () (Z * Z)) () :=
  t ← get_th n;
  range ← lift (Lba.Bench.bench_range (BenchOpt.split p) (BenchOpt.lba_end p) (BenchOpt.ncpus p) n);
  _ ← put_th n (Thr (t_tid t) n (t_nmd t) range);
  create_th F_bench_start n.

Definition bench_threads (p : BenchOpt.bench_param) : M (mst W () (Z * Z)) () :=
  _ ← for_each (seqZ 0 (BenchOpt.ncpus p)) (fun n _ => bench_spawn p n) ();
  rtid ← in_proc (os_call (pthread_create F_count 0));
  _ ← stop_after (BenchOpt.time p);
  _ ← join_all (BenchOpt.ncpus p);
  join rtid.

(** From [signal] on.  Neither [p.ns] nor [p.mem] is looked at. *)
Definition bench_main (p : BenchOpt.bench_param) : M (mst W () (Z * Z)) Z :=
  ok ← in_proc (os_call signal_SIGINT);
  if negb ok then mret (-1)
  else
    match BenchOpt.nvme p with
    | None => mret (-1)
    | Some _ =>
        _ ← in_proc (os_call (unvme_open (BenchOpt.nvme p)));
        mem ← in_proc (pop_mem_init (BenchOpt.p2p p) 0);
        _ ← in_proc (os_call (unvme_register_pop_mem mem));
        _ ← bench_threads p;
        _ ← in_proc (os_call unvme_close);
        lm ← require NullDeref mem;
        _ ← in_proc (pop_mem_exit lm);
        mret 0
    end.
End mains.

(** ** Opening the ports *)

(** The registrations of [k] ports: ring [i] alone for thread [i], the first
    port on the ring [r0] that its name stands for. *)
Definition rings (mode r0 : Z) (k : nat) : list port_event :=
  (fun i => Registered mode (if i =? 0 then r0 else i)) <$> seqZ 0 (Z.of_nat k).

Lemma seqZ_clip n : seqZ 0 n = seqZ 0 (Z.of_nat (Z.to_nat n)).
Proof. destruct (Z.le_gt_cases 0 n); [by rewrite Z2Nat.id by lia|]. by rewrite !seqZ_nil by lia. Qed.

Lemma join_singletons {A B : Type} (f : A -> B) (l : list A) : mjoin ((fun n => [f n]) <$> l) = f <$> l.
Proof. induction l as [|a l IH]; [done|]. cbn. by f_equal. Qed.

Section ports.
Context {W P X : Type} `{PortsOk W}.
Implicit Type s : mst W P X.

(** Only the outside world and the array have changed, and no thread. *)
Record kept s0 s : Prop := Kept {
  kp_os : exists w, ms_proc s = with_os w (ms_proc s0);
  kp_len : length (ms_ths s) = length (ms_ths s0);
  kp_caught : ms_caught s0 = true -> ms_caught s = true;
  kp_unj : unj s = unj s0;
  kp_st : st s = st s0
}.

#[export] Instance kept_preorder : PreOrder kept.
Proof.
  split.
  - intros s. split; [|done..]. exists (p_os (ms_proc s)). by destruct s as [[]].
  - intros s1 s2 s3 [[w Ow] L C U S] [[w' Ow'] L' C' U' S'].
    split; [|congruence|auto|congruence|congruence]. exists w'. rewrite Ow', Ow. by destruct (ms_proc s1).
Qed.

(** A call of the outside world that creates and joins no thread. *)
Lemma kept_call {A : Type} (f : W -> A * W) s :
  unjoined (f (p_os (ms_proc s))).2 = unj s -> started (f (p_os (ms_proc s))).2 = st s ->
  exists s', in_proc (os_call f) s = Ret ((f (p_os (ms_proc s))).1, s') /\ kept s s' /\ ms_ths s' = ms_ths s /\
    reqs s' = requests (f (p_os (ms_proc s))).2.
Proof.
  intros Hu Hs. rewrite in_proc_os_call. eexists. split; [done|]. split; [|done].
  split; [by eexists|done..].
Qed.

(** A write to the array. *)
Lemma kept_put n t t' s :
  0 <= n -> ms_ths s !! Z.to_nat n = Some t ->
  exists s', put_th n t' s = Ret ((), s') /\ kept s s' /\ reqs s' = reqs s /\
    ms_ths s' = <[Z.to_nat n := t']> (ms_ths s).
Proof.
  intros Hn Ht. rewrite (put_th_eq n t t' s Hn Ht). eexists. split; [done|]. split; [|done].
  split; [|by simpl; rewrite length_insert|done..]. exists (p_os (ms_proc s)). by destruct s as [[]].
Qed.

(** The loop that creates one thread a round. *)
Lemma simple_spawn f k s :
  creates W -> (k <= length (ms_ths s))%nat ->
  exists T s', for_each (seqZ 0 (Z.of_nat k)) (fun n _ => create_th f n) () s = Ret ((), s') /\ length T = k /\
    spawned T [] ((fun n => (f, n)) <$> seqZ 0 (Z.of_nat k)) s s'.
Proof.
  intros Hc Hk.
  destruct (spawn_loop (fun _ => True) 0 (fun n => [(f, n)]) (create_th f) k s) as (T & L & s' & E & HT & HL & Hsp & _);
    [|done|].
  - intros T L log s1 Hsp _ Hlt. destruct (spawned_create Hc T L log s s1 f Hsp) as (t & w & th & _ & E & Hsp'); [lia|].
    apply (wp_Ret _ _ _ _ _ _ E). by exists t, [].
  - exists T, s'. split; [done|]. split; [done|]. destruct L; [|done].
    by rewrite <- join_singletons.
Qed.
End ports.

(** [pop_mem_exit] of a memory that is still there returns. *)
Lemma exit_returns {W P X A : Type} `{Posix W} lm m (a : A) (s : mst W P X) :
  p_mems (ms_proc s) !! lm = Some m -> exists s', (_ ← in_proc (pop_mem_exit lm); mret a) s = Ret (a, s').
Proof.
  intros Hm. destruct (pop_mem_exit_returns lm m (ms_proc s) Hm) as (r & p & E).
  assert (in_proc (pop_mem_exit lm) s = Ret (r, with_proc p s)) as E1 by (unfold in_proc; by rewrite E).
  rewrite (bind_ret _ _ _ _ _ E1). by eexists.
Qed.

Section libnetmap_lemmas.
Context {W X : Type} `{PortsOk W}.
Variables (port : option cstr) (own0 : X).
Implicit Type s : mst W nmport_d X.

Definition clones : Prop := forall d (w : W), (nmport_clone d w).1 <> None.
Hypothesis Hclones : clones.

Lemma open_desc_wp n th d s :
  0 <= n -> ms_ths s !! Z.to_nat n = Some th ->
  exists r s' d', open_desc n d s = Ret (r, s') /\ (r = None \/ r = Some (-1)) /\ kept s s' /\
    reqs s' = reqs s ++ [Registered (reg_nr_mode d) (reg_nr_ringid d)] /\ reg_nr_mode d' = reg_nr_mode d /\
    ms_ths s' = <[Z.to_nat n := set_nmd th (Some d')]> (ms_ths s).
Proof.
  intros Hn Hth. unfold open_desc. pose proof (open_desc_ok d (p_os (ms_proc s))) as Hok.
  destruct (nmport_open_desc d (p_os (ms_proc s))) as [[r d'] w] eqn:E. destruct Hok as (Hm & Hu & Hs & Hr).
  destruct (kept_call (nmport_open_desc d) s) as (s1 & E1 & K1 & A1 & R1); [by rewrite E..|].
  rewrite (bind_ret _ _ _ _ _ E1), E. simpl fst. simpl snd. rewrite E in R1. simpl in R1.
  rewrite <- A1 in Hth. rewrite (bind_ret _ _ _ _ _ (get_th_eq n th s1 Hn Hth)).
  destruct (kept_put n th (set_nmd th (Some d')) s1 Hn Hth) as (s2 & E2 & K2 & R2 & A2).
  rewrite (bind_ret _ _ _ _ _ E2). exists (if r <? 0 then Some (-1) else None), s2, d'. split; [done|].
  split; [destruct (r <? 0); auto|]. split; [by etrans|]. split; [by rewrite R2, R1, Hr|]. split; [done|].
  by rewrite A2, A1.
Qed.

(** After [k] ports. *)
Record opened (k : nat) (r0 : Z) s0 s : Prop := PortsOpen {
  on_kept : kept s0 s;
  on_reqs : reqs s = reqs s0 ++ rings (NR_REG_ONE_NIC W) r0 k;
  on_first : (0 < k)%nat -> exists th d, ms_ths s !! 0%nat = Some th /\ t_nmd th = Some d /\
               reg_nr_mode d = NR_REG_ONE_NIC W
}.

Lemma rings_S mode r0 k : rings mode r0 (S k) = rings mode r0 k ++ [Registered mode (if Z.of_nat k =? 0 then r0 else Z.of_nat k)].
Proof. unfold rings. by rewrite seqZ_S, fmap_app. Qed.

Lemma open_first s0 s :
  opened 0 0 s0 s -> (0 < length (ms_ths s0))%nat ->
  exists r s', open_port port own0 0 s = Ret (r, s') /\ kept s0 s' /\
    (r = Some (-1) \/ r = None /\ exists r0, opened 1 r0 s0 s').
Proof.
  intros [K R _] Hlen. unfold open_port.
  destruct (lookup_lt_is_Some_2 (ms_ths s) 0) as [t Et]; [rewrite (kp_len _ _ K); lia|].
  destruct (kept_put 0 t (Thr (Some 0) 0 None own0) s ltac:(done) Et) as (s1 & E1 & K1 & R1 & A1).
  rewrite (bind_ret _ _ _ _ _ E1). cbv iota. change (0 =? 0) with true. cbv iota.
  destruct (prepare_ok port (p_os (ms_proc s1))) as (Hu & Hs & Hr).
  destruct (kept_call (nmport_prepare port) s1 Hu Hs) as (s2 & E2 & K2 & A2 & R2).
  rewrite (bind_ret _ _ _ _ _ E2). rewrite Hr in R2.
  destruct (nmport_prepare port (p_os (ms_proc s1))).1 as [d|].
  2: { exists (Some (-1)), s2. split; [done|]. split; [by do 2 (etrans; [done|])|by left]. }
  assert (ms_ths s2 !! 0%nat = Some (Thr (Some 0) 0 None own0)) as E0.
  { rewrite A2, A1. apply list_lookup_insert_eq. by eapply lookup_lt_Some. }
  destruct (open_desc_wp 0 _ (NmportD (nd_id d) (NR_REG_ONE_NIC W) (reg_nr_ringid d)) s2 ltac:(done) E0)
    as (r & s3 & d' & E3 & Hr3 & K3 & R3 & M3 & A3).
  exists r, s3. split; [done|]. assert (kept s0 s3) as K' by (by do 3 (etrans; [done|])).
  split; [done|]. destruct Hr3 as [->| ->]; [right|by left]. split; [done|].
  exists (reg_nr_ringid d). split; [done|rewrite R3, R2; change (requests (p_os (ms_proc s1))) with (reqs s1); rewrite R1, R|].
  - unfold rings. simpl. by rewrite app_nil_r.
  - intros _. eexists _, d'. split; [rewrite A3; apply list_lookup_insert_eq; by eapply lookup_lt_Some|done].
Qed.

Lemma open_next k r0 s0 s :
  opened (S k) r0 s0 s -> (S k < length (ms_ths s0))%nat ->
  exists r s', open_port port own0 (Z.of_nat (S k)) s = Ret (r, s') /\ kept s0 s' /\
    (r = Some (-1) \/ r = None /\ opened (S (S k)) r0 s0 s').
Proof.
  intros [K R F] Hlen. destruct (F ltac:(lia)) as (th0 & d0 & E0 & N0 & M0). unfold open_port.
  set (n := Z.of_nat (S k)). assert (0 < n) as Hn by lia.
  destruct (lookup_lt_is_Some_2 (ms_ths s) (S k)) as [t Et]; [rewrite (kp_len _ _ K); lia|].
  rewrite <- (Nat2Z.id (S k)) in Et. fold n in Et.
  destruct (kept_put n t (Thr (Some 0) n None own0) s ltac:(lia) Et) as (s1 & E1 & K1 & R1 & A1).
  rewrite (bind_ret _ _ _ _ _ E1). replace (n =? 0) with false by lia.
  assert (ms_ths s1 !! 0%nat = Some th0) as E0' by (rewrite A1, list_lookup_insert_ne; [done|lia]).
  rewrite (bind_ret _ _ _ _ _ (get_th_eq 0 th0 s1 ltac:(lia) E0')), N0.
  rewrite (bind_ret (require NullDeref (Some d0)) _ s1 d0 s1 eq_refl).
  pose proof (clone_ok d0 (p_os (ms_proc s1))) as Hok. pose proof (Hclones d0 (p_os (ms_proc s1))) as Hc.
  destruct (nmport_clone d0 (p_os (ms_proc s1))) as [[d|] w] eqn:Ec; [|done]. destruct Hok as (Hm & Hu & Hs & Hr).
  destruct (kept_call (nmport_clone d0) s1) as (s2 & E2 & K2 & A2 & R2); [by rewrite Ec..|].
  rewrite (bind_ret _ _ _ _ _ E2), Ec. simpl fst. rewrite (bind_ret (require NullDeref (Some d)) _ s2 d s2 eq_refl).
  rewrite Ec in R2. simpl in R2.
  assert (ms_ths s2 !! Z.to_nat n = Some (Thr (Some 0) n None own0)) as En.
  { rewrite A2, A1. apply list_lookup_insert_eq. by eapply lookup_lt_Some. }
  destruct (open_desc_wp n _ (NmportD (nd_id d) (reg_nr_mode d) n) s2 ltac:(lia) En)
    as (r & s3 & d' & E3 & Hr3 & K3 & R3 & M3 & A3).
  exists r, s3. split; [done|]. assert (kept s0 s3) as K' by (by do 3 (etrans; [done|])).
  split; [done|]. destruct Hr3 as [->| ->]; [right|by left]. split; [done|]. split; [done| |].
  - rewrite R3, R2, Hr. change (requests (p_os (ms_proc s1))) with (reqs s1). rewrite R1, R, (rings_S _ _ (S k)). fold n.
    replace (n =? 0) with false by lia. simpl. by rewrite (Hm d eq_refl), M0, app_assoc.
  - intros _. exists th0, d0. rewrite A3, list_lookup_insert_ne by lia. by rewrite A2.
Qed.

(** All the ports, or the first that fails. *)
Lemma open_ports n s :
  (n <= length (ms_ths s))%nat ->
  exists r s', for_until (seqZ 0 (Z.of_nat n)) (open_port port own0) s = Ret (r, s') /\ kept s s' /\
    (r = Some (-1) \/ r = None /\ exists r0, opened n r0 s s').
Proof.
  intros Hn. apply wp_returns. eapply wp_mono; [|apply (wp_for_until never
    (fun rest s' => exists k r0, (k <= n)%nat /\ rest = seqZ (Z.of_nat k) (Z.of_nat (n - k)) /\ (k = 0%nat -> r0 = 0) /\ opened k r0 s s')
    (fun e s' => e = -1 /\ kept s s'))].
  - intros [e|] s'; [intros [-> K]; split; [done|by left]|]. intros (k & r0 & Hk & Hr & _ & Ho).
    apply (f_equal length) in Hr. rewrite length_seqZ in Hr. simpl in Hr. replace k with n in Ho by lia.
    split; [apply Ho|]. right. split; [done|by exists r0].
  - exists 0%nat, 0. split; [lia|]. split; [by rewrite Nat.sub_0_r|]. split; [done|].
    split; [done|unfold rings; simpl; by rewrite app_nil_r|lia].
  - intros i rest s1 (k & r0 & Hk & Hr & Hz & Ho).
    destruct (decide (k = n)) as [->|Hne]; [by rewrite Nat.sub_diag in Hr|].
    rewrite seqZ_cons in Hr by lia. injection Hr as -> ->.
    assert (exists r s', open_port port own0 (Z.of_nat k) s1 = Ret (r, s') /\ kept s s' /\
      (r = Some (-1) \/ r = None /\ exists r1, opened (S k) r1 s s')) as (r & s2 & E & K & Hr).
    { destruct k as [|k]; [rewrite Hz in Ho by done; apply open_first; [done|lia]|].
      destruct (open_next k r0 s s1 Ho ltac:(lia)) as (r & s2 & E & K & Hr). exists r, s2. naive_solver. }
    apply (wp_Ret _ _ _ _ _ _ E). destruct Hr as [->|[-> [r1 Ho2]]]; [done|].
    exists (S k), r1. split; [lia|]. split; [f_equal; lia|]. split; [done|done].
Qed.

(** More threads than the array has elements. *)
Lemma ports_overrun n s :
  Z.of_nat (length (ms_ths s)) < n ->
  (exists s', for_until (seqZ 0 n) (open_port port own0) s = Ret (Some (-1), s') /\ kept s s') \/
  for_until (seqZ 0 n) (open_port port own0) s = Fault OutOfBounds.
Proof.
  intros Hn. set (k := length (ms_ths s)).
  assert (seqZ 0 n = seqZ 0 (Z.of_nat k) ++ seqZ (Z.of_nat k) (n - Z.of_nat k)) as ->.
  { rewrite <- seqZ_app by lia. f_equal. lia. }
  rewrite for_until_app. destruct (open_ports k s ltac:(done)) as (r & s1 & E & K & [->|[-> _]]).
  - left. exists s1. by rewrite (bind_ret _ _ _ _ _ E).
  - right. rewrite (bind_ret _ _ _ _ _ E), seqZ_cons by lia. cbn [for_until]. apply bind_fault.
    unfold open_port, put_th. rewrite bind_assoc. apply bind_fault, get_th_out. rewrite (kp_len _ _ K). lia.
Qed.
End libnetmap_lemmas.
Arguments clones W {_}.

(** ** nmgen *)

Section nmgen_props.
Context {W : Type} `{Posix W} `{PortsOk W}.
Implicit Type s : mst W nmport_d ().
Import NmgenOpt.

(** The function that the threads of a mode run. *)
Definition nmgen_fn (g : nmgen) : thread_fn :=
  if mode g =? MODE_TX then F_nmgen_sender else F_nmgen_receiver.

(** The threads it creates. *)
Definition nmgen_log (g : nmgen) : list (thread_fn * Z) :=
  ((fun n => (nmgen_fn g, n)) <$> seqZ 0 (ncpus g)) ++ [(F_count, 0)].

Lemma nmgen_threads_wp g s :
  creates W -> clones W -> ncpus g <= MAX_CPU_NUM -> length (ms_ths s) = Z.to_nat MAX_CPU_NUM ->
  mode g = MODE_TX \/ mode g = MODE_RX -> unj s = ∅ ->
  wp (join_stuck (negb (timeout g =? 0)) (st s ++ nmgen_log g)) (nmgen_threads g) s (fun r s' => unj s' = ∅ /\
    (r = Some (-1) /\ st s' = st s \/
     r = None /\ st s' = st s ++ nmgen_log g /\
     exists r0, reqs s' = reqs s ++ rings (NR_REG_ONE_NIC W) r0 (Z.to_nat (ncpus g)))).
Proof.
  intros Hcr Hcl Hn Hlen Hmode Hu. unfold nmgen_threads, nmgen_log. unfold MAX_CPU_NUM in *.
  destruct (signal_ok (p_os (ms_proc s))) as [Hsu Hss]. pose proof (signal_requests (p_os (ms_proc s))) as Hsr.
  destruct (kept_call signal_SIGINT s Hsu Hss) as (s1 & E1 & K1 & A1 & R1). rewrite Hsr in R1.
  apply wp_bind, (wp_Ret _ _ _ _ _ _ E1).
  destruct (signal_SIGINT (p_os (ms_proc s))).1; simpl negb; cbv iota.
  2: { apply (wp_Ret _ _ _ (Some (-1)) s1); [done|]. rewrite (kp_unj _ _ K1), (kp_st _ _ K1). auto. }
  unfold join_all. rewrite (seqZ_clip (ncpus g)). set (k := Z.to_nat (ncpus g)).
  destruct (open_ports (port g) () Hcl k s1) as (r & s2 & E2 & K2 & Hr); [rewrite A1; lia|].
  apply wp_bind, (wp_Ret _ _ _ _ _ _ E2). assert (kept s s2) as K by (by etrans).
  destruct Hr as [->|[-> [r0 Ho]]].
  { apply (wp_Ret _ _ _ (Some (-1)) s2); [done|]. rewrite (kp_unj _ _ K), (kp_st _ _ K). auto. }
  destruct (simple_spawn (nmgen_fn g) k s2 Hcr) as (T & s3 & E3 & HT & Hsp); [rewrite (kp_len _ _ K); lia|].
  apply wp_bind. apply (wp_Ret _ _ _ () s3).
  { unfold nmgen_spawn, nmgen_fn in *. destruct Hmode as [Hm|Hm]; rewrite Hm in *; exact E3. }
  pose proof (count_and_join Hcr (timeout g) _ join_all T [] _ s2 s3 (@None Z) join_all_joins Hsp) as Hw.
  rewrite HT, no_events, app_nil_r, (kp_st _ _ K) in Hw. eapply wp_mono; [|exact Hw].
  intros r s4 (-> & U & S & R). rewrite U, S, R, (kp_unj _ _ K), Hu. split; [set_solver|].
  right. split; [done|]. split; [done|]. exists r0. rewrite (on_reqs _ _ _ _ Ho), R1. done.
Qed.

(** C22: nmgen waits for every thread before it gives the memory back.  With a
    number of threads that fits its array, thread creation and the cloning of
    port descriptors succeeding, and a pop memory, [main] ends in one of three
    ways.

    - A [pthread_join] of a thread that it has created does not return; all
      threads of the mode and the one that counts have been created by then, and
      [caught_signal] is set if a timeout was given.
    - The signal handler or a port could not be set up: it returns -1, and no
      thread was ever created.
    - It has asked for one hardware ring alone for every thread, ring [n] for
      thread [n], has created one thread of the mode on each and one that
      counts, and calls [pop_mem_exit] in a state in which none of them is left;
      unless the threads have freed the memory, it returns 0. *)
Theorem nmgen_joins_threads g lm s p1 :
  creates W -> clones W -> ncpus g <= MAX_CPU_NUM -> length (ms_ths s) = Z.to_nat MAX_CPU_NUM ->
  mode g = MODE_TX \/ mode g = MODE_RX ->
  pop_mem_init (pci g) 0 (ms_proc s) = Ret (Some lm, p1) -> unjoined (p_os p1) = ∅ ->
  (exists o, nmgen_main g s = no_return o /\
     join_stuck (negb (timeout g =? 0)) (started (p_os p1) ++ nmgen_log g) o) \/
  (exists s', nmgen_main g s = Ret (-1, s') /\ unj s' = ∅ /\ st s' = started (p_os p1)) \/
  (exists s' r0, nmgen_main g s = (_ ← in_proc (pop_mem_exit lm); mret 0) s' /\ unj s' = ∅ /\
     st s' = started (p_os p1) ++ nmgen_log g /\
     reqs s' = requests (p_os p1) ++ rings (NR_REG_ONE_NIC W) r0 (Z.to_nat (ncpus g)) /\
     forall m, p_mems (ms_proc s') !! lm = Some m -> exists s2, nmgen_main g s = Ret (0, s2)).
Proof.
  intros Hcr Hcl Hn Hlen Hmode E Hu.
  assert (in_proc (pop_mem_init (pci g) 0) s = Ret (Some lm, with_proc p1 s)) as E0 by (unfold in_proc; by rewrite E).
  pose proof (nmgen_threads_wp g (with_proc p1 s) Hcr Hcl Hn Hlen Hmode Hu) as Hwp.
  apply (wp_cases _ _ (fun r => match r with Some e => mret e | None => _ ← in_proc (pop_mem_exit lm); mret 0 end)) in Hwp.
  unfold nmgen_main. rewrite (bind_ret _ _ _ _ _ E0).
  destruct Hwp as [(r & s' & Et & Hu' & Hr)|Hstuck]; [right|left; exact Hstuck].
  rewrite (bind_ret _ _ _ _ _ Et). destruct Hr as [[-> Hs]|(-> & Hs & r0 & Hr)]; [left; eauto|right].
  exists s', r0. split_and!; [done..|]. intros m Hm. by eapply exit_returns.
Qed.
End nmgen_props.

(** ** nvgen *)

(** Opening the NVMe namespace and naming the memory touch no thread and no
    port of the program. *)
Class UnvmeQuiet (W : Type) `{Unvme W} `{PortsOk W} : Prop := {
  quiet_unvme_open name w : let w' := (unvme_open name w).2 in
    unjoined w' = unjoined w /\ started w' = started w /\ requests w' = requests w;
  quiet_register mem w : let w' := (unvme_register_pop_mem mem w).2 in
    unjoined w' = unjoined w /\ started w' = started w /\ requests w' = requests w;
  quiet_unvme_close w : let w' := (unvme_close w).2 in
    unjoined w' = unjoined w /\ started w' = started w /\ requests w' = requests w
}.

Section nvgen_props.
Context {W : Type} `{Posix W} `{PortsOk W} `{Unvme W} `{!UnvmeQuiet W}.
Implicit Type s : mst W nmport_d nvgen_thread.
Import NvgenOpt.

(** The pop memory is there, and nobody allocates from it. *)
Definition heap_ok (lm : loc) (p : proc W) : Prop :=
  exists m, p_mems p !! lm = Some m /\ mem_ok m /\ m_mutex m = false /\ p_oom p = [].

Lemma nvgen_init_returns g lm cpu th p :
  ncpus g <> 0 -> heap_ok lm p ->
  exists r p', nvgen_init_thread_body g lm cpu th p = Ret (r, p') /\ p_os p' = p_os p /\ heap_ok lm p'.
Proof.
  intros Hn (m & Hm & Hok & Hmu & Ho). unfold nvgen_init_thread_body, Nvgen.nvgen_range.
  replace (ncpus g =? 0) with false by lia. unfold lift. unfold mbind at 1, M_bind at 1.
  change (2048 * SLOT_NUM) with 524288. pose proof (mo_num _ Hok). pose proof (mo_alloced _ Hok).
  destruct (Z.leb_spec 128 (m_num_pages m - m_alloced_pages m)) as [Hroom|Hroom].
  - destruct (alloc_put lm m 524288 p) as [Ea [v Ev]]; [done..|lia|exact Hroom|done|].
    rewrite (bind_ret _ _ _ _ _ Ea), (bind_ret _ _ _ _ _ Ev).
    unfold pop_buf_data. rewrite bind_assoc. erewrite bind_ret by (apply load_buf_Some, lookup_insert_eq).
    eexists _, _. split; [done|]. split; [done|]. eexists. split; [apply lookup_insert_eq|].
    change (pages_for 524288) with 128. destruct Hok. split; [|done]. split; simpl; lia.
  - assert (pop_buf_alloc lm 524288 p = Ret (None, with_errno ENOBUFS p)) as Ea.
    { rewrite (pop_buf_alloc_eq lm 524288 p m) by (done || lia).
      change (pages_for 524288) with 128. by replace (_ <? 128) with true by lia. }
    rewrite (bind_ret _ _ _ _ _ Ea). eexists _, _. split; [done|]. split; [done|]. by exists m.
Qed.

(** What one round of the loop creates. *)
Definition nvgen_round_log (g : nvgen) (n : Z) : list (thread_fn * Z) :=
  if mode g =? 0 then [(F_nvgen_sender_netmap, n); (F_nvgen_sender_unvme, n)] else [(F_nvgen_receiver, n)].

Lemma nvgen_spawn_tx g lm T L log s0 s :
  creates W -> mode g = 0 -> ncpus g <> 0 -> (length T < length (ms_ths s0))%nat ->
  spawned T L log s0 s -> heap_ok lm (ms_proc s) ->
  exists t u s', nvgen_spawn g lm (Z.of_nat (length T)) s = Ret ((), s') /\ heap_ok lm (ms_proc s') /\
    spawned (T ++ [t]) (u :: L) (log ++ nvgen_round_log g (Z.of_nat (length T))) s0 s'.
Proof.
  intros Hcr Hm Hn Hlt Hsp Hh. unfold nvgen_spawn, nvgen_round_log. rewrite Hm. change (0 =? 0) with true. cbv iota.
  set (n := Z.of_nat (length T)). assert (Z.to_nat n = length T) as En by (unfold n; lia).
  destruct (lookup_lt_is_Some_2 (ms_ths s) (length T)) as [th Eth]; [rewrite (sp_len _ _ _ _ _ Hsp); lia|].
  rewrite <- En in Eth. rewrite (bind_ret _ _ _ _ _ (get_th_eq n th s ltac:(lia) Eth)).
  destruct (nvgen_init_returns g lm (t_cpu th) (t_own th) (ms_proc s) Hn Hh) as (r & p & E & Ep & Hh').
  assert (in_proc (nvgen_init_thread_body g lm (t_cpu th) (t_own th)) s = Ret (r, with_proc p s)) as E1
    by (unfold in_proc; by rewrite E).
  rewrite (bind_ret _ _ _ _ _ E1).
  rewrite (bind_ret _ _ _ _ _ (put_th_eq n th (set_own th r.2) (with_proc p s) ltac:(lia) Eth)).
  set (s1 := with_ths _ _).
  assert (spawned T L log s0 s1) as Hsp1.
  { apply (spawned_same T L log s0 s s1); [done|done| |by simpl; rewrite (insert_nmd _ _ th)|done].
    intros i. simpl. destruct (decide (i = Z.to_nat n)) as [->|Hne].
    - rewrite list_lookup_insert_eq by (by eapply lookup_lt_Some). by rewrite Eth.
    - by rewrite list_lookup_insert_ne. }
  destruct (spawned_create Hcr T L log s0 s1 F_nvgen_sender_netmap Hsp1 Hlt) as (u & w & th' & _ & E2 & Hsp2).
  rewrite (bind_ret _ _ _ _ _ E2).
  destruct (spawned_overwrite Hcr T u L _ s0 _ F_nvgen_sender_unvme Hsp2) as (t & w' & th2 & _ & E3 & Hsp3).
  exists t, u. eexists. split; [exact E3|]. split; [exact Hh'|]. rewrite <- app_assoc in Hsp3. exact Hsp3.
Qed.

Lemma nvgen_spawn_all g lm k s :
  creates W -> mode g = 0 \/ mode g = 1 -> k = Z.to_nat (ncpus g) -> (k <= length (ms_ths s))%nat ->
  heap_ok lm (ms_proc s) ->
  exists T L s', for_each (seqZ 0 (Z.of_nat k)) (fun n _ => nvgen_spawn g lm n) () s = Ret ((), s') /\
    length T = k /\ length L = (if mode g =? 0 then k else 0%nat) /\
    spawned T L (mjoin (nvgen_round_log g <$> seqZ 0 (Z.of_nat k))) s s'.
Proof.
  intros Hcr Hm Hk Hlen Hh.
  destruct (spawn_loop (fun s => heap_ok lm (ms_proc s)) (if mode g =? 0 then 1 else 0) (nvgen_round_log g)
    (nvgen_spawn g lm) k s) as (T & L & s' & E & HT & HL & Hsp & _); [|done|].
  - intros T L log s1 Hsp Hh1 Hlt. destruct Hm as [Hm|Hm].
    + destruct (nvgen_spawn_tx g lm T L log s s1) as (t & u & s2 & E & Hh2 & Hsp2); [done|done|lia|lia|done|done|].
      apply (wp_Ret _ _ _ _ _ _ E). rewrite Hm. by exists t, [u].
    + destruct (spawned_create Hcr T L log s s1 F_nvgen_receiver Hsp) as (t & w & th & _ & E & Hsp2); [lia|].
      unfold nvgen_spawn, nvgen_round_log. rewrite Hm. apply (wp_Ret _ _ _ _ _ _ E). by exists t, [].
  - exists T, L, s'. split; [done|]. split; [done|]. split; [|done]. destruct (mode g =? 0); lia.
Qed.

(** The threads it creates. *)
Definition nvgen_log (g : nvgen) : list (thread_fn * Z) :=
  mjoin (nvgen_round_log g <$> seqZ 0 (ncpus g)) ++ [(F_count, 0)].

Lemma nvgen_threads_wp g lm s :
  creates W -> clones W -> ncpus g <= MAX_CPU_NUM -> length (ms_ths s) = Z.to_nat MAX_CPU_NUM ->
  mode g = 0 \/ mode g = 1 -> unj s = ∅ -> heap_ok lm (ms_proc s) ->
  wp (join_stuck (negb (timeout g =? 0)) (st s ++ nvgen_log g)) (nvgen_threads g lm) s (fun r s' =>
    r = Some (-1) /\ unj s' = ∅ /\ st s' = st s \/
    r = None /\ size (unj s') = (if mode g =? 0 then Z.to_nat (ncpus g) else 0%nat) /\
    st s' = st s ++ nvgen_log g /\
    exists r0, reqs s' = reqs s ++ rings (NR_REG_ONE_NIC W) r0 (Z.to_nat (ncpus g))).
Proof.
  intros Hcr Hcl Hn Hlen Hmode Hu Hh. unfold nvgen_threads, nvgen_open_ports, nvgen_log. unfold MAX_CPU_NUM in *.
  destruct (signal_ok (p_os (ms_proc s))) as [Hsu Hss]. pose proof (signal_requests (p_os (ms_proc s))) as Hsr.
  destruct (kept_call signal_SIGINT s Hsu Hss) as (s1 & E1 & K1 & A1 & R1). rewrite Hsr in R1.
  apply wp_bind, (wp_Ret _ _ _ _ _ _ E1).
  destruct (signal_SIGINT (p_os (ms_proc s))).1; simpl negb; cbv iota.
  2: { apply (wp_Ret _ _ _ (Some (-1)) s1); [done|]. rewrite (kp_unj _ _ K1), (kp_st _ _ K1). auto. }
  unfold join_all. rewrite (seqZ_clip (ncpus g)). set (k := Z.to_nat (ncpus g)).
  destruct (open_ports (port g) nvgen_thread0 Hcl k s1) as (r & s2 & E2 & K2 & Hr); [rewrite A1; lia|].
  apply wp_bind, (wp_Ret _ _ _ _ _ _ E2). assert (kept s s2) as K by (by etrans).
  destruct Hr as [->|[-> [r0 Ho]]].
  { apply (wp_Ret _ _ _ (Some (-1)) s2); [done|]. rewrite (kp_unj _ _ K), (kp_st _ _ K). auto. }
  assert (heap_ok lm (ms_proc s2)) as Hh2 by (destruct (kp_os _ _ K) as [w ->]; exact Hh).
  destruct (nvgen_spawn_all g lm k s2 Hcr Hmode eq_refl) as (T & L & s3 & E3 & HT & HL & Hsp);
    [rewrite (kp_len _ _ K); lia|done|].
  apply wp_bind, (wp_Ret _ _ _ _ _ _ E3).
  pose proof (count_and_join Hcr (timeout g) _ join_all T L _ s2 s3 (@None Z) join_all_joins Hsp) as Hw.
  rewrite HT, no_events, app_nil_r, (kp_st _ _ K) in Hw.
  eapply wp_mono; [|exact Hw]. intros r s4 (-> & U & S & R). right. split; [done|].
  rewrite U, S, R, (kp_unj _ _ K), Hu. split; [|split; [done|]].
  - rewrite union_empty_r_L, <- HL. apply size_list_to_set.
    pose proof (sp_nodup _ _ _ _ _ Hsp) as Hnd. by apply NoDup_app in Hnd as (_ & _ & ?).
  - exists r0. rewrite (on_reqs _ _ _ _ Ho), R1. done.
Qed.

(** C28: nvgen does not wait for its netmap threads.  Under the conditions of
    nmgen and with a pop memory that nobody holds, even if the buffers of the
    threads cannot be allocated, nothing but a [pthread_join] of one of its
    threads that does not return keeps [main] from [pop_mem_exit], and then all
    threads were created and [caught_signal] is set if a timeout was given.  It
    returns -1 without any thread when the handler or a port cannot be set up.
    Otherwise every receiving thread is joined before [pop_mem_exit]; in the
    transmitting mode, which creates two threads a processor and keeps both
    numbers in one variable, as many threads as there are processors are never
    joined and may still run when the memory they work on is given back. *)
Theorem nvgen_leaves_threads g lm s p1 :
  creates W -> clones W -> ncpus g <= MAX_CPU_NUM -> length (ms_ths s) = Z.to_nat MAX_CPU_NUM ->
  mode g = 0 \/ mode g = 1 ->
  pop_mem_init (pci g) 0 (ms_proc s) = Ret (Some lm, p1) -> heap_ok lm p1 -> unjoined (p_os p1) = ∅ ->
  (exists o, nvgen_main g s = no_return o /\
     join_stuck (negb (timeout g =? 0)) (started (p_os p1) ++ nvgen_log g) o) \/
  (exists s', nvgen_main g s = Ret (-1, s') /\ unj s' = ∅ /\ st s' = started (p_os p1)) \/
  (exists s', nvgen_main g s = (_ ← in_proc (pop_mem_exit lm); mret 0) s' /\
     size (unj s') = (if mode g =? 0 then Z.to_nat (ncpus g) else 0%nat) /\
     st s' = started (p_os p1) ++ nvgen_log g).
Proof.
  intros Hcr Hcl Hn Hlen Hmode E Hh Hu. unfold nvgen_main.
  assert (in_proc (pop_mem_init (pci g) 0) s = Ret (Some lm, with_proc p1 s)) as E0 by (unfold in_proc; by rewrite E).
  rewrite (bind_ret _ _ _ _ _ E0).
  destruct (quiet_unvme_open (nvme g) (p_os p1)) as (Hu1 & Hs1 & Hr1).
  destruct (kept_call (unvme_open (nvme g)) (with_proc p1 s) Hu1 Hs1) as (s1 & E1 & K1 & A1 & _).
  rewrite (bind_ret _ _ _ _ _ E1).
  destruct (quiet_register (Some lm) (p_os (ms_proc s1))) as (Hu2 & Hs2 & Hr2).
  destruct (kept_call (unvme_register_pop_mem (Some lm)) s1 Hu2 Hs2) as (s2 & E2 & K2 & A2 & _).
  rewrite (bind_ret _ _ _ _ _ E2). assert (kept (with_proc p1 s) s2) as K by (by etrans).
  assert (heap_ok lm (ms_proc s2)) as Hh2 by (destruct (kp_os _ _ K) as [w ->]; exact Hh).
  assert (unj s2 = ∅) as Hu' by (rewrite (kp_unj _ _ K); exact Hu). pose proof (kp_st _ _ K) as Hst.
  pose proof (nvgen_threads_wp g lm s2 Hcr Hcl Hn) as Hwp. rewrite A2, A1 in Hwp.
  specialize (Hwp Hlen Hmode Hu' Hh2). rewrite Hst in Hwp.
  apply (wp_cases _ _ (fun r => match r with Some e => mret e | None => _ ← in_proc (pop_mem_exit lm); mret 0 end)) in Hwp.
  destruct Hwp as [(r & s' & Et & Hr)|Hstuck]; [right|left; exact Hstuck].
  rewrite (bind_ret _ _ _ _ _ Et). destruct Hr as [(-> & Hu3 & Hs)|(-> & Hz & Hs & _)]; [left|right]; eauto 10.
Qed.
End nvgen_props.

(** ** generator *)

Section generator_props.
Context {W : Type} `{Posix W} `{PortsOk W} `{Unvme W} `{!UnvmeQuiet W}.
Implicit Type s : mst W nm_desc (Z * Z).
Import GeneratorOpt.

(** Joining the threads and closing their ports. *)
Lemma gen_close_joins : joins (fun d => [Closed d]) (gen_close (W:=W)).
Proof.
  apply (joins_each _ (fun i => _ ← join_th i; t ← get_th i; _ ← in_proc (os_call (nm_close (t_nmd t))); mret ())).
  intros b n th t s Hn Hth Ht Hin Hb. apply wp_bind. eapply wp_mono; [|by eapply join_th_wp]. intros [] s1 [A B C D E].
  assert (ms_ths s1 !! Z.to_nat n = Some th) as Hth1 by (by rewrite A).
  apply wp_bind, (wp_Ret _ _ _ _ _ _ (get_th_eq n th s1 Hn Hth1)).
  destruct (close_ok (t_nmd th) (p_os (ms_proc s1))) as (Hu & Hs & Hr).
  destruct (kept_call (nm_close (t_nmd th)) s1 Hu Hs) as (s2 & E2 & [_ _ K3 K4 K5] & A2 & R2).
  apply wp_bind, (wp_Ret _ _ _ _ _ _ E2), (wp_Ret _ _ _ () s2); [done|]. rewrite Hr in R2.
  change (requests (p_os (ms_proc s1))) with (reqs s1) in R2. rewrite D, app_nil_r in R2.
  split; [congruence|congruence|congruence|done|auto].
Qed.

(** [nr_flags & ~NR_REG_MASK | NR_REG_ONE_NIC] selects exactly that mode. *)
Lemma one_nic_flags d n : Z.land (req_nr_flags (one_nic (W:=W) d n)) (NR_REG_MASK W) = NR_REG_ONE_NIC W.
Proof.
  simpl. rewrite Z.land_lor_distr_l, one_nic_mask, <- Z.land_assoc, (Z.land_comm (Z.lnot _)).
  by rewrite Z.land_lnot_diag, Z.land_0_r, Z.lor_0_l.
Qed.

(** [nm_open] that returns a descriptor. *)
Lemma nm_open_call port fl d' s :
  (nm_open port fl d' (p_os (ms_proc s))).1 <> None ->
  exists d s', in_proc (os_call (nm_open port fl d')) s = Ret (Some d, s') /\ kept s s' /\ ms_ths s' = ms_ths s /\
    reqs s' = reqs s ++ [Opened (req_nr_flags d') (req_nr_ringid d') (Some d)].
Proof.
  intros Hd. pose proof (open_ok port fl d' (p_os (ms_proc s))) as Hok.
  destruct (nm_open port fl d' (p_os (ms_proc s))) as [[d|] w] eqn:E; [|done]. destruct Hok as (Hu & Hs & Hr).
  destruct (kept_call (nm_open port fl d') s) as (s' & E1 & K1 & A1 & R1); [by rewrite E..|].
  rewrite E in E1, R1. exists d, s'. split_and!; [done..|]. by rewrite R1.
Qed.

(** Port [k] can be opened: the name is accepted for the first one. *)
Definition nm_opens (port : option cstr) (k : nat) : Prop :=
  match k with
  | O => (forall d (w : W), (nm_parse port d w).1.1 = 0) /\
         forall d (w : W), (nm_open port (open_flags (W:=W)) d w).1 <> None
  | S _ => forall d (w : W), (nm_open port (NM_OPEN_NO_MMAP W) d w).1 <> None
  end.

(** Flags and descriptor of each port: the ports [0, 1, ...] are opened, port [n]
    on ring [n]; and they are closed in the same order. *)
Definition gen_opens (l : list (Z * nm_desc)) : list port_event :=
  imap (fun i q => Opened q.1 (Z.of_nat i) (Some q.2)) l.
Definition gen_closes (l : list (Z * nm_desc)) : list port_event := (fun q => Closed (Some q.2)) <$> l.

Lemma gen_opens_snoc l fl d :
  gen_opens (l ++ [(fl, d)]) = gen_opens l ++ [Opened fl (Z.of_nat (length l)) (Some d)].
Proof. unfold gen_opens. rewrite imap_app. simpl. by rewrite Nat.add_0_r. Qed.

(** After the ports of [l]: each is registered for one ring alone, and its thread
    has its descriptor. *)
Record gen_opened (l : list (Z * nm_desc)) s0 s : Prop := GenOpened {
  go_kept : kept s0 s;
  go_reqs : reqs s = reqs s0 ++ gen_opens l;
  go_mode : Forall (fun q => Z.land q.1 (NR_REG_MASK W) = NR_REG_ONE_NIC W) l;
  go_nmd : forall i q, l !! i = Some q -> exists th, ms_ths s !! i = Some th /\ t_tid th = Some 0 /\ t_nmd th = Some q.2
}.

(** [gen_nm_open] when it opens a port. *)
Lemma gen_nm_open_ok g l s0 s :
  nm_opens (port g) (length l) -> gen_opened l s0 s ->
  let n := Z.of_nat (length l) in
  exists d d' s', gen_nm_open g n s = Ret (inr (Some d), s') /\ kept s s' /\ ms_ths s' = ms_ths s /\
    reqs s' = reqs s ++ [Opened (req_nr_flags (one_nic (W:=W) d' n)) n (Some d)].
Proof.
  intros Ho [K _ _ Hnmd] n. unfold gen_nm_open. destruct l as [|[fl0 d0] l]; [destruct Ho as [Hp Ho]|].
  - change n with 0. change (0 =? 0) with true. cbv iota. set (f := nm_parse (port g) (NmDesc 0 [] 0 0)).
    destruct (parse_ok (port g) (NmDesc 0 [] 0 0) (p_os (ms_proc s))) as (Hu & Hs & Hr).
    destruct (kept_call f s Hu Hs) as (s1 & E1 & K1 & A1 & R1). rewrite (bind_ret _ _ _ _ _ E1).
    unfold f at 1. rewrite Hp. change (negb (0 =? 0)) with false. cbv iota.
    set (d' := (f (p_os (ms_proc s))).1.2).
    destruct (nm_open_call (port g) (open_flags (W:=W)) (one_nic (W:=W) d' 0) s1) as (d & s2 & E2 & K2 & A2 & R2);
      [apply Ho|].
    rewrite (bind_ret _ _ _ _ _ E2). exists d, d', s2. split; [done|]. split; [by etrans|].
    split; [by rewrite A2|]. rewrite R2, R1. unfold f. by rewrite Hr.
  - replace (n =? 0) with false by (unfold n; simpl; lia). destruct (Hnmd 0%nat _ eq_refl) as (th & Eth & _ & Ed).
    rewrite (bind_ret _ _ _ _ _ (get_th_eq 0 th s ltac:(lia) Eth)), Ed.
    rewrite (bind_ret (require NullDeref (Some d0)) _ s d0 s eq_refl).
    destruct (nm_open_call (port g) (NM_OPEN_NO_MMAP W) (one_nic (W:=W) d0 n) s) as (d & s1 & E1 & K1 & A1 & R1);
      [apply Ho|].
    rewrite (bind_ret _ _ _ _ _ E1). by exists d, d0, s1.
Qed.

(** The fields of the thread are set before its port is opened. *)
Lemma gen_open_port_eq g k s :
  (k < length (ms_ths s))%nat -> (k < Z.to_nat (ncpus g))%nat ->
  exists range s1, kept s s1 /\ reqs s1 = reqs s /\
    ms_ths s1 = <[k := Thr (Some 0) (Z.of_nat k) None range]> (ms_ths s) /\
    gen_open_port g (Z.of_nat k) s =
    (r ← gen_nm_open g (Z.of_nat k);
     match r with
     | inl ret => _ ← catch_signal; mret (Some (ret, Z.of_nat k))
     | inr None => _ ← catch_signal; mret (Some (-1, Z.of_nat k))
     | inr (Some d) => t ← get_th (Z.of_nat k); _ ← put_th (Z.of_nat k) (set_nmd t (Some d)); mret None
     end) s1.
Proof.
  intros Hlen Hn. unfold gen_open_port.
  assert (exists range, Lba.Generator.generator_range (lba_start g) (lba_end g) (ncpus g) (Z.of_nat k) = Ret range)
    as [range Er] by (unfold Lba.Generator.generator_range; replace (ncpus g =? 0) with false by lia; eauto).
  rewrite Er. unfold lift. unfold mbind at 4, M_bind at 4.
  destruct (lookup_lt_is_Some_2 (ms_ths s) k Hlen) as [t Et]. rewrite <- (Nat2Z.id k) in Et.
  destruct (kept_put _ t (Thr (Some 0) (Z.of_nat k) None range) s (Nat2Z.is_nonneg k) Et) as (s1 & E1 & K1 & R1 & A1).
  rewrite Nat2Z.id in A1. exists range, s1. split; [done|]. split; [done|]. split; [done|].
  exact (bind_ret _ _ _ _ _ E1).
Qed.

(** One round of the loop. *)
Lemma gen_open_port_ok g l s0 s :
  let k := length l in
  nm_opens (port g) k -> gen_opened l s0 s -> (k < length (ms_ths s0))%nat -> (k < Z.to_nat (ncpus g))%nat ->
  exists q s', gen_open_port g (Z.of_nat k) s = Ret (None, s') /\ gen_opened (l ++ [q]) s0 s'.
Proof.
  intros k Ho Hg Hlen Hn. pose proof Hg as [K Hl Hall Hnmd].
  assert (k < length (ms_ths s))%nat as Hk by (rewrite (kp_len _ _ K); lia).
  destruct (gen_open_port_eq g k s Hk Hn) as (range & s1 & K1 & R1 & A1 & ->).
  set (n := Z.of_nat k) in *. assert (Z.to_nat n = k) as En by lia.
  assert (forall i q, l !! i = Some q -> i <> k) as Hlt by (intros i q Hi%lookup_lt_Some; unfold k; lia).
  assert (gen_opened l s0 s1) as Hg1.
  { split; [by etrans|by rewrite R1|done|]. intros i q Hi. rewrite A1, list_lookup_insert_ne by (symmetry; eauto). eauto. }
  destruct (gen_nm_open_ok g l s0 s1 Ho Hg1) as (d & d' & s2 & E2 & K2 & A2 & R2). fold k n in E2, R2.
  rewrite (bind_ret _ _ _ _ _ E2).
  assert (ms_ths s2 !! Z.to_nat n = Some (Thr (Some 0) n None range)) as Et2.
  { by rewrite A2, A1, En, list_lookup_insert_eq. }
  rewrite (bind_ret _ _ _ _ _ (get_th_eq n _ s2 ltac:(lia) Et2)).
  destruct (kept_put n _ (set_nmd (Thr (Some 0) n None range) (Some d)) s2 ltac:(lia) Et2) as (s3 & E3 & K3 & R3 & A3).
  rewrite (bind_ret _ _ _ _ _ E3). exists (req_nr_flags (one_nic (W:=W) d' n), d), s3.
  split; [done|]. split; [by do 3 (etrans; [done|])|..].
  - by rewrite R3, R2, R1, Hl, gen_opens_snoc, app_assoc.
  - apply Forall_app. split; [done|]. apply Forall_singleton. apply one_nic_flags.
  - intros i q Hi. rewrite A3, En. apply lookup_app_Some in Hi as [Hi|[Hge Hi]].
    + rewrite list_lookup_insert_ne by (symmetry; eauto). rewrite A2, A1, list_lookup_insert_ne by (symmetry; eauto). eauto.
    + apply list_lookup_singleton_Some in Hi as [Hz <-]. replace i with k by (unfold k in *; lia).
      rewrite list_lookup_insert_eq by (rewrite <- En; by eapply lookup_lt_Some). eauto.
Qed.

Lemma gen_open_ports g k s :
  (forall i, (i < k)%nat -> nm_opens (port g) i) -> (k <= length (ms_ths s))%nat -> (k <= Z.to_nat (ncpus g))%nat ->
  exists l s', for_until (seqZ 0 (Z.of_nat k)) (gen_open_port g) s = Ret (None, s') /\ length l = k /\ gen_opened l s s'.
Proof.
  induction k as [|k IH]; intros Ho Hl Hn.
  - exists [], s. split; [done|]. split; [done|]. split; [done|by rewrite app_nil_r|constructor|done].
  - destruct IH as (l & s1 & E1 & Hk & Hg1); [auto|lia..|]. specialize (Ho k ltac:(lia)).
    rewrite <- Hk in Ho. destruct (gen_open_port_ok g l s s1 Ho Hg1) as (q & s2 & E2 & Hg2); [lia..|].
    exists (l ++ [q]), s2. rewrite length_app, Hk. rewrite Hk in E2. split; [|split; [simpl; lia|done]].
    rewrite seqZ_S, for_until_app, (bind_ret _ _ _ _ _ E1). simpl. by rewrite (bind_ret _ _ _ _ _ E2).
Qed.

(** What the loop at [close] closes. *)
Lemma gen_closes_opened l s0 s :
  gen_opened l s0 s -> mjoin ((fun d => [Closed d]) <$> take (length l) (t_nmd <$> ms_ths s)) = gen_closes l.
Proof.
  intros [_ _ _ Hnmd]. rewrite join_singletons. unfold gen_closes.
  assert (take (length l) (t_nmd <$> ms_ths s) = (fun q => Some q.2) <$> l) as ->; [|by rewrite <- list_fmap_compose].
  apply list_eq. intros i. rewrite list_lookup_fmap. destruct (l !! i) as [q|] eqn:Ei.
  - destruct (Hnmd i q Ei) as (th & Eth & _ & Ed). apply lookup_lt_Some in Ei.
    rewrite lookup_take_lt, list_lookup_fmap, Eth by done. simpl. by rewrite Ed.
  - apply lookup_ge_None in Ei. by rewrite lookup_take_ge.
Qed.

Lemma generator_signal g s :
  exists s1, generator_threads g s = generator_run g s1 /\ kept s s1 /\ ms_ths s1 = ms_ths s /\ reqs s1 = reqs s.
Proof.
  destruct (signal_ok (p_os (ms_proc s))) as [Hsu Hss]. pose proof (signal_requests (p_os (ms_proc s))) as Hsr.
  destruct (kept_call signal_SIGINT s Hsu Hss) as (s1 & E1 & K1 & A1 & R1). rewrite Hsr in R1.
  unfold generator_threads. rewrite (bind_ret _ _ _ _ _ E1). destruct (signal_SIGINT (p_os (ms_proc s))).1; [by exists s1|].
  exists (Mst (ms_proc s1) (ms_ths s1) true). split; [done|]. split; [|done].
  etrans; [exact K1|]. split; [exists (p_os (ms_proc s1)); by destruct s1 as [[]]|done..].
Qed.

(** The threads it creates. *)
Definition generator_log (g : generator) : list (thread_fn * Z) :=
  ((fun n => (F_generator_body, n)) <$> seqZ 0 (ncpus g)) ++ [(F_count, 0)].

Lemma generator_run_wp g s :
  creates W -> (forall i, nm_opens (port g) i) -> 1 <= ncpus g <= MAX_CPUS -> length (ms_ths s) = Z.to_nat MAX_CPUS ->
  unj s = ∅ ->
  wp (join_stuck (negb (timeout g =? 0)) (st s ++ generator_log g)) (generator_run g) s (fun r s' =>
    r = 0 /\ unj s' = ∅ /\ st s' = st s ++ generator_log g /\
    exists l, reqs s' = reqs s ++ gen_opens l ++ gen_closes l /\ length l = Z.to_nat (ncpus g) /\
      Forall (fun q => Z.land q.1 (NR_REG_MASK W) = NR_REG_ONE_NIC W) l).
Proof.
  intros Hcr Ho Hn Hlen Hu. unfold generator_run, create_all, generator_log. unfold MAX_CPUS in *.
  rewrite <- (Z2Nat.id (ncpus g)) by lia. rewrite Nat2Z.id. set (k := Z.to_nat (ncpus g)).
  destruct (gen_open_ports g k s) as (l & s2 & E2 & Hk & Hg); [auto|lia|lia|]. pose proof Hg as [K Hl Hall _].
  apply wp_bind, (wp_Ret _ _ _ _ _ _ E2).
  destruct (simple_spawn F_generator_body k s2 Hcr) as (T & s3 & E3 & HT & Hsp); [rewrite (kp_len _ _ K); lia|].
  apply wp_bind, (wp_Ret _ _ _ _ _ _ E3).
  pose proof (count_and_join Hcr (timeout g) _ gen_close T [] _ s2 s3 0 gen_close_joins Hsp) as Hw.
  rewrite HT, <- Hk, (gen_closes_opened l s s2 Hg), Hk, (kp_st _ _ K) in Hw.
  eapply wp_mono; [|exact Hw]. intros r s4 (-> & U & S & R). split; [done|].
  rewrite U, S, R, (kp_unj _ _ K), Hu. split; [set_solver|]. split; [done|].
  exists l. by rewrite Hl, app_assoc.
Qed.

(** [main] up to the handler, with a pop memory and an NVMe device. *)
Lemma generator_starts g lm s p1 :
  pop_mem_init (pci g) 0 (ms_proc s) = Ret (Some lm, p1) -> (unvme_open (nvme g) (p_os p1)).1 = true ->
  exists s1, kept (with_proc p1 s) s1 /\ ms_ths s1 = ms_ths s /\ reqs s1 = requests (p_os p1) /\
    generator_main g s =
      (ret ← generator_run g; _ ← in_proc (os_call unvme_close); _ ← in_proc (pop_mem_exit lm); mret ret) s1.
Proof.
  intros E Hopen. unfold generator_main.
  assert (in_proc (pop_mem_init (pci g) 0) s = Ret (Some lm, with_proc p1 s)) as E0 by (unfold in_proc; by rewrite E).
  rewrite (bind_ret _ _ _ _ _ E0).
  destruct (quiet_unvme_open (nvme g) (p_os p1)) as (Hu1 & Hs1 & Hr1).
  destruct (kept_call (unvme_open (nvme g)) (with_proc p1 s) Hu1 Hs1) as (s1 & E1 & K1 & A1 & R1).
  rewrite (bind_ret _ _ _ _ _ E1).
  destruct (quiet_register (Some lm) (p_os (ms_proc s1))) as (Hu2 & Hs2 & Hr2).
  destruct (kept_call (unvme_register_pop_mem (Some lm)) s1 Hu2 Hs2) as (s2 & E2 & K2 & A2 & R2).
  rewrite (bind_ret _ _ _ _ _ E2). change (p_os (ms_proc (with_proc p1 s))) with (p_os p1). rewrite Hopen. simpl negb. cbv iota.
  destruct (generator_signal g s2) as (s3 & E3 & K3 & A3 & R3). exists s3.
  split; [by do 2 (etrans; [done|])|]. split; [by rewrite A3, A2, A1|].
  split; [by rewrite R3, R2, Hr2; change (requests (p_os (ms_proc s1))) with (reqs s1); rewrite R1, <- Hr1|].
  by apply bind_eq.
Qed.

(** The name of the port is refused. *)
Lemma gen_parse_refused g e s :
  (forall d (w : W), (nm_parse (port g) d w).1.1 = e) -> e <> 0 -> 1 <= ncpus g -> (0 < length (ms_ths s))%nat ->
  exists s', generator_run g s = Ret (e, s') /\ kept s s' /\ ms_caught s' = true.
Proof.
  intros He He0 Hn Hlen. destruct (gen_open_port_eq g 0 s Hlen ltac:(lia)) as (range & s1 & K1 & R1 & A1 & E1).
  unfold generator_run. rewrite seqZ_cons by lia. cbn [for_until]. change (Z.of_nat 0) with 0 in *.
  rewrite bind_assoc, (bind_eq _ _ _ _ _ E1), bind_assoc. unfold gen_nm_open at 1. change (0 =? 0) with true. cbv iota.
  destruct (parse_ok (port g) (NmDesc 0 [] 0 0) (p_os (ms_proc s1))) as (Hu & Hs & _).
  destruct (kept_call (nm_parse (port g) (NmDesc 0 [] 0 0)) s1 Hu Hs) as (s2 & E2 & K2 & A2 & _).
  rewrite bind_assoc, (bind_ret _ _ _ _ _ E2), He. replace (negb (e =? 0)) with true by lia.
  exists (Mst (ms_proc s2) (ms_ths s2) true). split; [done|]. split; [|done].
  do 2 (etrans; [done|]). split; [exists (p_os (ms_proc s2)); by destruct s2 as [[]]|done..].
Qed.

(** The second port cannot be opened. *)
Lemma gen_second_refused g s :
  nm_opens (port g) 0 -> (forall d (w : W), (nm_open (port g) (NM_OPEN_NO_MMAP W) d w).1 = None) ->
  2 <= ncpus g -> (1 < length (ms_ths s))%nat -> unj s = ∅ -> generator_run g s = Fault DanglingPtr.
Proof.
  intros Ho Hno Hn Hlen Hu.
  destruct (gen_open_ports g 1 s) as (l & s1 & E1 & Hl & [K1 _ _ Hnmd]); [intros i Hi; by replace i with 0%nat by lia|lia|lia|].
  destruct (lookup_lt_is_Some_2 l 0) as [[fl d] Eq]; [lia|].
  destruct (gen_open_port_eq g 1 s1) as (range & s2 & K2 & R2 & A2 & E2); [rewrite (kp_len _ _ K1); lia|lia|].
  destruct (Hnmd 0%nat _ Eq) as (th & Eth & Etid & Ed). simpl in Ed.
  assert (ms_ths s2 !! 0%nat = Some th) as Eth2 by (by rewrite A2, list_lookup_insert_ne).
  assert (seqZ 0 (ncpus g) = seqZ 0 (Z.of_nat 1) ++ (1 :: seqZ 2 (ncpus g - 2))) as Eseq.
  { rewrite (seqZ_cons 0), (seqZ_cons (Z.succ 0)) by lia. change (seqZ 0 (Z.of_nat 1)) with [0].
    change (Z.succ 0) with 1. change (Z.succ 1) with 2. by replace (Z.pred (Z.pred (ncpus g))) with (ncpus g - 2) by lia. }
  unfold generator_run. rewrite Eseq.
  set (w2 := (nm_open (port g) (NM_OPEN_NO_MMAP W) (one_nic (W:=W) d 1) (p_os (ms_proc s2))).2).
  rewrite (bind_ret _ _ _ (Some (-1, 1)) (Mst (with_os w2 (ms_proc s2)) (ms_ths s2) true)).
  2: { rewrite for_until_app, (bind_ret _ _ _ _ _ E1). cbn [for_until]. change (Z.of_nat 1) with 1 in E2.
       rewrite (bind_eq _ _ _ _ _ E2), bind_assoc. unfold gen_nm_open at 1. change (1 =? 0) with false. cbv iota.
       rewrite bind_assoc, (bind_ret _ _ _ _ _ (get_th_eq 0 th s2 ltac:(lia) Eth2)), Ed.
       rewrite (bind_assoc (require NullDeref (Some d))), (bind_ret (require NullDeref (Some d)) _ s2 d s2 eq_refl).
       rewrite bind_assoc, (bind_ret _ _ _ _ _ (in_proc_os_call _ s2)), Hno. reflexivity. }
  apply bind_fault. unfold gen_close. change (seqZ 0 1) with [0]. cbn [for_each]. apply bind_fault, bind_fault.
  unfold join_th. rewrite (bind_ret _ _ _ _ _ (get_th_eq 0 th (Mst (with_os w2 (ms_proc s2)) (ms_ths s2) true) ltac:(lia) Eth2)), Etid. unfold join.
  rewrite join_unknown; [done|]. change (p_os _) with w2. unfold w2.
  pose proof (open_ok (port g) (NM_OPEN_NO_MMAP W) (one_nic (W:=W) d 1) (p_os (ms_proc s2))) as Hu2.
  destruct (nm_open _ _ _ _) as [o w]. destruct Hu2 as (Hu2 & _). simpl. rewrite Hu2. change (unjoined (p_os (ms_proc s2))) with (unj s2). rewrite (kp_unj _ _ K2), (kp_unj _ _ K1), Hu. set_solver.
Qed.

(** C24: generator joins every thread and closes every port before it gives
    the memory back.  With the number of threads that its options accept, when
    the pop memory, the NVMe device, the ports and the threads can be had, either
    a [pthread_join] of a thread that [main] has created does not return, when
    all threads have been created and [caught_signal] is set if a timeout was
    given; or [main] has opened a port for ring [n] alone for every thread [n],
    has created one thread on each and one that counts, has joined all of them
    and has passed to [nm_close] exactly the descriptors that [nm_open] returned,
    each once and in order, when it reaches [unvme_close] and [pop_mem_exit];
    unless the threads have freed the memory, it returns 0. *)
Theorem generator_joins_threads g lm s p1 :
  creates W -> (forall i, nm_opens (port g) i) -> 1 <= ncpus g <= MAX_CPUS -> length (ms_ths s) = Z.to_nat MAX_CPUS ->
  pop_mem_init (pci g) 0 (ms_proc s) = Ret (Some lm, p1) -> (unvme_open (nvme g) (p_os p1)).1 = true ->
  unjoined (p_os p1) = ∅ ->
  (exists o, generator_main g s = no_return o /\
     join_stuck (negb (timeout g =? 0)) (started (p_os p1) ++ generator_log g) o) \/
  exists s' l, generator_main g s = (_ ← in_proc (os_call unvme_close); _ ← in_proc (pop_mem_exit lm); mret 0) s' /\
    unj s' = ∅ /\ st s' = started (p_os p1) ++ generator_log g /\
    reqs s' = requests (p_os p1) ++ gen_opens l ++ gen_closes l /\ length l = Z.to_nat (ncpus g) /\
    Forall (fun q => Z.land q.1 (NR_REG_MASK W) = NR_REG_ONE_NIC W) l /\
    forall m, p_mems (ms_proc s') !! lm = Some m -> exists s2, generator_main g s = Ret (0, s2).
Proof.
  intros Hcr Ho Hn Hlen E Hopen Hu. destruct (generator_starts g lm s p1 E Hopen) as (s1 & K & A & R & ->).
  assert (unj s1 = ∅) as Hu1 by (rewrite (kp_unj _ _ K); exact Hu). pose proof (kp_st _ _ K) as Hst.
  pose proof (generator_run_wp g s1 Hcr Ho Hn) as Hwp. rewrite A, R, Hst in Hwp. specialize (Hwp Hlen Hu1).
  apply (wp_cases _ _ (fun ret => _ ← in_proc (os_call unvme_close); _ ← in_proc (pop_mem_exit lm); mret ret)) in Hwp.
  destruct Hwp as [(r & s' & Et & -> & Hu2 & Hs & l & Hl & Hk & Hall)|Hstuck]; [right|left; exact Hstuck].
  exists s', l. rewrite (bind_ret _ _ _ _ _ Et). split_and!; [done..|]. intros m Hm.
  rewrite (bind_ret _ _ _ _ _ (in_proc_os_call _ s')). by eapply exit_returns.
Qed.

(** C36: a port of generator that cannot be opened.  When the name of the port
    is refused, no thread exists: the device and the memory are given back and
    the status of [nm_parse] is returned.  When the first port is opened and
    the second is not, the loop at [close] joins the thread of the first one,
    which was never created: its number is still 0, and the behaviour is
    undefined. *)
Theorem generator_port_failure g lm s p1 :
  1 <= ncpus g <= MAX_CPUS -> length (ms_ths s) = Z.to_nat MAX_CPUS ->
  pop_mem_init (pci g) 0 (ms_proc s) = Ret (Some lm, p1) -> (unvme_open (nvme g) (p_os p1)).1 = true ->
  unjoined (p_os p1) = ∅ ->
  (forall e, (forall d (w : W), (nm_parse (port g) d w).1.1 = e) -> e <> 0 ->
     exists s', generator_main g s = (_ ← in_proc (os_call unvme_close); _ ← in_proc (pop_mem_exit lm); mret e) s' /\
       unj s' = ∅ /\ st s' = started (p_os p1) /\ ms_caught s' = true) /\
  (nm_opens (port g) 0 -> (forall d (w : W), (nm_open (port g) (NM_OPEN_NO_MMAP W) d w).1 = None) -> 2 <= ncpus g ->
     generator_main g s = Fault DanglingPtr).
Proof.
  intros Hn Hlen E Hopen Hu. unfold MAX_CPUS in *. destruct (generator_starts g lm s p1 E Hopen) as (s1 & K & A & R & ->).
  assert (unj s1 = ∅) as Hu1 by (rewrite (kp_unj _ _ K); exact Hu). split.
  - intros e He He0. destruct (gen_parse_refused g e s1 He He0) as (s2 & E2 & K2 & C2); [lia|rewrite A; lia|].
    exists s2. rewrite (bind_ret _ _ _ _ _ E2), (kp_unj _ _ K2), (kp_st _ _ K2), (kp_st _ _ K). done.
  - intros Ho Hno Hn2. apply bind_fault. apply gen_second_refused; [done|done|done|rewrite A; lia|done].
Qed.
End generator_props.

(** ** bench-nvme *)

Section bench_props.
Context {W : Type} `{Posix W} `{PortsOk W} `{Unvme W} `{!UnvmeQuiet W}.
Implicit Type s : mst W () (Z * Z).
Import BenchOpt.

(** [MAX_CPU_NUM] of bench-nvme.c. *)
Definition bench_MAX_CPU_NUM : Z := 32.

Lemma bench_spawn_ok p T L log s0 s :
  creates W -> ncpus p <> 0 -> (length T < length (ms_ths s0))%nat -> spawned T L log s0 s ->
  exists t s', bench_spawn p (Z.of_nat (length T)) s = Ret ((), s') /\
    spawned (T ++ [t]) L (log ++ [(F_bench_start, Z.of_nat (length T))]) s0 s'.
Proof.
  intros Hcr Hn Hlt Hsp. unfold bench_spawn. set (n := Z.of_nat (length T)).
  destruct (lookup_lt_is_Some_2 (ms_ths s) (Z.to_nat n)) as [th Eth]; [rewrite (sp_len _ _ _ _ _ Hsp); lia|].
  assert (exists range, Lba.Bench.bench_range (split p) (lba_end p) (ncpus p) n = Ret range) as [range Er].
  { unfold Lba.Bench.bench_range. replace (ncpus p =? 0) with false by lia.
    destruct (split p =? _); [eauto|]. destruct (split p =? _); eauto. }
  rewrite (bind_ret _ _ _ _ _ (get_th_eq n th s ltac:(lia) Eth)), Er. unfold lift. unfold mbind at 1, M_bind at 1.
  rewrite (bind_ret _ _ _ _ _ (put_th_eq n th (Thr (t_tid th) n (t_nmd th) range) s ltac:(lia) Eth)).
  set (s1 := with_ths _ s).
  assert (spawned T L log s0 s1) as Hsp1.
  { apply (spawned_same T L log s0 s s1); [done|done| |by simpl; rewrite (insert_nmd _ _ th)|done].
    intros i. simpl. destruct (decide (i = Z.to_nat n)) as [->|Hne].
    - rewrite list_lookup_insert_eq by (by eapply lookup_lt_Some). by rewrite Eth.
    - by rewrite list_lookup_insert_ne. }
  destruct (spawned_create Hcr T L log s0 s1 F_bench_start Hsp1 Hlt) as (t & w & th' & _ & E2 & Hsp2).
  exists t. eexists. split; [exact E2|exact Hsp2].
Qed.

(** The threads it creates. *)
Definition bench_log (p : bench_param) : list (thread_fn * Z) :=
  ((fun n => (F_bench_start, n)) <$> seqZ 0 (ncpus p)) ++ [(F_count, 0)].

Lemma bench_threads_wp p s :
  creates W -> 1 <= ncpus p <= bench_MAX_CPU_NUM -> length (ms_ths s) = Z.to_nat bench_MAX_CPU_NUM -> unj s = ∅ ->
  wp (join_stuck (negb (time p =? 0)) (st s ++ bench_log p)) (bench_threads p) s (fun _ s' => unj s' = ∅ /\
    st s' = st s ++ bench_log p).
Proof.
  intros Hcr Hn Hlen Hu. unfold bench_threads, bench_log, bench_MAX_CPU_NUM in *.
  rewrite <- (Z2Nat.id (ncpus p)) by lia. set (k := Z.to_nat (ncpus p)).
  destruct (spawn_loop (fun _ => True) 0 (fun n => [(F_bench_start, n)]) (bench_spawn p) k s)
    as (T & L & s1 & E1 & HT & HL & Hsp & _); [|done|].
  { intros T L log s1 Hsp _ Hlt. destruct (bench_spawn_ok p T L log s s1 Hcr) as (t & s2 & E & Hsp2); [lia|lia|done|].
    apply (wp_Ret _ _ _ _ _ _ E). by exists t, []. }
  destruct L; [|done]. rewrite join_singletons in Hsp. apply wp_bind, (wp_Ret _ _ _ _ _ _ E1).
  destruct (count_created Hcr (time p) (fun rtid => _ ← join_all (Z.of_nat k); join rtid) T [] _ s s1 Hsp)
    as (v & s0' & s2 & E & Hsp2 & Hu0 & Hs0 & Hr0 & _ & Hc).
  unfold wp. rewrite E.
  destruct (join_both (negb (time p =? 0)) _ join_all v T [] _ _ s2 join_all_joins Hsp2 Hc) as [_ Hj].
  rewrite HT, (sp_st _ _ _ _ _ Hsp2), Hs0 in Hj.
  eapply wp_mono; [|exact Hj]. intros [] s3 [[_ _ C _ _] Hu3].
  rewrite Hu3, C, (sp_st _ _ _ _ _ Hsp2), Hu0, Hs0, Hu. split; [set_solver|done].
Qed.

(** Bench-nvme waits for every thread before it closes the device.  With
    a number of threads that fits its array, when the handler, the pop memory
    and the threads can be had, it creates one benchmark thread per processor and
    one that reports, and reaches [unvme_close] and [pop_mem_exit] with no thread
    left, unless a [pthread_join] of one of them does not return.  A
    handler that cannot be set up, or no device, ends it with -1 and without any
    thread. *)
Theorem bench_joins_threads p s :
  creates W -> 1 <= ncpus p <= bench_MAX_CPU_NUM -> length (ms_ths s) = Z.to_nat bench_MAX_CPU_NUM -> unj s = ∅ ->
  let '(ok, w) := signal_SIGINT (p_os (ms_proc s)) in
  (ok = false \/ nvme p = None ->
     exists s', bench_main p s = Ret (-1, s') /\ unj s' = ∅ /\ st s' = st s) /\
  (forall lm p1, ok = true -> nvme p <> None ->
     pop_mem_init (p2p p) 0 (with_os (unvme_open (nvme p) w).2 (ms_proc s)) = Ret (Some lm, p1) ->
     unjoined (p_os p1) = ∅ ->
     (exists o, bench_main p s = no_return o /\
        join_stuck (negb (time p =? 0)) (started (p_os p1) ++ bench_log p) o) \/
     exists s', bench_main p s = (_ ← in_proc (os_call unvme_close); _ ← in_proc (pop_mem_exit lm); mret 0) s' /\
       unj s' = ∅ /\ st s' = started (p_os p1) ++ bench_log p).
Proof.
  intros Hcr Hn Hlen Hu. destruct (signal_SIGINT (p_os (ms_proc s))) as [ok w] eqn:Es.
  destruct (signal_ok (p_os (ms_proc s))) as [Hsu Hss].
  unfold bench_main. rewrite (bind_ret _ _ _ _ _ (in_proc_os_call signal_SIGINT s)). rewrite Es in *. simpl fst. simpl snd.
  simpl in Hsu, Hss. split.
  - intros Hbad. exists (with_proc (with_os w (ms_proc s)) s). split; [|split; [exact (eq_trans Hsu Hu)|exact Hss]].
    destruct Hbad as [-> | ->]; [done|]. by destruct ok.
  - intros lm p1 -> Hnv E Hu1. destruct (nvme p) as [dev|]; [|done]. change (negb (true, w).1) with false. cbv iota.
    rewrite (bind_ret _ _ _ _ _ (in_proc_os_call _ _)). simpl.
    set (s1 := with_proc _ _). assert (in_proc (pop_mem_init (p2p p) 0) s1 = Ret (Some lm, with_proc p1 s1)) as E1.
    { unfold in_proc. unfold s1 at 1. simpl. replace (with_os _ (with_os w (ms_proc s))) with
        (with_os (unvme_open (Some dev) w).2 (ms_proc s)) by (by destruct (ms_proc s)). by rewrite E. }
    rewrite (bind_ret _ _ _ _ _ E1).
    destruct (quiet_register (Some lm) (p_os p1)) as (Hu2 & Hs2 & Hr2).
    destruct (kept_call (unvme_register_pop_mem (Some lm)) (with_proc p1 s1) Hu2 Hs2) as (s2 & E2 & K2 & A2 & _).
    rewrite (bind_ret _ _ _ _ _ E2). assert (unj s2 = ∅) as Hu' by (rewrite (kp_unj _ _ K2); exact Hu1).
    pose proof (bench_threads_wp p s2 Hcr Hn) as Hwp. rewrite A2, (kp_st _ _ K2) in Hwp. specialize (Hwp Hlen Hu').
    apply (wp_cases _ _ (fun _ => _ ← in_proc (os_call unvme_close); lm ← require NullDeref (Some lm);
      _ ← in_proc (pop_mem_exit lm); mret 0)) in Hwp.
    destruct Hwp as [([] & s' & Et & Hu3 & Hs)|Hstuck]; [right|left; exact Hstuck].
    exists s'. by rewrite (bind_ret _ _ _ _ _ Et).
Qed.
End bench_props.

(** ** Receiving on every processor *)

Lemma nmgen_rx_online online os g :
  NmgenOpt.nmgen_main_opts online os = inr g -> NmgenOpt.mode g = NmgenOpt.MODE_RX -> NmgenOpt.ncpus g = online.
Proof.
  unfold NmgenOpt.nmgen_main_opts. destruct (run_opts _ _ _) as [e|c]; [done|]. destruct c. simpl.
  destruct port as [x|]; [|done]. destruct (Z.eqb_spec mode NmgenOpt.MODE_RX); intros [= <-]; simpl; congruence.
Qed.

Lemma nvgen_rx_online online os g :
  NvgenOpt.nvgen_main_opts online os = inr g -> NvgenOpt.mode g = 1 -> NvgenOpt.ncpus g = online.
Proof.
  unfold NvgenOpt.nvgen_main_opts. destruct (run_opts _ _ _) as [e|c]; [done|]. destruct c. simpl.
  destruct port as [x|]; [|done]. destruct nvme as [y|]; [|done]. destruct (_ <? _); [done|].
  destruct (Z.eqb_spec mode 1); intros [= <-]; simpl; congruence.
Qed.

Section rx.
Context {W : Type} `{PortsOk W} `{Unvme W}.

(** C37: receiving on a machine with more than 32 processors.  The options -n
    of nmgen and nvgen refuse more threads than the array [ths] has elements, but
    the receiving mode then takes the number of online processors: unless an
    earlier port cannot be opened, [main] clears the element behind the array,
    before any thread exists. *)
Theorem rx_overruns_threads online os :
  clones W -> NmgenOpt.MAX_CPU_NUM < online ->
  (forall g (s : mst W nmport_d ()), NmgenOpt.nmgen_main_opts online os = inr g -> NmgenOpt.mode g = NmgenOpt.MODE_RX ->
     length (ms_ths s) = Z.to_nat NmgenOpt.MAX_CPU_NUM ->
     (exists s', nmgen_threads g s = Ret (Some (-1), s') /\ st s' = st s) \/ nmgen_threads g s = Fault OutOfBounds) /\
  (forall g lm (s : mst W nmport_d nvgen_thread), NvgenOpt.nvgen_main_opts online os = inr g -> NvgenOpt.mode g = 1 ->
     length (ms_ths s) = Z.to_nat NvgenOpt.MAX_CPU_NUM ->
     (exists s', nvgen_threads g lm s = Ret (Some (-1), s') /\ st s' = st s) \/ nvgen_threads g lm s = Fault OutOfBounds).
Proof.
  unfold NmgenOpt.MAX_CPU_NUM, NvgenOpt.MAX_CPU_NUM. intros Hcl Hon. split.
  - intros g s Hg Hm Hlen. pose proof (nmgen_rx_online _ _ _ Hg Hm) as En. unfold nmgen_threads.
    destruct (signal_ok (p_os (ms_proc s))) as [Hsu Hss].
    destruct (kept_call signal_SIGINT s Hsu Hss) as (s1 & E1 & K1 & A1 & _). rewrite (bind_ret _ _ _ _ _ E1).
    destruct (signal_SIGINT _).1; [change (negb true) with false; cbv iota|left; exists s1; split; [done|apply K1]].
    destruct (ports_overrun (NmgenOpt.port g) () Hcl (NmgenOpt.ncpus g) s1) as [(s2 & E2 & K2)|E2];
      [rewrite A1; lia|left; exists s2; rewrite (bind_ret _ _ _ _ _ E2), (kp_st _ _ K2), (kp_st _ _ K1); done
      |right; by apply bind_fault].
  - intros g lm s Hg Hm Hlen. pose proof (nvgen_rx_online _ _ _ Hg Hm) as En. unfold nvgen_threads, nvgen_open_ports.
    destruct (signal_ok (p_os (ms_proc s))) as [Hsu Hss].
    destruct (kept_call signal_SIGINT s Hsu Hss) as (s1 & E1 & K1 & A1 & _). rewrite (bind_ret _ _ _ _ _ E1).
    destruct (signal_SIGINT _).1; [change (negb true) with false; cbv iota|left; exists s1; split; [done|apply K1]].
    destruct (ports_overrun (NvgenOpt.port g) nvgen_thread0 Hcl (NvgenOpt.ncpus g) s1) as [(s2 & E2 & K2)|E2];
      [rewrite A1; lia|left; exists s2; rewrite (bind_ret _ _ _ _ _ E2), (kp_st _ _ K2), (kp_st _ _ K1); done
      |right; by apply bind_fault].
Qed.
End rx.

(** ** An implementation *)

(** The files, the memory and the disk of [sto_os], with threads that end as
    soon as they are joined.  An empty name stands for a device with one ring. *)
Record app_os : Type := AppOs {
  ao_sto : sto_os; ao_tids : list Z; ao_started : list (thread_fn * Z); ao_reqs : list port_event
}.

Definition ao_lift {A : Type} (f : sto_os -> A * sto_os) (w : app_os) : A * app_os :=
  let '(a, x) := f (ao_sto w) in (a, AppOs x (ao_tids w) (ao_started w) (ao_reqs w)).

#[export] Instance app_posix : Posix app_os := {|
  sys_open path := ao_lift (sys_open path);
  sys_close fd := ao_lift (sys_close fd);
  sys_read fd n := ao_lift (sys_read fd n);
  sys_lseek fd off := ao_lift (sys_lseek fd off);
  sys_ioctl fd cmd r := ao_lift (sys_ioctl fd cmd r);
  sys_mmap len flags fd off := ao_lift (sys_mmap len flags fd off);
  sys_pagesize := 4096
|}.

#[export] Instance app_unvme : Unvme app_os := {
  un_blocksize := 4096;
  un_blockshift := 12;
  unvme_aread q buf lba n := ao_lift (unvme_aread q buf lba n);
  unvme_awrite q buf lba n := ao_lift (unvme_awrite q buf lba n);
  unvme_apoll d := ao_lift (unvme_apoll d);
  unvme_write q buf lba n := ao_lift (unvme_write q buf lba n);
  unvme_open name := ao_lift (unvme_open name);
  unvme_register_pop_mem mem := ao_lift (unvme_register_pop_mem mem);
  unvme_close := ao_lift unvme_close
}.

(** A number above those in use. *)
Definition next_tid (l : list Z) : Z := 1 + foldr Z.max 0 l.

Lemma next_tid_fresh l : next_tid l <> 0 /\ next_tid l ∉ l.
Proof.
  assert (0 <= foldr Z.max 0 l /\ forall x, x ∈ l -> x <= foldr Z.max 0 l) as [H1 H2].
  { induction l as [|a l [I1 I2]]; simpl; [split; [lia|intros x Hx; by apply not_elem_of_nil in Hx]|].
    split; [lia|]. intros x [->|Hx]%elem_of_cons; [lia|]. specialize (I2 x Hx). lia. }
  unfold next_tid. split; [lia|]. intros Hx. specialize (H2 _ Hx). lia.
Qed.

#[export] Instance app_pthreads : Pthreads app_os := {
  signal_SIGINT w := (true, w);
  pthread_create f a w :=
    let t := next_tid (ao_tids w) in
    (Some t, AppOs (ao_sto w) (t :: ao_tids w) (ao_started w ++ [(f, a)]) (ao_reqs w));
  pthread_join _ t s :=
    let w := p_os s in
    if bool_decide (t ∈ ao_tids w)
    then Ret (false, with_os (AppOs (ao_sto w) (filter (fun x => x <> t) (ao_tids w)) (ao_started w) (ao_reqs w)) s)
    else Fault DanglingPtr
}.

#[export] Instance app_ports : Ports app_os := {
  NR_REG_MASK := 0xf; NR_REG_ONE_NIC := 4;
  NM_OPEN_NO_MMAP := 0x40000; NM_OPEN_IFNAME := 0x80000; NM_OPEN_ARG1 := 0x100000; NM_OPEN_ARG2 := 0x200000;
  NM_OPEN_ARG3 := 0x400000; NM_OPEN_RING_CFG := 0x800000;
  nmport_prepare port w := (const (NmportD 0 0 0) <$> port, w);
  nmport_clone d w := (Some d, w);
  nmport_open_desc d w :=
    ((0, d), AppOs (ao_sto w) (ao_tids w) (ao_started w) (ao_reqs w ++ [Registered (reg_nr_mode d) (reg_nr_ringid d)]));
  nm_parse port d w := ((match port with Some _ => 0 | None => -1 end, d), w);
  nm_open port fl d w :=
    let o := if bool_decide (port = Some [] /\ fl = 0x40000) then None else Some d in
    (o, AppOs (ao_sto w) (ao_tids w) (ao_started w) (ao_reqs w ++ [Opened (req_nr_flags d) (req_nr_ringid d) o]));
  nm_close d w := (0, AppOs (ao_sto w) (ao_tids w) (ao_started w) (ao_reqs w ++ [Closed d]))
}.

#[export] Program Instance app_pthreads_ok : PthreadsOk app_os := {
  unjoined w := list_to_set (ao_tids w); started := ao_started
}.
Next Obligation. done. Qed.
Next Obligation. intros f a w. simpl. destruct (next_tid_fresh (ao_tids w)). split; [done|]. set_solver. Qed.
Next Obligation.
  intros c t s b s' Ht. simpl in *. rewrite bool_decide_true by set_solver. intros [= <- <-]. simpl. split; [|done].
  apply set_eq. intros x. rewrite elem_of_difference, elem_of_singleton, !elem_of_list_to_set, list_elem_of_filter. tauto.
Qed.
Next Obligation. intros c t s Ht. simpl in *. by rewrite bool_decide_false by set_solver. Qed.

#[export] Program Instance app_ports_ok : PortsOk app_os := { requests := ao_reqs }.
Next Obligation. reflexivity. Qed.
Next Obligation. done. Qed.
Next Obligation. intros d w. simpl. split; [by intros d' [= <-]|done]. Qed.
Next Obligation. done. Qed.
Next Obligation. done. Qed.
Next Obligation. done. Qed.
Next Obligation. done. Qed.
Next Obligation. done. Qed.
Next Obligation. done. Qed.
Next Obligation. intros c t s b s'. simpl. destruct (bool_decide _); [by intros [= <- <-]|done]. Qed.

#[export] Instance app_quiet : UnvmeQuiet app_os.
Proof. by split. Qed.

(** Programs with two threads and a timeout on the pop memory of a device. *)
Definition app_slot : option cstr := Some (lit "17:00.0").
Definition app_proc : proc app_os := Proc ∅ ∅ ∅ ∅ 1%positive [] 0 0 (AppOs sto0 [] [] []).
Definition app_init : proc app_os :=
  match pop_mem_init app_slot 0 app_proc with Ret (_, p) => p | _ => app_proc end.

Definition app_mem : pop_mem := default mem0 (p_mems app_init !! (1%positive : loc)).

Definition app_start {P X : Type} (own0 : X) : mst app_os P X :=
  Mst app_proc (replicate 32 (Thr None 0 None own0)) false.

Definition nmgen_app : NmgenOpt.nmgen :=
  NmgenOpt.Nmgen (Some (lit "netmap:eth0")) app_slot 0 60 2 1 5 [10; 0; 10; 1] [10; 0; 10; 2] (replicate 6 255) (replicate 6 0).
Definition nvgen_app (mode : Z) : NvgenOpt.nvgen :=
  NvgenOpt.Nvgen app_slot mode 2 (Some (lit "netmap:eth0")) 1 (Some (lit "05:00.0")) 1 0 0 4096 5.
Definition generator_app (port : option cstr) : GeneratorOpt.generator :=
  GeneratorOpt.Gen app_slot (Some (lit "05:00.0")) port 2 1 1 0 0 4096 0 0 0 0 5 1.
Definition bench_app : BenchOpt.bench_param :=
  BenchOpt.Bench false 0 0 4096 1 2 5 (Some (lit "05:00.0")) app_slot 4096 0.

Lemma app_init_eq : pop_mem_init app_slot 0 app_proc = Ret (Some (1%positive : loc), app_init).
Proof. vm_compute. reflexivity. Qed.

Lemma app_init_heap : heap_ok 1%positive app_init.
Proof.
  exists app_mem. split; [vm_compute; reflexivity|]. split; [apply mem_okb_ok; vm_compute; reflexivity|].
  split; vm_compute; reflexivity.
Qed.

Lemma app_init_alone : unjoined (p_os app_init) = ∅ /\ started (p_os app_init) = [] /\ requests (p_os app_init) = [].
Proof. split; [|split]; vm_compute; reflexivity. Qed.

Lemma app_creates : creates app_os.
Proof. done. Qed.
Lemma app_clones : clones app_os.
Proof. done. Qed.

(** The status of a program, for the branches that a witness rules out. *)
Definition status {St : Type} (o : outcome (Z * St)) : option Z :=
  match o with Ret (r, _) => Some r | _ => None end.

(** A program that returns this status has not been stuck in a join. *)
Lemma not_stuck {St : Type} (o : outcome (Z * St)) r f : status o = Some r -> o <> no_return f.
Proof. intros H ->. by destruct f. Qed.

Lemma nmgen_joins_threads_witness :
  exists s', nmgen_main nmgen_app (app_start ()) = (_ ← in_proc (pop_mem_exit 1%positive); mret 0) s' /\
    unj s' = ∅ /\ st s' = [(F_nmgen_sender, 0); (F_nmgen_sender, 1); (F_count, 0)] /\
    exists r0, reqs s' = [Registered 4 r0; Registered 4 1].
Proof.
  assert (status (nmgen_main nmgen_app (app_start ())) = Some 0) as Hx by (vm_compute; reflexivity).
  destruct (nmgen_joins_threads nmgen_app 1%positive (app_start ()) app_init app_creates app_clones)
    as [(o & H & _)|[(s' & H & _)|(s' & r0 & H)]];
    [vm_compute; discriminate|reflexivity|by left|exact app_init_eq|apply app_init_alone|..].
  - destruct (not_stuck _ _ _ Hx H).
  - rewrite H in Hx. discriminate Hx.
  - exists s'. destruct H as (H1 & H2 & H3 & H4 & _). split; [exact H1|]. split; [exact H2|].
    destruct app_init_alone as (_ & E1 & E2). rewrite H3, H4, E1, E2. split; [reflexivity|].
    by exists r0.
Defined.

Lemma nvgen_leaves_threads_witness :
  exists s', nvgen_main (nvgen_app 0) (app_start nvgen_thread0) = (_ ← in_proc (pop_mem_exit 1%positive); mret 0) s' /\
    size (unj s') = 2%nat.
Proof.
  assert (status (nvgen_main (nvgen_app 0) (app_start nvgen_thread0)) = Some 0) as Hx by (vm_compute; reflexivity).
  destruct (nvgen_leaves_threads (nvgen_app 0) 1%positive (app_start nvgen_thread0) app_init app_creates app_clones)
    as [(o & H & _)|[(s' & H & _)|(s' & H)]];
    [vm_compute; discriminate|reflexivity|by left|exact app_init_eq|exact app_init_heap|apply app_init_alone|..].
  - destruct (not_stuck _ _ _ Hx H).
  - rewrite H in Hx. discriminate Hx.
  - exists s'. destruct H as (H1 & H2 & _). split; [exact H1|exact H2].
Defined.

Lemma app_opens i : nm_opens (W:=app_os) (Some (lit "eth0")) i.
Proof. destruct i; [split; [done|]|]; intros d w; discriminate. Qed.

Lemma generator_joins_threads_witness :
  exists s' q0 q1, generator_main (generator_app (Some (lit "eth0"))) (app_start (0, 0)) =
      (_ ← in_proc (os_call unvme_close); _ ← in_proc (pop_mem_exit 1%positive); mret 0) s' /\
    unj s' = ∅ /\ st s' = [(F_generator_body, 0); (F_generator_body, 1); (F_count, 0)] /\
    reqs s' = [Opened q0.1 0 (Some q0.2); Opened q1.1 1 (Some q1.2); Closed (Some q0.2); Closed (Some q1.2)].
Proof.
  set (g := generator_app (Some (lit "eth0"))).
  assert (status (generator_main g (app_start (0, 0))) = Some 0) as Hx by (vm_compute; reflexivity).
  destruct (generator_joins_threads g 1%positive (app_start (0, 0)) app_init app_creates)
    as [(o & H & _)|(s' & l & H1 & H2 & H3 & H4 & H5 & _)];
    [exact app_opens|vm_compute; split; discriminate|reflexivity|exact app_init_eq|vm_compute; reflexivity
    |apply app_init_alone|destruct (not_stuck _ _ _ Hx H)|].
  destruct app_init_alone as (_ & E1 & E2). rewrite E1 in H3. rewrite E2 in H4.
  destruct l as [|q0 [|q1 [|]]]; try discriminate H5. exists s', q0, q1. by split_and!.
Defined.

Lemma generator_port_failure_witness :
  (exists s', generator_main (generator_app None) (app_start (0, 0)) =
      (_ ← in_proc (os_call unvme_close); _ ← in_proc (pop_mem_exit 1%positive); mret (-1)) s' /\ st s' = []) /\
  generator_main (generator_app (Some [])) (app_start (0, 0)) = Fault DanglingPtr.
Proof.
  split.
  - destruct (generator_port_failure (generator_app None) 1%positive (app_start (0, 0)) app_init) as [H _];
      [vm_compute; split; discriminate|reflexivity|exact app_init_eq|vm_compute; reflexivity|apply app_init_alone|].
    destruct (H (-1)) as (s' & H1 & _ & H2 & _); [reflexivity|discriminate|].
    exists s'. split; [exact H1|]. rewrite H2. apply app_init_alone.
  - destruct (generator_port_failure (generator_app (Some [])) 1%positive (app_start (0, 0)) app_init) as [_ H];
      [vm_compute; split; discriminate|reflexivity|exact app_init_eq|vm_compute; reflexivity|apply app_init_alone|].
    apply H; [split; [reflexivity|discriminate]|reflexivity|vm_compute; discriminate].
Defined.

Lemma bench_joins_threads_witness :
  exists s', bench_main bench_app (app_start (0, 0)) =
      (_ ← in_proc (os_call unvme_close); _ ← in_proc (pop_mem_exit 1%positive); mret 0) s' /\
    unj s' = ∅ /\ st s' = [(F_bench_start, 0); (F_bench_start, 1); (F_count, 0)].
Proof.
  pose proof (bench_joins_threads bench_app (app_start (0, 0)) app_creates) as [_ H];
    [vm_compute; split; discriminate|reflexivity|reflexivity|].
  assert (status (bench_main bench_app (app_start (0, 0))) = Some 0) as Hx by (vm_compute; reflexivity).
  destruct (H 1%positive app_init eq_refl) as [(o & H1 & _)|(s' & H1 & H2 & H3)];
    [discriminate|exact app_init_eq|apply app_init_alone|destruct (not_stuck _ _ _ Hx H1)|].
  exists s'. split; [exact H1|]. split; [exact H2|]. rewrite H3, (proj1 (proj2 app_init_alone)). reflexivity.
Defined.

(** The receiving mode of nmgen on 33 processors. *)
Lemma rx_overruns_threads_witness :
  exists g, NmgenOpt.nmgen_main_opts 33 [arg "p" "netmap:eth0"; arg "m" "rx"] = inr g /\
    nmgen_threads g (app_start ()) = Fault OutOfBounds.
Proof.
  destruct (rx_overruns_threads (W:=app_os) 33 [arg "p" "netmap:eth0"; arg "m" "rx"] app_clones) as [H _]; [done|].
  eexists. split; [reflexivity|].
  destruct (H _ (app_start ()) eq_refl eq_refl eq_refl) as [(s' & E & _)|E]; [|exact E].
  exfalso. match type of E with ?c = _ =>
    assert (match c with Fault _ => true | _ => false end = true) as Hx by (vm_compute; reflexivity) end.
  rewrite E in Hx. discriminate.
Defined.
